(* ===== verification/_CoqProject ===== *)
-Q . S2P
Prelude.v
Orderbook.v
PendingFill.v
TryFill.v
MatchSpec.v
Asset.v
Trading.v
Json.v
Codec.v
Accounting.v
Tables.v
World.v
Http.v
AppCx.v
UserCx.v
BitcoinClient.v
Deposits.v
Auth.v
Handlers.v
Server.v
Credits.v
Reservations.v
Balances.v
Engine.v
Config.v
Rpc.v
RpcMethods.v
Proxy.v
Startup.v
Entry.v
Sends.v
Exchange.v
Answers.v
Progress.v
Cli.v
DepositPath.v
OrderPath.v
