(* ===== verification/Prelude.v ===== *)
(** * A verified model of the exchange

    A model, in Rocq, of the Rust program under src/exchange/src: a spot
    exchange with an in-memory limit order book, an event-sourced trading
    engine, a double-entry journal in PostgreSQL, a web interface with users and
    sessions, and a client of a bitcoin node.

    ** The program

    A request of the web interface ([web/]) goes through the routing table and,
    where the route is protected, the session check; its handler works on the
    application context ([app_cx.rs]), which queries the database and talks to
    the trading engine. To place an order the context reserves the user's funds
    in the journal and sends the order to the engine
    ([spawn_trading_engine.rs]): one task that takes commands from a channel,
    executes them on its order books ([trading/]), writes them to an event log,
    and answers through a oneshot channel; at start-up it replays the log. A
    request that is not answered with a placed order gives its reservation back.
    Deposits are read from a bitcoin node through the gRPC proxy
    ([bitcoin/mod.rs]), which is a client of the node's JSON-RPC interface
    ([bitcoin/rpc.rs]), and are entered in the journal whenever a balance is
    asked for.

    ** The files

    The core:

    - [Prelude] (this file): results and panics, machine integers, vectors and
      binary search, and the list lemmas the components share.
    - [Orderbook] (trading/orderbook.rs): orders, price levels (sorted vectors
      of sequence-numbered orders), [push_bid], [push_ask], [remove],
      [get_mut], [iter_rel]. A [&mut Order] is the order and the function that
      writes it back ([MutRef]).
    - [PendingFill] (trading/pending_fill.rs): a proposed fill and its commit.
    - [TryFill] (trading/try_fill_order.rs): the matching loop, and the greedy
      matching it computes.
    - [MatchSpec]: the abstract contract, on lists of (price, quantity):
      [spec_match], [spec_insert], [spec_place]. It is not a translation of
      code; it is what the code is held to.
    - [Asset] (asset.rs): assets, their names and the asset table.
    - [Trading] (trading/mod.rs, timeinforce.rs, self_trade_protection.rs):
      orders, commands, errors, [do_place_order], [do_cancel_order].
    - [Json], [Codec]: the JSON of a command as the serde attributes give it,
      and the interface ([EventCodec], with its laws) the engine needs of it.
    - [Engine] (spawn_trading_engine.rs): the supervisor's loop, the logging
      macro, the replay at start-up.

    The database and what runs on it:

    - [Accounting] (the migrations 0004, 0006, 0007 and the SQL on their
      tables): the journal, its constraints, balances, reservations, reverts.
    - [Tables] (the migrations 0001, 0003, 0005 and the SQL on their tables):
      users, addresses, sessions.
    - [World]: the state requests share - both of the above, the engine's
      channel, the clock, pending faults - and programs of atomic steps on it.
    - [AppCx] (app_cx.rs, app_cx/, web/trade_add_order.rs): orders and
      reservations, and the handler that places an order.
    - [UserCx] (app_cx.rs, password.rs): logins, sessions, users, addresses,
      balances.
    - [BitcoinClient] (bitcoin/client.rs, the messages of bitcoin_rpc.proto) and
      [Deposits] ([update_user_accounts] of app_cx.rs).

    The web interface and the process:

    - [Http] (web/mod.rs, web/middleware/mod.rs): responses, the forwarded
      address. [Auth] (web/middleware/auth.rs): the session check. [Handlers]
      (web/): every other handler.
    - [Server] (web/mod.rs): the routing table, and any number of requests
      running side by side: [thread_step] is a step of a request or of a task,
      [server_step] also lets the rest of the program move.
    - [Config] (config.rs): the configuration and where its values come from.
    - [Startup] (lib.rs, signal.rs, jinja.rs, [serve] of web/mod.rs): connecting,
      replaying, waiting, shutting down.
    - [Entry] (bin/exchange.rs, bin/bitcoind-grpc.rs, [start_grpc_proxy] of
      bitcoin/mod.rs): the two processes.

    The whole at work:

    - [Credits]: a logic for programs that share the world and owe one another
      parts of a quantity of it; not a translation of code.
    - [Reservations]: what every request and every spawned task does to a value
      of the journal and to the cost of what is in the engine's channel.
    - [Balances]: the value that bounds the balance of a user.
    - [Exchange]: the requests, the tasks and the engine on one channel of
      bounded capacity ([exchange_step]), and the value that bounds the books.
    - [Sends]: how many commands a program sends.
    - [Progress]: that the exchange comes to rest.
    - [Answers]: the exchange with clients that wait for the reply to their own
      command ([market_step], which is an [exchange_step] when the tickets are
      forgotten), and what that means for the reservations.
    - [OrderPath]: the way of one order through [Auth], [AppCx], the engine and
      its log, and back to the client.

    The bitcoin node:

    - [Rpc], [RpcMethods] (bitcoin/rpc.rs): request programs, default
      arguments, and every method of the client.
    - [Proxy] (bitcoin/mod.rs): the two calls of the gRPC proxy.
    - [Cli] (bin/bitcoind-cli.rs): the commands of the command line.
    - [DepositPath]: the way of a deposit through [RpcMethods], [Proxy],
      [BitcoinClient] and [Deposits] put together.

    ** Conventions

    A handler of the engine takes the state it works on and gives it back with
    its result. [result] is Rust's [Result]; [outcome] adds panics, so a theorem
    that ends in [Return] also says that nothing panicked. A [u32] is a [Z] with
    its range as a predicate ([u32], [nz_u32]) and its arithmetic as functions
    ([u32_add], [u32_sub]) whose overflow depends on the build
    ([BuildProfile]): the theorems hold for both profiles unless they name one.

    An async method is a program ([World.prog]) whose steps are what can be
    interleaved: a query, a send, a look at the clock. Running it alone
    ([exec]), beside others ([Server.server_step]), and dropping it at any step,
    when the destructors of its live guards run, are functions of the program. A
    step that leaves the process can fail before or after it has had its effect
    ([Fault]); writes inside a transaction are invisible until it commits.
    Invariants of programs are proved with three small logics: [World.guar]
    bounds what every step may do to the world, of a program that leaves nothing
    behind when it is dropped; [World.keeps] carries an invariant through a
    program; and [Credits.pays] lets a program hold a part of a quantity of the
    world that it has brought in, and spend no more than that - its rules are
    proved once, for any [Economy], and [Reservations] applies them to all
    requests for any sound [Valuation] of journal and channel, so that a
    conservation law of the running system is proved by giving a valuation. A
    method of the bitcoin client is a program of requests ([Rpc.rpc]).

    What the world decides - the uuid drawn, the database's answer to the
    engine's INSERT, the answers of the node, the schedule, the clock - is an
    argument or an event. What a crate computes - password hashes, JSON text of
    crate types, IP addresses, templates, TOML - is a class with the laws the
    code relies on, and each theorem that uses laws has a witness with a
    concrete instance. No fuel is needed: the loops run over lists, or, for
    binary search, over the length of the interval.

    ** What is proved

    - The book. An index addresses the book like the key of a finite map, a push
      inserts in price-time order under a fresh index, iteration is in that
      order ([orderbook_refines_map], [push_inserts_fresh],
      [iter_rel_price_time]); and the limits of the indices: they are reused
      when a level empties, and the sequence number of a long-lived level
      overflows ([order_index_reused], [memo_seq_wraps]).
    - Matching. The loop proposes the greedy price-time matching, and commit
      executes it; a stale proposal is refused whole
      ([try_fill_price_time_priority], [commit_executes_proposal],
      [commit_rejects_stale_index]).
    - Orders. [do_place_order] implements the contract of [MatchSpec]
      ([place_order_refines]), and with it: conservation of quantity, the
      uncrossed book, fill-or-kill, immediate-or-cancel, the accounting of the
      result. Cancels: one removes exactly its order, two panic.
    - The engine. It never panics and keeps its books well formed and uncrossed
      for as many commands as a [u32] counts ([engine_never_panics]; the bound
      is that of the sequence numbers); replaying the log restores the books
      ([restart_restores_books], with the codec's laws discharged in [Codec]);
      the process shuts down unless its engine has been suspended
      ([shutdown_returns]); and what goes wrong: a failed INSERT leaves books
      and log apart, a suspended engine stays suspended, no cancel ever finds
      its order.
    - The journal and reservations. As the migrations of the repository stand,
      no reservation succeeds: 0007 forbids the row it writes
      ([deployed_orders_never_placed]), so that dropped and interleaved requests
      change nothing. What the statement does with the schema before 0007, for
      which it is written: a reservation taken alone takes exactly its funds, a
      revert gives exactly them back, the handler reverts exactly when the order
      is not placed; a request dropped in between does not ([dropped_request]);
      two interleaved reservations can overdraw an account
      ([concurrent_reserves_overdraw]). The theorems about the running system
      hold for both schemas.
    - The server. With any number of requests in any interleaving, dropped at
      any step, with failing queries, every state satisfies the tables'
      constraints, balances add up to zero, no chain transaction is entered
      twice and no account is opened ([server_keeps_books]); so a fresh exchange
      never moves money ([fresh_exchange_is_inert]). Behind the session check
      nothing happens without a session ([session_required]), with one anyone can delete anyone
      ([any_session_deletes_anyone]).
    - The system at work. Whatever interleaves, fails or is dropped, nobody's
      balance rises by more than was deposited for it
      ([balance_backed_by_deposits]); what rests in the books, what has been
      traded and what is in the channel has been reserved
      ([books_backed_by_reservations]), and stays reserved as long as no request
      is dropped while it waits and no INSERT of the engine fails
      ([orders_stay_reserved]; that either does harm is shown by
      [dropped_order_unbacked] and [unlogged_order_unbacked]); and behind the server the engine keeps
      running with good books, answers every command, and can be shut down,
      as no request sends anything that suspends it ([served_engine_is_safe]).
      When no more requests come, all of it comes to rest
      ([exchange_quiesces]). An order alone goes its whole way: the book, the
      log, the answer and the balance are those the contract prescribes
      ([order_reaches_book]).
    - Users and deposits. Logins check the password, a session lasts its hour
      and ends with its logout, the balances shown are those of the journal
      ([user_balance_spec]), the import of deposits adds all the node has listed
      or nothing, whatever fails, and enters every new transaction once, and what the node reports in satoshis is what
      the wallet is credited ([login_checks_password], [session_lifecycle],
      [deposits_atomic], [deposits_imported_once], [deposits_reach_wallet]).
    - The bitcoin client. [handle_defaults] does what its comment says, and no
      method of the client panics, but one for one combination of arguments
      ([client_methods_never_panic]); every command of the command line asks the
      call it is named after, but three ([command_asks_node]).
    - The configuration and the processes: which variable each field reads
      ([configuration_sources]), and that the exchange, unlike the proxy, panics
      without a .env file ([processes_start]).

    ** What is not modelled

    Transport, tasks and sockets, and with them [new_grpc], which only connects;
    how axum matches paths and extracts arguments, static files, compression and
    tracing; the rendering of templates; the end of the engine while requests
    wait (in [Answers] the engine runs on; when the process is told to stop, it
    works off its channel first); web/create_api_key.rs and
    web/middleware/msgpack.rs, which no module includes; the build script and
    the tests. Of the representation of commands, only the shapes that are
    written are read back (serde also accepts a struct as an array). Of the
    database, the isolation of concurrent transactions is the one PostgreSQL
    gives by default as far as the statements of the program can tell: a
    transaction reads what is committed and its writes appear when it commits;
    serial numbers and update times nothing reads are left out. *)

From stdpp Require Export base list list_numbers numbers gmap strings sorting.
From Stdlib Require Export ZArith Lia.

#[global] Open Scope Z_scope.

(** ** Results and panics

    Rust's [Result] is a value; a panic ([expect], [assert!], [todo!],
    overflow in a checked build) ends the task that raised it. *)

Inductive result (A E : Type) : Type :=
| Ok (a : A)
| Err (e : E).
Arguments Ok {A E} a.
Arguments Err {A E} e.

Inductive outcome (A : Type) : Type :=
| Return (a : A)
| Panic (why : string).
Arguments Return {A} a.
Arguments Panic {A} why.

#[export] Instance result_eq_dec {A E} `{EqDecision A, EqDecision E} :
  EqDecision (result A E).
Proof. solve_decision. Defined.

#[export] Instance outcome_ret : MRet outcome := @Return.
#[export] Instance outcome_bind : MBind outcome := fun A B f m =>
  match m with Return a => f a | Panic why => Panic why end.
#[export] Instance outcome_fmap : FMap outcome := fun A B f m =>
  match m with Return a => Return (f a) | Panic why => Panic why end.

(** [Option::expect]: the value, or a panic with the message. *)
Definition expect {A} (o : option A) (msg : string) : outcome A :=
  match o with Some a => Return a | None => Panic msg end.

(** [assert!]: go on with [k] when the condition holds. *)
Definition assert_ (b : bool) (msg : string) : outcome unit :=
  if b then Return tt else Panic msg.

Definition result_map_err {A E F} (f : E -> F) (r : result A E) : result A F :=
  match r with Ok a => Ok a | Err e => Err (f e) end.

Definition is_Ok {A E} (r : result A E) : Prop := match r with Ok _ => True | Err _ => False end.

(** What the code tells apart of an [sqlx::Error]: [RowNotFound], an error the
    database reported (and whether it is a unique violation), and the rest
    (connection, decoding, ...). *)
Inductive SqlxError : Type :=
| RowNotFound
| DatabaseError (is_unique_violation : bool)
| OtherError.

#[export] Instance SqlxError_eq_dec : EqDecision SqlxError.
Proof. solve_decision. Defined.

(** Identifiers: a 128-bit UUID. *)
Definition Uuid : Type := N.

(** ** Machine integers

    A [u32] is a [Z] in range; arithmetic panics on overflow when the build
    checks for it (debug profile) and wraps around otherwise (release). *)

Class BuildProfile : Type := overflow_checks : bool.
Definition debug_profile : BuildProfile := true.
Definition release_profile : BuildProfile := false.

Definition u32_max : Z := 4294967295.
Definition u32 (z : Z) : Prop := 0 <= z <= u32_max.
Definition nz_u32 (z : Z) : Prop := 0 < z <= u32_max.

Definition u32_add `{BuildProfile} (a b : Z) : outcome Z :=
  if a + b <=? u32_max then Return (a + b)
  else if overflow_checks then Panic "attempt to add with overflow"
  else Return ((a + b) mod (u32_max + 1)).

Definition u32_sub `{BuildProfile} (a b : Z) : outcome Z :=
  if b <=? a then Return (a - b)
  else if overflow_checks then Panic "attempt to subtract with overflow"
  else Return ((a - b) mod (u32_max + 1)).

(** [NonZeroU32::new] *)
Definition NonZeroU32_new (z : Z) : option Z := if z =? 0 then None else Some z.

Lemma u32_add_small `{BuildProfile} a b : a + b <= u32_max -> u32_add a b = Return (a + b).
Proof. intros Hle. unfold u32_add. by rewrite (proj2 (Z.leb_le _ _) Hle). Qed.

Lemma u32_sub_small `{BuildProfile} a b : b <= a -> u32_sub a b = Return (a - b).
Proof. intros Hle. unfold u32_sub. by rewrite (proj2 (Z.leb_le _ _) Hle). Qed.

Lemma NonZeroU32_new_pos z : 0 < z -> NonZeroU32_new z = Some z.
Proof. intros Hz. unfold NonZeroU32_new. destruct (Z.eqb_spec z 0); [lia|done]. Qed.

(** ** Vectors

    [Vec] (and [TinyVec], which has the same interface) as lists; an index out
    of range panics. *)

Definition vec_remove {A} (i : nat) (l : list A) : outcome (A * list A) :=
  match l !! i with
  | Some a => Return (a, delete i l)
  | None => Panic "removal index should be < len"
  end.

Definition vec_insert {A} (i : nat) (a : A) (l : list A) : outcome (list A) :=
  if (i <=? length l)%nat then Return (take i l ++ a :: drop i l)
  else Panic "insertion index should be <= len".

Lemma vec_remove_middle {A} (l1 l2 : list A) a :
  vec_remove (length l1) (l1 ++ a :: l2) = Return (a, l1 ++ l2).
Proof. unfold vec_remove. by rewrite list_lookup_middle, delete_middle. Qed.

Lemma insert_middle {A} (l1 l2 : list A) x y :
  <[length l1 := y]> (l1 ++ x :: l2) = l1 ++ y :: l2.
Proof. by rewrite insert_app_r_alt, Nat.sub_diag by done. Qed.

Lemma insert_middle_fmap {A B} (f : A -> B) (l1 l2 : list A) x y :
  <[length l1 := f y]> (f <$> (l1 ++ x :: l2)) = f <$> (l1 ++ y :: l2).
Proof. rewrite !fmap_app, !fmap_cons, <- (length_fmap f l1). apply insert_middle. Qed.

Lemma vec_remove_fmap {A B} (f : A -> B) (l1 l2 : list A) a :
  vec_remove (length l1) (f <$> (l1 ++ a :: l2)) = Return (f a, f <$> (l1 ++ l2)).
Proof.
  rewrite !fmap_app, <- (length_fmap f l1). apply vec_remove_middle.
Qed.

Lemma vec_insert_middle {A} (l1 l2 : list A) a :
  vec_insert (length l1) a (l1 ++ l2) = Return (l1 ++ a :: l2).
Proof.
  unfold vec_insert. rewrite length_app.
  destruct (Nat.leb_spec (length l1) (length l1 + length l2)); [|lia].
  by rewrite take_app_length, drop_app_length.
Qed.

(** ** Binary search, as [slice::binary_search_by_key] of the Rust library

    The loop halves the interval [left, right); [fuel] bounds the number of
    rounds, and [length l + 1] rounds are always enough. *)

Section binary_search.
Context {A : Type} (key : A -> Z).

Fixpoint binary_search_loop (fuel : nat) (k : Z) (l : list A)
    (left right : nat) : result nat nat :=
  match fuel with
  | O => Err left
  | S fuel' =>
      if (left <? right)%nat then
        let mid := (left + (right - left) / 2)%nat in
        match l !! mid with
        | None => Err left
        | Some a =>
            match key a ?= k with
            | Lt => binary_search_loop fuel' k l (mid + 1) right
            | Gt => binary_search_loop fuel' k l left mid
            | Eq => Ok mid
            end
        end
      else Err left
  end.

Definition binary_search_by_key (k : Z) (l : list A) : result nat nat :=
  binary_search_loop (S (length l)) k l 0 (length l).

Definition key_lt (a b : A) : Prop := key a < key b.

Lemma sorted_lookup_lt (l : list A) i j a b :
  StronglySorted key_lt l -> l !! i = Some a -> l !! j = Some b ->
  (i < j)%nat -> key a < key b.
Proof.
  intros Hs. revert i j. induction Hs as [|x l Hs IH Hall]; intros i j Hi Hj Hij; [done|].
  destruct j as [|j]; [lia|]. simpl in Hj.
  destruct i as [|i]; simpl in Hi.
  - simplify_eq. rewrite Forall_forall in Hall.
    apply Hall, list_elem_of_lookup. eauto.
  - eapply IH; eauto. lia.
Qed.

(** The search on a strictly sorted slice splits it at the key. *)
Inductive search_split (k : Z) (l : list A) : result nat nat -> Prop :=
| split_found l1 a l2 :
    l = l1 ++ a :: l2 -> key a = k -> search_split k l (Ok (length l1))
| split_missing l1 l2 :
    l = l1 ++ l2 -> Forall (fun a => key a < k) l1 ->
    Forall (fun a => k < key a) l2 -> search_split k l (Err (length l1)).

Lemma binary_search_loop_split fuel k l left right :
  StronglySorted key_lt l ->
  (right - left < fuel)%nat -> (left <= right <= length l)%nat ->
  (forall i a, l !! i = Some a -> (i < left)%nat -> key a < k) ->
  (forall i a, l !! i = Some a -> (right <= i)%nat -> k < key a) ->
  search_split k l (binary_search_loop fuel k l left right).
Proof.
  intros Hs. revert left right.
  induction fuel as [|fuel IH]; intros left right Hf Hb Hlo Hhi; [lia|].
  cbn [binary_search_loop].
  destruct (Nat.ltb_spec left right) as [Hlt|Hge]; last first.
  { assert (left = right) as <- by lia.
    replace left with (length (take left l)) by (rewrite length_take; lia).
    apply split_missing with (l2 := drop left l).
    - by rewrite take_drop.
    - apply Forall_lookup_2. intros i a. rewrite lookup_take_Some.
      intros [? ?]. by apply (Hlo i).
    - apply Forall_lookup_2. intros i a. rewrite lookup_drop. intros ?.
      apply (Hhi (left + i)%nat); [done|lia]. }
  set (mid := (left + (right - left) / 2)%nat).
  assert (left <= mid < right)%nat as Hmid.
  { subst mid. pose proof (Nat.div_lt (right - left) 2).
    lia. }
  destruct (lookup_lt_is_Some_2 l mid) as [a Ha]; [lia|].
  cbv zeta. fold mid. rewrite Ha.
  destruct (Z.compare_spec (key a) k) as [Heq|Hlt'|Hgt].
  - apply list_elem_of_split_length in Ha as (l1 & l2 & -> & Hlen).
    rewrite Hlen. by eapply split_found.
  - apply IH; [lia|lia| |done]. intros i b Hi Hib.
    destruct (decide (i = mid)) as [->|]; [by simplify_eq|].
    pose proof (sorted_lookup_lt l i mid b a Hs Hi Ha). lia.
  - apply IH; [lia|lia|done|]. intros i b Hi Hib.
    destruct (decide (i = mid)) as [->|]; [by simplify_eq|].
    pose proof (sorted_lookup_lt l mid i a b Hs Ha Hi). lia.
Qed.

Lemma binary_search_split k l :
  StronglySorted key_lt l -> search_split k l (binary_search_by_key k l).
Proof.
  intros Hs. apply binary_search_loop_split; [done|lia|lia| |].
  - intros i a _ Hi. lia.
  - intros i a Hl%lookup_lt_Some Hi. lia.
Qed.
End binary_search.

(** ** Sorted lists *)

Lemma StronglySorted_app_iff {A} (R : relation A) (l1 l2 : list A) :
  StronglySorted R (l1 ++ l2) <->
  StronglySorted R l1 /\ StronglySorted R l2 /\ (forall x y, x ∈ l1 -> y ∈ l2 -> R x y).
Proof.
  induction l1 as [|a l1 IH]; simpl.
  { split; [|tauto]. intros ?. split_and!; [constructor|done|].
    intros x y Hx. by apply elem_of_nil in Hx. }
  split.
  - intros [Hs Hall]%StronglySorted_inv. apply IH in Hs as (H1 & H2 & H3).
    apply Forall_app in Hall as [Ha1 Ha2]. rewrite Forall_forall in Ha2.
    split_and!; [by constructor|done|].
    intros x y [->|Hx]%elem_of_cons Hy; [by apply Ha2|by apply H3].
  - intros (Hs & H2 & H3). apply StronglySorted_inv in Hs as [H1 Ha1].
    constructor.
    + apply IH. split_and!; [done|done|]. intros x y Hx. apply H3. by right.
    + apply Forall_app. split; [done|]. rewrite Forall_forall.
      intros y Hy. apply H3; [left|done].
Qed.

Lemma StronglySorted_reverse {A} (R : relation A) (l : list A) :
  StronglySorted R l -> StronglySorted (flip R) (reverse l).
Proof.
  induction 1 as [|a l Hs IH Hall]; [constructor|].
  rewrite reverse_cons. apply StronglySorted_app_iff.
  split_and!; [done|repeat constructor|].
  intros x y Hx ->%list_elem_of_singleton. rewrite elem_of_reverse in Hx.
  rewrite Forall_forall in Hall. by apply Hall.
Qed.

Lemma StronglySorted_impl {A} (R S : relation A) (l : list A) :
  (forall x y, x ∈ l -> y ∈ l -> R x y -> S x y) -> StronglySorted R l -> StronglySorted S l.
Proof.
  intros HRS. induction 1 as [|a l Hs IH Hall]; constructor.
  - apply IH. intros x y ? ?. apply HRS; by right.
  - rewrite Forall_forall in Hall |- *. intros x Hx. apply HRS; [left|by right|by apply Hall].
Qed.

Lemma StronglySorted_concat {A B} (R : relation A) (S : relation B) (f : A -> list B) (l : list A) :
  StronglySorted R l ->
  (forall a, a ∈ l -> StronglySorted S (f a)) ->
  (forall a b x y, R a b -> a ∈ l -> b ∈ l -> x ∈ f a -> y ∈ f b -> S x y) ->
  StronglySorted S (l ≫= f).
Proof.
  induction 1 as [|a l Hs IH Hall]; intros Hf HR; csimpl; [constructor|].
  apply StronglySorted_app_iff. split_and!.
  - apply Hf. left.
  - apply IH.
    + intros b Hb. apply Hf. by right.
    + intros b c x y Hbc Hb Hc. apply HR; [done|by right|by right].
  - intros x y Hx (b & Hy & Hb)%list_elem_of_bind.
    rewrite Forall_forall in Hall. eapply HR; [by apply Hall|left|by right|done|done].
Qed.

Lemma StronglySorted_NoDup {A B} (R : relation A) (f : A -> B) (l : list A) :
  (forall x y, R x y -> f x <> f y) -> StronglySorted R l -> NoDup (f <$> l).
Proof.
  intros HR. induction 1 as [|a l Hs IH Hall]; csimpl; constructor; [|done].
  intros (b & Heq & Hb)%list_elem_of_fmap. rewrite Forall_forall in Hall.
  by apply (HR a b); [apply Hall|].
Qed.

(** Filters, keys and searches. *)
Lemma existsb_false {A} (f : A -> bool) l : existsb f l = false -> forall a, a ∈ l -> f a = false.
Proof.
  intros Hex a Ha. destruct (f a) eqn:Hf; [|done]. exfalso.
  assert (existsb f l = true) as Htrue; [|congruence].
  apply existsb_exists. exists a. split; [by apply list_elem_of_In|done].
Qed.

Lemma NoDup_snoc_fmap {A B} (f : A -> B) (l : list A) a :
  NoDup (f <$> l) -> (forall b, b ∈ l -> f b <> f a) -> NoDup (f <$> (l ++ [a])).
Proof.
  intros Hnd Hne. rewrite fmap_app. apply NoDup_app. split_and!; [done| |apply NoDup_singleton].
  intros b (c & -> & Hc)%list_elem_of_fmap Hin. cbn in Hin.
  apply list_elem_of_singleton in Hin. by apply (Hne c).
Qed.

Lemma NoDup_filter_fmap {A B} (f : A -> B) (P : A -> Prop) `{!forall a, Decision (P a)} (l : list A) :
  NoDup (f <$> l) -> NoDup (f <$> filter P l).
Proof.
  induction l as [|a l IH]; [done|]. csimpl. intros [Hni Hnd]%NoDup_cons.
  rewrite filter_cons. destruct (decide (P a)); [|by apply IH]. csimpl.
  apply NoDup_cons. split; [|by apply IH].
  intros (b & Heq & [_ Hb]%list_elem_of_filter)%list_elem_of_fmap. apply Hni.
  rewrite Heq. by apply list_elem_of_fmap_2.
Qed.

Lemma Forall_filter_sub {A} (Q P : A -> Prop) `{!forall a, Decision (P a)} (l : list A) :
  Forall Q l -> Forall Q (filter P l).
Proof.
  rewrite !Forall_forall. intros Hl a [_ Ha]%list_elem_of_filter. by apply Hl.
Qed.

Lemma head_Some {A} (l : list A) x : head l = Some x -> exists l', l = x :: l'.
Proof. destruct l; [done|]. intros [= ->]. by eexists. Qed.

Lemma app_cons_inv {A} (l1 l2 k1 k2 : list A) a b :
  l1 ++ a :: l2 = k1 ++ b :: k2 ->
  (l1 = k1 /\ a = b /\ l2 = k2) \/
  (exists k, k1 = l1 ++ a :: k /\ l2 = k ++ b :: k2) \/
  (exists k, l1 = k1 ++ b :: k /\ k2 = k ++ a :: l2).
Proof.
  intros [(k & -> & Heq)|(k & -> & Heq)]%app_eq_inv; destruct k as [|c k]; cbn in Heq; injection Heq as -> ->.
  - left. by rewrite app_nil_r.
  - right. right. by exists k.
  - left. by rewrite app_nil_r.
  - right. left. by exists k.
Qed.

Lemma filter_none {A} (P : A -> Prop) `{!forall a, Decision (P a)} (l : list A) :
  (forall a, a ∈ l -> ~ P a) -> filter P l = [].
Proof.
  induction l as [|a l IH]; [done|]. intros Hl. rewrite filter_cons, decide_False by (apply Hl; left).
  apply IH. intros b Hb. apply Hl. by right.
Qed.

(** Two splits of a list with pairwise distinct keys at the same key agree. *)
Lemma NoDup_split_unique {A B} (f : A -> B) (l1 l2 k1 k2 : list A) x y :
  NoDup (f <$> (l1 ++ x :: l2)) -> l1 ++ x :: l2 = k1 ++ y :: k2 -> f x = f y ->
  l1 = k1 /\ x = y /\ l2 = k2.
Proof.
  revert k1. induction l1 as [|a l1 IH]; intros [|b k1] Hnd Heq Hf;
    cbn in Heq; injection Heq as <- Heq.
  - done.
  - apply NoDup_cons in Hnd as [Hni _]. destruct Hni. subst l2.
    rewrite Hf. apply list_elem_of_fmap. exists y. split; [done|]. apply elem_of_app. right. left.
  - apply NoDup_cons in Hnd as [Hni _]. destruct Hni.
    rewrite <- Hf. apply list_elem_of_fmap. exists x. split; [done|]. apply elem_of_app. right. left.
  - apply NoDup_cons in Hnd as [_ Hnd].
    destruct (IH k1 Hnd Heq Hf) as (-> & -> & ->). done.
Qed.

(** ** Hints and tactics of the development *)

Create HintDb book.
#[export] Hint Resolve u32_add_small u32_sub_small NonZeroU32_new_pos : book.
Create Rewrite HintDb book.
#[export] Hint Rewrite @vec_remove_middle @vec_insert_middle : book.

(** Run one bind of the outcome monad whose first part is known. *)
Ltac step_bind H := rewrite H; cbn [mbind outcome_bind mret outcome_ret expect].
Ltac unfold_nz := unfold nz_u32, u32, u32_max in *.
