(* ===== verification/Orderbook.v ===== *)
(** * The order book: price levels and their orders
    (src/exchange/src/trading/orderbook.rs).

    An order sits in the [PriceLevel] of its price; a level numbers its orders
    with [memo_seq]; a side of the book is a vector of levels in ascending
    price order that is searched with [binary_search_by_key]. *)

From S2P Require Import Prelude.

(** ** Data *)

Inductive OrderSide : Type := Buy | Sell.
Inductive OrderType : Type := Limit | Market.

#[export] Instance OrderSide_eq_dec : EqDecision OrderSide.
Proof. solve_decision. Defined.
#[export] Instance OrderType_eq_dec : EqDecision OrderType.
Proof. solve_decision. Defined.

(** [memo : u32], [quantity] and [price : NonZeroU32]. *)
Record Order : Type := mkOrder { memo : Z; quantity : Z; price : Z }.

#[export] Instance Order_eq_dec : EqDecision Order.
Proof. solve_decision. Defined.

Definition set_memo (t : Order) (m : Z) : Order := mkOrder m (quantity t) (price t).
Definition set_quantity (t : Order) (q : Z) : Order := mkOrder (memo t) q (price t).

Record PriceLevel : Type :=
  mkPriceLevel { level_price : Z; memo_seq : Z; inner : list (option Order) }.

Record MultiplePriceLevels : Type := mkLevels { levels : list PriceLevel }.

Record OrderIndex : Type := mkOrderIndex { oi_side : OrderSide; oi_price : Z; oi_memo : Z }.

#[export] Instance OrderIndex_eq_dec : EqDecision OrderIndex.
Proof. solve_decision. Defined.

Record Orderbook : Type := mkOrderbook { bids : MultiplePriceLevels; asks : MultiplePriceLevels }.

(** A [&mut Order] into a container of type [B]: the order it points to and
    the container after a write through it. *)
Record MutRef (B : Type) : Type := mkMutRef { deref : Order; write : Order -> B }.
Arguments mkMutRef {B} _ _.
Arguments deref {B} _.
Arguments write {B} _ _.

Definition mut_ref_map {B C} (f : B -> C) (r : MutRef B) : MutRef C :=
  mkMutRef (deref r) (fun o => f (write r o)).

(** ** PriceLevel *)

(** The iterator of a level, item by item: an empty slot panics when it is
    reached. *)
Definition level_iter (lv : PriceLevel) : list (outcome Order) :=
  (fun o => expect o "all valid orders are always Some") <$> inner lv.

(** [Iterator::position] stops at the first item that satisfies [p]. *)
Fixpoint iter_position (p : Order -> bool) (it : list (outcome Order)) : outcome (option nat) :=
  match it with
  | [] => Return None
  | item :: it' =>
      o ← item;
      if p o then Return (Some O)
      else r ← iter_position p it'; Return (option_map S r)
  end.

Section operations.
Context `{BuildProfile}.

Definition push_order (lv : PriceLevel) (t : Order) : outcome ((Z * Z) * PriceLevel) :=
  price ← expect (NonZeroU32_new (level_price lv)) "price for price-level should not be zero";
  let memo := memo_seq lv in
  memo_seq' ← u32_add (memo_seq lv) 1;
  let t := set_memo t memo in
  let rval := (price, memo) in
  Return (rval, mkPriceLevel (level_price lv) memo_seq' (inner lv ++ [Some t])).

(** [shrink_to_fit] moves the vector back to its inline storage and leaves
    its contents as they are. *)
Definition remove_order (lv : PriceLevel) (m : Z) : outcome (option Order * PriceLevel) :=
  index ← iter_position (fun o => memo o =? m) (level_iter lv);
  match index with
  | None => Return (None, lv)
  | Some index =>
      '(rval, inner') ← vec_remove index (inner lv);
      Return (rval, mkPriceLevel (level_price lv) (memo_seq lv) inner')
  end.

(** ** MultiplePriceLevels *)

Definition iter_inner_rev (ps : MultiplePriceLevels) : list PriceLevel := reverse (levels ps).
Definition iter_inner (ps : MultiplePriceLevels) : list PriceLevel := levels ps.

Definition find_level (price : Z) (ps : MultiplePriceLevels) : result nat nat :=
  binary_search_by_key level_price price (levels ps).

(** The level for [price] (the [&mut PriceLevel] as its position), and the
    levels with it. *)
Definition get_or_insert_price_level (ps : MultiplePriceLevels) (price : Z) :
    outcome (nat * MultiplePriceLevels) :=
  match find_level price ps with
  | Ok index =>
      _ ← expect (levels ps !! index) "checked index";
      Return (index, ps)
  | Err index =>
      ls ← vec_insert index (mkPriceLevel price 0 []) (levels ps);
      _ ← expect (ls !! index) "checked index";
      Return (index, mkLevels ls)
  end.

Definition push_order_to_level (ps : MultiplePriceLevels) (t : Order) :
    outcome ((Z * Z) * MultiplePriceLevels) :=
  match find_level (price t) ps with
  | Ok index =>
      price_level ← expect (levels ps !! index) "checked index";
      '(ret, price_level') ← push_order price_level t;
      Return (ret, mkLevels (<[index := price_level']> (levels ps)))
  | Err index =>
      let price_level_inner := mkPriceLevel (price t) 0 [] in
      '(ret, price_level_inner) ← push_order price_level_inner t;
      ls ← vec_insert index price_level_inner (levels ps);
      Return (ret, mkLevels ls)
  end.

Definition remove_order_from_level (ps : MultiplePriceLevels) (key : Z * Z) :
    outcome (option Order * MultiplePriceLevels) :=
  let '(price, memo) := key in
  match find_level price ps with
  | Err _ => Return (None, ps)
  | Ok price_level_index =>
      match levels ps !! price_level_index with
      | None => Return (None, ps)
      | Some price_level =>
          '(order, price_level') ← remove_order price_level memo;
          let ls := <[price_level_index := price_level']> (levels ps) in
          match inner price_level' with
          | [] =>
              '(_, ls') ← vec_remove price_level_index ls;
              Return (order, mkLevels ls')
          | _ :: _ => Return (order, mkLevels ls)
          end
      end
  end.

(** [iter_mut().find(..)] within a level: the first live order with that memo. *)
Fixpoint find_memo (m : Z) (slots : list (option Order)) : option (nat * Order) :=
  match slots with
  | [] => None
  | Some o :: slots' =>
      if memo o =? m then Some (O, o)
      else (fun '(i, o') => (S i, o')) <$> find_memo m slots'
  | None :: slots' => (fun '(i, o') => (S i, o')) <$> find_memo m slots'
  end.

Definition levels_get_mut (ps : MultiplePriceLevels) (key : Z * Z) :
    option (MutRef MultiplePriceLevels) :=
  let '(price, memo) := key in
  match find_level price ps with
  | Err _ => None
  | Ok index =>
      lv ← levels ps !! index;
      '(j, o) ← find_memo memo (inner lv);
      Some (mkMutRef o (fun o' =>
        mkLevels (<[index := mkPriceLevel (level_price lv) (memo_seq lv)
                               (<[j := Some o']> (inner lv))]> (levels ps))))
  end.

(** ** Orderbook *)

Definition Orderbook_new : Orderbook := mkOrderbook (mkLevels []) (mkLevels []).

Definition push_bid (ob : Orderbook) (t : Order) : outcome (OrderIndex * Orderbook) :=
  '((price, memo), bids') ← push_order_to_level (bids ob) t;
  Return (mkOrderIndex Buy price memo, mkOrderbook bids' (asks ob)).

Definition push_ask (ob : Orderbook) (t : Order) : outcome (OrderIndex * Orderbook) :=
  '((price, memo), asks') ← push_order_to_level (asks ob) t;
  Return (mkOrderIndex Sell price memo, mkOrderbook (bids ob) asks').

Definition remove (ob : Orderbook) (order_index : OrderIndex) :
    outcome (option Order * Orderbook) :=
  let 'mkOrderIndex side price memo := order_index in
  match side with
  | Buy =>
      '(order, bids') ← remove_order_from_level (bids ob) (price, memo);
      Return (order, mkOrderbook bids' (asks ob))
  | Sell =>
      '(order, asks') ← remove_order_from_level (asks ob) (price, memo);
      Return (order, mkOrderbook (bids ob) asks')
  end.

Definition wrap_iter (side : OrderSide) (ls : list PriceLevel) :
    list (outcome (OrderIndex * Order)) :=
  ls ≫= fun level =>
    (fun item => o ← item; Return (mkOrderIndex side (price o) (memo o), o))
      <$> level_iter level.

Definition iter_rel (ob : Orderbook) (side : OrderSide) : list (outcome (OrderIndex * Order)) :=
  match side with
  | Buy => wrap_iter side (iter_inner_rev (bids ob))
  | Sell => wrap_iter side (iter_inner (asks ob))
  end.

Definition get_mut (ob : Orderbook) (order_index : OrderIndex) : option (MutRef Orderbook) :=
  let 'mkOrderIndex side price memo := order_index in
  match side with
  | Buy =>
      mut_ref_map (fun bids' => mkOrderbook bids' (asks ob))
        <$> levels_get_mut (bids ob) (price, memo)
  | Sell =>
      mut_ref_map (fun asks' => mkOrderbook (bids ob) asks')
        <$> levels_get_mut (asks ob) (price, memo)
  end.
End operations.

(** ** The invariant

    [level_of p s os]: the level of price [p], next sequence number [s] and
    live orders [os]. In a well-formed level every slot is live, the orders
    carry the level's price, and their sequence numbers increase and stay
    below the next one. [n] bounds the sequence numbers in use: one more for
    each push. *)

Definition level_of (p s : Z) (os : list Order) : PriceLevel := mkPriceLevel p s (Some <$> os).

Definition level_orders (lv : PriceLevel) : list Order := omap id (inner lv).

Definition memo_lt (a b : Order) : Prop := memo a < memo b.

Definition order_in_level (p s : Z) (o : Order) : Prop :=
  price o = p /\ nz_u32 (quantity o) /\ 0 <= memo o < s.

Inductive level_wf (n : Z) : PriceLevel -> Prop :=
| level_wf_intro p s os :
    nz_u32 p -> 0 <= s <= n -> Forall (order_in_level p s) os ->
    StronglySorted memo_lt os -> os <> [] -> level_wf n (level_of p s os).

Definition levels_wf (n : Z) (ps : MultiplePriceLevels) : Prop :=
  StronglySorted (key_lt level_price) (levels ps) /\ Forall (level_wf n) (levels ps).

Definition book_wf (n : Z) (ob : Orderbook) : Prop :=
  levels_wf n (bids ob) /\ levels_wf n (asks ob).

(** ** The resting orders of a side, best price first, oldest first *)

Definition side_levels (ob : Orderbook) (side : OrderSide) : MultiplePriceLevels :=
  match side with Buy => bids ob | Sell => asks ob end.

Definition flat (side : OrderSide) (ls : list PriceLevel) : list Order :=
  match side with Buy => reverse ls | Sell => ls end ≫= level_orders.

Definition book_orders (ob : Orderbook) (side : OrderSide) : list Order :=
  flat side (levels (side_levels ob side)).

Definition opposite (side : OrderSide) : OrderSide :=
  match side with Buy => Sell | Sell => Buy end.

Definition order_key (o : Order) : Z * Z := (price o, memo o).

Definition order_index (side : OrderSide) (o : Order) : OrderIndex :=
  mkOrderIndex side (price o) (memo o).

(** Price-time priority. *)
Definition better_price (side : OrderSide) (p q : Z) : Prop :=
  match side with Buy => q < p | Sell => p < q end.

Definition before (side : OrderSide) (a b : Order) : Prop :=
  better_price side (price a) (price b) \/ (price a = price b /\ memo a < memo b).

(** ** Levels *)

Lemma level_orders_of p s os : level_orders (level_of p s os) = os.
Proof.
  unfold level_orders, level_of. simpl. induction os as [|o os IH]; [done|].
  csimpl. by f_equal.
Qed.

Lemma level_iter_of p s os : level_iter (level_of p s os) = Return <$> os.
Proof. unfold level_iter, level_of. simpl. by rewrite <- list_fmap_compose. Qed.

Lemma iter_position_list_find p os :
  iter_position p (Return <$> os) = Return (fst <$> list_find (fun o => Is_true (p o)) os).
Proof.
  induction os as [|o os IH]; [done|]. csimpl. rewrite IH.
  destruct (p o), (list_find _ os) as [[??]|]; done.
Qed.

Lemma find_memo_list_find m os :
  find_memo m (Some <$> os) = list_find (fun o => Is_true (memo o =? m)) os.
Proof.
  induction os as [|o os IH]; [done|]. csimpl. rewrite IH.
  destruct (memo o =? m), (list_find _ os) as [[??]|]; done.
Qed.

(** The order with sequence number [m] splits the orders of its level. *)
Inductive memo_split (m : Z) (os : list Order) : option (nat * Order) -> Prop :=
| memo_found a o b : os = a ++ o :: b -> memo o = m -> memo_split m os (Some (length a, o))
| memo_missing : Forall (fun o => memo o <> m) os -> memo_split m os None.

Lemma list_find_memo_split m os :
  memo_split m os (list_find (fun o => Is_true (memo o =? m)) os).
Proof.
  destruct (list_find _ os) as [[i o]|] eqn:Hf.
  - apply list_find_Some in Hf as (Hi & Hm & _).
    apply list_elem_of_split_length in Hi as (a & b & -> & ->).
    apply (memo_found m _ a o b); [done|]. apply Is_true_eq_true in Hm. lia.
  - apply list_find_None in Hf. constructor.
    eapply Forall_impl; [exact Hf|]. intros o Ho Hm. apply Ho.
    by rewrite Hm, Z.eqb_refl.
Qed.

Section facts.
Context `{BuildProfile}.

Lemma remove_order_of p s os m :
  remove_order (level_of p s os) m =
  match list_find (fun o => Is_true (memo o =? m)) os with
  | Some (i, o) => Return (Some o, level_of p s (delete i os))
  | None => Return (None, level_of p s os)
  end.
Proof.
  unfold remove_order. rewrite level_iter_of, iter_position_list_find.
  destruct (list_find_memo_split m os) as [a o b -> <-|_]; [|done].
  cbn [mbind outcome_bind fmap option_fmap option_map fst level_of inner].
  rewrite vec_remove_fmap. cbn [mbind outcome_bind]. by rewrite delete_middle.
Qed.

Lemma push_order_of n p s os t :
  nz_u32 p -> 0 <= s <= n -> n < u32_max ->
  push_order (level_of p s os) t =
    Return ((p, s), level_of p (s + 1) (os ++ [set_memo t s])).
Proof.
  intros [Hp ?] Hs Hn. unfold push_order. cbn [level_of level_price memo_seq].
  step_bind (NonZeroU32_new_pos p Hp).
  rewrite u32_add_small by lia. cbn [mbind outcome_bind].
  unfold level_of. by rewrite fmap_app.
Qed.
End facts.

(** ** Levels of a side *)

(** What is left of a level: nothing when its last order went. *)
Definition level_list (p s : Z) (os : list Order) : list PriceLevel :=
  match os with [] => [] | _ => [level_of p s os] end.

Lemma level_wf_inv n p s os :
  level_wf n (level_of p s os) ->
  nz_u32 p /\ 0 <= s <= n /\ Forall (order_in_level p s) os /\
  StronglySorted memo_lt os /\ os <> [].
Proof.
  intros Hwf. remember (level_of p s os) as lv eqn:Heq.
  destruct Hwf as [p' s' os' Hp Hs Hos Hm Hne].
  assert (os' = os) as ->.
  { apply (f_equal level_orders) in Heq. by rewrite !level_orders_of in Heq. }
  by injection Heq as -> ->.
Qed.

Lemma level_wf_elim n lv :
  level_wf n lv -> exists s os, lv = level_of (level_price lv) s os /\ os = level_orders lv.
Proof. intros [p s os]. exists s, os. by rewrite level_orders_of. Qed.

Lemma level_wf_mono n n' lv : n <= n' -> level_wf n lv -> level_wf n' lv.
Proof. intros Hn []. constructor; auto; lia. Qed.

Lemma levels_wf_mono n n' ps : n <= n' -> levels_wf n ps -> levels_wf n' ps.
Proof.
  intros Hn [Hs Hf]. split; [done|]. eapply Forall_impl; [exact Hf|].
  intros lv. by apply level_wf_mono.
Qed.

Lemma levels_wf_app n L1 L2 L3 :
  levels_wf n (mkLevels (L1 ++ L2 ++ L3)) -> levels_wf n (mkLevels (L1 ++ L3)).
Proof.
  intros [Hs Hf]. cbn in *. rewrite !Forall_app in Hf. destruct Hf as (?&?&?).
  rewrite !StronglySorted_app_iff in Hs. destruct Hs as (?&(?&?&?)&Hlt).
  split; cbn; [|by apply Forall_app].
  apply StronglySorted_app_iff. split_and!; [done|done|].
  intros x y ? ?. apply Hlt; [done|]. apply elem_of_app. by right.
Qed.

(** Swapping a level for a well-formed one of the same price. *)
Lemma levels_wf_replace n L1 L2 lv lv' :
  levels_wf n (mkLevels (L1 ++ lv :: L2)) -> level_wf n lv' ->
  level_price lv' = level_price lv -> levels_wf n (mkLevels (L1 ++ lv' :: L2)).
Proof.
  intros [Hs Hf] Hlv' Hp. cbn in *.
  rewrite Forall_app, Forall_cons in Hf. destruct Hf as (?&?&?).
  split; cbn; [|by rewrite Forall_app, Forall_cons].
  rewrite StronglySorted_app_iff in Hs |- *. destruct Hs as (?&Hs&Hlt).
  apply StronglySorted_inv in Hs as [? Hall]. split_and!; [done| |].
  - constructor; [done|]. eapply Forall_impl; [exact Hall|].
    unfold key_lt. intros x. by rewrite Hp.
  - intros x y Hx [->|Hy]%elem_of_cons.
    + unfold key_lt. rewrite Hp. apply Hlt; [done|left].
    + apply Hlt; [done|by right].
Qed.

Lemma flat_middle side L1 L L2 :
  flat side (L1 ++ L ++ L2) =
  flat side (match side with Buy => L2 | Sell => L1 end) ++
  flat side L ++ flat side (match side with Buy => L1 | Sell => L2 end).
Proof.
  unfold flat. destruct side; rewrite ?reverse_app, !bind_app; by rewrite <- ?app_assoc.
Qed.

Lemma flat_singleton side lv : flat side [lv] = level_orders lv.
Proof. destruct side; unfold flat; csimpl; by rewrite ?reverse_singleton, ?app_nil_r. Qed.

Lemma flat_level_list side p s os : flat side (level_list p s os) = os.
Proof.
  destruct os as [|o os]; [by destruct side|].
  unfold level_list. by rewrite flat_singleton, level_orders_of.
Qed.

Lemma flat_cons_middle side L1 lv L2 :
  flat side (L1 ++ lv :: L2) =
  flat side (match side with Buy => L2 | Sell => L1 end) ++
  level_orders lv ++ flat side (match side with Buy => L1 | Sell => L2 end).
Proof. rewrite <- flat_singleton with (side := side). apply (flat_middle side L1 [lv]). Qed.

Lemma elem_of_flat side ls o :
  o ∈ flat side ls <-> exists lv, o ∈ level_orders lv /\ lv ∈ ls.
Proof.
  unfold flat. rewrite list_elem_of_bind. destruct side; [|done].
  by setoid_rewrite elem_of_reverse.
Qed.

Lemma find_level_split n p ps :
  levels_wf n ps -> search_split level_price p (levels ps) (find_level p ps).
Proof. intros [Hs _]. by apply binary_search_split. Qed.

(** An order's level is the one of its price. *)
Lemma elem_of_level_price n lv o : level_wf n lv -> o ∈ level_orders lv -> price o = level_price lv.
Proof.
  intros [p s os _ _ Hos _ _]. rewrite level_orders_of. cbn.
  rewrite Forall_forall in Hos. intros Ho. by apply Hos.
Qed.

Section access.
Context `{BuildProfile}.

(** Looking a key up, and removing it, address the same slot. *)
Definition access_found (ps : MultiplePriceLevels) (p m : Z) : Prop :=
  exists L1 L2 s a o b r,
    levels ps = L1 ++ level_of p s (a ++ o :: b) :: L2 /\ memo o = m /\
    levels_get_mut ps (p, m) = Some r /\ deref r = o /\
    (forall o', write r o' = mkLevels (L1 ++ level_of p s (a ++ o' :: b) :: L2)) /\
    remove_order_from_level ps (p, m) =
      Return (Some o, mkLevels (L1 ++ level_list p s (a ++ b) ++ L2)).

Definition access_missing (ps : MultiplePriceLevels) (p m : Z) : Prop :=
  (forall side o, o ∈ flat side (levels ps) -> order_key o <> (p, m)) /\
  levels_get_mut ps (p, m) = None /\
  remove_order_from_level ps (p, m) = Return (None, ps).

Lemma levels_access_level L1 L2 p s os m :
  find_level p (mkLevels (L1 ++ level_of p s os :: L2)) = Ok (length L1) ->
  os <> [] ->
  access_found (mkLevels (L1 ++ level_of p s os :: L2)) p m \/
  (Forall (fun o => memo o <> m) os /\
   levels_get_mut (mkLevels (L1 ++ level_of p s os :: L2)) (p, m) = None /\
   remove_order_from_level (mkLevels (L1 ++ level_of p s os :: L2)) (p, m) =
     Return (None, mkLevels (L1 ++ level_of p s os :: L2))).
Proof.
  intros Hfind Hne. unfold access_found, levels_get_mut, remove_order_from_level.
  rewrite Hfind. cbn [levels]. rewrite list_lookup_middle by done.
  cbn [mbind option_bind]. cbn [inner level_of].
  rewrite remove_order_of, find_memo_list_find.
  destruct (list_find_memo_split m os) as [a o b -> Hm|Hm]; [left|right].
  - exists L1, L2, s, a, o, b. eexists. split_and!; [done|done|reflexivity|done|..].
    + intros o'. cbn [write]. rewrite insert_middle. cbn [level_of level_price memo_seq].
      by rewrite (insert_middle_fmap Some).
    + cbn [mbind outcome_bind]. rewrite delete_middle, insert_middle.
      destruct (a ++ b) as [|c cs] eqn:Hab; cbn [level_of inner fmap list_fmap].
      * by rewrite vec_remove_middle.
      * done.
  - cbn [mbind outcome_bind]. rewrite insert_middle. split_and!; [done|done|].
    by destruct os.
Qed.

(** No level has the price [p]. *)
Lemma missing_level n ps p m L1 L2 :
  levels_wf n ps -> levels ps = L1 ++ L2 ->
  Forall (fun lv => level_price lv < p) L1 -> Forall (fun lv => p < level_price lv) L2 ->
  forall side o, o ∈ flat side (levels ps) -> order_key o <> (p, m).
Proof.
  intros [_ Hf] Heq Hlt Hgt side o (lv & Ho & Hlv)%elem_of_flat [= Hp _].
  rewrite Forall_forall in Hf, Hlt, Hgt.
  rewrite (elem_of_level_price n lv o) in Hp by auto.
  rewrite Heq in Hlv. apply elem_of_app in Hlv as [Hlv|Hlv].
  - specialize (Hlt _ Hlv). lia.
  - specialize (Hgt _ Hlv). lia.
Qed.

Lemma levels_access n ps p m :
  levels_wf n ps -> access_found ps p m \/ access_missing ps p m.
Proof.
  intros Hwf. pose proof (find_level_split n p ps Hwf) as Hsplit.
  destruct (find_level p ps) as [i|i] eqn:Hfind.
  - inversion Hsplit as [L1 lv L2 Heq Hp Hi|]; subst i.
    assert (level_wf n lv) as Hlv.
    { destruct Hwf as [_ Hf]. rewrite Heq, Forall_app, Forall_cons in Hf. tauto. }
    destruct (level_wf_elim n lv Hlv) as (s & os & Hlveq & _).
    rewrite Hp in Hlveq. subst lv. clear Hp.
    destruct ps as [ls]. cbn [levels] in Heq. subst ls.
    destruct (level_wf_inv _ _ _ _ Hlv) as (_ & _ & _ & _ & Hne).
    destruct (levels_access_level L1 L2 p s os m Hfind Hne) as [|(Hm & ? & ?)];
      [by left|right]. split; [|done].
    intros side o Ho [= Ho1 Ho2].
    apply elem_of_flat in Ho as (lv & Ho & Hlv').
    destruct Hwf as [Hs Hf]. cbn [levels] in *. rewrite Forall_forall in Hf. rewrite Forall_forall in Hm.
    assert (lv = level_of p s os) as ->.
    { rewrite (elem_of_level_price n lv o) in Ho1 by auto.
      apply StronglySorted_app_iff in Hs as (_ & Hs & Hlt).
      apply StronglySorted_inv in Hs as [_ Hgt]. rewrite Forall_forall in Hgt.
      unfold key_lt in *. cbn [level_of level_price] in *.
      apply elem_of_app in Hlv' as [Hlv'|[->|Hlv']%elem_of_cons]; [|done|].
      - specialize (Hlt _ (level_of p s os) Hlv' ltac:(left)). cbn in Hlt. lia.
      - specialize (Hgt _ Hlv'). lia. }
    rewrite level_orders_of in Ho. by apply (Hm o).
  - inversion Hsplit as [|L1 L2 Heq Hlt Hgt Hi]; subst i. right.
    unfold access_missing, levels_get_mut, remove_order_from_level. rewrite Hfind.
    split_and!; [|done|done]. by eapply missing_level.
Qed.

Lemma level_wf_remove n p s a o b :
  level_wf n (level_of p s (a ++ o :: b)) -> a ++ b <> [] -> level_wf n (level_of p s (a ++ b)).
Proof.
  intros (? & ? & Hos & Hs & _)%level_wf_inv ?. constructor; [done|done| | |done].
  - rewrite Forall_app, Forall_cons in Hos. apply Forall_app. tauto.
  - rewrite StronglySorted_app_iff in Hs |- *. destruct Hs as (? & Hs & Hlt).
    apply StronglySorted_inv in Hs as [? _]. split_and!; [done|done|].
    intros x y ? ?. apply Hlt; [done|by right].
Qed.

Lemma level_wf_update n p s a o o' b :
  level_wf n (level_of p s (a ++ o :: b)) -> order_key o' = order_key o ->
  nz_u32 (quantity o') -> level_wf n (level_of p s (a ++ o' :: b)).
Proof.
  intros (? & ? & Hos & Hs & _)%level_wf_inv [= Hkp Hkm] Hq.
  constructor; [done|done| | |by destruct a].
  - rewrite Forall_app, Forall_cons in Hos |- *. unfold order_in_level in *.
    destruct Hos as (? & (? & ? & ?) & ?). split_and!; try done; lia.
  - rewrite StronglySorted_app_iff in Hs |- *. destruct Hs as (? & Hs & Hlt).
    apply StronglySorted_inv in Hs as [? Hall]. split_and!; [done| |].
    + constructor; [done|]. eapply Forall_impl; [exact Hall|].
      unfold memo_lt. intros x. by rewrite Hkm.
    + intros x y Hx [->|Hy]%elem_of_cons.
      * unfold memo_lt. rewrite Hkm. apply Hlt; [done|left].
      * apply Hlt; [done|by right].
Qed.
End access.


(** ** Price-time order of a side *)

Lemma level_orders_sorted n side lv :
  level_wf n lv -> StronglySorted (before side) (level_orders lv).
Proof.
  intros [p s os _ _ Hos Hm _]. rewrite level_orders_of. rewrite Forall_forall in Hos.
  eapply StronglySorted_impl; [|exact Hm]. intros x y Hx Hy Hxy. right.
  destruct (Hos x Hx) as [-> _], (Hos y Hy) as [-> _]. done.
Qed.

Lemma flat_sorted n side ps : levels_wf n ps -> StronglySorted (before side) (flat side (levels ps)).
Proof.
  intros [Hs Hf]. rewrite Forall_forall in Hf. unfold flat.
  eapply (StronglySorted_concat
            (match side with Buy => flip (key_lt level_price) | Sell => key_lt level_price end)).
  - destruct side; [by apply StronglySorted_reverse|done].
  - intros lv Hlv. apply (level_orders_sorted n). apply Hf.
    destruct side; [by rewrite <- elem_of_reverse|done].
  - intros lv lv' x y Hlt Hlv Hlv' Hx Hy. left.
    assert (lv ∈ levels ps /\ lv' ∈ levels ps) as [Hi Hi'].
    { destruct side; [|done]. by rewrite !elem_of_reverse in Hlv, Hlv'. }
    rewrite (elem_of_level_price n lv x), (elem_of_level_price n lv' y) by auto.
    by destruct side.
Qed.

Lemma before_key_ne side x y : before side x y -> order_key x <> order_key y.
Proof. unfold before, better_price, order_key. intros H [= ??]. destruct side; lia. Qed.

Lemma flat_keys_NoDup n side ps : levels_wf n ps -> NoDup (order_key <$> flat side (levels ps)).
Proof.
  intros Hwf. eapply StronglySorted_NoDup; [apply before_key_ne|by eapply flat_sorted].
Qed.

Section interface.
Context `{BuildProfile}.

Definition side_found (n : Z) (ps : MultiplePriceLevels) (p m : Z) : Prop :=
  exists o r ps',
    levels_get_mut ps (p, m) = Some r /\ deref r = o /\ order_key o = (p, m) /\
    remove_order_from_level ps (p, m) = Return (Some o, ps') /\ levels_wf n ps' /\
    (forall o', order_key o' = order_key o -> nz_u32 (quantity o') -> levels_wf n (write r o')) /\
    forall side, exists A B, flat side (levels ps) = A ++ o :: B /\
      flat side (levels ps') = A ++ B /\
      forall o', flat side (levels (write r o')) = A ++ o' :: B.

Lemma side_access n ps p m :
  levels_wf n ps -> side_found n ps p m \/ access_missing ps p m.
Proof.
  intros Hwf. destruct (levels_access n ps p m Hwf) as [Hfound|]; [left|by right].
  destruct Hfound as (L1 & L2 & s & a & o & b & r & Heq & Hm & Hr & Ho & Hw & Hrm).
  destruct ps as [ls]. cbn [levels] in Heq. subst ls. cbn [levels] in *.
  assert (level_wf n (level_of p s (a ++ o :: b))) as Hlv.
  { destruct Hwf as [_ Hf]. cbn in Hf. rewrite Forall_app, Forall_cons in Hf. tauto. }
  assert (order_key o = (p, m)) as Hk.
  { destruct (level_wf_inv _ _ _ _ Hlv) as (_ & _ & Hos & _).
    rewrite Forall_app, Forall_cons in Hos. destruct Hos as (_ & [Hp _] & _).
    unfold order_key. by rewrite Hp, Hm. }
  exists o, r. eexists. split_and!; [done|done|done|exact Hrm|..].
  - destruct (decide (a ++ b = [])) as [->|Hne].
    + by eapply (levels_wf_app n L1 [level_of p s (a ++ o :: b)]).
    + assert (level_list p s (a ++ b) = [level_of p s (a ++ b)]) as -> by by destruct (a ++ b).
      eapply levels_wf_replace; [exact Hwf| |done]. by eapply level_wf_remove.
  - intros o' Hk' Hq'. rewrite Hw. eapply levels_wf_replace; [exact Hwf| |done].
    by eapply level_wf_update.
  - intros side. setoid_rewrite Hw. cbn [levels].
    exists (flat side (match side with Buy => L2 | Sell => L1 end) ++ a),
      (b ++ flat side (match side with Buy => L1 | Sell => L2 end)).
    setoid_rewrite flat_cons_middle. setoid_rewrite level_orders_of.
    rewrite flat_middle, flat_level_list, <- !app_assoc.
    split_and!; [done|done|]. intros o'. by rewrite <- !app_assoc.
Qed.

(** An order pushed at [t]'s price goes after the orders at least as good. *)
Definition inserted (side : OrderSide) (t : Order) (before_push after_push : list Order) : Prop :=
  exists A B, before_push = A ++ B /\ after_push = A ++ t :: B /\
    Forall (fun a => ~ better_price side (price t) (price a)) A /\
    Forall (fun b => better_price side (price t) (price b)) B.

Lemma flat_price_bound n side ls (P : Z -> Prop) :
  Forall (level_wf n) ls -> Forall (fun lv => P (level_price lv)) ls ->
  Forall (fun o => P (price o)) (flat side ls).
Proof.
  intros Hwf HP. rewrite Forall_forall. intros o (lv & Ho & Hlv)%elem_of_flat.
  rewrite Forall_forall in Hwf, HP.
  rewrite (elem_of_level_price n lv o) by auto. by apply HP.
Qed.

(** Putting a new order behind the orders [os] of its level, between the
    levels [L1] below its price and [L2] above it. *)
Lemma inserted_level n side L1 L2 p t os :
  Forall (level_wf n) L1 -> Forall (level_wf n) L2 ->
  Forall (fun lv => level_price lv < p) L1 -> Forall (fun lv => p < level_price lv) L2 ->
  Forall (fun o => price o = p) os -> price t = p ->
  let pre := match side with Buy => L2 | Sell => L1 end in
  let post := match side with Buy => L1 | Sell => L2 end in
  inserted side t (flat side pre ++ os ++ flat side post)
    (flat side pre ++ (os ++ [t]) ++ flat side post).
Proof.
  intros Hw1 Hw2 H1 H2 Hos Ht pre post.
  exists (flat side pre ++ os), (flat side post). rewrite <- !app_assoc. rewrite Ht.
  split_and!; [done|done| |].
  - rewrite Forall_app. split.
    + apply (flat_price_bound n _ _ (fun q => ~ better_price side p q)); [by destruct side|].
      subst pre.
      destruct side; (eapply Forall_impl; [eassumption|]); cbn; lia.
    + eapply Forall_impl; [exact Hos|]. intros o ->. destruct side; cbn; lia.
  - apply (flat_price_bound n _ _ (better_price side p)); [by destruct side|]. subst post.
    destruct side; (eapply Forall_impl; [eassumption|]); cbn; lia.
Qed.

Lemma level_wf_push n p s os t :
  level_wf n (level_of p s os) \/ (os = [] /\ 0 <= s <= n /\ nz_u32 p) ->
  price t = p -> nz_u32 (quantity t) ->
  level_wf (n + 1) (level_of p (s + 1) (os ++ [set_memo t s])).
Proof.
  intros Hwf Hp Hq.
  assert (nz_u32 p /\ 0 <= s <= n /\ Forall (order_in_level p s) os /\ StronglySorted memo_lt os)
    as (? & ? & Hos & Hs).
  { destruct Hwf as [(?&?&?&?&?)%level_wf_inv|(->&?&?)]; [done|].
    split_and!; try done; try lia; constructor. }
  constructor; [done|lia| | |by destruct os].
  - rewrite Forall_app, Forall_singleton. split.
    + eapply Forall_impl; [exact Hos|]. unfold order_in_level. intros o (?&?&?).
      split_and!; [done|done|lia|lia].
    + unfold order_in_level. cbn. split_and!; [done|done|lia|lia].
  - rewrite StronglySorted_app_iff. split_and!; [done|repeat constructor|].
    intros x y Hx ->%list_elem_of_singleton. rewrite Forall_forall in Hos.
    destruct (Hos x Hx) as (_ & _ & ?). unfold memo_lt. cbn. lia.
Qed.

Lemma levels_wf_insert n L1 L2 lv :
  levels_wf n (mkLevels (L1 ++ L2)) -> level_wf n lv ->
  Forall (fun l => level_price l < level_price lv) L1 ->
  Forall (fun l => level_price lv < level_price l) L2 ->
  levels_wf n (mkLevels (L1 ++ lv :: L2)).
Proof.
  intros [Hs Hf] Hlv H1 H2. cbn in *. split; cbn.
  - rewrite StronglySorted_app_iff in Hs |- *. destruct Hs as (?&?&Hlt).
    split_and!; [done|by constructor|].
    intros x y Hx [->|Hy]%elem_of_cons; [|by apply Hlt].
    rewrite Forall_forall in H1. by apply H1.
  - rewrite Forall_app in Hf. rewrite Forall_app, Forall_cons. tauto.
Qed.

Lemma push_order_to_level_spec n ps t :
  levels_wf n ps -> 0 <= n < u32_max -> nz_u32 (price t) -> nz_u32 (quantity t) ->
  exists m ps', push_order_to_level ps t = Return ((price t, m), ps') /\
    levels_wf (n + 1) ps' /\
    forall side, inserted side (set_memo t m) (flat side (levels ps)) (flat side (levels ps')).
Proof.
  intros Hwf Hn Hp Hq. pose proof (find_level_split n (price t) ps Hwf) as Hsplit.
  pose proof (levels_wf_mono n (n + 1) ps ltac:(lia) Hwf) as Hwf'.
  unfold push_order_to_level. destruct ps as [ls]. cbn [levels] in *.
  destruct (find_level (price t) _) as [i|i] eqn:Hfind.
  - inversion Hsplit as [L1 lv L2 Heq Hlp Hi|]; subst i ls.
    pose proof (proj2 Hwf) as Hf. cbn in Hf. rewrite Forall_app, Forall_cons in Hf.
    destruct Hf as (Hf1 & Hlv & Hf2).
    destruct (level_wf_elim n lv Hlv) as (s & os & Hlveq & _). rewrite Hlp in Hlveq. subst lv.
    destruct (level_wf_inv _ _ _ _ Hlv) as (_ & Hs & Hos & _ & _).
    rewrite list_lookup_middle by done. cbn [mbind outcome_bind expect].
    rewrite (push_order_of n) by (done || lia). cbn [mbind outcome_bind].
    eexists _, _. split; [done|]. split.
    + rewrite insert_middle. eapply levels_wf_replace; [exact Hwf'| |done].
      apply level_wf_push; auto.
    + intros side. cbn [levels]. rewrite insert_middle, !flat_cons_middle, !level_orders_of.
      apply (inserted_level n _ _ _ (price t)); [done|done| | | |done].
      * destruct Hwf as [Hsort _]. cbn in Hsort. apply StronglySorted_app_iff in Hsort as (_ & _ & Hlt).
        rewrite Forall_forall. intros x Hx. exact (Hlt x (level_of (price t) s os) Hx ltac:(left)).
      * destruct Hwf as [Hsort _]. cbn in Hsort. apply StronglySorted_app_iff in Hsort as (_ & Hsort & _).
        apply StronglySorted_inv in Hsort as [_ Hall]. exact Hall.
      * eapply Forall_impl; [exact Hos|]. intros o Ho. apply Ho.
  - inversion Hsplit as [|L1 L2 Heq Hlt Hgt Hi]; subst i ls.
    pose proof (proj2 Hwf) as Hf. cbn in Hf. rewrite Forall_app in Hf. destruct Hf as [Hf1 Hf2].
    change (mkPriceLevel (price t) 0 []) with (level_of (price t) 0 []).
    rewrite (push_order_of n) by (done || lia). cbn [mbind outcome_bind].
    rewrite vec_insert_middle. cbn [mbind outcome_bind].
    eexists _, _. split; [done|]. split.
    + apply levels_wf_insert; [done| |done|done].
      apply level_wf_push; [right; split_and!; [done|lia|lia|done..]|done|done].
    + intros side. cbn [levels]. rewrite flat_cons_middle, level_orders_of.
      replace (flat side (L1 ++ L2)) with
        (flat side (match side with Buy => L2 | Sell => L1 end) ++ [] ++
         flat side (match side with Buy => L1 | Sell => L2 end)).
      2: { rewrite <- (app_nil_l L2) at 3. rewrite (flat_middle side L1 [] L2).
           by destruct side. }
      by apply (inserted_level n _ _ _ (price t)).
Qed.
End interface.

(** ** The book *)

Section book.
Context `{BuildProfile}.

Definition push_side (ob : Orderbook) (side : OrderSide) (t : Order) : outcome (OrderIndex * Orderbook) :=
  match side with Buy => push_bid ob t | Sell => push_ask ob t end.

Lemma Orderbook_new_wf : book_wf 0 Orderbook_new.
Proof. repeat split; constructor. Qed.

Lemma Orderbook_new_orders side : book_orders Orderbook_new side = [].
Proof. by destruct side. Qed.

Lemma book_wf_mono n n' ob : n <= n' -> book_wf n ob -> book_wf n' ob.
Proof. intros ? []. split; by eapply levels_wf_mono. Qed.

Lemma book_wf_side n ob side : book_wf n ob -> levels_wf n (side_levels ob side).
Proof. intros []. by destruct side. Qed.

Lemma book_orders_sorted n ob side :
  book_wf n ob -> StronglySorted (before side) (book_orders ob side).
Proof. intros Hwf. eapply flat_sorted. by apply book_wf_side. Qed.

Lemma book_keys_NoDup n ob side : book_wf n ob -> NoDup (order_key <$> book_orders ob side).
Proof. intros Hwf. eapply flat_keys_NoDup. by apply book_wf_side. Qed.

Lemma book_orders_wf n ob side :
  book_wf n ob -> Forall (fun o => nz_u32 (price o) /\ nz_u32 (quantity o)) (book_orders ob side).
Proof.
  intros Hwf%(book_wf_side n ob side). rewrite Forall_forall.
  intros o (lv & Ho & Hlv)%elem_of_flat. destruct Hwf as [_ Hf].
  rewrite Forall_forall in Hf. destruct (Hf _ Hlv) as [p s os Hp _ Hos _ _].
  rewrite level_orders_of in Ho. rewrite Forall_forall in Hos.
  destruct (Hos o Ho) as (-> & ? & _). done.
Qed.

(** [iter_rel] yields the resting orders in price-time order and never
    meets an empty slot. *)
Lemma wrap_iter_orders n side ls :
  Forall (level_wf n) ls ->
  wrap_iter side ls = (fun o => Return (order_index side o, o)) <$> (ls ≫= level_orders).
Proof.
  induction 1 as [|lv ls [p s os] _ IH]; [done|].
  unfold wrap_iter in *. csimpl. rewrite IH, fmap_app. f_equal.
  rewrite level_iter_of, level_orders_of. rewrite <- list_fmap_compose. done.
Qed.

Lemma iter_rel_orders n ob side :
  book_wf n ob ->
  iter_rel ob side = (fun o => Return (order_index side o, o)) <$> book_orders ob side.
Proof.
  intros Hwf. pose proof (book_wf_side n ob side Hwf) as [_ Hf].
  destruct side; apply (wrap_iter_orders n); [|done]. by apply Forall_reverse.
Qed.

(** What an index does to the book that holds its order. *)
Definition order_at (n : Z) (ob : Orderbook) (side : OrderSide) (A : list Order) (o : Order)
    (B : list Order) : Prop :=
  exists r ob',
    get_mut ob (order_index side o) = Some r /\ deref r = o /\
    remove ob (order_index side o) = Return (Some o, ob') /\
    book_wf n ob' /\ book_orders ob' side = A ++ B /\
    book_orders ob' (opposite side) = book_orders ob (opposite side) /\
    forall o', order_key o' = order_key o -> nz_u32 (quantity o') ->
      book_wf n (write r o') /\ book_orders (write r o') side = A ++ o' :: B /\
      book_orders (write r o') (opposite side) = book_orders ob (opposite side).

Lemma book_access n ob side A o B :
  book_wf n ob -> book_orders ob side = A ++ o :: B -> order_at n ob side A o B.
Proof.
  intros Hwf Hob. pose proof (book_wf_side n ob side Hwf) as Hside.
  destruct (side_access n (side_levels ob side) (price o) (memo o) Hside) as [Hf|[Hm _]].
  2: { destruct (Hm side o); [|done]. unfold book_orders in Hob. rewrite Hob.
       apply elem_of_app. right. left. }
  destruct Hf as (o2 & r & ps' & Hr & Ho2 & Hk & Hrm & Hwf' & Hw & Hflat).
  destruct (Hflat side) as (A2 & B2 & Heq & Hrest & Hupd).
  unfold book_orders in Hob.
  destruct (NoDup_split_unique order_key A B A2 B2 o o2) as (-> & -> & ->).
  { rewrite <- Hob. by eapply flat_keys_NoDup. }
  { congruence. }
  { done. }
  unfold order_at, order_index, get_mut, remove, book_orders.
  destruct Hwf as [Hb Ha], side; cbn [side_levels opposite] in *; rewrite Hr, Hrm;
    (eexists _, _; split_and!; [done|done|done|by split|done|done|]);
    intros o' Hk' Hq'; cbn [mut_ref_map write]; (split_and!; [split; cbn; auto|apply Hupd|done]).
Qed.

Lemma push_side_spec n ob side t :
  book_wf n ob -> 0 <= n < u32_max -> nz_u32 (price t) -> nz_u32 (quantity t) ->
  exists m ob', push_side ob side t = Return (order_index side (set_memo t m), ob') /\
    book_wf (n + 1) ob' /\
    inserted side (set_memo t m) (book_orders ob side) (book_orders ob' side) /\
    book_orders ob' (opposite side) = book_orders ob (opposite side).
Proof.
  intros Hwf Hn Hp Hq. pose proof (book_wf_side n ob side Hwf) as Hside.
  pose proof (book_wf_mono n (n + 1) ob ltac:(lia) Hwf) as [Hb Ha].
  destruct (push_order_to_level_spec n _ t Hside Hn Hp Hq) as (m & ps' & Hpush & Hwf' & Hins).
  exists m. unfold push_side, push_bid, push_ask, order_index, book_orders.
  destruct side; cbn [side_levels opposite] in *; rewrite Hpush;
    (eexists; split_and!; [done|by split|by apply Hins|done]).
Qed.
End book.

(** ** The book as a finite map

    [side_map ob side]: the resting orders of a side by price and sequence
    number. *)

Definition side_map (ob : Orderbook) (side : OrderSide) : gmap (Z * Z) Order :=
  list_to_map ((fun o => (order_key o, o)) <$> book_orders ob side).

Lemma keyed_fst (l : list Order) : ((fun o => (order_key o, o)) <$> l).*1 = order_key <$> l.
Proof. by rewrite <- list_fmap_compose. Qed.

Lemma side_map_Some n ob side k o :
  book_wf n ob -> side_map ob side !! k = Some o <-> o ∈ book_orders ob side /\ order_key o = k.
Proof.
  intros Hwf. unfold side_map. rewrite <- elem_of_list_to_map.
  2: { rewrite keyed_fst. by eapply book_keys_NoDup. }
  rewrite list_elem_of_fmap. split.
  - by intros (o' & [= -> ->] & ?).
  - intros [? <-]. by exists o.
Qed.

Lemma side_map_None n ob side k :
  book_wf n ob -> (forall o, o ∈ book_orders ob side -> order_key o <> k) -> side_map ob side !! k = None.
Proof.
  intros Hwf Hk. apply eq_None_not_Some. intros [o Ho].
  apply (side_map_Some n) in Ho as [Hin <-]; [|done]. by apply (Hk o).
Qed.

(** The map of a side split at an order. *)
Lemma side_map_middle n ob side A o B :
  book_wf n ob -> book_orders ob side = A ++ o :: B ->
  side_map ob side = <[order_key o := o]> (list_to_map ((fun o => (order_key o, o)) <$> (A ++ B))) /\
  (list_to_map ((fun o => (order_key o, o)) <$> (A ++ B)) : gmap (Z * Z) Order) !! order_key o = None.
Proof.
  intros Hwf Heq. pose proof (book_keys_NoDup n ob side Hwf) as Hnd. unfold side_map. rewrite Heq in Hnd |- *.
  assert (((fun o => (order_key o, o)) <$> (A ++ o :: B)) ≡ₚ
            (order_key o, o) :: ((fun o => (order_key o, o)) <$> (A ++ B))) as Hperm.
  { rewrite <- Permutation_middle. done. }
  rewrite <- keyed_fst in Hnd. split.
  - by rewrite (list_to_map_proper _ _ Hnd Hperm).
  - rewrite Hperm in Hnd. cbn in Hnd. apply NoDup_cons in Hnd as [Hni _].
    by apply not_elem_of_list_to_map.
Qed.

Section map_interface.
Context `{BuildProfile}.

Lemma missing_access n ob side p m :
  book_wf n ob -> (forall o, o ∈ book_orders ob side -> order_key o <> (p, m)) ->
  get_mut ob (mkOrderIndex side p m) = None /\
  remove ob (mkOrderIndex side p m) = Return (None, ob).
Proof.
  intros Hwf Hk.
  destruct (side_access n (side_levels ob side) p m (book_wf_side n ob side Hwf)) as [Hf|Hm].
  - destruct Hf as (o & r & ps' & _ & _ & Hko & _ & _ & _ & Hflat).
    destruct (Hflat side) as (A & B & Heq & _). destruct (Hk o); [|done].
    unfold book_orders. rewrite Heq. apply elem_of_app. right. left.
  - destruct Hm as (_ & Hg & Hr). unfold get_mut, remove. destruct ob as [b a].
    destruct side; cbn [side_levels bids asks] in *; by rewrite Hg, Hr.
Qed.

Lemma map_access n ob side p m :
  book_wf n ob ->
  (side_map ob side !! (p, m) = None /\ get_mut ob (mkOrderIndex side p m) = None /\
   remove ob (mkOrderIndex side p m) = Return (None, ob)) \/
  (exists A o B, side_map ob side !! (p, m) = Some o /\ order_key o = (p, m) /\
     book_orders ob side = A ++ o :: B /\ order_at n ob side A o B).
Proof.
  intros Hwf. destruct (side_map ob side !! (p, m)) as [o|] eqn:Hm; [right|left].
  - apply (side_map_Some n) in Hm as [Hin Hk]; [|done].
    apply list_elem_of_split in Hin as (A & B & Heq).
    exists A, o, B. split_and!; [done|done|done|]. by apply book_access.
  - split; [done|]. apply (missing_access n); [done|]. intros o Hin Hk.
    assert (side_map ob side !! (p, m) = Some o) as Ho; [|congruence].
    by apply (side_map_Some n).
Qed.
End map_interface.

(** ** A concrete book *)

Definition demo_book : Orderbook :=
  mkOrderbook
    (mkLevels [level_of 95 1 [mkOrder 0 40 95]])
    (mkLevels [level_of 100 2 [mkOrder 0 30 100; mkOrder 1 20 100]; level_of 105 1 [mkOrder 0 50 105]]).

Ltac level_wf_concrete :=
  constructor; [by unfold_nz|lia| |repeat constructor|done];
  repeat (constructor; [unfold order_in_level; unfold_nz; cbn; lia|]); constructor.

Lemma demo_book_wf : book_wf 2 demo_book.
Proof.
  split; (split; [repeat constructor|]); cbn; repeat (constructor; [level_wf_concrete|]); constructor.
Qed.

(** ** Properties *)

Section properties.
Context `{BuildProfile}.

(** C2: an order index addresses the book like the key of a finite map:
    [get_mut] is lookup, a write through the reference is insert, and
    [remove] is delete and returns what was there; the other side and the
    book's invariant are kept, and nothing panics. *)
Theorem orderbook_refines_map n ob side p m (Hwf : book_wf n ob) :
  let ix := mkOrderIndex side p m in
  deref <$> get_mut ob ix = side_map ob side !! (p, m) /\
  (forall r o', get_mut ob ix = Some r -> order_key o' = (p, m) -> nz_u32 (quantity o') ->
     book_wf n (write r o') /\
     side_map (write r o') side = <[(p, m) := o']> (side_map ob side) /\
     book_orders (write r o') (opposite side) = book_orders ob (opposite side)) /\
  exists ob', remove ob ix = Return (side_map ob side !! (p, m), ob') /\ book_wf n ob' /\
    side_map ob' side = delete (p, m) (side_map ob side) /\
    book_orders ob' (opposite side) = book_orders ob (opposite side).
Proof.
  intros ix. subst ix.
  destruct (map_access n ob side p m Hwf) as [(Hm & Hg & Hr)|(A & o & B & Hm & Hk & Heq & Hat)].
  - rewrite Hm, Hg. split_and!; [done|by intros|]. exists ob. split_and!; [done|done| |done].
    by rewrite delete_id.
  - destruct Hat as (r & ob' & Hg & Hd & Hr & Hwf' & Hrest & Hopp & Hw).
    unfold order_index in Hg, Hr. injection Hk as Hp Hmm. rewrite Hp, Hmm in Hg, Hr.
    destruct (side_map_middle n ob side A o B Hwf Heq) as [Hmap Hnone].
    assert (order_key o = (p, m)) as Hk by (unfold order_key; by rewrite Hp, Hmm).
    rewrite Hk in Hmap, Hnone. split_and!.
    + rewrite Hg, Hm. cbn. by rewrite Hd.
    + intros r' o' Hr' Hk' Hq. rewrite Hg in Hr'. injection Hr' as <-.
      destruct (Hw o') as (Hwf2 & Heq2 & Hopp2); [congruence|done|].
      split_and!; [done| |done].
      destruct (side_map_middle n _ side A o' B Hwf2 Heq2) as [Hmap2 _].
      by rewrite Hmap2, Hk', Hmap, insert_insert_eq.
    + exists ob'. rewrite Hr, Hm. split_and!; [done|done| |done].
      rewrite Hmap, delete_insert_id by done. unfold side_map. by rewrite Hrest.
Qed.

(** C9: pushing an order stores it under a fresh index of its side and
    price, behind every resting order that is at least as good and ahead of
    every worse one. *)
Theorem push_inserts_fresh n ob side t (Hwf : book_wf n ob) (Hn : 0 <= n < u32_max)
    (Hp : nz_u32 (price t)) (Hq : nz_u32 (quantity t)) :
  exists m ob', push_side ob side t = Return (mkOrderIndex side (price t) m, ob') /\
    book_wf (n + 1) ob' /\
    side_map ob side !! (price t, m) = None /\
    side_map ob' side = <[(price t, m) := set_memo t m]> (side_map ob side) /\
    inserted side (set_memo t m) (book_orders ob side) (book_orders ob' side) /\
    book_orders ob' (opposite side) = book_orders ob (opposite side).
Proof.
  destruct (push_side_spec n ob side t Hwf Hn Hp Hq) as (m & ob' & Hpush & Hwf' & Hins & Hopp).
  exists m, ob'. pose proof Hins as (A & B & Heq & Heq' & _ & _).
  destruct (side_map_middle _ ob' side A (set_memo t m) B Hwf' Heq') as [Hmap Hnone].
  assert (side_map ob side = list_to_map ((fun o => (order_key o, o)) <$> (A ++ B))) as Hob
    by (unfold side_map; by rewrite Heq).
  split_and!; [exact Hpush|done| | |done|done]; by rewrite Hob.
Qed.

(** C10: the iterator the matching loop walks yields the resting orders of a
    side once each, in price-time order (best price first, then lowest
    sequence number), each with the index that finds it. *)
Theorem iter_rel_price_time n ob side (Hwf : book_wf n ob) :
  exists l, iter_rel ob side = (fun o => Return (order_index side o, o)) <$> l /\
    StronglySorted (before side) l /\
    (forall o, o ∈ l <-> side_map ob side !! order_key o = Some o) /\
    Forall (fun o => deref <$> get_mut ob (order_index side o) = Some o) l.
Proof.
  exists (book_orders ob side).
  split_and!; [by apply (iter_rel_orders n)|by eapply book_orders_sorted| |].
  - intros o. rewrite (side_map_Some n) by done. tauto.
  - rewrite Forall_forall. intros o (A & B & Heq)%list_elem_of_split.
    destruct (book_access n ob side A o B Hwf Heq) as (r & _ & Hg & Hd & _).
    rewrite Hg. cbn. by rewrite Hd.
Qed.
End properties.

(** ** Sequence numbers are reused *)

Section reuse.
Context `{BuildProfile}.

Lemma push_first_memo n ps t :
  levels_wf n ps -> 0 <= n < u32_max -> nz_u32 (price t) ->
  (forall side o, o ∈ flat side (levels ps) -> price o <> price t) ->
  exists ps', push_order_to_level ps t = Return ((price t, 0), ps').
Proof.
  intros Hwf Hn Hp Hno. pose proof (find_level_split n (price t) ps Hwf) as Hsplit.
  unfold push_order_to_level. destruct ps as [ls]. cbn [levels] in *.
  destruct (find_level (price t) _) as [i|i].
  - inversion Hsplit as [L1 lv L2 -> Hlp Hi|]; subst i.
    destruct Hwf as [_ Hf]. cbn in Hf. rewrite Forall_app, Forall_cons in Hf.
    destruct Hf as (_ & Hlv & _). destruct (level_wf_elim n lv Hlv) as (s & os & Hlveq & _).
    rewrite Hlp in Hlveq. subst lv.
    destruct (level_wf_inv _ _ _ _ Hlv) as (_ & _ & Hos & _ & Hne).
    destruct os as [|o os]; [done|]. exfalso. apply (Hno Sell o).
    + apply elem_of_flat. exists (level_of (price t) s (o :: os)). rewrite level_orders_of.
      split; [left|]. apply elem_of_app. right. left.
    + apply Forall_cons in Hos as [[Ho _] _]. exact Ho.
  - inversion Hsplit as [|L1 L2 -> _ _ Hi]; subst i.
    change (mkPriceLevel (price t) 0 []) with (level_of (price t) 0 []).
    rewrite (push_order_of n) by (done || lia). cbn [mbind outcome_bind].
    rewrite vec_insert_middle. by eexists.
Qed.

Lemma push_side_first n ob side t :
  book_wf n ob -> 0 <= n < u32_max -> nz_u32 (price t) -> nz_u32 (quantity t) ->
  Forall (fun o => price o <> price t) (book_orders ob side) ->
  exists ob', push_side ob side t = Return (mkOrderIndex side (price t) 0, ob') /\
    book_wf (n + 1) ob' /\
    inserted side (set_memo t 0) (book_orders ob side) (book_orders ob' side).
Proof.
  intros Hwf Hn Hp Hq Hno. rewrite Forall_forall in Hno.
  destruct (push_side_spec n ob side t Hwf Hn Hp Hq) as (m & ob' & Hpush & Hwf' & Hins & _).
  destruct (push_first_memo n (side_levels ob side) t) as [ps' Hps]; [by apply book_wf_side|done|done| |].
  { intros s o Ho. apply Hno. unfold book_orders. by rewrite elem_of_flat in Ho |- *. }
  assert (m = 0) as ->.
  { unfold push_side, push_bid, push_ask in Hpush.
    destruct side; cbn [side_levels] in Hps; rewrite Hps in Hpush; cbn in Hpush; by injection Hpush. }
  by exists ob'.
Qed.

(** The index of an order that has left the book is given out again:
    after the only order of a price is removed, the next order at that price
    gets the same [OrderIndex], so an index kept from before resolves to a
    different order. *)
Theorem order_index_reused n ob side t1 t2 (Hwf : book_wf n ob) (Hn : 0 <= n) (Hn' : n + 1 < u32_max)
    (Hp : nz_u32 (price t1)) (Hq1 : nz_u32 (quantity t1)) (Hq2 : nz_u32 (quantity t2))
    (Hprice : price t2 = price t1)
    (Hno : Forall (fun o => price o <> price t1) (book_orders ob side)) :
  exists ix ob1 ob2 ob3,
    push_side ob side t1 = Return (ix, ob1) /\
    remove ob1 ix = Return (Some (set_memo t1 0), ob2) /\
    push_side ob2 side t2 = Return (ix, ob3) /\
    deref <$> get_mut ob3 ix = Some (set_memo t2 0).
Proof.
  destruct (push_side_first n ob side t1 Hwf ltac:(lia) Hp Hq1 Hno) as (ob1 & H1 & Hwf1 & Hins1).
  destruct Hins1 as (A & B & Heq & Heq1 & _).
  destruct (book_access _ ob1 side A _ B Hwf1 Heq1) as (_ & ob2 & _ & _ & H2 & Hwf2 & Hrest & _ & _).
  destruct (push_side_first (n + 1) ob2 side t2 Hwf2 ltac:(lia)) as (ob3 & H3 & Hwf3 & Hins3);
    [by rewrite Hprice|done|by rewrite Hrest, <- Heq, Hprice|].
  destruct Hins3 as (A3 & B3 & _ & Heq3 & _).
  destruct (book_access _ ob3 side A3 _ B3 Hwf3 Heq3) as (r & _ & Hg & Hd & _).
  exists (order_index side (set_memo t1 0)), ob1, ob2, ob3.
  split_and!; [exact H1|exact H2|by rewrite H3; unfold order_index; cbn; rewrite Hprice|].
  unfold order_index in *. cbn in *. rewrite <- Hprice, Hg. cbn. by rewrite Hd.
Qed.

(** Push an order and take it out again, [k] times. *)
Fixpoint churn (k : nat) (lv : PriceLevel) (t : Order) : outcome PriceLevel :=
  match k with
  | O => Return lv
  | S k' =>
      lv' ← churn k' lv t;
      '((_, m), lv1) ← push_order lv' t;
      '(_, lv2) ← remove_order lv1 m;
      Return lv2
  end.

Lemma remove_last p s os t :
  Forall (fun o => memo o <> memo t) os ->
  remove_order (level_of p s (os ++ [t])) (memo t) = Return (Some t, level_of p s os).
Proof.
  intros Hne. rewrite remove_order_of.
  destruct (list_find_memo_split (memo t) (os ++ [t])) as [a o b Heq Hm|Hall].
  - destruct (decide (b = [])) as [->|Hb].
    + apply app_inj_tail in Heq as [-> ->].
      rewrite delete_middle. by rewrite app_nil_r.
    + exfalso. destruct (exists_last Hb) as (b' & x & ->).
      rewrite app_comm_cons, app_assoc in Heq. apply app_inj_tail in Heq as [-> _].
      rewrite Forall_app, Forall_cons in Hne. tauto.
  - rewrite Forall_app, Forall_singleton in Hall. by destruct Hall.
Qed.

Lemma churn_seq k p o t :
  nz_u32 p -> memo o = 0 -> 1 + Z.of_nat k <= u32_max ->
  churn k (level_of p 1 [o]) t = Return (level_of p (1 + Z.of_nat k) [o]).
Proof.
  intros Hp Ho. induction k as [|k IH]; intros Hk; [done|].
  cbn [churn]. rewrite IH by lia. cbn [mbind outcome_bind].
  rewrite (push_order_of (1 + Z.of_nat k)) by (done || lia). cbn [mbind outcome_bind].
  rewrite (remove_last p _ [o] (set_memo t (1 + Z.of_nat k))).
  - cbn [mbind outcome_bind]. do 2 f_equal. lia.
  - apply Forall_singleton. cbn. lia.
Qed.
End reuse.

(** The push after the counter has reached its maximum. *)
Lemma memo_seq_end p o t k :
  nz_u32 p -> memo o = 0 -> 1 + Z.of_nat k = u32_max ->
  churn (H := debug_profile) (S k) (level_of p 1 [o]) t = Panic "attempt to add with overflow" /\
  exists lv, churn (H := release_profile) (S k) (level_of p 1 [o]) t = Return lv /\
    push_order (H := release_profile) lv t = Return ((p, 0), level_of p 1 [o; set_memo t 0]).
Proof.
  intros Hp Ho Hk.
  assert (NonZeroU32_new p = Some p) as Hnz by (apply NonZeroU32_new_pos; apply Hp).
  cbn [churn]. rewrite !churn_seq by (done || lia). rewrite Hk.
  cbn [mbind outcome_bind]. unfold push_order at 1 2. cbn [level_of level_price memo_seq inner].
  rewrite Hnz. cbn [mbind outcome_bind expect]. split; [done|].
  change (u32_add (H := release_profile) u32_max 1) with (Return 0). cbn [mbind outcome_bind].
  change (mkPriceLevel p 0 ((Some <$> [o]) ++ [Some (set_memo t u32_max)]))
    with (level_of p 0 ([o] ++ [set_memo t u32_max])).
  pose proof (remove_last p 0 [o] (set_memo t u32_max)) as Hrm.
  cbn [set_memo memo] in Hrm. rewrite Hrm by (apply Forall_singleton; rewrite Ho; unfold u32_max; lia).
  cbn [mbind outcome_bind]. eexists. split; [done|].
  by rewrite (push_order_of 0) by (done || unfold u32_max; lia).
Qed.

(** The sequence counter of a level is a [u32] that is never reset while
    the level lives. With overflow checks the push after 2^32 - 1 others
    panics; without them the counter wraps to 0, and the order pushed next
    shares its index with an order that is still resting. *)
Theorem memo_seq_wraps p o t (Hp : nz_u32 p) (Ho : memo o = 0) :
  exists k, Z.of_nat k = u32_max /\
    churn (H := debug_profile) k (level_of p 1 [o]) t = Panic "attempt to add with overflow" /\
    exists lv, churn (H := release_profile) k (level_of p 1 [o]) t = Return lv /\
      push_order (H := release_profile) lv t = Return ((p, 0), level_of p 1 [o; set_memo t 0]).
Proof.
  assert (exists k, 1 + Z.of_nat k = u32_max) as [k Hk].
  { exists (Z.to_nat (u32_max - 1)). rewrite Z2Nat.id; [reflexivity|]. by apply Z.leb_le. }
  exists (S k). split; [by rewrite Nat2Z.inj_succ, <- Hk, Z.add_1_l|by apply memo_seq_end].
Qed.

(** ** The properties at a concrete book *)

Definition demo_order : Order := mkOrder u32_max 7 100.

Section witnesses.
#[local] Existing Instance debug_profile.

Lemma orderbook_refines_map_witness :
  book_wf 2 demo_book /\
  deref <$> get_mut demo_book (mkOrderIndex Sell 100 1) = Some (mkOrder 1 20 100) /\
  side_map demo_book Sell !! (100, 1) = Some (mkOrder 1 20 100) /\
  exists ob', remove demo_book (mkOrderIndex Sell 100 1) = Return (Some (mkOrder 1 20 100), ob') /\
    side_map ob' Sell = delete (100, 1) (side_map demo_book Sell).
Proof.
  destruct (orderbook_refines_map 2 demo_book Sell 100 1 demo_book_wf)
    as (_ & _ & ob' & Hr & _ & Hm & _).
  split; [apply demo_book_wf|]. split; [reflexivity|]. split; [reflexivity|].
  exists ob'. split; [exact Hr|exact Hm].
Defined.

Lemma push_inserts_fresh_witness :
  book_wf 2 demo_book /\ 0 <= 2 < u32_max /\
  exists m ob', push_side demo_book Sell demo_order = Return (mkOrderIndex Sell 100 m, ob') /\
    side_map demo_book Sell !! (100, m) = None.
Proof.
  destruct (push_inserts_fresh 2 demo_book Sell demo_order demo_book_wf) as (m & ob' & Hr & _ & Hm & _);
    [by unfold u32_max|by unfold_nz|by unfold_nz|].
  split; [apply demo_book_wf|]. split; [by unfold u32_max|].
  exists m, ob'. split; [exact Hr|exact Hm].
Defined.

Lemma iter_rel_price_time_witness :
  book_wf 2 demo_book /\
  exists l, iter_rel demo_book Sell = (fun o => Return (order_index Sell o, o)) <$> l /\
    StronglySorted (before Sell) l.
Proof.
  destruct (iter_rel_price_time 2 demo_book Sell demo_book_wf) as (l & Hl & Hs & _).
  split; [apply demo_book_wf|]. exists l. split; [exact Hl|exact Hs].
Defined.

Lemma order_index_reused_witness :
  book_wf 2 demo_book /\ Forall (fun o => price o <> 110) (book_orders demo_book Sell) /\
  exists ix ob1 ob2 ob3,
    push_side demo_book Sell (mkOrder 0 5 110) = Return (ix, ob1) /\
    remove ob1 ix = Return (Some (mkOrder 0 5 110), ob2) /\
    push_side ob2 Sell (mkOrder 0 9 110) = Return (ix, ob3) /\
    deref <$> get_mut ob3 ix = Some (mkOrder 0 9 110).
Proof.
  assert (Forall (fun o => price o <> 110) (book_orders demo_book Sell)) as Hno
    by (by repeat constructor).
  split; [apply demo_book_wf|]. split; [exact Hno|].
  apply (order_index_reused 2 demo_book Sell (mkOrder 0 5 110) (mkOrder 0 9 110) demo_book_wf);
    first [exact Hno|by unfold_nz].
Defined.

Lemma memo_seq_wraps_witness :
  nz_u32 100 /\
  exists k, Z.of_nat k = u32_max /\
    churn (H := debug_profile) k (level_of 100 1 [mkOrder 0 5 100]) demo_order =
      Panic "attempt to add with overflow".
Proof.
  assert (nz_u32 100) as Hp by (by unfold_nz). split; [exact Hp|].
  destruct (memo_seq_wraps 100 (mkOrder 0 5 100) demo_order Hp eq_refl) as (k & Hk & Hd & _).
  exists k. split; [exact Hk|exact Hd].
Defined.
End witnesses.
