(* ===== verification/PendingFill.v ===== *)
(** * Pending fills and their commit
    (src/exchange/src/trading/pending_fill.rs).

    A [PendingFill] holds the book it was computed from by exclusive
    reference, so its [pf_orderbook] is the book itself until [commit] or
    [abort] gives it back. *)

From S2P Require Import Prelude Orderbook.

(** ** Data *)

Inductive FillType : Type := Complete | Partial | FillNone.

#[export] Instance FillType_eq_dec : EqDecision FillType.
Proof. solve_decision. Defined.

Inductive ExecutePendingFillError : Type := InvalidOrderIndex (oix : OrderIndex).

Record MakerFill : Type :=
  mkMakerFill { oix : OrderIndex; maker : Order; fill_type : FillType; fill_amount : Z }.

Record PendingFill : Type := mkPendingFill {
  pf_orderbook : Orderbook;
  pf_taker : Order;
  pf_side : OrderSide;
  pf_order_type : OrderType;
  maker_fills : list MakerFill;
  pf_taker_fill_outcome : FillType }.

Definition PendingFill_new (orderbook : Orderbook) (taker : Order) (side : OrderSide)
    (order_type : OrderType) (fills : list MakerFill) (taker_fill_outcome : FillType) : PendingFill :=
  mkPendingFill orderbook taker side order_type fills taker_fill_outcome.

Definition taker_side (pf : PendingFill) : OrderSide := pf_side pf.
Definition taker_order_type (pf : PendingFill) : OrderType := pf_order_type pf.
Definition taker_fill_outcome (pf : PendingFill) : FillType := pf_taker_fill_outcome pf.

(** The book after the fill is dropped without being executed. *)
Definition abort (pf : PendingFill) : Orderbook := pf_orderbook pf.

(** ** Commit *)

Section commit.
Context `{BuildProfile}.

(** The first loop: every index still resolves. *)
Fixpoint check_fills (ob : Orderbook) (fills : list MakerFill) : result unit ExecutePendingFillError :=
  match fills with
  | [] => Ok tt
  | fill :: fills' =>
      match get_mut ob (oix fill) with
      | None => Err (InvalidOrderIndex (oix fill))
      | Some _ => check_fills ob fills'
      end
  end.

(** The second loop: execute the fills in order; [rem] is
    [taker_order_remaining_quantity]. *)
Fixpoint execute_fills (ob : Orderbook) (rem : Z) (fills : list MakerFill) :
    outcome (Orderbook * result Z ExecutePendingFillError) :=
  match fills with
  | [] => Return (ob, Ok rem)
  | mkMakerFill oix order fill_type _ :: fills' =>
      match fill_type with
      | Complete =>
          '(maker_order, ob') ← remove ob oix;
          match maker_order with
          | None => Return (ob', Err (InvalidOrderIndex oix))
          | Some maker_order =>
              _ ← assert_ (bool_decide (maker_order = order)) "assertion failed: maker_order == order";
              rem' ← u32_sub rem (quantity maker_order);
              execute_fills ob' rem' fills'
          end
      | Partial =>
          match get_mut ob oix with
          | None => Return (ob, Err (InvalidOrderIndex oix))
          | Some r =>
              let maker_order := deref r in
              _ ← assert_ (bool_decide (maker_order = order)) "assertion failed: *maker_order == order";
              _ ← assert_ (rem <? quantity maker_order)
                    "assertion failed: taker_order_remaining_quantity < maker_order.quantity.get()";
              q ← u32_sub (quantity maker_order) rem;
              q ← expect (NonZeroU32_new q)
                    "partial fills of maker orders will always have a quantity greater than zero";
              execute_fills (write r (set_quantity maker_order q)) 0 fills'
          end
      | FillNone => Panic "internal error: entered unreachable code"
      end
  end.

Definition check_outcome (outcome_ : FillType) (taker_q rem : Z) : outcome unit :=
  match outcome_ with
  | Complete => assert_ (rem =? 0) "assertion failed: taker_order_remaining_quantity == 0"
  | Partial => assert_ (rem <? taker_q) "assertion failed: self.taker.quantity.get() > taker_order_remaining_quantity"
  | FillNone => assert_ (rem =? taker_q) "assertion failed: taker_order_remaining_quantity == self.taker.quantity.get()"
  end.

Definition commit (pf : PendingFill) :
    outcome (Orderbook * result (FillType * option Order) ExecutePendingFillError) :=
  let ob := pf_orderbook pf in
  match check_fills ob (maker_fills pf) with
  | Err e => Return (ob, Err e)
  | Ok _ =>
      '(ob', r) ← execute_fills ob (quantity (pf_taker pf)) (maker_fills pf);
      match r with
      | Err e => Return (ob', Err e)
      | Ok rem =>
          _ ← check_outcome (pf_taker_fill_outcome pf) (quantity (pf_taker pf)) rem;
          let taker_order := set_quantity (pf_taker pf) <$> NonZeroU32_new rem in
          Return (ob', Ok (pf_taker_fill_outcome pf, taker_order))
      end
  end.
End commit.

(** ** Which fills can be executed

    [fill_plan rem fills left]: starting from [rem] units of the taker, every
    fill but the last takes its maker whole, and [left] units remain. *)

Inductive fill_plan : Z -> list MakerFill -> Z -> Prop :=
| plan_done rem : fill_plan rem [] rem
| plan_complete rem left i o fills :
    quantity o <= rem -> fill_plan (rem - quantity o) fills left ->
    fill_plan rem (mkMakerFill i o Complete (quantity o) :: fills) left
| plan_partial rem i o :
    0 < rem < quantity o -> fill_plan rem [mkMakerFill i o Partial rem] 0.

(** The makers of the side [side], once the fills are executed on them. *)
Fixpoint settle (fills : list MakerFill) (makers : list Order) : list Order :=
  match fills, makers with
  | mkMakerFill _ _ Complete _ :: fills', _ :: makers' => settle fills' makers'
  | mkMakerFill _ _ Partial q :: _, o :: makers' => set_quantity o (quantity o - q) :: makers'
  | _, _ => makers
  end.

Definition fills_of (side : OrderSide) (fills : list MakerFill) : Prop :=
  Forall (fun f => oix f = order_index side (maker f)) fills.

Section facts.
Context `{BuildProfile}.

Lemma check_fills_ok n ob side fills :
  book_wf n ob -> fills_of side fills ->
  (forall f, f ∈ fills -> maker f ∈ book_orders ob side) ->
  check_fills ob fills = Ok tt.
Proof.
  intros Hwf Hside Hin. induction fills as [|f fills IH]; [done|]. cbn.
  apply Forall_cons in Hside as [-> Hside].
  destruct (list_elem_of_split (book_orders ob side) (maker f)) as (A & B & Heq);
    [apply Hin; left|].
  destruct (book_access n ob side A _ B Hwf Heq) as (r & _ & -> & _).
  apply IH; [done|]. intros g ?. apply Hin. by right.
Qed.

(** Executing a plan on the front of a side settles exactly those makers. *)
Lemma execute_fills_plan n side fills ob rem left makers :
  book_wf n ob -> fills_of side fills -> fill_plan rem fills left ->
  book_orders ob side = (maker <$> fills) ++ makers ->
  exists ob', execute_fills ob rem fills = Return (ob', Ok left) /\ book_wf n ob' /\
    book_orders ob' side = settle fills ((maker <$> fills) ++ makers) /\
    book_orders ob' (opposite side) = book_orders ob (opposite side).
Proof.
  intros Hwf Hside Hplan. revert ob Hwf.
  induction Hplan as [rem|rem left i o fills Hle Hplan IH|rem i o Hrem]; intros ob Hwf Heq.
  - by exists ob.
  - apply Forall_cons in Hside as [Hi Hside]. cbn in Hi, Heq |- *. subst i.
    destruct (book_access n ob side [] o _ Hwf Heq)
      as (r & ob' & _ & _ & Hrm & Hwf' & Hrest & Hopp & _).
    step_bind Hrm. rewrite bool_decide_true by done. cbn [assert_ mbind outcome_bind].
    rewrite u32_sub_small by lia. cbn [mbind outcome_bind].
    destruct (IH Hside ob' Hwf' Hrest) as (ob'' & ? & ? & ? & Hopp').
    exists ob''. split_and!; [done..|]. congruence.
  - apply Forall_cons in Hside as [Hi _]. cbn in Hi, Heq |- *. subst i.
    destruct (book_access n ob side [] o _ Hwf Heq)
      as (r & ob' & Hr & Hd & _ & _ & _ & _ & Hw).
    rewrite Hr, Hd, bool_decide_true by done. cbn [assert_ mbind outcome_bind].
    destruct (Z.ltb_spec rem (quantity o)); [|lia]. cbn [assert_ mbind outcome_bind].
    rewrite u32_sub_small by lia. cbn [mbind outcome_bind].
    rewrite NonZeroU32_new_pos by lia. cbn [mbind outcome_bind expect].
    destruct (Hw (set_quantity o (quantity o - rem))) as (? & ? & ?); [done| |].
    { pose proof (book_orders_wf n ob side Hwf) as Hq. rewrite Heq in Hq.
      apply Forall_cons in Hq as [[_ Hq] _]. unfold nz_u32 in *. cbn. lia. }
    eexists. split_and!; [done..].
Qed.

(** The outcome a taker of [q] units sees when [left] of them remain. *)
Definition outcome_of (q left : Z) : FillType :=
  if left =? 0 then Complete else if left =? q then FillNone else Partial.

Lemma fill_plan_bounds rem fills left :
  fill_plan rem fills left -> Forall (fun f => 0 < quantity (maker f)) fills ->
  0 <= rem -> 0 <= left <= rem.
Proof.
  induction 1 as [| rem left i o fills Hle _ IH |]; intros Hq Hrem; [lia| |lia].
  apply Forall_cons in Hq as [Hq1 Hq]. cbn in Hq1. specialize (IH Hq). lia.
Qed.

Lemma check_outcome_ok q left :
  0 < q -> 0 <= left <= q -> check_outcome (outcome_of q left) q left = Return tt.
Proof.
  intros Hq Hl. unfold outcome_of.
  destruct (Z.eqb_spec left 0) as [->|]; [done|].
  destruct (Z.eqb_spec left q) as [->|]; cbn; [by rewrite Z.eqb_refl|].
  by destruct (Z.ltb_spec left q); [|lia].
Qed.

(** What the taker keeps: nothing, or itself with the remaining quantity. *)
Definition remainder (taker : Order) (left : Z) : option Order :=
  set_quantity taker <$> NonZeroU32_new left.

Lemma commit_plan n side ob taker ot fills left makers :
  book_wf n ob -> 0 < quantity taker -> fills_of (opposite side) fills ->
  fill_plan (quantity taker) fills left ->
  book_orders ob (opposite side) = (maker <$> fills) ++ makers ->
  exists ob',
    commit (PendingFill_new ob taker side ot fills (outcome_of (quantity taker) left)) =
      Return (ob', Ok (outcome_of (quantity taker) left, remainder taker left)) /\
    book_wf n ob' /\
    book_orders ob' (opposite side) = settle fills ((maker <$> fills) ++ makers) /\
    book_orders ob' side = book_orders ob side.
Proof.
  intros Hwf Hq Hside Hplan Hob. unfold commit, PendingFill_new.
  cbn [pf_orderbook maker_fills pf_taker pf_taker_fill_outcome].
  rewrite (check_fills_ok n ob (opposite side)); [|done|done|].
  2: { intros f Hf. rewrite Hob. apply elem_of_app. left. by apply list_elem_of_fmap_2. }
  destruct (execute_fills_plan n _ _ ob _ _ _ Hwf Hside Hplan Hob) as (ob' & Hex & Hwf' & ? & Hopp).
  step_bind Hex.
  rewrite check_outcome_ok; [|done|].
  2: { eapply fill_plan_bounds; [done| |lia].
       pose proof (book_orders_wf n ob (opposite side) Hwf) as Hf. rewrite Hob in Hf.
       apply Forall_app in Hf as [Hf _]. rewrite Forall_fmap in Hf.
       eapply Forall_impl; [exact Hf|]. cbn. unfold nz_u32. intros f Hf'. lia. }
  exists ob'. split_and!; [done..|]. by destruct side.
Qed.
End facts.

Lemma check_fills_stale ob fills f :
  f ∈ fills -> get_mut ob (oix f) = None ->
  exists i, check_fills ob fills = Err (InvalidOrderIndex i) /\ get_mut ob i = None.
Proof.
  intros Hf Hstale. induction fills as [|g fills IH]; [by apply elem_of_nil in Hf|]. cbn.
  destruct (get_mut ob (oix g)) eqn:Hg; [|by exists (oix g)].
  apply elem_of_cons in Hf as [->|Hf]; [congruence|]. by apply IH.
Qed.

(** ** Properties *)

Section properties.
Context `{BuildProfile}.

(** A pending fill one of whose indices no longer resolves is refused
    with [InvalidOrderIndex] before anything is executed: the book is left
    as it was, whatever the other fills are. *)
Theorem commit_rejects_stale_index pf f (Hf : f ∈ maker_fills pf)
    (Hstale : get_mut (pf_orderbook pf) (oix f) = None) :
  exists i, commit pf = Return (pf_orderbook pf, Err (InvalidOrderIndex i)) /\
    get_mut (pf_orderbook pf) i = None.
Proof.
  destruct (check_fills_stale _ _ _ Hf Hstale) as (i & Hi & Hn). exists i.
  unfold commit. by rewrite Hi.
Qed.
End properties.

Section witnesses.
#[local] Existing Instance debug_profile.

Lemma commit_rejects_stale_index_witness :
  let stale := mkOrderIndex Sell 42 7 in
  let pf := PendingFill_new demo_book (mkOrder 7 5 42) Buy Limit
              [mkMakerFill stale (mkOrder 7 5 42) Complete 5] Complete in
  exists i, commit pf = Return (demo_book, Err (InvalidOrderIndex i)) /\
    get_mut demo_book i = None.
Proof.
  apply (commit_rejects_stale_index
           (PendingFill_new demo_book (mkOrder 7 5 42) Buy Limit
              [mkMakerFill (mkOrderIndex Sell 42 7) (mkOrder 7 5 42) Complete 5] Complete)
           (mkMakerFill (mkOrderIndex Sell 42 7) (mkOrder 7 5 42) Complete 5)).
  - apply list_elem_of_singleton. reflexivity.
  - vm_compute. reflexivity.
Defined.
End witnesses.
