(* ===== verification/TryFill.v ===== *)
(** * Matching a taker against the book
    (src/exchange/src/trading/try_fill_order.rs). *)

From S2P Require Import Prelude Orderbook PendingFill.

(** [Infallible] has no values. *)
Definition Infallible : Type := Empty_set.

Section try_fill.
Context `{BuildProfile}.

(** The [continue] of the loop: a limit order that the maker's price does
    not satisfy. *)
Definition skips (side : OrderSide) (order_type : OrderType) (taker order : Order) : bool :=
  bool_decide (order_type = Limit) &&
  ((bool_decide (side = Buy) && (price taker <? price order)) ||
   (bool_decide (side = Sell) && (price order <? price taker))).

(** One entry per maker; stops with [break] when the taker is filled. *)
Fixpoint fill_loop (side : OrderSide) (order_type : OrderType) (taker : Order)
    (it : list (outcome (OrderIndex * Order)))
    (fills : list MakerFill) (taker_fill_outcome : FillType) (taker_rem_q : Z) :
    outcome (list MakerFill * FillType * Z) :=
  match it with
  | [] => Return (fills, taker_fill_outcome, taker_rem_q)
  | item :: it' =>
      '(oix, order) ← item;
      if skips side order_type taker order
      then fill_loop side order_type taker it' fills taker_fill_outcome taker_rem_q
      else
        let fill_amount := Z.min (quantity order) taker_rem_q in
        let fill_type := if fill_amount =? quantity order then Complete else Partial in
        let fills := fills ++ [mkMakerFill oix order fill_type fill_amount] in
        if taker_rem_q =? fill_amount
        then Return (fills, Complete, 0)
        else
          taker_rem_q' ← u32_sub taker_rem_q fill_amount;
          fill_loop side order_type taker it' fills Partial taker_rem_q'
  end.

Definition try_fill_orders (orderbook : Orderbook) (taker : Order) (side : OrderSide)
    (order_type : OrderType) : outcome (result PendingFill Infallible) :=
  let maker_side := match side with Buy => Sell | Sell => Buy end in
  '(fills, taker_fill_outcome, taker_rem_q) ←
    fill_loop side order_type taker (iter_rel orderbook maker_side) [] FillNone (quantity taker);
  let taker_fill_outcome :=
    if taker_rem_q =? quantity taker then FillNone else taker_fill_outcome in
  Return (Ok (PendingFill_new orderbook taker side order_type fills taker_fill_outcome)).
End try_fill.

(** ** The matching rule

    [greedy q makers]: take from the makers in turn until [q] units are
    taken. The reference the loop is compared with. *)

Fixpoint greedy (side : OrderSide) (q : Z) (makers : list Order) : list MakerFill :=
  match makers with
  | [] => []
  | o :: makers' =>
      if q <=? 0 then []
      else if q <? quantity o then [mkMakerFill (order_index side o) o Partial q]
      else mkMakerFill (order_index side o) o Complete (quantity o)
             :: greedy side (q - quantity o) makers'
  end.

(** What [greedy] leaves of [q]. *)
Fixpoint unfilled (q : Z) (makers : list Order) : Z :=
  match makers with
  | [] => q
  | o :: makers' => if q <=? quantity o then 0 else unfilled (q - quantity o) makers'
  end.

(** The makers a taker may trade with: a prefix of the side, as the side is
    sorted by price. *)
Fixpoint takeWhile {A} (p : A -> bool) (l : list A) : list A :=
  match l with
  | [] => []
  | a :: l' => if p a then a :: takeWhile p l' else []
  end.
Fixpoint dropWhile {A} (p : A -> bool) (l : list A) : list A :=
  match l with
  | [] => []
  | a :: l' => if p a then dropWhile p l' else l
  end.

Definition tradable (side : OrderSide) (ot : OrderType) (taker o : Order) : bool :=
  negb (skips side ot taker o).

Definition counterparties (ob : Orderbook) (side : OrderSide) (ot : OrderType) (taker : Order) :
    list Order :=
  takeWhile (tradable side ot taker) (book_orders ob (opposite side)).

Lemma takeWhile_dropWhile {A} (p : A -> bool) l : takeWhile p l ++ dropWhile p l = l.
Proof. induction l as [|a l IH]; [done|]. cbn. destruct (p a); [|done]. cbn. by rewrite IH. Qed.

(** [dropWhile] starts at the first element that fails the test, and on a
    list where the test is never met again, nothing after it passes. *)
Definition downward {A} (R : relation A) (p : A -> bool) : Prop :=
  forall a b, R a b -> p b = true -> p a = true.

Lemma dropWhile_all {A} (R : relation A) p (l : list A) :
  downward R p -> StronglySorted R l -> Forall (fun a => p a = false) (dropWhile p l).
Proof.
  intros Hd. induction 1 as [|a l Hs IH Hall]; cbn; [constructor|].
  destruct (p a) eqn:Ha; [done|]. constructor; [done|].
  eapply Forall_impl; [exact Hall|]. intros b Hb.
  destruct (p b) eqn:Hpb; [|done]. by rewrite (Hd a b Hb Hpb) in Ha.
Qed.

Lemma skips_true side ot taker o :
  skips side ot taker o = true <-> ot = Limit /\ better_price (opposite side) (price taker) (price o).
Proof.
  unfold skips. destruct ot, side; cbn; rewrite ?andb_false_l, ?andb_true_l, ?orb_false_r;
    rewrite ?orb_false_l, ?Z.ltb_lt; intuition congruence.
Qed.

Lemma tradable_downward side ot taker :
  downward (before (opposite side)) (tradable side ot taker).
Proof.
  intros a b Hab Hb. unfold tradable in *. apply negb_true_iff in Hb. apply negb_true_iff.
  apply not_true_iff_false. apply not_true_iff_false in Hb. rewrite skips_true in Hb |- *.
  intros [-> Ha]. apply Hb. split; [done|].
  unfold before, better_price in *. destruct side; cbn in *; lia.
Qed.

(** ** The loop computes the greedy matching *)

Lemma unfilled_0 q l : 0 < q -> Forall (fun o => 0 < quantity o) l -> 0 <= unfilled q l <= q.
Proof.
  intros Hq Hl. revert q Hq. induction Hl as [|o l Ho Hl IH]; intros q Hq; cbn; [lia|].
  destruct (Z.leb_spec q (quantity o)); [lia|]. specialize (IH (q - quantity o) ltac:(lia)). lia.
Qed.

Lemma unfilled_lt q o l :
  0 < q -> Forall (fun o => 0 < quantity o) (o :: l) -> unfilled q (o :: l) < q.
Proof.
  intros Hq [Ho Hl]%Forall_cons. cbn. destruct (Z.leb_spec q (quantity o)); [lia|].
  pose proof (unfilled_0 (q - quantity o) l ltac:(lia) Hl). lia.
Qed.

Lemma greedy_plan side q l :
  0 < q -> Forall (fun o => 0 < quantity o) l -> fill_plan q (greedy side q l) (unfilled q l).
Proof.
  intros Hq Hl. revert q Hq. induction Hl as [|o l Ho Hl IH]; intros q Hq; cbn; [constructor|].
  destruct (Z.leb_spec q 0); [lia|]. destruct (Z.ltb_spec q (quantity o)).
  - destruct (Z.leb_spec q (quantity o)); [|lia]. constructor. lia.
  - constructor; [done|]. destruct (Z.leb_spec q (quantity o)).
    + replace (q - quantity o) with 0 by lia. destruct l; constructor.
    + apply IH. lia.
Qed.

Lemma greedy_fills_of side q l : fills_of side (greedy side q l).
Proof.
  unfold fills_of. revert q. induction l as [|o l IH]; intros q; cbn; [constructor|].
  destruct (q <=? 0); [constructor|]. destruct (q <? quantity o); repeat constructor. apply IH.
Qed.

(** The makers taken are the first ones. *)
Lemma greedy_prefix side q l : exists l', l = (maker <$> greedy side q l) ++ l'.
Proof.
  revert q. induction l as [|o l IH]; intros q; cbn; [by exists []|].
  destruct (q <=? 0); [by exists (o :: l)|]. destruct (q <? quantity o); [by exists l|].
  destruct (IH (q - quantity o)) as [l' Hl']. exists l'. cbn. by f_equal.
Qed.

Definition fill_amounts (fills : list MakerFill) : Z := foldr (fun f z => fill_amount f + z) 0 fills.
Definition total_quantity (l : list Order) : Z := foldr (fun o z => quantity o + z) 0 l.

Lemma fill_plan_amounts rem fills left :
  fill_plan rem fills left -> fill_amounts fills = rem - left.
Proof. unfold fill_amounts. induction 1; cbn; [lia| |lia]. lia. Qed.

Lemma unfilled_total q l :
  0 < q -> Forall (fun o => 0 < quantity o) l -> unfilled q l = Z.max 0 (q - total_quantity l).
Proof.
  intros Hq Hl. revert q Hq. unfold total_quantity.
  induction Hl as [|o l Ho Hl IH]; intros q Hq; cbn; [lia|].
  assert (0 <= foldr (fun o z => quantity o + z) 0 l) by (clear -Hl; induction Hl; cbn; lia).
  destruct (Z.leb_spec q (quantity o)); [lia|]. rewrite IH by lia. lia.
Qed.

Section facts.
Context `{BuildProfile}.

Let items side (l : list Order) : list (outcome (OrderIndex * Order)) :=
  (fun o => Return (order_index side o, o)) <$> l.

Lemma fill_loop_skip side ot taker l fills oc rem :
  Forall (fun o => tradable side ot taker o = false) l ->
  fill_loop side ot taker (items (opposite side) l) fills oc rem = Return (fills, oc, rem).
Proof.
  unfold items, tradable. induction 1 as [|o l Ho Hl IH]; [done|]. cbn.
  apply negb_false_iff in Ho. by rewrite Ho.
Qed.

(** On a prefix of tradable makers the loop appends the greedy fills. *)
Definition loop_outcome (oc : FillType) (q : Z) (l : list Order) : FillType :=
  if unfilled q l =? 0 then Complete else match l with [] => oc | _ => Partial end.

Lemma fill_loop_greedy side ot taker l tail fills oc rem :
  0 < rem -> Forall (fun o => 0 < quantity o) l ->
  Forall (fun o => tradable side ot taker o = true) l ->
  Forall (fun o => tradable side ot taker o = false) tail ->
  fill_loop side ot taker (items (opposite side) (l ++ tail)) fills oc rem =
    Return (fills ++ greedy (opposite side) rem l, loop_outcome oc rem l, unfilled rem l).
Proof.
  intros Hrem Hq Ht Htail. revert fills oc rem Hrem.
  induction Hq as [|o l Ho Hq IH]; intros fills oc rem Hrem.
  { cbn [app]. rewrite fill_loop_skip by done. cbn. rewrite app_nil_r.
    unfold loop_outcome. cbn. by destruct (Z.eqb_spec rem 0); [lia|]. }
  apply Forall_cons in Ht as [Hto Ht]. unfold tradable in Hto. apply negb_true_iff in Hto.
  cbn. rewrite Hto. unfold loop_outcome. cbn.
  destruct (Z.leb_spec rem 0) as [|_]; [lia|].
  destruct (Z.ltb_spec rem (quantity o)) as [Hlt|Hge].
  - rewrite Z.min_r by lia. rewrite Z.eqb_refl.
    destruct (Z.eqb_spec rem (quantity o)); [lia|].
    destruct (Z.leb_spec rem (quantity o)); [|lia]. done.
  - rewrite Z.min_l by lia. rewrite Z.eqb_refl.
    destruct (Z.eqb_spec rem (quantity o)) as [->|Hne].
    + rewrite Z.sub_diag. destruct (Z.leb_spec (quantity o) (quantity o)); [|lia].
      by destruct l.
    + destruct (Z.leb_spec rem (quantity o)); [lia|].
      rewrite u32_sub_small by lia. cbn [mbind outcome_bind].
      fold (items (opposite side) (l ++ tail)). rewrite IH by (done || lia).
      rewrite <- app_assoc. unfold loop_outcome. by destruct (unfilled _ l =? 0), l.
Qed.

Lemma takeWhile_Forall {A} (p : A -> bool) l : Forall (fun a => p a = true) (takeWhile p l).
Proof. induction l as [|a l IH]; cbn; [constructor|]. destruct (p a) eqn:?; by constructor. Qed.

Lemma counterparties_positive n ob side ot taker :
  book_wf n ob -> Forall (fun o => 0 < quantity o) (counterparties ob side ot taker).
Proof.
  intros Hwf. pose proof (book_orders_wf n ob (opposite side) Hwf) as Hf.
  unfold counterparties.
  rewrite <- (takeWhile_dropWhile (tradable side ot taker) (book_orders _ _)) in Hf.
  apply Forall_app in Hf as [Hf _]. eapply Forall_impl; [exact Hf|].
  unfold nz_u32. intros o ?. lia.
Qed.

Lemma try_fill_orders_greedy n ob taker side ot :
  book_wf n ob -> 0 < quantity taker ->
  let l := counterparties ob side ot taker in
  try_fill_orders ob taker side ot =
    Return (Ok (PendingFill_new ob taker side ot
                  (greedy (opposite side) (quantity taker) l)
                  (outcome_of (quantity taker) (unfilled (quantity taker) l)))).
Proof.
  intros Hwf Hq l. unfold try_fill_orders.
  change (match side with Buy => Sell | Sell => Buy end) with (opposite side).
  rewrite (iter_rel_orders n) by done.
  rewrite <- (takeWhile_dropWhile (tradable side ot taker) (book_orders ob (opposite side))).
  fold (counterparties ob side ot taker). fold l.
  pose proof (counterparties_positive n ob side ot taker Hwf) as Hpos. fold l in Hpos.
  fold (items (opposite side)
          (l ++ dropWhile (tradable side ot taker) (book_orders ob (opposite side)))).
  rewrite fill_loop_greedy; [|done|done| |].
  - cbn [mbind outcome_bind app]. do 4 f_equal. unfold outcome_of, loop_outcome.
    destruct (Z.eqb_spec (unfilled (quantity taker) l) (quantity taker)) as [Heq|Hne].
    + by destruct (Z.eqb_spec (unfilled (quantity taker) l) 0); [lia|].
    + destruct (Z.eqb_spec (unfilled (quantity taker) l) 0); [done|]. by destruct l.
  - subst l. apply takeWhile_Forall.
  - eapply dropWhile_all; [apply tradable_downward|by eapply book_orders_sorted].
Qed.
End facts.

(** ** Properties *)

Lemma settle_total rem fills rem' makers :
  fill_plan rem fills rem' ->
  total_quantity (settle fills ((maker <$> fills) ++ makers)) =
    total_quantity ((maker <$> fills) ++ makers) - fill_amounts fills.
Proof.
  unfold total_quantity, fill_amounts. induction 1; cbn in *; lia.
Qed.

(** If the taker is not filled, every maker was taken. *)
Lemma greedy_all side q l :
  0 < q -> Forall (fun o => 0 < quantity o) l -> 0 < unfilled q l ->
  maker <$> greedy side q l = l.
Proof.
  intros Hq Hl. revert q Hq. induction Hl as [|o l Ho Hl IH]; intros q Hq; cbn; [done|].
  destruct (Z.leb_spec q (quantity o)); [lia|]. intros Hu.
  destruct (Z.leb_spec q 0); [lia|]. destruct (Z.ltb_spec q (quantity o)); [lia|].
  cbn. f_equal. by apply IH; [lia|].
Qed.

Lemma total_quantity_app l l' : total_quantity (l ++ l') = total_quantity l + total_quantity l'.
Proof. unfold total_quantity. induction l as [|o l IH]; cbn; lia. Qed.

(** The units a fill takes from its maker. *)
Definition fill_ok (side : OrderSide) (f : MakerFill) : Prop :=
  oix f = order_index side (maker f) /\ 0 < fill_amount f <= quantity (maker f) /\
  fill_type f = if fill_amount f =? quantity (maker f) then Complete else Partial.

Lemma greedy_fill_ok side q l :
  0 < q -> Forall (fun o => 0 < quantity o) l -> Forall (fill_ok side) (greedy side q l).
Proof.
  intros Hq Hl. revert q Hq. induction Hl as [|o l Ho Hl IH]; intros q Hq; cbn; [constructor|].
  destruct (Z.leb_spec q 0); [constructor|]. unfold fill_ok at 1.
  destruct (Z.ltb_spec q (quantity o)).
  - repeat constructor; cbn; [lia|lia|]. by destruct (Z.eqb_spec q (quantity o)); [lia|].
  - constructor.
    + unfold fill_ok. cbn. rewrite Z.eqb_refl. split_and!; [done|lia|lia|done].
    + destruct (Z.eqb_spec q (quantity o)) as [->|].
      * rewrite Z.sub_diag. destruct l; constructor.
      * apply IH. lia.
Qed.

Section properties.
Context `{BuildProfile}.

(** C3: [try_fill_orders] matches by price-time priority: the makers it
    fills are the first resting orders of the opposite side, all of them
    acceptable to the taker; it takes as much as is wanted and available;
    it passes an acceptable order over only when the taker is filled; and
    it neither fails nor changes the book. *)
Theorem try_fill_price_time_priority n ob taker side ot
    (Hwf : book_wf n ob) (Hq : 0 < quantity taker) :
  exists pf rest,
    try_fill_orders ob taker side ot = Return (Ok pf) /\ abort pf = ob /\
    book_orders ob (opposite side) = (maker <$> maker_fills pf) ++ rest /\
    Forall (fun o => skips side ot taker o = false) (maker <$> maker_fills pf) /\
    Forall (fill_ok (opposite side)) (maker_fills pf) /\
    fill_amounts (maker_fills pf) =
      Z.min (quantity taker) (total_quantity (counterparties ob side ot taker)) /\
    (fill_amounts (maker_fills pf) < quantity taker ->
       Forall (fun o => skips side ot taker o = true) rest) /\
    taker_fill_outcome pf =
      outcome_of (quantity taker) (quantity taker - fill_amounts (maker_fills pf)).
Proof.
  pose proof (try_fill_orders_greedy n ob taker side ot Hwf Hq) as Htry. cbv zeta in Htry.
  pose proof (counterparties_positive n ob side ot taker Hwf) as Hpos.
  pose proof (takeWhile_Forall (tradable side ot taker) (book_orders ob (opposite side))) as Hok.
  pose proof (takeWhile_dropWhile (tradable side ot taker) (book_orders ob (opposite side))) as Hsplit.
  pose proof (dropWhile_all _ _ _ (tradable_downward side ot taker) (book_orders_sorted n ob _ Hwf)) as Hno.
  fold (counterparties ob side ot taker) in Hok, Hsplit.
  set (l := counterparties ob side ot taker) in *. clearbody l.
  pose proof (fill_plan_amounts _ _ _ (greedy_plan (opposite side) (quantity taker) l Hq Hpos)) as Hamt.
  pose proof (unfilled_total (quantity taker) l Hq Hpos) as Hun.
  destruct (greedy_prefix (opposite side) (quantity taker) l) as [l' Hl'].
  eexists _, (l' ++ dropWhile (tradable side ot taker) (book_orders ob (opposite side))).
  split; [exact Htry|]. cbn [abort PendingFill_new pf_orderbook maker_fills taker_fill_outcome pf_taker_fill_outcome].
  split_and!; [done|by rewrite app_assoc, <- Hl'| |by apply greedy_fill_ok|lia| |].
  - rewrite Hl' in Hok. apply Forall_app in Hok as [Hok _].
    eapply Forall_impl; [exact Hok|]. intros o Ho. by apply negb_true_iff in Ho.
  - intros Hlt. rewrite Forall_app. split.
    + rewrite (greedy_all _ _ l) in Hl' by (done || lia).
      rewrite <- (app_nil_r l) in Hl' at 1. by apply app_inv_head in Hl' as <-.
    + eapply Forall_impl; [exact Hno|]. intros o Ho. by apply negb_false_iff in Ho.
  - rewrite Hamt. f_equal. lia.
Qed.

(** C4: committing the proposal [try_fill_orders] makes for a book, on that
    book, succeeds: [commit] reports the outcome announced and what is left
    of the taker, every filled maker leaves the book, a partially filled one
    stays with the rest of its quantity, the side loses exactly the units
    traded, and the taker's own side and the book's invariant are kept. *)
Theorem commit_executes_proposal n ob taker side ot pf
    (Hwf : book_wf n ob) (Hq : 0 < quantity taker)
    (Htry : try_fill_orders ob taker side ot = Return (Ok pf)) :
  exists ob' rest,
    let left := quantity taker - fill_amounts (maker_fills pf) in
    book_orders ob (opposite side) = (maker <$> maker_fills pf) ++ rest /\
    commit pf = Return (ob', Ok (taker_fill_outcome pf, remainder taker left)) /\
    book_wf n ob' /\
    book_orders ob' (opposite side) = settle (maker_fills pf) ((maker <$> maker_fills pf) ++ rest) /\
    total_quantity (book_orders ob' (opposite side)) =
      total_quantity (book_orders ob (opposite side)) - fill_amounts (maker_fills pf) /\
    book_orders ob' side = book_orders ob side.
Proof.
  rewrite (try_fill_orders_greedy n) in Htry by done. injection Htry as <-.
  pose proof (counterparties_positive n ob side ot taker Hwf) as Hpos.
  pose proof (takeWhile_dropWhile (tradable side ot taker) (book_orders ob (opposite side))) as Hsplit.
  fold (counterparties ob side ot taker) in Hsplit.
  set (l := counterparties ob side ot taker) in *. clearbody l.
  destruct (greedy_prefix (opposite side) (quantity taker) l) as [l' Hl'].
  pose proof (greedy_plan (opposite side) (quantity taker) l Hq Hpos) as Hplan.
  pose proof (fill_plan_amounts _ _ _ Hplan) as Hamt.
  rewrite Hl', <- app_assoc in Hsplit. symmetry in Hsplit.
  destruct (commit_plan n side ob taker ot _ _ _ Hwf Hq
              (greedy_fills_of (opposite side) (quantity taker) l) Hplan Hsplit)
    as (ob' & Hc & Hwf' & Hopp & Hown).
  exists ob', (l' ++ dropWhile (tradable side ot taker) (book_orders ob (opposite side))).
  cbn [maker_fills PendingFill_new taker_fill_outcome pf_taker_fill_outcome]. rewrite Hamt.
  replace (quantity taker - (quantity taker - unfilled (quantity taker) l))
    with (unfilled (quantity taker) l) by lia.
  split_and!; [exact Hsplit|exact Hc|exact Hwf'|exact Hopp| |exact Hown].
  rewrite Hopp, <- Hamt, (settle_total _ _ _ _ Hplan). by rewrite <- Hsplit.
Qed.
End properties.

Section witnesses.
#[local] Existing Instance debug_profile.

(** A limit buy for 25 at 105 against the asks of [demo_book]. *)
Lemma try_fill_price_time_priority_witness :
  book_wf 2 demo_book /\
  exists pf rest,
    try_fill_orders demo_book (mkOrder 5 25 105) Buy Limit = Return (Ok pf) /\
    book_orders demo_book Sell = (maker <$> maker_fills pf) ++ rest /\
    Forall (fun o => skips Buy Limit (mkOrder 5 25 105) o = false) (maker <$> maker_fills pf).
Proof.
  split; [apply demo_book_wf|].
  destruct (try_fill_price_time_priority 2 demo_book (mkOrder 5 25 105) Buy Limit
              demo_book_wf ltac:(cbn; lia)) as (pf & rest & Ht & _ & Hb & Hs & _).
  exists pf, rest. split; [exact Ht|]. split; [exact Hb|exact Hs].
Defined.

Lemma commit_executes_proposal_witness :
  exists pf ob',
    try_fill_orders demo_book (mkOrder 5 25 105) Buy Limit = Return (Ok pf) /\
    commit pf = Return (ob', Ok (taker_fill_outcome pf,
                  remainder (mkOrder 5 25 105) (25 - fill_amounts (maker_fills pf)))) /\
    book_wf 2 ob'.
Proof.
  eexists.
  destruct (commit_executes_proposal 2 demo_book (mkOrder 5 25 105) Buy Limit _
              demo_book_wf ltac:(cbn; lia) ltac:(vm_compute; reflexivity))
    as (ob' & rest & _ & Hc & Hw & _).
  exists ob'. split; [vm_compute; reflexivity|]. split; [exact Hc|exact Hw].
Defined.
End witnesses.
