(* ===== verification/MatchSpec.v ===== *)
(** * What a limit order book promises

    The contract the matching engine is held to, on the simplest state that
    can carry it: for each side the quotes (price, quantity) in price-time
    priority, with no levels, sequence numbers, indices or vectors. *)

From S2P Require Import Prelude Orderbook PendingFill TryFill.

Definition quote : Type := Z * Z.

Record SpecBook : Type := mkSpecBook { sb_bids : list (Z * Z); sb_asks : list (Z * Z) }.

Definition spec_side (sb : SpecBook) (side : OrderSide) : list (Z * Z) :=
  match side with Buy => sb_bids sb | Sell => sb_asks sb end.

Definition set_spec_side (sb : SpecBook) (side : OrderSide) (l : list (Z * Z)) : SpecBook :=
  match side with
  | Buy => mkSpecBook l (sb_asks sb)
  | Sell => mkSpecBook (sb_bids sb) l
  end.

(** A taker trades at a maker's price [p] if it is a market order, or [p] is
    no worse than its limit. *)
Definition accepts (side : OrderSide) (ot : OrderType) (limit p : Z) : bool :=
  match ot, side with
  | Market, _ => true
  | Limit, Buy => p <=? limit
  | Limit, Sell => limit <=? p
  end.

(** Trade [q] units against the quotes from the best on. *)
Fixpoint spec_match (ok : Z -> bool) (q : Z) (l : list (Z * Z)) : Z * list (Z * Z) :=
  match l with
  | [] => (q, [])
  | (p, v) :: l' =>
      if negb (ok p) || (q <=? 0) then (q, l)
      else if q <? v then (0, (p, v - q) :: l')
      else spec_match ok (q - v) l'
  end.

Definition better_priceb (side : OrderSide) (p q : Z) : bool :=
  match side with Buy => q <? p | Sell => p <? q end.

(** A new quote goes behind all quotes that are at least as good. *)
Fixpoint spec_insert (side : OrderSide) (p q : Z) (l : list (Z * Z)) : list (Z * Z) :=
  match l with
  | [] => [(p, q)]
  | (p', q') :: l' =>
      if better_priceb side p p' then (p, q) :: l else (p', q') :: spec_insert side p q l'
  end.

(** What the owner of the order is told: it was rejected (fill-or-kill, or
    immediate-or-cancel without any trade), or [left] units of it remain,
    resting on the book or not. *)
Inductive verdict : Type :=
| Killed
| NoLiquidity
| Placed (rest : Z) (resting : bool).

Inductive policy : Type := RestRemainder | DropRemainder | AllOrNothing.

Definition spec_place (side : OrderSide) (ot : OrderType) (pol : policy) (p q : Z) (sb : SpecBook) :
    SpecBook * verdict :=
  let '(rest, makers') := spec_match (accepts side ot p) q (spec_side sb (opposite side)) in
  let sb' := set_spec_side sb (opposite side) makers' in
  if rest <=? 0 then (sb', Placed 0 false)
  else match pol with
       | AllOrNothing => (sb, Killed)
       | DropRemainder => if rest =? q then (sb, NoLiquidity) else (sb', Placed rest false)
       | RestRemainder =>
           (set_spec_side sb' side (spec_insert side p rest (spec_side sb' side)), Placed rest true)
       end.

(** ** Properties of the contract *)

Definition total (l : list (Z * Z)) : Z := foldr (fun e z => e.2 + z) 0 l.

(** No bid reaches an ask. *)
Definition uncrossed (sb : SpecBook) : Prop :=
  forall b a, b ∈ sb_bids sb -> a ∈ sb_asks sb -> b.1 < a.1.

(** Best price first. *)
Definition spec_sorted (side : OrderSide) (l : list (Z * Z)) : Prop :=
  StronglySorted (fun a b => ~ better_price side b.1 a.1) l.

Definition positive (l : list (Z * Z)) : Prop := Forall (fun e => 0 < e.2) l.

Lemma better_priceb_spec side p q : better_priceb side p q = true <-> better_price side p q.
Proof. destruct side; apply Z.ltb_lt. Qed.

Lemma spec_match_left ok q l :
  0 <= q -> positive l -> 0 <= (spec_match ok q l).1 <= q.
Proof.
  intros Hq Hl. revert q Hq. induction Hl as [|[p v] l Hv Hl IH]; intros q Hq; cbn in *; [lia|].
  destruct (negb (ok p) || (q <=? 0)); cbn; [lia|].
  destruct (Z.ltb_spec q v); cbn; [lia|]. specialize (IH (q - v) ltac:(lia)). lia.
Qed.

Lemma spec_match_total ok q l :
  0 <= q -> positive l -> total l = total (spec_match ok q l).2 + (q - (spec_match ok q l).1).
Proof.
  intros Hq Hl. unfold total. revert q Hq.
  induction Hl as [|[p v] l Hv Hl IH]; intros q Hq; cbn in *; [lia|].
  destruct (negb (ok p) || (q <=? 0)); cbn; [lia|].
  destruct (Z.ltb_spec q v); cbn; [lia|]. rewrite (IH (q - v)) by lia. lia.
Qed.

(** The prices that remain were there before. *)
Lemma spec_match_prices ok q l e : e ∈ (spec_match ok q l).2 -> exists v, (e.1, v) ∈ l.
Proof.
  revert q. induction l as [|[p v] l IH]; intros q; cbn; [by intros ?%elem_of_nil|].
  destruct (negb (ok p) || (q <=? 0)); cbn.
  { intros He. exists e.2. by destruct e. }
  destruct (q <? v); cbn.
  - intros [->|He]%elem_of_cons; [exists v; left|]. exists e.2. right. by destruct e.
  - intros [w Hw]%IH. exists w. by right.
Qed.

Lemma spec_match_rest ok q l :
  0 < (spec_match ok q l).1 ->
  match (spec_match ok q l).2 with [] => True | (p, _) :: _ => ok p = false end.
Proof.
  revert q. induction l as [|[p v] l IH]; intros q; cbn; [done|].
  destruct (ok p) eqn:Hp; cbn; [|by rewrite Hp].
  destruct (Z.leb_spec q 0); cbn; [lia|]. destruct (Z.ltb_spec q v); cbn; [lia|]. apply IH.
Qed.

Lemma spec_match_sorted side ok q l :
  spec_sorted side l -> spec_sorted side (spec_match ok q l).2.
Proof.
  intros Hs. revert q. induction Hs as [|[p v] l Hs IH Hall]; intros q; cbn; [constructor|].
  destruct (negb (ok p) || (q <=? 0)); cbn; [by constructor|].
  destruct (q <? v); cbn; [|apply IH]. by constructor.
Qed.

Lemma elem_of_spec_insert side p q l e : e ∈ spec_insert side p q l <-> e = (p, q) \/ e ∈ l.
Proof.
  induction l as [|[p' q'] l IH]; cbn; [set_solver|].
  destruct (better_priceb side p p'); rewrite !elem_of_cons; [done|]. rewrite IH. tauto.
Qed.

Lemma spec_insert_total side p q l : total (spec_insert side p q l) = q + total l.
Proof.
  unfold total. induction l as [|[p' q'] l IH]; cbn; [done|].
  destruct (better_priceb side p p'); cbn; lia.
Qed.

Lemma spec_match_none_accepted side ot p q l e :
  spec_sorted (opposite side) l -> 0 < (spec_match (accepts side ot p) q l).1 ->
  e ∈ (spec_match (accepts side ot p) q l).2 -> accepts side ot p e.1 = false.
Proof.
  intros Hs Hleft He. pose proof (spec_match_rest _ _ _ Hleft) as Hrest.
  pose proof (spec_match_sorted _ (accepts side ot p) q l Hs) as Hs'.
  destruct (spec_match _ q l).2 as [|[p1 v1] l2]; [by apply elem_of_nil in He|].
  apply elem_of_cons in He as [->|He]; [done|].
  apply StronglySorted_inv in Hs' as [_ Hall]. rewrite Forall_forall in Hall.
  specialize (Hall e He). cbn in Hall.
  destruct ot; cbn in *; [|done]. destruct side; cbn in *; lia.
Qed.

(** ** The refinement of the matching loop and the commit *)

Definition abs_orders (l : list Order) : list (Z * Z) := (fun o => (price o, quantity o)) <$> l.

Definition abs_book (ob : Orderbook) : SpecBook :=
  mkSpecBook (abs_orders (book_orders ob Buy)) (abs_orders (book_orders ob Sell)).

Lemma spec_side_abs ob side : spec_side (abs_book ob) side = abs_orders (book_orders ob side).
Proof. by destruct side. Qed.

Lemma accepts_tradable side ot taker o :
  accepts side ot (price taker) (price o) = tradable side ot taker o.
Proof.
  unfold tradable. apply eq_bool_prop_intro. rewrite !Is_true_true, negb_true_iff.
  rewrite <- not_true_iff_false, skips_true.
  destruct ot, side; cbn; rewrite ?Z.leb_le; intuition (lia || congruence).
Qed.

Lemma spec_match_greedy side ot taker makers q :
  0 < q -> Forall (fun o => 0 < quantity o) makers ->
  let l := takeWhile (tradable side ot taker) makers in
  spec_match (accepts side ot (price taker)) q (abs_orders makers) =
    (unfilled q l, abs_orders (settle (greedy (opposite side) q l) makers)).
Proof.
  intros Hq Hm. revert q Hq. induction Hm as [|o makers Ho Hm IH]; intros q Hq; [done|].
  cbn. rewrite accepts_tradable. destruct (tradable side ot taker o); cbn; [|done].
  destruct (Z.leb_spec q 0); [lia|]. destruct (Z.ltb_spec q (quantity o)) as [Hlt|Hge]; cbn.
  - by destruct (Z.leb_spec q (quantity o)); [|lia].
  - destruct (Z.leb_spec q (quantity o)) as [Hle|Hgt].
    + replace (q - quantity o) with 0 by lia.
      assert (greedy (opposite side) 0 (takeWhile (tradable side ot taker) makers) = []) as ->
        by by destruct (takeWhile _ makers).
      destruct makers as [|o2 makers]; [done|]. cbn. by rewrite orb_true_r.
    + apply IH. lia.
Qed.

Lemma inserted_spec side t before_push after_push :
  inserted side t before_push after_push ->
  abs_orders after_push = spec_insert side (price t) (quantity t) (abs_orders before_push).
Proof.
  intros (A & B & -> & -> & HA & HB). unfold abs_orders. rewrite !fmap_app, fmap_cons.
  induction HA as [|a A Ha HA IH]; cbn.
  - destruct HB as [|b B Hb HB]; [done|]. cbn.
    by rewrite (proj2 (better_priceb_spec side _ _) Hb).
  - rewrite IH. destruct (better_priceb side (price t) (price a)) eqn:Hb; [|done].
    by apply better_priceb_spec in Hb.
Qed.

Lemma abs_sorted n ob side : book_wf n ob -> spec_sorted side (abs_orders (book_orders ob side)).
Proof.
  intros Hwf. pose proof (book_orders_sorted n ob side Hwf) as Hs. unfold spec_sorted, abs_orders.
  induction Hs as [|o l Hs IH Hall]; csimpl; constructor; [done|].
  rewrite Forall_fmap. eapply Forall_impl; [exact Hall|].
  unfold before, better_price. intros x Hx. cbn. destruct side; lia.
Qed.

Lemma abs_positive n ob side : book_wf n ob -> positive (abs_orders (book_orders ob side)).
Proof.
  intros Hwf. unfold positive, abs_orders. rewrite Forall_fmap.
  eapply Forall_impl; [by apply (book_orders_wf n)|]. unfold nz_u32. cbn. intros o ?. lia.
Qed.

(** One taker against the book: what [try_fill_orders] proposes, and what
    [commit] makes of it. *)
Section refinement.
Context `{BuildProfile}.

Lemma abs_book_set ob ob' side makers' :
  abs_orders (book_orders ob' (opposite side)) = makers' ->
  book_orders ob' side = book_orders ob side ->
  abs_book ob' = set_spec_side (abs_book ob) (opposite side) makers'.
Proof. intros <- Hown. unfold abs_book. destruct side; cbn in *; by rewrite Hown. Qed.

Lemma match_phase n ob taker side ot :
  book_wf n ob -> 0 < quantity taker ->
  let sm := spec_match (accepts side ot (price taker)) (quantity taker)
              (spec_side (abs_book ob) (opposite side)) in
  exists pf ob',
    try_fill_orders ob taker side ot = Return (Ok pf) /\ abort pf = ob /\
    taker_fill_outcome pf = outcome_of (quantity taker) sm.1 /\
    commit pf = Return (ob', Ok (outcome_of (quantity taker) sm.1, remainder taker sm.1)) /\
    book_wf n ob' /\ abs_book ob' = set_spec_side (abs_book ob) (opposite side) sm.2 /\
    book_orders ob' side = book_orders ob side.
Proof.
  intros Hwf Hq sm. subst sm. rewrite spec_side_abs.
  pose proof (book_orders_wf n ob (opposite side) Hwf) as Hpos.
  rewrite spec_match_greedy; [|done|].
  2: { eapply Forall_impl; [exact Hpos|]. unfold nz_u32. intros o ?. lia. }
  fold (counterparties ob side ot taker).
  set (l := counterparties ob side ot taker). cbn [fst snd].
  pose proof (counterparties_positive n ob side ot taker Hwf) as Hl. fold l in Hl.
  destruct (greedy_prefix (opposite side) (quantity taker) l) as [l' Hl'].
  assert (book_orders ob (opposite side) =
            (maker <$> greedy (opposite side) (quantity taker) l) ++
            l' ++ dropWhile (tradable side ot taker) (book_orders ob (opposite side))) as Heq.
  { rewrite app_assoc, <- Hl'. symmetry. apply takeWhile_dropWhile. }
  destruct (commit_plan n side ob taker ot _ _ _ Hwf Hq
              (greedy_fills_of (opposite side) (quantity taker) l)
              (greedy_plan (opposite side) (quantity taker) l Hq Hl) Heq)
    as (ob' & Hc & Hwf' & Hopp & Hown).
  eexists _, ob'. split_and!; [by apply (try_fill_orders_greedy n)|done|done|exact Hc|done| |done].
  apply abs_book_set; [|done]. rewrite Hopp. by rewrite <- Heq.
Qed.
End refinement.

(** ** The contract keeps the book uncrossed and loses nothing *)

Lemma uncrossed_side sb side :
  uncrossed sb <->
  forall x y, x ∈ spec_side sb side -> y ∈ spec_side sb (opposite side) ->
    better_price (opposite side) x.1 y.1.
Proof. unfold uncrossed. destruct side; cbn; naive_solver. Qed.

Lemma spec_side_set sb side l : spec_side (set_spec_side sb side l) side = l.
Proof. by destruct side. Qed.

Lemma spec_side_set_opposite sb side l :
  spec_side (set_spec_side sb (opposite side) l) side = spec_side sb side.
Proof. by destruct side. Qed.

Lemma spec_side_set_own sb side l :
  spec_side (set_spec_side sb side l) (opposite side) = spec_side sb (opposite side).
Proof. by destruct side. Qed.

Lemma spec_place_uncrossed side ot pol p q sb :
  spec_sorted (opposite side) (spec_side sb (opposite side)) -> uncrossed sb ->
  uncrossed (spec_place side ot pol p q sb).1.
Proof.
  intros Hs Hu. unfold spec_place.
  pose proof (spec_match_prices (accepts side ot p) q (spec_side sb (opposite side))) as Hsub.
  pose proof (spec_match_none_accepted side ot p q (spec_side sb (opposite side))) as Hrest.
  destruct (spec_match _ _ _) as [rest makers']. cbn [fst snd] in *.
  assert (uncrossed (set_spec_side sb (opposite side) makers')) as Hu'.
  { pose proof (proj1 (uncrossed_side _ side) Hu) as Hu2. rewrite (uncrossed_side _ side).
    rewrite spec_side_set, spec_side_set_opposite. intros x y Hx Hy.
    destruct (Hsub y Hy) as [v Hv]. apply (Hu2 x (y.1, v) Hx Hv). }
  destruct (Z.leb_spec rest 0) as [Hle|Hgt]; [done|]. destruct pol; [|by destruct (rest =? q)|done].
  pose proof (proj1 (uncrossed_side _ side) Hu') as Hu2. cbn [fst]. rewrite (uncrossed_side _ side).
  rewrite spec_side_set, spec_side_set_own. intros x y Hx Hy.
  apply elem_of_spec_insert in Hx as [->|Hx]; [|by apply Hu2].
  rewrite spec_side_set in Hy. specialize (Hrest y Hs Hgt Hy). cbn.
  destruct ot, side; cbn in *; [lia|lia|done|done].
Qed.

(** The units that change hands leave the makers' side; what rests of the
    order is added to its own side. *)
Definition traded (v : verdict) (q : Z) : Z := match v with Placed rest _ => q - rest | _ => 0 end.
Definition rested (v : verdict) : Z := match v with Placed rest true => rest | _ => 0 end.

Lemma spec_place_total side ot pol p q sb :
  0 < q -> positive (spec_side sb (opposite side)) ->
  let '(sb', v) := spec_place side ot pol p q sb in
  total (spec_side sb' (opposite side)) = total (spec_side sb (opposite side)) - traded v q /\
  total (spec_side sb' side) = total (spec_side sb side) + rested v.
Proof.
  intros Hq Hpos. unfold spec_place.
  pose proof (spec_match_total (accepts side ot p) q (spec_side sb (opposite side)) ltac:(lia) Hpos) as Ht.
  pose proof (spec_match_left (accepts side ot p) q (spec_side sb (opposite side)) ltac:(lia) Hpos) as Hl.
  destruct (spec_match _ _ _) as [rest makers']. cbn [fst snd] in *.
  destruct (Z.leb_spec rest 0) as [Hle|Hgt].
  - cbn [traded rested]. rewrite spec_side_set, spec_side_set_opposite. lia.
  - destruct pol; [|destruct (Z.eqb_spec rest q)|]; cbn [traded rested];
      rewrite ?spec_side_set, ?spec_side_set_own, ?spec_side_set_opposite, ?spec_side_set,
        ?spec_insert_total; lia.
Qed.

Lemma spec_place_rest side ot pol p q sb sb' rest b :
  0 < q -> positive (spec_side sb (opposite side)) ->
  spec_place side ot pol p q sb = (sb', Placed rest b) -> 0 <= rest <= q.
Proof.
  intros Hq Hpos. unfold spec_place.
  pose proof (spec_match_left (accepts side ot p) q (spec_side sb (opposite side)) ltac:(lia) Hpos) as Hl.
  destruct (spec_match _ _ _) as [left makers']. cbn [fst] in Hl.
  destruct (Z.leb_spec left 0); [|destruct pol; [|destruct (Z.eqb_spec left q)|]]; intros [=]; lia.
Qed.

(** What a taker can trade: all the quotes it accepts, wherever they are. *)
Definition liquidity (side : OrderSide) (ot : OrderType) (limit : Z) (l : list (Z * Z)) : Z :=
  total (filter (fun e => accepts side ot limit e.1 = true) l).

Lemma accepts_downward side ot limit p p' :
  ~ better_price (opposite side) p' p -> accepts side ot limit p = false ->
  accepts side ot limit p' = false.
Proof. destruct ot, side; cbn; rewrite ?Z.leb_gt; lia. Qed.

Lemma total_nonneg l : positive l -> 0 <= total l.
Proof. unfold total. induction 1; cbn; lia. Qed.

Lemma liquidity_cons side ot limit p v l :
  liquidity side ot limit ((p, v) :: l) =
    (if accepts side ot limit p then v else 0) + liquidity side ot limit l.
Proof.
  unfold liquidity. rewrite filter_cons. cbn. destruct (accepts side ot limit p) eqn:Ha.
  - by rewrite decide_True.
  - by rewrite decide_False.
Qed.

Lemma liquidity_nonneg side ot limit l : positive l -> 0 <= liquidity side ot limit l.
Proof.
  intros Hl. apply total_nonneg. unfold positive in *. rewrite !Forall_forall in *.
  intros e [_ He]%list_elem_of_filter. by apply Hl.
Qed.

Lemma liquidity_none side ot limit l :
  Forall (fun e => accepts side ot limit e.1 = false) l -> liquidity side ot limit l = 0.
Proof.
  induction 1 as [|[p v] l Ha Hl IH]; [done|]. rewrite liquidity_cons. cbn in Ha. by rewrite Ha, IH.
Qed.

Lemma spec_match_amount side ot limit q l :
  0 <= q -> spec_sorted (opposite side) l -> positive l ->
  (spec_match (accepts side ot limit) q l).1 = Z.max 0 (q - liquidity side ot limit l).
Proof.
  intros Hq Hs Hl. revert q Hq. induction Hs as [|[p v] l Hs IH Hall]; intros q Hq; [cbn; lia|].
  apply Forall_cons in Hl as [Hv Hl]. cbn in Hv. rewrite liquidity_cons. cbn [spec_match].
  pose proof (liquidity_nonneg side ot limit l Hl) as Hn.
  destruct (accepts side ot limit p) eqn:Ha; cbn [negb orb].
  - destruct (Z.leb_spec q 0); cbn [fst]; [lia|].
    destruct (Z.ltb_spec q v); cbn [fst]; [lia|]. rewrite IH by (done || lia). lia.
  - rewrite liquidity_none; [cbn [fst]; lia|].
    eapply Forall_impl; [exact Hall|]. intros [p' v'] Hb. cbn in Hb |- *.
    by apply (accepts_downward side ot limit p).
Qed.
