(* ===== verification/Asset.v ===== *)
(** * Assets and the keys they are known by (src/exchange/src/asset.rs). *)

From S2P Require Import Prelude.

#[local] Set Warnings "-clear-no-such-hyp".

Inductive Asset : Type := Bitcoin | Ether.

#[export] Instance Asset_eq_dec : EqDecision Asset.
Proof. solve_decision. Defined.

Inductive AssetKey : Type :=
| Static (s : string)
| ByValue (a : Asset).

#[export] Instance AssetKey_eq_dec : EqDecision AssetKey.
Proof. solve_decision. Defined.

Definition AssetKey_from_asset (asset : Asset) : AssetKey := ByValue asset.
Definition AssetKey_from_str (asset : string) : AssetKey := Static asset.

(** [FromStr for Asset] *)
Definition from_str (s : string) : result Asset unit :=
  if bool_decide (s = "btc" \/ s = "BTC") then Ok Bitcoin
  else if bool_decide (s = "etc" \/ s = "ETH") then Ok Ether
  else Err tt.

(** [Display for Asset] *)
Definition to_string (a : Asset) : string :=
  match a with Bitcoin => "BTC" | Ether => "ETH" end.

Fixpoint contains_asset (l : list (AssetKey * Asset)) (key : AssetKey) : bool :=
  match l with
  | [] => false
  | (k, _) :: l' => if bool_decide (k = key) then true else contains_asset l' key
  end.

Definition internal_asset_list : list (AssetKey * Asset) :=
  [ (ByValue Bitcoin, Bitcoin);
    (Static "btc", Bitcoin);
    (Static "BTC", Bitcoin);
    (ByValue Ether, Ether);
    (Static "eth", Ether);
    (Static "ETH", Ether) ].

(** The [match] on the path or form parameter that the web handlers repeat. *)
Definition asset_of_param (s : string) : option Asset :=
  if bool_decide (s = "btc" \/ s = "BTC") then Some Bitcoin
  else if bool_decide (s = "eth" \/ s = "ETH") then Some Ether
  else None.

Lemma contains_asset_spec l key : contains_asset l key = true <-> key ∈ l.*1.
Proof.
  induction l as [|[k a] l IH]; csimpl.
  - split; [done|]. by intros ?%elem_of_nil.
  - rewrite elem_of_cons. destruct (bool_decide_reflect (k = key)) as [->|Hne]; [tauto|].
    rewrite IH. split; [by right|]. intros [->|]; done.
Qed.

(** ** Properties *)

(** The name printed for an asset parses back to it, and the names the
    web handlers accept are exactly the static keys of the asset table, with
    the assets the table gives them. *)
Theorem asset_names_agree s a :
  from_str (to_string a) = Ok a /\
  (asset_of_param s = Some a <-> (Static s, a) ∈ internal_asset_list) /\
  contains_asset internal_asset_list (Static s) = bool_decide (is_Some (asset_of_param s)) /\
  contains_asset internal_asset_list (ByValue a) = true.
Proof.
  assert (asset_of_param s = Some a <-> (Static s, a) ∈ internal_asset_list) as Hiff.
  { unfold asset_of_param, internal_asset_list.
    rewrite !elem_of_cons, elem_of_nil.
    destruct (bool_decide_reflect (s = "btc" \/ s = "BTC")), (bool_decide_reflect (s = "eth" \/ s = "ETH"));
      naive_solver. }
  split_and!; [by destruct a|done| |by destruct a].
  apply eq_bool_prop_intro. rewrite !Is_true_true, bool_decide_eq_true, contains_asset_spec.
  unfold asset_of_param. cbn [internal_asset_list fmap list_fmap fst].
  rewrite !elem_of_cons, elem_of_nil.
  destruct (bool_decide_reflect (s = "btc" \/ s = "BTC")), (bool_decide_reflect (s = "eth" \/ s = "ETH"));
    split; try (by intros _; eexists); try naive_solver; by intros [? ?].
Qed.

(** The parser and the asset table disagree about ether: "eth" is in the
    table and accepted by the handlers but does not parse, and "etc", which
    neither knows, parses as ether. They agree on every other name. *)
Theorem asset_parser_disagrees s :
  (match from_str s with Ok a => Some a | Err _ => None end <> asset_of_param s) <->
  s = "eth" \/ s = "etc".
Proof.
  unfold from_str, asset_of_param.
  destruct (bool_decide_reflect (s = "btc" \/ s = "BTC")) as [Hb|Hb];
    [naive_solver|].
  destruct (bool_decide_reflect (s = "etc" \/ s = "ETH")), (bool_decide_reflect (s = "eth" \/ s = "ETH"));
    naive_solver.
Qed.
