(* ===== verification/Trading.v ===== *)
(** * Placing and cancelling orders
    (src/exchange/src/trading/mod.rs, timeinforce.rs, self_trade_protection.rs).

    The handlers take the whole engine state [Assets] and give it back with
    their result; the random order uuid is an argument. *)

From S2P Require Import Prelude Asset Orderbook PendingFill TryFill MatchSpec.

(** ** Data *)

Inductive TimeInForce : Type := GoodTilCanceled | GoodTilDate | ImmediateOrCancel | FillOrKill.

Definition TimeInForce_default : TimeInForce := GoodTilCanceled.

Inductive SelfTradeProtection : Type := DecreaseCancel | CancelOldest | CancelNewest | CancelBoth.

Definition SelfTradeProtection_default : SelfTradeProtection := DecreaseCancel.

#[export] Instance TimeInForce_eq_dec : EqDecision TimeInForce.
Proof. solve_decision. Defined.
#[export] Instance SelfTradeProtection_eq_dec : EqDecision SelfTradeProtection.
Proof. solve_decision. Defined.

Definition OrderUuid : Type := Uuid.

Record PlaceOrder : Type := mkPlaceOrder {
  po_asset : Asset;
  po_user_uuid : Uuid;
  po_price : Z;
  po_quantity : Z;
  po_order_type : OrderType;
  po_stp : SelfTradeProtection;
  po_time_in_force : TimeInForce;
  po_side : OrderSide }.

Definition PlaceOrder_new (asset : Asset) (user_uuid : Uuid) (price quantity : Z)
    (order_type : OrderType) (stp : SelfTradeProtection) (time_in_force : TimeInForce)
    (side : OrderSide) : PlaceOrder :=
  mkPlaceOrder asset user_uuid price quantity order_type stp time_in_force side.

Record CancelOrder : Type := mkCancelOrder { co_user_uuid : Uuid; co_order_uuid : OrderUuid }.

Definition CancelOrder_new (user_uuid : Uuid) (order_uuid : OrderUuid) : CancelOrder :=
  mkCancelOrder user_uuid order_uuid.

Inductive PlaceOrderError : Type :=
| FillOrKillFailed
| InsufficientLiquidity
| ExecutePendingFill (e : ExecutePendingFillError).

Inductive TradingEngineError : Type :=
| Suspended
| UnserializableInput
| OrderNotFound (user_uuid : Uuid) (order_uuid : OrderUuid)
| Database (e : SqlxError)
| PlaceOrderFailed (e : PlaceOrderError).

Record PlaceOrderResult : Type := mkPlaceOrderResult {
  por_order : PlaceOrder; (* asset .. side, as they were placed *)
  por_order_uuid : OrderUuid;
  por_order_index : option OrderIndex;
  por_fill_type : FillType;
  por_quantity_filled : Z;
  por_quantity_remaining : Z }.

Record AssetBook : Type := mkAssetBook { ab_asset : Asset; orderbook : Orderbook }.

Definition AssetBook_new (asset : Asset) : AssetBook := mkAssetBook asset Orderbook_new.

Definition set_orderbook (ab : AssetBook) (ob : Orderbook) : AssetBook := mkAssetBook (ab_asset ab) ob.

Record Assets : Type := mkAssets {
  order_uuids : gmap N (OrderIndex * Asset);
  eth : AssetBook;
  btc : AssetBook }.

(** [match_asset_mut]: the asset's book, and the state after writing to it. *)
Definition match_asset (assets : Assets) (asset : Asset) : AssetBook :=
  match asset with Ether => eth assets | Bitcoin => btc assets end.

Definition write_asset (assets : Assets) (asset : Asset) (ab : AssetBook) : Assets :=
  match asset with
  | Ether => mkAssets (order_uuids assets) ab (btc assets)
  | Bitcoin => mkAssets (order_uuids assets) (eth assets) ab
  end.

(** The engine's state at start-up (in [trading_engine_supervisor]). *)
Definition Assets_new : Assets := mkAssets ∅ (AssetBook_new Ether) (AssetBook_new Bitcoin).

(** ** Commands *)

Inductive TradeCmdPayload : Type :=
| PayloadPlaceOrder (po : PlaceOrder)
| PayloadCancelOrder (co : CancelOrder).

Inductive TradeCmd : Type :=
| CmdPlaceOrder (po : PlaceOrder)
| CmdCancelOrder (co : CancelOrder).

Inductive TradingEngineCmd : Type :=
| Shutdown
| Suspend
| Resume
| Trade (cmd : TradeCmd)
| Bootstrap (payload : TradeCmdPayload).

Inductive Reply : Type :=
| PlaceReply (r : result PlaceOrderResult TradingEngineError)
| CancelReply (r : result unit TradingEngineError).

Definition consume_respond_with_error (cmd : TradingEngineCmd) (err : TradingEngineError) : option Reply :=
  match cmd with
  | Trade (CmdPlaceOrder _) => Some (PlaceReply (Err err))
  | Trade (CmdCancelOrder _) => Some (CancelReply (Err err))
  | _ => None
  end.

(** ** Operations *)

(** "enforce time-in-force depending on fill type" *)
Definition enforce_time_in_force (fill : FillType) (tif : TimeInForce) : result unit PlaceOrderError :=
  match fill, tif with
  | Complete, _ => Ok tt
  | Partial, GoodTilCanceled => Ok tt
  | Partial, GoodTilDate => Ok tt
  | Partial, ImmediateOrCancel => Ok tt
  | Partial, FillOrKill => Err FillOrKillFailed
  | FillNone, GoodTilCanceled => Ok tt
  | FillNone, GoodTilDate => Ok tt
  | FillNone, ImmediateOrCancel => Err InsufficientLiquidity
  | FillNone, FillOrKill => Err FillOrKillFailed
  end.

Section engine_operations.
Context `{BuildProfile}.

(** Rest what the fill left of the order, unless it is immediate-or-cancel. *)
Definition rest_order (ob : Orderbook) (side : OrderSide) (tif : TimeInForce) (order : Order) :
    outcome (option OrderIndex * Orderbook) :=
  if bool_decide (tif = ImmediateOrCancel) then Return (None, ob)
  else
    '(order_index, ob') ← match side with
                          | Buy => push_bid ob order
                          | Sell => push_ask ob order
                          end;
    Return (Some order_index, ob').

Definition do_place_order (assets : Assets) (place_order : PlaceOrder) (order_uuid : OrderUuid) :
    outcome (Assets * result PlaceOrderResult TradingEngineError) :=
  let 'mkPlaceOrder asset _ price quantity_ order_type _ time_in_force side := place_order in
  let asset_book := match_asset assets asset in
  let taker := mkOrder u32_max quantity_ price in
  fill ← try_fill_orders (orderbook asset_book) taker side order_type;
  match fill : result PendingFill Infallible with
  | Err e => match e : Infallible with end
  | Ok pending_fill =>
      match enforce_time_in_force (taker_fill_outcome pending_fill) time_in_force with
      | Err e =>
          Return (write_asset assets asset (set_orderbook asset_book (abort pending_fill)),
                  Err (PlaceOrderFailed e))
      | Ok _ =>
          '(ob, committed) ← commit pending_fill;
          match committed with
          | Ok (fill_type, Some order) =>
              '(order_index, ob') ← rest_order ob side time_in_force order;
              _ ← assert_ (quantity order <=? quantity_)
                    "assertion failed: quantity.get() >= order.quantity.get()";
              quantity_filled ← u32_sub quantity_ (quantity order);
              Return (write_asset assets asset (set_orderbook asset_book ob'),
                      Ok (mkPlaceOrderResult place_order order_uuid order_index fill_type
                            quantity_filled (quantity order)))
          | Ok (fill_type, None) =>
              Return (write_asset assets asset (set_orderbook asset_book ob),
                      Ok (mkPlaceOrderResult place_order order_uuid None fill_type quantity_ 0))
          | Err err =>
              Return (write_asset assets asset (set_orderbook asset_book ob),
                      Err (PlaceOrderFailed (ExecutePendingFill err)))
          end
      end
  end.

Definition do_cancel_order (assets : Assets) (cancel_order : CancelOrder) :
    outcome (Assets * result unit TradingEngineError) :=
  let 'mkCancelOrder user_uuid order_uuid := cancel_order in
  match order_uuids assets !! order_uuid with
  | None => Return (assets, Err (OrderNotFound user_uuid order_uuid))
  | Some (order_index, asset) =>
      let asset_book := match_asset assets asset in
      '(removed, ob) ← remove (orderbook asset_book) order_index;
      _ ← expect removed "checked order";
      Return (write_asset assets asset (set_orderbook asset_book ob), Ok tt)
  end.
End engine_operations.

(** ** The engine implements the order book contract *)

Definition policy_of (tif : TimeInForce) : policy :=
  match tif with
  | GoodTilCanceled | GoodTilDate => RestRemainder
  | ImmediateOrCancel => DropRemainder
  | FillOrKill => AllOrNothing
  end.

Definition verdict_of (r : result PlaceOrderResult TradingEngineError) : option verdict :=
  match r with
  | Ok res => Some (Placed (por_quantity_remaining res) (bool_decide (is_Some (por_order_index res))))
  | Err (PlaceOrderFailed FillOrKillFailed) => Some Killed
  | Err (PlaceOrderFailed InsufficientLiquidity) => Some NoLiquidity
  | Err _ => None
  end.

Definition place_order_wf (po : PlaceOrder) : Prop := nz_u32 (po_price po) /\ nz_u32 (po_quantity po).

Definition assets_wf (n : Z) (assets : Assets) : Prop :=
  forall asset, book_wf n (orderbook (match_asset assets asset)).

Definition book_of (assets : Assets) (asset : Asset) : Orderbook := orderbook (match_asset assets asset).

Lemma match_write_asset assets asset ab : match_asset (write_asset assets asset ab) asset = ab.
Proof. by destruct asset. Qed.

Lemma match_write_asset_ne assets asset asset' ab :
  asset <> asset' -> match_asset (write_asset assets asset ab) asset' = match_asset assets asset'.
Proof. by destruct asset, asset'. Qed.

Lemma order_uuids_write_asset assets asset ab :
  order_uuids (write_asset assets asset ab) = order_uuids assets.
Proof. by destruct asset. Qed.

Lemma write_asset_id assets asset :
  write_asset assets asset (set_orderbook (match_asset assets asset) (book_of assets asset)) = assets.
Proof. by destruct assets as [? [] []], asset. Qed.

Lemma Assets_new_wf : assets_wf 0 Assets_new.
Proof. intros []; apply Orderbook_new_wf. Qed.

Lemma assets_wf_mono n n' assets : n <= n' -> assets_wf n assets -> assets_wf n' assets.
Proof. intros ? Hwf asset. by eapply book_wf_mono. Qed.

Lemma assets_wf_write n assets asset ob :
  assets_wf n assets -> book_wf n ob ->
  assets_wf n (write_asset assets asset (set_orderbook (match_asset assets asset) ob)).
Proof.
  intros Hwf Hob asset'. destruct (decide (asset = asset')) as [<-|Hne].
  - by rewrite match_write_asset.
  - rewrite match_write_asset_ne by done. apply Hwf.
Qed.

(** What a placed order reports about itself. *)
Definition result_ok (po : PlaceOrder) (order_uuid : OrderUuid) (ob' : Orderbook)
    (res : PlaceOrderResult) : Prop :=
  por_order res = po /\ por_order_uuid res = order_uuid /\
  por_quantity_filled res + por_quantity_remaining res = po_quantity po /\
  por_fill_type res = outcome_of (po_quantity po) (por_quantity_remaining res) /\
  forall ix, por_order_index res = Some ix ->
    oi_side ix = po_side po /\
    exists r, get_mut ob' ix = Some r /\
      price (deref r) = po_price po /\ quantity (deref r) = por_quantity_remaining res.

Section refinement.
Context `{BuildProfile}.

(** The steps after the match, on the book: rest what remains. *)
Lemma rest_order_spec n ob side tif order :
  book_wf n ob -> 0 <= n < u32_max -> nz_u32 (price order) -> nz_u32 (quantity order) ->
  exists oi ob', rest_order ob side tif order = Return (oi, ob') /\ book_wf (n + 1) ob' /\
    if bool_decide (tif = ImmediateOrCancel) then oi = None /\ ob' = ob
    else exists m ix, oi = Some ix /\ ix = order_index side (set_memo order m) /\
      abs_book ob' = set_spec_side (abs_book ob) side
        (spec_insert side (price order) (quantity order) (spec_side (abs_book ob) side)) /\
      set_memo order m ∈ book_orders ob' side.
Proof.
  intros Hwf Hn Hp Hq. unfold rest_order.
  destruct (bool_decide (tif = ImmediateOrCancel)).
  { eexists _, _. split_and!; [done|eapply book_wf_mono; [|done]; lia|done|done]. }
  fold (push_side ob side order).
  destruct (push_side_spec n ob side order Hwf Hn Hp Hq) as (m & ob' & Hpush & Hwf' & Hins & Hopp).
  step_bind Hpush. eexists _, _. split; [done|]. split; [done|].
  exists m, (order_index side (set_memo order m)). split_and!; [done|done| |].
  - pose proof (inserted_spec _ _ _ _ Hins) as Habs. cbn in Habs.
    unfold abs_book in *. destruct side; cbn in *; by rewrite Hopp, Habs.
  - destruct Hins as (A & B & _ & -> & _). apply elem_of_app. right. left.
Qed.

Lemma get_mut_resting n ob side o :
  book_wf n ob -> o ∈ book_orders ob side ->
  exists r, get_mut ob (order_index side o) = Some r /\ deref r = o.
Proof.
  intros Hwf (A & B & Heq)%list_elem_of_split.
  destruct (book_access n ob side A o B Hwf Heq) as (r & _ & ? & ? & _). by exists r.
Qed.

(** What [do_place_order] owes its caller, for an order placed on a book in
    the state [sb]. *)
Definition place_post (n : Z) (assets : Assets) (po : PlaceOrder) (uuid : OrderUuid)
    (assets' : Assets) (r : result PlaceOrderResult TradingEngineError) : Prop :=
  let asset := po_asset po in
  let sp := spec_place (po_side po) (po_order_type po) (policy_of (po_time_in_force po))
              (po_price po) (po_quantity po) (abs_book (book_of assets asset)) in
  assets_wf (n + 1) assets' /\
  abs_book (book_of assets' asset) = sp.1 /\ verdict_of r = Some sp.2 /\
  (forall e, r = Err e -> assets' = assets) /\
  (forall res, r = Ok res -> result_ok po uuid (book_of assets' asset) res) /\
  (forall asset', asset' <> asset -> match_asset assets' asset' = match_asset assets asset') /\
  order_uuids assets' = order_uuids assets.

(** The post-condition for a handler that wrote the book [ob']. *)
Lemma place_post_write n assets po uuid ob' r :
  let asset := po_asset po in
  let sp := spec_place (po_side po) (po_order_type po) (policy_of (po_time_in_force po))
              (po_price po) (po_quantity po) (abs_book (book_of assets asset)) in
  assets_wf n assets -> book_wf (n + 1) ob' -> abs_book ob' = sp.1 -> verdict_of r = Some sp.2 ->
  (forall e, r = Err e -> ob' = book_of assets asset) ->
  (forall res, r = Ok res -> result_ok po uuid ob' res) ->
  place_post n assets po uuid
    (write_asset assets asset (set_orderbook (match_asset assets asset) ob')) r.
Proof.
  intros asset sp Hwf Hob Habs Hv Herr Hok. unfold place_post, book_of.
  fold asset. rewrite match_write_asset. cbn [orderbook set_orderbook].
  split_and!; [|done|done| |done| |].
  - apply assets_wf_write; [|done]. eapply assets_wf_mono; [|done]. lia.
  - intros e ->. rewrite (Herr e eq_refl). apply write_asset_id.
  - intros asset' Hne. by apply match_write_asset_ne.
  - apply order_uuids_write_asset.
Qed.

(** The three ways on from the match: the order is filled, it is rejected,
    or what is left of it is rested or dropped. *)
Lemma place_filled n assets po uuid ob' sb :
  assets_wf n assets -> book_wf n ob' -> abs_book ob' = sb ->
  spec_place (po_side po) (po_order_type po) (policy_of (po_time_in_force po))
    (po_price po) (po_quantity po) (abs_book (book_of assets (po_asset po))) = (sb, Placed 0 false) ->
  place_post n assets po uuid
    (write_asset assets (po_asset po) (set_orderbook (match_asset assets (po_asset po)) ob'))
    (Ok (mkPlaceOrderResult po uuid None Complete (po_quantity po) 0)).
Proof.
  intros Hwf Hob Habs Hspec. apply place_post_write; rewrite ?Hspec; try done.
  - eapply book_wf_mono; [|done]. lia.
  - intros res [= <-]. unfold result_ok. cbn. split_and!; [done|done|lia|done|done].
Qed.

Lemma place_rejected n assets po uuid e v :
  assets_wf n assets -> verdict_of (Err (PlaceOrderFailed e)) = Some v ->
  spec_place (po_side po) (po_order_type po) (policy_of (po_time_in_force po))
    (po_price po) (po_quantity po) (abs_book (book_of assets (po_asset po))) =
    (abs_book (book_of assets (po_asset po)), v) ->
  place_post n assets po uuid
    (write_asset assets (po_asset po)
       (set_orderbook (match_asset assets (po_asset po)) (book_of assets (po_asset po))))
    (Err (PlaceOrderFailed e)).
Proof.
  intros Hwf Hv Hspec. apply place_post_write; rewrite ?Hspec; try done.
  eapply book_wf_mono; [|apply Hwf]. lia.
Qed.

(** The end of the handler, when [left] units of the taker remain. *)
Definition finish (assets : Assets) (po : PlaceOrder) (uuid : OrderUuid) (ob : Orderbook)
    (fill_type : FillType) (order : Order) :
    outcome (Assets * result PlaceOrderResult TradingEngineError) :=
  let asset_book := match_asset assets (po_asset po) in
  '(order_index, ob') ← rest_order ob (po_side po) (po_time_in_force po) order;
  _ ← assert_ (quantity order <=? po_quantity po)
        "assertion failed: quantity.get() >= order.quantity.get()";
  quantity_filled ← u32_sub (po_quantity po) (quantity order);
  Return (write_asset assets (po_asset po) (set_orderbook asset_book ob'),
          Ok (mkPlaceOrderResult po uuid order_index fill_type quantity_filled (quantity order))).

Lemma place_finished n assets po uuid ob' rest :
  let limit_order := mkOrder u32_max rest (po_price po) in
  assets_wf n assets -> 0 <= n < u32_max -> place_order_wf po -> book_wf n ob' ->
  0 < rest <= po_quantity po ->
  spec_place (po_side po) (po_order_type po) (policy_of (po_time_in_force po))
    (po_price po) (po_quantity po) (abs_book (book_of assets (po_asset po))) =
    (if bool_decide (po_time_in_force po = ImmediateOrCancel)
     then (abs_book ob', Placed rest false)
     else (set_spec_side (abs_book ob') (po_side po)
             (spec_insert (po_side po) (po_price po) rest (spec_side (abs_book ob') (po_side po))),
           Placed rest true)) ->
  exists assets' r,
    finish assets po uuid ob' (outcome_of (po_quantity po) rest) limit_order = Return (assets', r) /\
    place_post n assets po uuid assets' r.
Proof.
  intros t Hwf Hn [Hp Hq] Hob Hrest Hspec. unfold finish.
  destruct (rest_order_spec n ob' (po_side po) (po_time_in_force po) t Hob Hn Hp)
    as (oi & ob'' & Hro & Hwf'' & Hoi); [unfold nz_u32 in *; cbn; lia|].
  step_bind Hro. cbn [quantity t]. destruct (Z.leb_spec rest (po_quantity po)); [|lia].
  cbn [assert_ mbind outcome_bind]. rewrite u32_sub_small by lia. cbn [mbind outcome_bind].
  eexists _, _. split; [done|].
  destruct (bool_decide (po_time_in_force po = ImmediateOrCancel)).
  - destruct Hoi as [-> ->]. apply place_post_write; rewrite ?Hspec; try done.
    intros res [= <-]. unfold result_ok. cbn. split_and!; [done|done|lia|done|done].
  - destruct Hoi as (m & ix & -> & -> & Habs & Hin).
    apply place_post_write; rewrite ?Hspec; try done.
    intros res [= <-]. unfold result_ok. cbn. split_and!; [done|done|lia|done|].
    intros ix [= <-]. split; [done|].
    destruct (get_mut_resting _ _ _ _ Hwf'' Hin) as (r & Hr & Hd).
    exists r. split; [exact Hr|]. by rewrite Hd.
Qed.

Lemma do_place_order_post n assets po uuid :
  assets_wf n assets -> 0 <= n < u32_max -> place_order_wf po ->
  exists assets' r, do_place_order assets po uuid = Return (assets', r) /\
    place_post n assets po uuid assets' r.
Proof.
  intros Hwf Hn [Hp Hq]. pose proof (conj Hp Hq : place_order_wf po) as Hpo.
  pose proof (Hwf (po_asset po)) as Hob. fold (book_of assets (po_asset po)) in Hob.
  set (ob := book_of assets (po_asset po)) in *.
  destruct (match_phase n ob (mkOrder u32_max (po_quantity po) (po_price po)) (po_side po)
              (po_order_type po) Hob) as
    (pf & ob' & Htry & Habort & Hout & Hcommit & Hwf' & Habs & _); [unfold nz_u32 in *; cbn; lia|].
  cbn [quantity price] in *.
  set (sm := spec_match _ _ _) in *.
  assert (0 <= sm.1 <= po_quantity po) as Hsm.
  { apply spec_match_left; [unfold nz_u32 in *; lia|]. rewrite spec_side_abs.
    by apply (abs_positive n). }
  pose proof (place_filled n assets po uuid ob' _ Hwf Hwf' eq_refl) as Hfilled.
  pose proof (place_rejected n assets po uuid) as Hrejected.
  pose proof (place_finished n assets po uuid ob' sm.1 Hwf Hn Hpo Hwf') as Hfinished.
  unfold spec_place in *. fold ob sm in Hfilled, Hrejected, Hfinished.
  clearbody sm. destruct sm as [rest makers']. cbn [fst snd] in *.
  rewrite <- Habs in Hfilled, Hrejected, Hfinished.
  destruct po as [asset user p q ot stp tif side]. unfold finish in *.
  unfold do_place_order. cbn [po_asset po_user_uuid po_price po_quantity po_order_type po_stp
    po_time_in_force po_side] in *.
  change (orderbook (match_asset assets asset)) with ob.
  step_bind Htry. rewrite Hout, Habort. unfold outcome_of, remainder in *.
  destruct (Z.eqb_spec rest 0) as [H0|H0].
  { rewrite H0 in *. cbn [enforce_time_in_force]. step_bind Hcommit. cbn. eauto. }
  destruct (Z.leb_spec rest 0) as [|Hpos]; [lia|].
  rewrite NonZeroU32_new_pos in Hcommit by lia. unfold set_quantity in Hcommit. cbn in Hcommit.
  specialize (Hfinished ltac:(lia)).
  destruct (Z.eqb_spec rest q) as [H1|H1], tif; cbn [enforce_time_in_force policy_of] in *;
    try (step_bind Hcommit; by apply Hfinished);
    eexists _, _; (split; [reflexivity|]); by eapply Hrejected.
Qed.
End refinement.

(** ** Properties of placing an order *)

Lemma place_post_liquidity n assets po uuid assets' r :
  assets_wf n assets -> place_order_wf po -> place_post n assets po uuid assets' r ->
  let makers := spec_side (abs_book (book_of assets (po_asset po))) (opposite (po_side po)) in
  (spec_match (accepts (po_side po) (po_order_type po) (po_price po)) (po_quantity po) makers).1 =
    Z.max 0 (po_quantity po - liquidity (po_side po) (po_order_type po) (po_price po) makers).
Proof.
  intros Hwf [_ Hq] _ makers. unfold makers. rewrite spec_side_abs.
  apply spec_match_amount; [unfold nz_u32 in Hq; lia|by apply (abs_sorted n), Hwf|by apply (abs_positive n), Hwf].
Qed.

Section properties.
Context `{BuildProfile}.

(** C1: placing an order implements the order book contract. On any
    well-formed state with sequence numbers left, [do_place_order] does not
    panic; the book of the order's asset becomes, as prices and quantities
    in priority order, the one [spec_place] prescribes, and the caller is
    told what [spec_place] decides (killed, no liquidity, or placed with so
    many units left, resting or not); on an error the whole state is as it
    was; the other asset's book and the uuid table are untouched. *)
Theorem place_order_refines n assets po uuid (Hwf : assets_wf n assets) (Hn : 0 <= n < u32_max)
    (Hpo : place_order_wf po) :
  exists assets' r, do_place_order assets po uuid = Return (assets', r) /\
    let sp := spec_place (po_side po) (po_order_type po) (policy_of (po_time_in_force po))
                (po_price po) (po_quantity po) (abs_book (book_of assets (po_asset po))) in
    abs_book (book_of assets' (po_asset po)) = sp.1 /\ verdict_of r = Some sp.2 /\
    assets_wf (n + 1) assets' /\
    (forall e, r = Err e -> assets' = assets) /\
    (forall asset', asset' <> po_asset po -> match_asset assets' asset' = match_asset assets asset') /\
    order_uuids assets' = order_uuids assets.
Proof.
  destruct (do_place_order_post n assets po uuid Hwf Hn Hpo)
    as (assets' & r & Hr & ? & ? & ? & ? & _ & ? & ?).
  by exists assets', r.
Qed.

(** The result a client gets accounts for the whole order: filled and
    remaining quantities add up to the quantity ordered, the fill type says
    which of the two is zero, and an order index, when there is one, resolves
    on the new book to the order with its price and remaining quantity. *)
Theorem place_result_accounts n assets po uuid assets' res (Hwf : assets_wf n assets)
    (Hn : 0 <= n < u32_max) (Hpo : place_order_wf po)
    (Hrun : do_place_order assets po uuid = Return (assets', Ok res)) :
  por_order res = po /\ por_order_uuid res = uuid /\
  por_quantity_filled res + por_quantity_remaining res = po_quantity po /\
  por_fill_type res = outcome_of (po_quantity po) (por_quantity_remaining res) /\
  (forall ix, por_order_index res = Some ix -> oi_side ix = po_side po /\
     (fun r => (price (deref r), quantity (deref r))) <$> get_mut (book_of assets' (po_asset po)) ix =
       Some (po_price po, por_quantity_remaining res)) /\
  (por_order_index res = None ->
     por_quantity_remaining res = 0 \/ po_time_in_force po = ImmediateOrCancel).
Proof.
  destruct (do_place_order_post n assets po uuid Hwf Hn Hpo)
    as (a2 & r2 & Hr & _ & _ & Hv & _ & Hok & _).
  rewrite Hr in Hrun. injection Hrun as -> ->.
  destruct (Hok res eq_refl) as (? & ? & ? & ? & Hix). split_and!; [done..| |].
  - intros ix Hi. destruct (Hix ix Hi) as (? & ref & Hg & Hp & Hq). split; [done|].
    rewrite Hg. cbn. by rewrite Hp, Hq.
  - intros Hnone. unfold verdict_of in Hv. rewrite Hnone in Hv. unfold spec_place in Hv.
    destruct (spec_match _ _ _) as [rest makers']. destruct (rest <=? 0).
    + left. cbn in Hv. congruence.
    + right. destruct (po_time_in_force po); cbn in *; congruence.
Qed.

(** C8: a fill-or-kill order is all or nothing: if the resting orders it
    accepts offer its whole quantity, it is filled completely and nothing of
    it rests; otherwise it is refused with [FillOrKillFailed] and the state
    is unchanged. *)
Theorem fill_or_kill_all_or_nothing n assets po uuid (Hwf : assets_wf n assets)
    (Hn : 0 <= n < u32_max) (Hpo : place_order_wf po) (Htif : po_time_in_force po = FillOrKill) :
  let makers := spec_side (abs_book (book_of assets (po_asset po))) (opposite (po_side po)) in
  if po_quantity po <=? liquidity (po_side po) (po_order_type po) (po_price po) makers
  then exists assets', do_place_order assets po uuid =
         Return (assets', Ok (mkPlaceOrderResult po uuid None Complete (po_quantity po) 0))
  else do_place_order assets po uuid = Return (assets, Err (PlaceOrderFailed FillOrKillFailed)).
Proof.
  destruct (do_place_order_post n assets po uuid Hwf Hn Hpo) as (assets' & r & Hr & Hpost).
  pose proof (place_post_liquidity _ _ _ _ _ _ Hwf Hpo Hpost) as Hamount. cbv zeta in Hamount.
  cbv zeta. destruct Hpost as (_ & _ & Hv & Herr & Hok & _).
  unfold spec_place in Hv. rewrite Htif in Hv. cbn [policy_of] in Hv.
  destruct (spec_match _ _ _) as [rest makers']. cbn [fst] in Hamount.
  destruct Hpo as [_ Hq]. unfold nz_u32 in Hq.
  destruct (Z.leb_spec (po_quantity po) (liquidity (po_side po) (po_order_type po) (po_price po)
    (spec_side (abs_book (book_of assets (po_asset po))) (opposite (po_side po))))).
  - destruct (Z.leb_spec rest 0); [|lia]. destruct r as [res|e]; [|by destruct e as [| |? ?|?|[| |?]]].
    exists assets'. rewrite Hr. do 3 f_equal.
    destruct (Hok res eq_refl) as (Ho & Hu & Hsum & Hft & _). destruct res. cbn in *.
    injection Hv as -> Hoi. unfold outcome_of in Hft. cbn in Hft.
    destruct por_order_index0; [by rewrite bool_decide_true in Hoi by eauto|].
    f_equal; [done..|lia].
  - destruct (Z.leb_spec rest 0); [lia|]. rewrite Hr.
    destruct r as [res|e]; [done|]. rewrite (Herr e eq_refl).
    by destruct e as [| |? ?|?|[| |?]].
Qed.

(** An immediate-or-cancel order never rests: it trades with what it
    accepts, up to its quantity, and the remainder is dropped; when there is
    nothing to trade with it is refused with [InsufficientLiquidity]. Its own
    side of the book is unchanged in every case. *)
Theorem immediate_or_cancel_never_rests n assets po uuid (Hwf : assets_wf n assets)
    (Hn : 0 <= n < u32_max) (Hpo : place_order_wf po)
    (Htif : po_time_in_force po = ImmediateOrCancel) :
  let side_of a := spec_side (abs_book (book_of a (po_asset po))) in
  let available := liquidity (po_side po) (po_order_type po) (po_price po)
                     (side_of assets (opposite (po_side po))) in
  exists assets' r, do_place_order assets po uuid = Return (assets', r) /\
    side_of assets' (po_side po) = side_of assets (po_side po) /\
    if available =? 0 then r = Err (PlaceOrderFailed InsufficientLiquidity)
    else exists res, r = Ok res /\ por_order_index res = None /\
           por_quantity_filled res = Z.min (po_quantity po) available.
Proof.
  destruct (do_place_order_post n assets po uuid Hwf Hn Hpo) as (assets' & r & Hr & Hpost).
  pose proof (place_post_liquidity _ _ _ _ _ _ Hwf Hpo Hpost) as Hamount. cbv zeta in Hamount.
  destruct Hpost as (_ & Habs & Hv & _ & Hok & _).
  pose proof (liquidity_nonneg (po_side po) (po_order_type po) (po_price po)
    (spec_side (abs_book (book_of assets (po_asset po))) (opposite (po_side po)))) as Hl.
  rewrite spec_side_abs in Hl. specialize (Hl (abs_positive n _ _ (Hwf _))).
  rewrite <- spec_side_abs in Hl.
  cbv zeta. set (avail := liquidity _ _ _ _) in *. clearbody avail.
  unfold spec_place in Habs, Hv. rewrite Htif in Habs, Hv. cbn [policy_of] in Habs, Hv.
  destruct (spec_match _ _ _) as [rest makers']. cbn [fst] in Hamount.
  destruct Hpo as [_ Hq]. unfold nz_u32 in Hq.
  exists assets', r. split; [done|]. rewrite Habs.
  destruct (Z.eqb_spec avail 0) as [Ha|Ha].
  - destruct (Z.leb_spec rest 0); [lia|]. destruct (Z.eqb_spec rest (po_quantity po)) as [_|]; [|lia].
    cbn [fst snd] in *. split; [done|].
    destruct r as [res|e]; [done|]. by destruct e as [| |? ?|?|[| |?]].
  - assert (exists rest', (if rest <=? 0 then 0 else rest) = rest' /\
              rest' = po_quantity po - Z.min (po_quantity po) avail) as (rest' & Hrest & Hval).
    { eexists. split; [done|]. destruct (Z.leb_spec rest 0); lia. }
    destruct (Z.eqb_spec rest (po_quantity po)); [lia|].
    destruct (rest <=? 0); cbn [fst snd] in *; rewrite spec_side_set_opposite; (split; [done|]);
      (destruct r as [res|e]; [|by destruct e as [| |? ?|?|[| |?]]]); exists res;
      destruct (Hok res eq_refl) as (_ & _ & Hsum & _); destruct res; cbn in *;
      injection Hv as -> Hoi; (split; [done|]);
      (split; [destruct por_order_index0; [by rewrite bool_decide_true in Hoi by eauto|done]|lia]).
Qed.

(** What an order moves. *)
Lemma place_post_totals n assets po uuid assets' r :
  assets_wf n assets -> place_order_wf po -> place_post n assets po uuid assets' r ->
  let depth a side := total (spec_side (abs_book (book_of a (po_asset po))) side) in
  match r with
  | Ok res =>
      0 <= por_quantity_remaining res <= po_quantity po /\
      depth assets' (opposite (po_side po)) =
        depth assets (opposite (po_side po)) - por_quantity_filled res /\
      depth assets' (po_side po) =
        depth assets (po_side po) +
          (if bool_decide (is_Some (por_order_index res)) then por_quantity_remaining res else 0)
  | Err _ => assets' = assets
  end.
Proof.
  intros Hwf [_ Hq] (_ & Habs & Hv & Herr & Hok & _). unfold nz_u32 in Hq.
  destruct r as [res|e]; [|by eapply Herr]. cbv zeta.
  assert (positive (spec_side (abs_book (book_of assets (po_asset po))) (opposite (po_side po)))) as Hpos
    by (rewrite spec_side_abs; apply (abs_positive n), Hwf).
  pose proof (spec_place_total (po_side po) (po_order_type po) (policy_of (po_time_in_force po))
    (po_price po) (po_quantity po) _ ltac:(lia) Hpos) as Ht.
  pose proof (fun sb' rest b => spec_place_rest (po_side po) (po_order_type po) (policy_of (po_time_in_force po))
    (po_price po) (po_quantity po) _ sb' rest b ltac:(lia) Hpos) as Hrest.
  destruct (spec_place _ _ _ _ _ _) as [sb v]. cbn [fst snd] in *. subst sb. destruct Ht as [Ht1 Ht2].
  destruct (Hok res eq_refl) as (_ & _ & Hsum & _).
  injection Hv as <-. split; [by eapply Hrest|]. rewrite Ht1, Ht2. cbn [traded].
  split; [lia|]. by destruct (bool_decide _).
Qed.

(** C7: no quantity is created or lost: what the caller is told was filled
    leaves the makers' side, and what is told to remain is added to the
    taker's own side if it rests. A refused order moves nothing. *)
Theorem place_order_conserves n assets po uuid assets' r (Hwf : assets_wf n assets)
    (Hn : 0 <= n < u32_max) (Hpo : place_order_wf po)
    (Hrun : do_place_order assets po uuid = Return (assets', r)) :
  let depth a side := total (spec_side (abs_book (book_of a (po_asset po))) side) in
  match r with
  | Ok res =>
      depth assets' (opposite (po_side po)) =
        depth assets (opposite (po_side po)) - por_quantity_filled res /\
      depth assets' (po_side po) =
        depth assets (po_side po) +
          (if bool_decide (is_Some (por_order_index res)) then por_quantity_remaining res else 0)
  | Err _ => assets' = assets
  end.
Proof.
  destruct (do_place_order_post n assets po uuid Hwf Hn Hpo) as (a2 & r2 & Hr & Hpost).
  rewrite Hr in Hrun. injection Hrun as -> ->.
  pose proof (place_post_totals n assets po uuid assets' r Hwf Hpo Hpost) as Ht. by destruct r; [destruct Ht|].
Qed.

(** Matching never leaves the book crossed: if every bid was below
    every ask, it still is after the order, whatever its type, price and
    time in force. *)
Theorem place_order_keeps_uncrossed n assets po uuid assets' r (Hwf : assets_wf n assets)
    (Hn : 0 <= n < u32_max) (Hpo : place_order_wf po)
    (Hunc : forall asset, uncrossed (abs_book (book_of assets asset)))
    (Hrun : do_place_order assets po uuid = Return (assets', r)) :
  forall asset b a, b ∈ book_orders (book_of assets' asset) Buy ->
    a ∈ book_orders (book_of assets' asset) Sell -> price b < price a.
Proof.
  destruct (do_place_order_post n assets po uuid Hwf Hn Hpo) as (a2 & r2 & Hr & Hpost).
  rewrite Hr in Hrun. injection Hrun as -> ->.
  destruct Hpost as (_ & Habs & _ & _ & _ & Hother & _). intros asset b a Hb Ha.
  assert (uncrossed (abs_book (book_of assets' asset))) as Hu.
  { destruct (decide (asset = po_asset po)) as [->|Hne].
    - rewrite Habs. apply spec_place_uncrossed; [|apply Hunc].
      rewrite spec_side_abs. apply (abs_sorted n), Hwf.
    - unfold book_of in *. rewrite Hother by done. apply Hunc. }
  apply (Hu (price b, quantity b) (price a, quantity a)); cbn; unfold abs_orders.
  - by apply (list_elem_of_fmap_2 (fun o => (price o, quantity o)) _ b).
  - by apply (list_elem_of_fmap_2 (fun o => (price o, quantity o)) _ a).
Qed.
End properties.

Section cancel.
Context `{BuildProfile}.

(** Cancelling a known order takes exactly that order off the book of
    the asset it was recorded with, in whatever position it rests, and
    changes nothing else: neither the other side, nor the other book, nor
    the table of uuids. The user named in the command is not looked at. *)
Theorem cancel_removes_order n assets co A o B asset side (Hwf : assets_wf n assets)
    (Hu : order_uuids assets !! co_order_uuid co = Some (order_index side o, asset))
    (Ho : book_orders (book_of assets asset) side = A ++ o :: B) :
  exists assets', do_cancel_order assets co = Return (assets', Ok tt) /\
    assets_wf n assets' /\
    book_orders (book_of assets' asset) side = A ++ B /\
    book_orders (book_of assets' asset) (opposite side) =
      book_orders (book_of assets asset) (opposite side) /\
    (forall asset', asset' <> asset -> match_asset assets' asset' = match_asset assets asset') /\
    order_uuids assets' = order_uuids assets.
Proof.
  destruct co as [user uuid]. cbn in Hu. unfold do_cancel_order. rewrite Hu.
  destruct (book_access n (book_of assets asset) side A o B (Hwf asset) Ho)
    as (_ & ob & _ & _ & Hr & Hob & Hrest & Hopp & _).
  fold (book_of assets asset). step_bind Hr. cbn [expect mbind outcome_bind].
  eexists. split; [done|]. unfold book_of at 1 2. rewrite match_write_asset.
  split_and!; [by apply assets_wf_write|done|done| |by apply order_uuids_write_asset].
  intros asset' Hne. by apply match_write_asset_ne.
Qed.

(** The uuid table is not cleaned up: a cancel leaves its entry behind,
    so a second cancel of the same order - by anyone - reaches the
    [expect("checked order")] and panics. *)
Theorem cancel_twice_panics n assets co co' A o B asset side (Hwf : assets_wf n assets)
    (Hu : order_uuids assets !! co_order_uuid co = Some (order_index side o, asset))
    (Ho : book_orders (book_of assets asset) side = A ++ o :: B)
    (Hco : co_order_uuid co' = co_order_uuid co) :
  exists assets', do_cancel_order assets co = Return (assets', Ok tt) /\
    do_cancel_order assets' co' = Panic "checked order".
Proof.
  destruct co as [user uuid], co' as [user' uuid']. cbn in Hu, Hco. subst uuid'.
  destruct (book_access n (book_of assets asset) side A o B (Hwf asset) Ho)
    as (_ & ob & _ & _ & Hr & Hob & Hrest & _).
  unfold do_cancel_order. rewrite Hu. fold (book_of assets asset). step_bind Hr.
  cbn [expect mbind outcome_bind]. eexists. split; [done|].
  rewrite order_uuids_write_asset, Hu, match_write_asset. cbn [orderbook set_orderbook].
  destruct (missing_access n ob side (price o) (memo o) Hob) as [_ Hm].
  { intros o' Ho' Hk. pose proof (book_keys_NoDup n _ side (Hwf asset)) as Hnd.
    fold (book_of assets asset) in Hnd. rewrite Ho, fmap_app, fmap_cons in Hnd.
    apply NoDup_app in Hnd as (_ & HA & [HB _]%NoDup_cons).
    fold (order_key o) in Hk. rewrite Hrest in Ho'. apply elem_of_app in Ho' as [Ho'|Ho'].
    - apply (HA (order_key o)); [rewrite <- Hk; by apply list_elem_of_fmap_2|left].
    - apply HB. rewrite <- Hk. by apply list_elem_of_fmap_2. }
  unfold order_index. by rewrite Hm.
Qed.
End cancel.

(** ** Concrete runs *)

Section witnesses.
#[local] Existing Instance debug_profile.

Definition demo_assets : Assets :=
  mkAssets {[ 9%N := (mkOrderIndex Sell 100 1, Bitcoin) ]} (AssetBook_new Ether)
    (mkAssetBook Bitcoin demo_book).

Lemma demo_assets_wf : assets_wf 2 demo_assets.
Proof. intros []; [apply demo_book_wf|]. eapply book_wf_mono; [|apply Orderbook_new_wf]. lia. Qed.

Lemma demo_assets_uncrossed asset : uncrossed (abs_book (book_of demo_assets asset)).
Proof.
  intros b a Hb Ha. destruct asset; cbn in Hb, Ha; [|by apply elem_of_nil in Hb].
  apply list_elem_of_singleton in Hb as ->.
  repeat (apply elem_of_cons in Ha as [->|Ha]; [cbn; lia|]). by apply elem_of_nil in Ha.
Qed.

(** A buy for 60 at 100: 50 are traded, 10 remain. *)
Definition demo_buy (tif : TimeInForce) : PlaceOrder :=
  mkPlaceOrder Bitcoin 1%N 100 60 Limit DecreaseCancel tif Buy.

Lemma demo_buy_wf tif : place_order_wf (demo_buy tif).
Proof. split; unfold_nz; cbn; lia. Qed.

Lemma place_order_refines_witness :
  exists assets' r, do_place_order demo_assets (demo_buy GoodTilCanceled) 5%N = Return (assets', r) /\
    abs_book (book_of assets' Bitcoin) = mkSpecBook [(100, 10); (95, 40)] [(105, 50)] /\
    verdict_of r = Some (Placed 10 true).
Proof.
  destruct (place_order_refines 2 demo_assets (demo_buy GoodTilCanceled) 5%N demo_assets_wf
              ltac:(by unfold u32_max) (demo_buy_wf _)) as (a & r & Hr & Hb & Hv & _).
  exists a, r. split; [exact Hr|]. split; [exact Hb|exact Hv].
Defined.

Lemma place_result_accounts_witness :
  exists assets' res,
    do_place_order demo_assets (demo_buy GoodTilCanceled) 5%N = Return (assets', Ok res) /\
    por_quantity_filled res + por_quantity_remaining res = 60.
Proof.
  eexists _, _. split; [vm_compute; reflexivity|].
  eapply (place_result_accounts 2 demo_assets (demo_buy GoodTilCanceled) 5%N _ _ demo_assets_wf
            ltac:(by unfold u32_max) (demo_buy_wf _) ltac:(vm_compute; reflexivity)).
Defined.

Lemma fill_or_kill_all_or_nothing_witness :
  do_place_order demo_assets (demo_buy FillOrKill) 5%N =
    Return (demo_assets, Err (PlaceOrderFailed FillOrKillFailed)).
Proof.
  apply (fill_or_kill_all_or_nothing 2 demo_assets (demo_buy FillOrKill) 5%N demo_assets_wf
           ltac:(by unfold u32_max) (demo_buy_wf _) eq_refl).
Defined.

Lemma immediate_or_cancel_never_rests_witness :
  exists assets' res,
    do_place_order demo_assets (demo_buy ImmediateOrCancel) 5%N = Return (assets', Ok res) /\
    por_order_index res = None /\ por_quantity_filled res = 50.
Proof.
  destruct (immediate_or_cancel_never_rests 2 demo_assets (demo_buy ImmediateOrCancel) 5%N
              demo_assets_wf ltac:(by unfold u32_max) (demo_buy_wf _) eq_refl)
    as (a & r & Hr & _ & res & -> & Hi & Hf).
  exists a, res. split; [exact Hr|]. split; [exact Hi|exact Hf].
Defined.

Lemma place_order_conserves_witness :
  exists assets' res,
    do_place_order demo_assets (demo_buy GoodTilCanceled) 5%N = Return (assets', Ok res) /\
    total (spec_side (abs_book (book_of assets' Bitcoin)) Sell) = 100 - por_quantity_filled res.
Proof.
  eexists _, _. split; [vm_compute; reflexivity|].
  eapply (place_order_conserves 2 demo_assets (demo_buy GoodTilCanceled) 5%N _ (Ok _) demo_assets_wf
            ltac:(by unfold u32_max) (demo_buy_wf _) ltac:(vm_compute; reflexivity)).
Defined.

Lemma place_order_keeps_uncrossed_witness :
  exists assets' r, do_place_order demo_assets (demo_buy GoodTilCanceled) 5%N = Return (assets', r) /\
    forall b a, b ∈ book_orders (book_of assets' Bitcoin) Buy ->
      a ∈ book_orders (book_of assets' Bitcoin) Sell -> price b < price a.
Proof.
  eexists _, _. split; [vm_compute; reflexivity|].
  apply (place_order_keeps_uncrossed 2 demo_assets (demo_buy GoodTilCanceled) 5%N _ _ demo_assets_wf
           ltac:(by unfold u32_max) (demo_buy_wf _) demo_assets_uncrossed
           ltac:(vm_compute; reflexivity) Bitcoin).
Defined.

Lemma cancel_removes_order_witness :
  exists assets', do_cancel_order demo_assets (mkCancelOrder 77%N 9%N) = Return (assets', Ok tt) /\
    book_orders (book_of assets' Bitcoin) Sell = [mkOrder 0 30 100; mkOrder 0 50 105].
Proof.
  destruct (cancel_removes_order 2 demo_assets (mkCancelOrder 77%N 9%N) [mkOrder 0 30 100]
              (mkOrder 1 20 100) [mkOrder 0 50 105] Bitcoin Sell demo_assets_wf eq_refl eq_refl)
    as (a & Hr & _ & Hb & _).
  exists a. split; [exact Hr|exact Hb].
Defined.

Lemma cancel_twice_panics_witness :
  exists assets', do_cancel_order demo_assets (mkCancelOrder 1%N 9%N) = Return (assets', Ok tt) /\
    do_cancel_order assets' (mkCancelOrder 2%N 9%N) = Panic "checked order".
Proof.
  apply (cancel_twice_panics 2 demo_assets (mkCancelOrder 1%N 9%N) (mkCancelOrder 2%N 9%N)
           [mkOrder 0 30 100] (mkOrder 1 20 100) [mkOrder 0 50 105] Bitcoin Sell demo_assets_wf
           eq_refl eq_refl eq_refl).
Defined.
End witnesses.
