(* ===== verification/Json.v ===== *)
(** * JSON values

    A value as [serde_json::Value] has it: numbers are integers here (the
    amounts the bitcoin client sends are made into values by a parameter, see
    [RpcMethods]), a map is the list of its entries. *)

From S2P Require Import Prelude.

#[warnings="-register-all"]
Inductive Json : Type :=
| JNull
| JBool (b : bool)
| JNumber (z : Z)
| JString (s : string)
| JArray (l : list Json)
| JObject (kvs : list (string * Json)).

Fixpoint assoc (k : string) (kvs : list (string * Json)) : option Json :=
  match kvs with
  | [] => None
  | (k', v) :: kvs' => if String.eqb k k' then Some v else assoc k kvs'
  end.

(** A field of a struct; a struct that is not a map has none. *)
Definition field (k : string) (j : Json) : option Json :=
  match j with JObject kvs => assoc k kvs | _ => None end.


(** [== serde_json::Value::Null] *)
Definition is_null (j : Json) : bool := match j with JNull => true | _ => false end.

Definition as_object (j : Json) : option (list (string * Json)) :=
  match j with JObject kvs => Some kvs | _ => None end.
Definition as_array (j : Json) : option (list Json) :=
  match j with JArray l => Some l | _ => None end.
Definition as_str (j : Json) : option string :=
  match j with JString s => Some s | _ => None end.
Definition as_bool (j : Json) : option bool :=
  match j with JBool b => Some b | _ => None end.

(** [Map::remove]: the entry, and the map without it. *)
Definition map_remove (k : string) (kvs : list (string * Json)) : option Json * list (string * Json) :=
  (assoc k kvs, filter (fun e => e.1 <> k) kvs).

(** [Map::insert] *)
Definition map_insert (k : string) (v : Json) (kvs : list (string * Json)) : list (string * Json) :=
  (k, v) :: filter (fun e => e.1 <> k) kvs.
