(* ===== verification/Codec.v ===== *)
(** * The JSON form of orders and commands (the serde attributes of
    src/exchange/src/trading and src/exchange/src/asset.rs).

    The event log stores a command as JSON and start-up reads it back. This
    file holds the promise the engine relies on ([EventCodec] and its laws),
    the representation the derive attributes of the source prescribe (renamed
    unit variants as strings, structs as maps of their fields, [TradeCmdPayload]
    untagged), and the proof that it keeps the promise. How a uuid is written
    belongs to the uuid crate and is a parameter with one law. *)

From Stdlib Require Import DecimalString DecimalN.
From S2P Require Import Prelude Json Asset Orderbook Trading.

(** ** What the engine needs *)

Definition payload_wf (p : TradeCmdPayload) : Prop :=
  match p with PayloadPlaceOrder po => place_order_wf po | PayloadCancelOrder _ => True end.

(** [serde_json::to_value] of a payload's data, and [serde_json::from_value]
    of a row. *)
Class EventCodec (Json : Type) : Type := {
  place_to_value : PlaceOrder -> option Json;
  cancel_to_value : CancelOrder -> option Json;
  payload_from_value : Json -> option TradeCmdPayload }.

(** What a row written by the engine is read back as. *)
Class EventCodecLaws (Json : Type) `{EventCodec Json} : Prop := {
  place_roundtrip po j : place_order_wf po -> place_to_value po = Some j ->
    payload_from_value j = Some (PayloadPlaceOrder po);
  cancel_roundtrip co j : cancel_to_value co = Some j ->
    payload_from_value j = Some (PayloadCancelOrder co) }.

(** ** Representations *)

(** A type's representation, and the values that survive the trip. *)
Class Serde (A : Type) : Type := {
  to_value : A -> Json;
  from_value : Json -> option A }.

Class SerdeLaws {A} (valid : A -> Prop) `{Serde A} : Prop :=
  from_to_value a : valid a -> from_value (to_value a) = Some a.

Definition any {A} (_ : A) : Prop := True.

Definition get_field {A} `{Serde A} (k : string) (j : Json) : option A := field k j ≫= from_value.

(** Unit variants are written as their names. *)
Definition enum_from {A} (name : A -> string) (variants : list A) (j : Json) : option A :=
  match j with
  | JString s => head (filter (fun a => name a = s) variants)
  | _ => None
  end.

Lemma enum_from_name {A} (name : A -> string) (variants : list A) a :
  a ∈ variants -> (forall b, name b = name a -> b = a) ->
  enum_from name variants (JString (name a)) = Some a.
Proof.
  intros Hin Hinj. unfold enum_from.
  induction variants as [|b l IH]; [by apply elem_of_nil in Hin|].
  rewrite filter_cons. destruct (decide (name b = name a)) as [Hb|Hb].
  - cbn. by rewrite (Hinj b Hb).
  - apply IH. apply elem_of_cons in Hin as [->|]; [done|done].
Qed.

Ltac solve_enum_law :=
  intros [] _; (apply enum_from_name; [set_solver|by intros []]).

Definition Asset_name (a : Asset) : string := match a with Bitcoin => "Bitcoin" | Ether => "Ether" end.
#[export] Instance Asset_serde : Serde Asset :=
  {| to_value a := JString (Asset_name a); from_value := enum_from Asset_name [Bitcoin; Ether] |}.
#[export] Instance Asset_serde_laws : SerdeLaws (any (A := Asset)).
Proof. solve_enum_law. Qed.

Definition OrderSide_name (s : OrderSide) : string := match s with Buy => "buy" | Sell => "sell" end.
#[export] Instance OrderSide_serde : Serde OrderSide :=
  {| to_value a := JString (OrderSide_name a); from_value := enum_from OrderSide_name [Buy; Sell] |}.
#[export] Instance OrderSide_serde_laws : SerdeLaws (any (A := OrderSide)).
Proof. solve_enum_law. Qed.

Definition OrderType_name (t : OrderType) : string := match t with Limit => "limit" | Market => "market" end.
#[export] Instance OrderType_serde : Serde OrderType :=
  {| to_value a := JString (OrderType_name a); from_value := enum_from OrderType_name [Limit; Market] |}.
#[export] Instance OrderType_serde_laws : SerdeLaws (any (A := OrderType)).
Proof. solve_enum_law. Qed.

Definition TimeInForce_name (t : TimeInForce) : string :=
  match t with
  | GoodTilCanceled => "gtc" | GoodTilDate => "gtd" | ImmediateOrCancel => "ioc" | FillOrKill => "fok"
  end.
#[export] Instance TimeInForce_serde : Serde TimeInForce :=
  {| to_value a := JString (TimeInForce_name a);
     from_value := enum_from TimeInForce_name
                     [GoodTilCanceled; GoodTilDate; ImmediateOrCancel; FillOrKill] |}.
#[export] Instance TimeInForce_serde_laws : SerdeLaws (any (A := TimeInForce)).
Proof. solve_enum_law. Qed.

Definition SelfTradeProtection_name (t : SelfTradeProtection) : string :=
  match t with DecreaseCancel => "dc" | CancelOldest => "co" | CancelNewest => "cn" | CancelBoth => "cb" end.
#[export] Instance SelfTradeProtection_serde : Serde SelfTradeProtection :=
  {| to_value a := JString (SelfTradeProtection_name a);
     from_value := enum_from SelfTradeProtection_name
                     [DecreaseCancel; CancelOldest; CancelNewest; CancelBoth] |}.
#[export] Instance SelfTradeProtection_serde_laws : SerdeLaws (any (A := SelfTradeProtection)).
Proof. solve_enum_law. Qed.

(** [NonZeroU32]: a number in range. *)
Definition nonzero_u32_from (j : Json) : option Z :=
  match j with
  | JNumber z => if (0 <? z) && (z <=? u32_max) then Some z else None
  | _ => None
  end.

Lemma nonzero_u32_from_to z : nz_u32 z -> nonzero_u32_from (JNumber z) = Some z.
Proof.
  unfold nz_u32, nonzero_u32_from. intros Hz.
  by rewrite (proj2 (Z.ltb_lt 0 z)), (proj2 (Z.leb_le z u32_max)) by lia.
Qed.

(** The uuid crate's serde feature: a uuid is written as text. *)
Class UuidText : Type := {
  uuid_to_string : Uuid -> string;
  uuid_parse_str : string -> option Uuid }.
Class UuidTextLaws `{UuidText} : Prop :=
  uuid_parse_to_string u : uuid_parse_str (uuid_to_string u) = Some u.

Section structs.
Context `{UuidText}.

Definition uuid_from (j : Json) : option Uuid :=
  match j with JString s => uuid_parse_str s | _ => None end.

Definition place_order_to_value (po : PlaceOrder) : Json :=
  JObject [ ("asset", to_value (po_asset po));
            ("user_uuid", JString (uuid_to_string (po_user_uuid po)));
            ("price", JNumber (po_price po));
            ("quantity", JNumber (po_quantity po));
            ("order_type", to_value (po_order_type po));
            ("stp", to_value (po_stp po));
            ("time_in_force", to_value (po_time_in_force po));
            ("side", to_value (po_side po)) ].

Definition place_order_from_value (j : Json) : option PlaceOrder :=
  asset ← get_field "asset" j;
  user_uuid ← field "user_uuid" j ≫= uuid_from;
  price ← field "price" j ≫= nonzero_u32_from;
  quantity ← field "quantity" j ≫= nonzero_u32_from;
  order_type ← get_field "order_type" j;
  stp ← get_field "stp" j;
  time_in_force ← get_field "time_in_force" j;
  side ← get_field "side" j;
  Some (mkPlaceOrder asset user_uuid price quantity order_type stp time_in_force side).

Definition cancel_order_to_value (co : CancelOrder) : Json :=
  JObject [ ("user_uuid", JString (uuid_to_string (co_user_uuid co)));
            ("order_uuid", JString (uuid_to_string (co_order_uuid co))) ].

Definition cancel_order_from_value (j : Json) : option CancelOrder :=
  user_uuid ← field "user_uuid" j ≫= uuid_from;
  order_uuid ← field "order_uuid" j ≫= uuid_from;
  Some (mkCancelOrder user_uuid order_uuid).

(** [#[serde(untagged)]]: the variants are tried in order. *)
Definition trade_cmd_payload_from_value (j : Json) : option TradeCmdPayload :=
  match place_order_from_value j with
  | Some po => Some (PayloadPlaceOrder po)
  | None => PayloadCancelOrder <$> cancel_order_from_value j
  end.

#[export] Instance PlaceOrder_serde : Serde PlaceOrder :=
  {| to_value := place_order_to_value; from_value := place_order_from_value |}.
#[export] Instance CancelOrder_serde : Serde CancelOrder :=
  {| to_value := cancel_order_to_value; from_value := cancel_order_from_value |}.

#[export] Instance json_event_codec : EventCodec Json := {|
  place_to_value po := Some (to_value po);
  cancel_to_value co := Some (to_value co);
  payload_from_value := trade_cmd_payload_from_value |}.

Context `{!UuidTextLaws}.

#[export] Instance PlaceOrder_serde_laws : SerdeLaws place_order_wf.
Proof.
  intros po [Hp Hq]. cbn [from_value to_value PlaceOrder_serde].
  unfold place_order_from_value, get_field, place_order_to_value.
  cbn [field assoc String.eqb Ascii.eqb Bool.eqb mbind option_bind uuid_from]. rewrite !uuid_parse_to_string.
  rewrite (nonzero_u32_from_to _ Hp), (nonzero_u32_from_to _ Hq).
  rewrite !(from_to_value (valid := any)) by done. by destruct po.
Qed.

#[export] Instance CancelOrder_serde_laws : SerdeLaws (any (A := CancelOrder)).
Proof.
  intros [u o] _. cbn. by rewrite !uuid_parse_to_string.
Qed.

Lemma cancel_is_not_place co : place_order_from_value (cancel_order_to_value co) = None.
Proof. done. Qed.

#[export] Instance json_event_codec_laws : EventCodecLaws Json.
Proof.
  split.
  - intros po j Hpo [= <-]. cbn [payload_from_value json_event_codec].
    unfold trade_cmd_payload_from_value. pose proof (from_to_value po Hpo) as Hrt.
    cbn [from_value to_value PlaceOrder_serde] in Hrt |- *. by rewrite Hrt.
  - intros co j [= <-]. cbn [payload_from_value json_event_codec].
    unfold trade_cmd_payload_from_value. cbn [to_value CancelOrder_serde].
    rewrite cancel_is_not_place. pose proof (from_to_value (valid := any) co I) as Hrt.
    cbn [from_value to_value CancelOrder_serde] in Hrt |- *. by rewrite Hrt.
Qed.
End structs.

(** A concrete uuid text, to run the definitions: the decimal digits. *)
Definition decimal_uuid_text : UuidText := {|
  uuid_to_string u := NilEmpty.string_of_uint (N.to_uint u);
  uuid_parse_str s := N.of_uint <$> NilEmpty.uint_of_string s |}.

Lemma decimal_uuid_text_laws : @UuidTextLaws decimal_uuid_text.
Proof. intros u. cbn. rewrite NilEmpty.usu. cbn. by rewrite DecimalN.Unsigned.of_to. Qed.

(** ** Properties *)

Section properties.
Context `{UuidText}.

Definition payload_to_value (p : TradeCmdPayload) : Json :=
  match p with
  | PayloadPlaceOrder po => to_value po
  | PayloadCancelOrder co => to_value co
  end.

(** C37: a command written to the event log is read back as the same
    command: the untagged representation does not confuse the two kinds, and
    no field is lost. *)
Theorem payload_roundtrip `{!UuidTextLaws} p (Hp : payload_wf p) :
  trade_cmd_payload_from_value (payload_to_value p) = Some p.
Proof.
  destruct p as [po|co].
  - exact (@place_roundtrip Json json_event_codec _ po _ Hp eq_refl).
  - exact (@cancel_roundtrip Json json_event_codec _ co _ eq_refl).
Qed.

(** C38: whatever is stored in a row, a command read from it has its price
    and quantity between 1 and 2^32 - 1, and a row that has all the fields of
    an order is never read as a cancel. *)
Theorem decoded_payload_in_range j p (Hj : trade_cmd_payload_from_value j = Some p) :
  payload_wf p /\
  (forall co, p = PayloadCancelOrder co -> place_order_from_value j = None).
Proof.
  unfold trade_cmd_payload_from_value in Hj.
  destruct (place_order_from_value j) as [po|] eqn:Hpo.
  - injection Hj as <-. split; [|done]. unfold place_order_from_value in Hpo.
    repeat match type of Hpo with
           | mbind _ ?m = _ => destruct m eqn:?; cbn in Hpo; [|done]
           end.
    injection Hpo as <-. split; cbn;
      match goal with
      | E : field ?k j ≫= nonzero_u32_from = Some ?z |- nz_u32 ?z =>
          destruct (field k j) as [[]|]; cbn in E; try done;
          case_match; [|done]; injection E as <-; unfold nz_u32; lia
      end.
  - destruct (cancel_order_from_value j) as [co|]; [|done]. by injection Hj as <-.
Qed.
End properties.

Section witnesses.
#[local] Existing Instances decimal_uuid_text decimal_uuid_text_laws.

Definition demo_payload : TradeCmdPayload :=
  PayloadPlaceOrder (mkPlaceOrder Bitcoin 1%N 100 60 Limit DecreaseCancel GoodTilCanceled Buy).

Lemma payload_roundtrip_witness :
  trade_cmd_payload_from_value (payload_to_value demo_payload) = Some demo_payload.
Proof. apply (payload_roundtrip demo_payload). split; unfold_nz; cbn; lia. Defined.

Lemma decoded_payload_in_range_witness : payload_wf demo_payload.
Proof.
  apply (decoded_payload_in_range (payload_to_value demo_payload) demo_payload).
  vm_compute. reflexivity.
Defined.
End witnesses.
