(* ===== verification/Accounting.v ===== *)
(** * The double-entry journal (the migrations 0004, 0006 and 0007, and the
    queries of src/exchange/src/app_cx.rs and app_cx/reserve_ok.rs).

    The tables as lists of rows, the INSERT with the constraints the migrations
    declare, and the stored function [calculate_balance]. Whether migration
    0007, which adds the txid column, has been applied is a parameter. A query
    that PostgreSQL refuses leaves the tables as they are; the ids a sequence
    skips on a refused INSERT are not modelled. *)

From S2P Require Import Prelude.

(** ** Tables *)

Inductive SourceType : Type := UserSource | FiatSource | CryptoSource.

#[export] Instance SourceType_eq_dec : EqDecision SourceType.
Proof. solve_decision. Defined.

Record Account : Type := mkAccount {
  acc_id : Z;
  acc_currency : string;
  source_type : SourceType;
  source_id : string }.

Record JournalEntry : Type := mkEntry {
  tx_id : Z;
  credit_account_id : Z;
  debit_account_id : Z;
  tx_currency : string;
  amount : Z;
  transaction_type : string;
  txid : option string }.

Record Db : Type := mkDb {
  accounts : list Account;
  journal : list JournalEntry;
  next_tx_id : Z }.

(** Migration 0007: [true] when it has been applied. *)
Class Schema : Type := txid_column : bool.

(** The database the migrations leave behind. *)
Definition Db_new : Db :=
  mkDb [ mkAccount 1 "USD" FiatSource "exchange"; mkAccount 2 "BTC" CryptoSource "bitcoin" ] [] 1.

(** ** Queries *)

Definition i64_max : Z := 9223372036854775807.
Definition i64_min : Z := -9223372036854775808.

(** [currency ~ '^[A-Z]{3,}$'] *)
Definition is_upper (c : Ascii.ascii) : bool :=
  (65 <=? Z.of_nat (Ascii.nat_of_ascii c)) && (Z.of_nat (Ascii.nat_of_ascii c) <=? 90).
Definition currency_ok (s : string) : bool :=
  forallb is_upper (String.list_ascii_of_string s) && (3 <=? length (String.list_ascii_of_string s))%nat.

Definition account_exists (db : Db) (id : Z) : bool :=
  existsb (fun a => acc_id a =? id) (accounts db).

(** The constraints on the txid: none before migration 0007, when there is no
    such column; not null, not empty and unique after. *)
Definition txid_check `{Schema} (db : Db) (t : option string) : result unit SqlxError :=
  match txid_column, t with
  | false, None => Ok tt
  | false, Some _ => Err (DatabaseError false)
  | true, None => Err (DatabaseError false)
  | true, Some s =>
      if bool_decide (s = "") then Err (DatabaseError false)
      else if existsb (fun e => bool_decide (txid e = Some s)) (journal db)
      then Err (DatabaseError true)
      else Ok tt
  end.

(** One row into account_tx_journal; [None] is NULL. *)
Definition insert_tx `{Schema} (db : Db) (credit debit : option Z) (currency : string) (amt : Z)
    (type : string) (t : option string) : Db * result Z SqlxError :=
  let refuse e := (db, Err e) in
  match credit, debit with
  | Some c, Some d =>
      if (amt <=? 0) || (c =? d) || negb (currency_ok currency) then refuse (DatabaseError false)
      else if negb (account_exists db c) || negb (account_exists db d)
      then refuse (DatabaseError false)
      else match txid_check db t with
           | Err e => refuse e
           | Ok _ =>
               (mkDb (accounts db)
                  (journal db ++ [mkEntry (next_tx_id db) c d currency amt type t])
                  (next_tx_id db + 1),
                Ok (next_tx_id db))
           end
  | _, _ => refuse (DatabaseError false)
  end.

(** A scalar subquery: NULL when there is no row, an error when there are
    several. *)
Definition scalar_subquery (l : list Account) : result (option Z) SqlxError :=
  match l with
  | [] => Ok None
  | [a] => Ok (Some (acc_id a))
  | _ :: _ :: _ => Err (DatabaseError false)
  end.

Definition total_credit (id : Z) (j : list JournalEntry) : Z :=
  foldr (fun e z => (if credit_account_id e =? id then amount e else 0) + z) 0 j.
Definition total_debit (id : Z) (j : list JournalEntry) : Z :=
  foldr (fun e z => (if debit_account_id e =? id then amount e else 0) + z) 0 j.

Definition is_user_account (source currency : string) (a : Account) : bool :=
  bool_decide (source_type a = UserSource /\ source_id a = source /\ acc_currency a = currency).

(** [calculate_balance(source_uuid, currency_code)] *)
Definition calculate_balance (db : Db) (source_uuid currency_code : string) :
    result (option Z) SqlxError :=
  match List.find (is_user_account source_uuid currency_code) (accounts db) with
  | None => Err (DatabaseError false)
  | Some a =>
      let credit_total := total_credit (acc_id a) (journal db) in
      let debit_total := total_debit (acc_id a) (journal db) in
      if (i64_max <? credit_total) || (i64_max <? debit_total) then Err (DatabaseError false)
      else Ok (Some (credit_total - debit_total))
  end.

(** The INSERT of [reserve_by_asset]. *)
Definition insert_reserve `{Schema} (db : Db) (quantity : Z) (user currency : string) :
    Db * result Z SqlxError :=
  let credit := scalar_subquery (filter (fun a =>
    source_type a = FiatSource /\ source_id a = "exchange" /\ acc_currency a = currency) (accounts db)) in
  let debit := scalar_subquery (filter (fun a =>
    source_type a = UserSource /\ source_id a = user) (accounts db)) in
  match credit, debit with
  | Err e, _ | _, Err e => (db, Err e)
  | Ok c, Ok d => insert_tx db c d currency quantity "reserve asset" None
  end.

(** The INSERT of [ReserveOk::revert]: the inverse of a row, if it is there. *)
Definition insert_revert `{Schema} (db : Db) (row_id : Z) : Db * result Z SqlxError :=
  match List.find (fun e => tx_id e =? row_id) (journal db) with
  | None => (db, Err RowNotFound)
  | Some e =>
      insert_tx db (Some (debit_account_id e)) (Some (credit_account_id e)) (tx_currency e) (amount e)
        "revert reserve asset" None
  end.

(** What a transaction that commits adds to the journal: the rows it has
    inserted, whose ids the sequence has given out. The constraints are
    evaluated once more, row by row: this is where a row that a transaction
    committed in between forbids is refused. *)
Definition row_ok `{Schema} (db : Db) (e : JournalEntry) : bool :=
  negb ((amount e <=? 0) || (credit_account_id e =? debit_account_id e) ||
        negb (currency_ok (tx_currency e))) &&
  account_exists db (credit_account_id e) && account_exists db (debit_account_id e) &&
  (tx_id e <? next_tx_id db) && negb (existsb (fun e' => tx_id e' =? tx_id e) (journal db)) &&
  match txid_check db (txid e) with Ok _ => true | Err _ => false end.

Fixpoint commit_rows `{Schema} (db : Db) (rows : list JournalEntry) : option Db :=
  match rows with
  | [] => Some db
  | e :: rows' =>
      if row_ok db e
      then commit_rows (mkDb (accounts db) (journal db ++ [e]) (next_tx_id db)) rows'
      else None
  end.

(** ** Balances *)

Definition balance_of (id : Z) (j : list JournalEntry) : Z := total_credit id j - total_debit id j.

Lemma total_credit_snoc id j e :
  total_credit id (j ++ [e]) = total_credit id j + (if credit_account_id e =? id then amount e else 0).
Proof. unfold total_credit. induction j as [|x j IH]; cbn in *; lia. Qed.

Lemma total_debit_snoc id j e :
  total_debit id (j ++ [e]) = total_debit id j + (if debit_account_id e =? id then amount e else 0).
Proof. unfold total_debit. induction j as [|x j IH]; cbn in *; lia. Qed.

Definition transfer (e : JournalEntry) (id : Z) : Z :=
  (if credit_account_id e =? id then amount e else 0) -
  (if debit_account_id e =? id then amount e else 0).

Lemma balance_of_snoc id j e : balance_of id (j ++ [e]) = balance_of id j + transfer e id.
Proof. unfold balance_of, transfer. rewrite total_credit_snoc, total_debit_snoc. lia. Qed.

(** What the constraints keep: accounts have different ids, rows point to
    accounts, move a positive amount between two of them, and are numbered in
    order. *)
Definition entry_wf (db : Db) (e : JournalEntry) : Prop :=
  credit_account_id e ∈ acc_id <$> accounts db /\ debit_account_id e ∈ acc_id <$> accounts db /\
  credit_account_id e <> debit_account_id e /\ 0 < amount e /\ tx_id e < next_tx_id db.

Definition db_wf (db : Db) : Prop :=
  NoDup (acc_id <$> accounts db) /\ Forall (entry_wf db) (journal db) /\
  NoDup (tx_id <$> journal db).

Lemma account_exists_spec db id : account_exists db id = true <-> id ∈ acc_id <$> accounts db.
Proof.
  unfold account_exists. rewrite existsb_exists, list_elem_of_fmap. split.
  - intros (a & Ha & Heq). exists a. split; [lia|by apply list_elem_of_In].
  - intros (a & -> & Ha). exists a. split; [by apply list_elem_of_In|lia].
Qed.

(** What an accepted INSERT does. *)
Inductive inserted_tx (db : Db) (c d : Z) (currency : string) (amt : Z) (type : string)
    (t : option string) : Db * result Z SqlxError -> Prop :=
| inserted_ok :
    c ∈ acc_id <$> accounts db -> d ∈ acc_id <$> accounts db -> c <> d -> 0 < amt ->
    inserted_tx db c d currency amt type t
      (mkDb (accounts db) (journal db ++ [mkEntry (next_tx_id db) c d currency amt type t])
         (next_tx_id db + 1), Ok (next_tx_id db))
| inserted_refused e : inserted_tx db c d currency amt type t (db, Err e).

Lemma insert_tx_spec `{Schema} db c d currency amt type t :
  inserted_tx db c d currency amt type t (insert_tx db (Some c) (Some d) currency amt type t).
Proof.
  unfold insert_tx. destruct (Z.leb_spec amt 0); cbn [orb]; [constructor|].
  destruct (Z.eqb_spec c d); cbn [orb]; [constructor|].
  destruct (currency_ok currency); cbn [negb]; [|constructor].
  destruct (account_exists db c) eqn:Hc; cbn [negb orb]; [|constructor].
  destruct (account_exists db d) eqn:Hd; cbn [negb]; [|constructor].
  destruct (txid_check db t); [|constructor].
  constructor; [by apply account_exists_spec|by apply account_exists_spec|done|done].
Qed.

Lemma inserted_tx_wf db c d currency amt type t r :
  db_wf db -> inserted_tx db c d currency amt type t r -> db_wf r.1.
Proof.
  intros (Ha & Hj & Hids). destruct 1 as [Hc Hd Hne Hamt|e]; [|done].
  split_and!; cbn [fst accounts journal next_tx_id]; [done| |].
  - apply Forall_app. split.
    + eapply Forall_impl; [exact Hj|]. intros e (? & ? & ? & ? & ?). split_and!; try done. cbn. lia.
    + apply Forall_singleton. split_and!; try done. cbn. lia.
  - rewrite fmap_app. apply NoDup_app. split_and!; [done| |apply NoDup_singleton].
    cbn. intros i Hi Heqi. apply list_elem_of_singleton in Heqi as ->. apply list_elem_of_fmap in Hi as (e & Heq & He).
    rewrite Forall_forall in Hj. destruct (Hj e He) as (_ & _ & _ & _ & Hlt). lia.
Qed.

(** Double entry: whatever has been journalled, the balances of all accounts
    add up to zero. *)
Definition sum_balances (ids : list Z) (j : list JournalEntry) : Z :=
  foldr (fun id z => balance_of id j + z) 0 ids.

Lemma sum_balances_snoc ids j e :
  sum_balances ids (j ++ [e]) = sum_balances ids j + foldr (fun id z => transfer e id + z) 0 ids.
Proof.
  unfold sum_balances. induction ids as [|i ids IH]; cbn in *; [lia|]. rewrite balance_of_snoc. lia.
Qed.

Lemma sum_point ids c (v : Z) :
  NoDup ids -> foldr (fun id z => (if c =? id then v else 0) + z) 0 ids =
    if bool_decide (c ∈ ids) then v else 0.
Proof.
  induction 1 as [|i ids Hi Hnd IH]; cbn; [done|]. rewrite IH.
  destruct (Z.eqb_spec c i) as [->|Hne].
  - rewrite bool_decide_false by done. rewrite bool_decide_true by left. lia.
  - rewrite (bool_decide_ext (c ∈ i :: ids) (c ∈ ids)); [lia|]. rewrite elem_of_cons. tauto.
Qed.

Lemma sum_transfer ids e :
  NoDup ids -> credit_account_id e ∈ ids -> debit_account_id e ∈ ids ->
  foldr (fun id z => transfer e id + z) 0 ids = 0.
Proof.
  intros Hnd Hc Hd.
  assert (foldr (fun id z => transfer e id + z) 0 ids =
            foldr (fun id z => (if credit_account_id e =? id then amount e else 0) + z) 0 ids -
            foldr (fun id z => (if debit_account_id e =? id then amount e else 0) + z) 0 ids) as ->.
  { clear. unfold transfer. induction ids as [|i ids IH]; cbn in *; lia. }
  rewrite !sum_point, !bool_decide_true by done. lia.
Qed.

Lemma double_entry_zero db : db_wf db -> sum_balances (acc_id <$> accounts db) (journal db) = 0.
Proof.
  intros (Ha & Hj & _). induction (journal db) as [|e j IH] using rev_ind.
  - clear. unfold sum_balances. induction (acc_id <$> accounts db) as [|i l IH]; cbn; [done|].
    rewrite IH. done.
  - apply Forall_app in Hj as [Hj [(Hc & Hd & _) _]%Forall_cons].
    rewrite sum_balances_snoc, IH, sum_transfer by done. done.
Qed.

(** ** What the reservation of one account does *)

Definition before_0007 : Schema := false.
Definition all_migrations : Schema := true.

(** The user's only account, in [currency], and the exchange's account in it;
    the totals fit a BIGINT with [q] more. *)
Record reserve_setup (db : Db) (user currency : string) (a x : Account) (q : Z) : Prop := {
  rs_wf : db_wf db;
  rs_currency : currency_ok currency = true;
  rs_user : filter (fun a => source_type a = UserSource /\ source_id a = user) (accounts db) = [a];
  rs_user_currency : acc_currency a = currency;
  rs_exchange : filter (fun a =>
    source_type a = FiatSource /\ source_id a = "exchange" /\ acc_currency a = currency)
      (accounts db) = [x];
  rs_credit : total_credit (acc_id a) (journal db) <= i64_max;
  rs_debit : total_debit (acc_id a) (journal db) + q <= i64_max;
  rs_quantity : 0 < q <= u32_max }.

Lemma filter_singleton_in {A} (P : A -> Prop) `{!forall a, Decision (P a)} l a :
  filter P l = [a] -> P a /\ a ∈ l.
Proof. intros Hf. rewrite <- list_elem_of_filter, Hf. left. Qed.

Section setup.
Context {db : Db} {user currency : string} {a x : Account} {q : Z}
  (Hs : reserve_setup db user currency a x q).

Lemma setup_find : List.find (is_user_account user currency) (accounts db) = Some a.
Proof.
  destruct Hs as [_ _ Hu Hc _ _ _ _]. revert Hu.
  induction (accounts db) as [|b l IH]; [done|]. rewrite filter_cons.
  cbn [List.find]. destruct (decide (source_type b = UserSource /\ source_id b = user)) as [[Ht Hi]|Hne].
  - intros [= -> _]. unfold is_user_account. by rewrite bool_decide_true.
  - intros Hf. unfold is_user_account at 1. rewrite bool_decide_false by tauto. by apply IH.
Qed.

Lemma setup_user : source_type a = UserSource /\ a ∈ accounts db.
Proof. destruct (filter_singleton_in _ _ _ (rs_user _ _ _ _ _ _ Hs)) as [[? _] ?]. done. Qed.

Lemma setup_exchange : source_type x = FiatSource /\ x ∈ accounts db.
Proof. destruct (filter_singleton_in _ _ _ (rs_exchange _ _ _ _ _ _ Hs)) as [[? _] ?]. done. Qed.

Lemma setup_distinct : acc_id x <> acc_id a.
Proof.
  intros Heq. destruct setup_user as [Hu Hin], setup_exchange as [Hx Hinx].
  pose proof (rs_wf _ _ _ _ _ _ Hs) as [Hnd _]. apply list_elem_of_split in Hin as (l1 & l2 & Hl).
  rewrite Hl in Hnd, Hinx. rewrite fmap_app, fmap_cons in Hnd.
  apply NoDup_app in Hnd as (_ & Hd1 & [Hd2 _]%NoDup_cons).
  apply elem_of_app in Hinx as [Hinx|[->|Hinx]%elem_of_cons].
  - apply (Hd1 (acc_id x)); [by apply list_elem_of_fmap_2|]. rewrite Heq. left.
  - congruence.
  - apply Hd2. rewrite <- Heq. by apply list_elem_of_fmap_2.
Qed.

Lemma setup_balance :
  calculate_balance db user currency = Ok (Some (balance_of (acc_id a) (journal db))).
Proof.
  unfold calculate_balance. rewrite setup_find.
  pose proof (rs_credit _ _ _ _ _ _ Hs). pose proof (rs_debit _ _ _ _ _ _ Hs).
  pose proof (rs_quantity _ _ _ _ _ _ Hs).
  by rewrite (proj2 (Z.ltb_ge _ _)), (proj2 (Z.ltb_ge _ _)) by lia.
Qed.

(** The row the reservation writes. *)
Definition reserve_entry : JournalEntry :=
  mkEntry (next_tx_id db) (acc_id x) (acc_id a) currency q "reserve asset" None.
Definition reserved_db : Db :=
  mkDb (accounts db) (journal db ++ [reserve_entry]) (next_tx_id db + 1).

Lemma setup_insert :
  insert_reserve (H := before_0007) db q user currency = (reserved_db, Ok (next_tx_id db)).
Proof.
  destruct setup_user as [_ Hu], setup_exchange as [_ Hx]. pose proof setup_distinct as Hne.
  pose proof (rs_quantity _ _ _ _ _ _ Hs).
  unfold insert_reserve. rewrite (rs_exchange _ _ _ _ _ _ Hs), (rs_user _ _ _ _ _ _ Hs). cbn [scalar_subquery].
  unfold insert_tx. rewrite (proj2 (Z.leb_gt q 0)) by lia. rewrite (proj2 (Z.eqb_neq _ _)) by done.
  rewrite (rs_currency _ _ _ _ _ _ Hs). cbn [negb orb].
  rewrite !(proj2 (account_exists_spec _ _)) by (by apply list_elem_of_fmap_2). done.
Qed.

Lemma reserved_balance :
  balance_of (acc_id a) (journal reserved_db) = balance_of (acc_id a) (journal db) - q.
Proof.
  cbn [journal reserved_db]. rewrite balance_of_snoc. unfold transfer. cbn.
  rewrite (proj2 (Z.eqb_neq _ _)) by apply setup_distinct. rewrite Z.eqb_refl. lia.
Qed.

Lemma reserved_wf : db_wf reserved_db.
Proof.
  pose proof (inserted_tx_wf db (acc_id x) (acc_id a) currency q "reserve asset" None
    (insert_reserve (H := before_0007) db q user currency) (rs_wf _ _ _ _ _ _ Hs)) as Hw.
  rewrite setup_insert in Hw. apply Hw.
  pose proof (rs_quantity _ _ _ _ _ _ Hs).
  constructor; [apply list_elem_of_fmap_2, setup_exchange|apply list_elem_of_fmap_2, setup_user| |lia].
  apply setup_distinct.
Qed.

(** The reservation with less room left is a setup again. *)
Lemma reserved_setup q' :
  total_debit (acc_id a) (journal db) + q + q' <= i64_max -> 0 < q' <= u32_max ->
  reserve_setup reserved_db user currency a x q'.
Proof.
  intros Hroom Hq'. destruct Hs. split; try done.
  - apply reserved_wf.
  - cbn [journal reserved_db]. rewrite total_credit_snoc. cbn.
    rewrite (proj2 (Z.eqb_neq _ _)) by apply setup_distinct. lia.
  - cbn [journal reserved_db]. rewrite total_debit_snoc. cbn. rewrite Z.eqb_refl. lia.
Qed.

Lemma balance_after : calculate_balance reserved_db user currency =
  Ok (Some (balance_of (acc_id a) (journal db) - q)).
Proof.
  rewrite <- reserved_balance. unfold calculate_balance.
  change (accounts reserved_db) with (accounts db). rewrite setup_find.
  assert (total_credit (acc_id a) (journal reserved_db) <= i64_max) as H1.
  { cbn [journal reserved_db]. rewrite total_credit_snoc. cbn.
    rewrite (proj2 (Z.eqb_neq _ _)) by apply setup_distinct.
    pose proof (rs_credit _ _ _ _ _ _ Hs). lia. }
  assert (total_debit (acc_id a) (journal reserved_db) <= i64_max) as H2.
  { cbn [journal reserved_db]. rewrite total_debit_snoc. cbn. rewrite Z.eqb_refl.
    pose proof (rs_debit _ _ _ _ _ _ Hs). lia. }
  by rewrite (proj2 (Z.ltb_ge _ _) H1), (proj2 (Z.ltb_ge _ _) H2).
Qed.
End setup.

(** ** Histories of the tables *)


(** What the program does to the tables: any INSERT, accepted or not, a
    transaction that commits, the numbers it takes from the sequence. And what
    is done to them besides: an account that is opened. *)
Inductive db_change `{Schema} : Db -> Db -> Prop :=
| change_insert db c d currency amt type t :
    db_change db (insert_tx db c d currency amt type t).1
| change_reserve db q user currency : db_change db (insert_reserve db q user currency).1
| change_revert db r : db_change db (insert_revert db r).1
| change_commit db rows db' : commit_rows db rows = Some db' -> db_change db db'
| change_sequence db n : 0 <= n -> db_change db (mkDb (accounts db) (journal db) (next_tx_id db + n)).

Inductive db_step `{Schema} : Db -> Db -> Prop :=
| step_change db db' : db_change db db' -> db_step db db'
| step_account db a :
    acc_id a ∉ acc_id <$> accounts db ->
    db_step db (mkDb (accounts db ++ [a]) (journal db) (next_tx_id db)).

Lemma insert_tx_wf `{Schema} db c d currency amt type t :
  db_wf db -> db_wf (insert_tx db c d currency amt type t).1.
Proof.
  intros Hwf. destruct c as [c|], d as [d|]; [|done..].
  exact (inserted_tx_wf _ _ _ _ _ _ _ _ Hwf (insert_tx_spec db c d currency amt type t)).
Qed.

Lemma row_ok_spec `{Schema} db e :
  row_ok db e = true ->
  entry_wf db e /\ (tx_id e ∉ tx_id <$> journal db) /\ is_Ok (txid_check db (txid e)).
Proof.
  unfold row_ok. rewrite !andb_true_iff, !negb_true_iff, !orb_false_iff, !account_exists_spec.
  intros [[[[[[[Hamt Hne] _] Hc] Hd] Hid] Hnew] Ht].
  unfold entry_wf. split_and!; [done|done|lia|lia|lia| |by destruct (txid_check db (txid e))].
  intros (e' & Heq & He')%list_elem_of_fmap.
  assert (existsb (fun e' => tx_id e' =? tx_id e) (journal db) = true) as Htrue; [|congruence].
  apply existsb_exists. exists e'. split; [by apply list_elem_of_In|lia].
Qed.

Lemma db_wf_snoc db e :
  db_wf db -> entry_wf db e -> tx_id e ∉ tx_id <$> journal db ->
  db_wf (mkDb (accounts db) (journal db ++ [e]) (next_tx_id db)).
Proof.
  intros (Ha & Hj & Hids) He Hnew. split_and!; cbn [accounts journal next_tx_id]; [done| |].
  - apply Forall_app. split; [exact Hj|]. by apply Forall_singleton.
  - rewrite fmap_app. apply NoDup_app. split_and!; [done| |apply NoDup_singleton].
    cbn. intros i Hi ->%list_elem_of_singleton. done.
Qed.

Lemma commit_rows_wf `{Schema} db rows db' :
  commit_rows db rows = Some db' -> db_wf db -> db_wf db'.
Proof.
  revert db. induction rows as [|e rows IH]; intros db; cbn; [by intros [= ->]|].
  destruct (row_ok db e) eqn:He; [|done]. apply row_ok_spec in He as (He & Hnew & _).
  intros Hc Hwf. eapply IH; [exact Hc|]. by apply db_wf_snoc.
Qed.

Lemma commit_rows_journal `{Schema} db rows db' :
  commit_rows db rows = Some db' ->
  db' = mkDb (accounts db) (journal db ++ rows) (next_tx_id db).
Proof.
  revert db. induction rows as [|e rows IH]; intros db; cbn.
  { intros [= <-]. rewrite app_nil_r. by destruct db. }
  destruct (row_ok db e); [|done]. intros ->%IH. cbn. by rewrite <- app_assoc.
Qed.

Lemma db_change_wf `{Schema} db db' : db_change db db' -> db_wf db -> db_wf db'.
Proof.
  destruct 1 as [db c d currency amt type t|db q user currency|db r|db rows db' Hc|db n Hn]; intros Hwf.
  - by apply insert_tx_wf.
  - unfold insert_reserve. repeat (case_match; try done). by apply insert_tx_wf.
  - unfold insert_revert. case_match; [by apply insert_tx_wf|done].
  - by eapply commit_rows_wf.
  - destruct Hwf as (Hnd & Hj & Hids). split_and!; [done| |done].
    eapply Forall_impl; [exact Hj|]. intros e (? & ? & ? & ? & ?). split_and!; try done. cbn. lia.
Qed.

Lemma db_step_wf `{Schema} db db' : db_step db db' -> db_wf db -> db_wf db'.
Proof.
  destruct 1 as [db db' Hc|db a Ha]; intros Hwf; [by eapply db_change_wf|].
  destruct Hwf as (Hnd & Hj & Hids). split_and!; [|eapply Forall_impl; [exact Hj|]|done].
  - cbn. rewrite fmap_app. apply NoDup_app. split_and!; [done| |apply NoDup_singleton].
    intros i Hi Heq. cbn in Heq. apply list_elem_of_singleton in Heq as ->. done.
  - intros e (Hc & Hd & ? & ? & ?). unfold entry_wf. cbn. rewrite fmap_app, !elem_of_app. tauto.
Qed.

(** Nothing the program does opens an account or changes one. *)
Lemma insert_tx_accounts `{Schema} db c d currency amt type t :
  accounts (insert_tx db c d currency amt type t).1 = accounts db.
Proof. unfold insert_tx. by repeat (case_match; try done). Qed.

Lemma db_change_accounts `{Schema} db db' : db_change db db' -> accounts db' = accounts db.
Proof.
  destruct 1 as [db c d currency amt type t|db q user currency|db r|db rows db' Hc|db n Hn].
  - apply insert_tx_accounts.
  - unfold insert_reserve. repeat (case_match; try done). apply insert_tx_accounts.
  - unfold insert_revert. case_match; [apply insert_tx_accounts|done].
  - apply commit_rows_journal in Hc as ->. done.
  - done.
Qed.

Lemma insert_tx_next `{Schema} db c d currency amt type t :
  next_tx_id db <= next_tx_id (insert_tx db c d currency amt type t).1.
Proof. unfold insert_tx. repeat (case_match; cbn; try lia). Qed.

(** With the txid column, every row has a txid, and no two the same. *)
Definition txids_wf (db : Db) : Prop :=
  Forall (fun e => exists s, txid e = Some s /\ s <> "") (journal db) /\ NoDup (txid <$> journal db).

Lemma txid_check_spec db t :
  is_Ok (txid_check (H := all_migrations) db t) ->
  exists s, t = Some s /\ s <> "" /\ (Some s ∉ txid <$> journal db).
Proof.
  unfold txid_check. cbn. destruct t as [s|]; [|done].
  destruct (bool_decide_reflect (s = "")); [done|].
  destruct (existsb _ _) eqn:Hex; [done|]. intros _. exists s. split_and!; [done|done|].
  intros (e & Heq & He)%list_elem_of_fmap.
  assert (existsb (fun e => bool_decide (txid e = Some s)) (journal db) = true); [|congruence].
  apply existsb_exists. exists e. split; [by apply list_elem_of_In|by apply bool_decide_eq_true].
Qed.

Lemma Db_new_txids : txids_wf Db_new.
Proof. by split; constructor. Qed.

Lemma txids_wf_snoc db e n :
  txids_wf db -> is_Ok (txid_check (H := all_migrations) db (txid e)) ->
  txids_wf (mkDb (accounts db) (journal db ++ [e]) n).
Proof.
  intros [Hs Hnd] (s & He & Hne & Hnew)%txid_check_spec. split; cbn [journal].
  - apply Forall_app. split; [done|]. apply Forall_singleton. by exists s.
  - rewrite fmap_app. apply NoDup_app. split_and!; [done| |apply NoDup_singleton].
    cbn. rewrite He. by intros t Ht ->%list_elem_of_singleton.
Qed.

Lemma insert_tx_txids db c d currency amt type t :
  txids_wf db -> txids_wf (insert_tx (H := all_migrations) db c d currency amt type t).1.
Proof.
  intros Hwf. unfold insert_tx. destruct c as [c|], d as [d|]; [|done..].
  destruct (_ || _); [done|]. destruct (negb _ || _); [done|].
  destruct (txid_check db t) as [[]|] eqn:Ht; [|done].
  apply txids_wf_snoc; [done|]. change (is_Ok (txid_check (H := all_migrations) db t)). by rewrite Ht.
Qed.

Lemma db_change_txids db db' : db_change (H := all_migrations) db db' -> txids_wf db -> txids_wf db'.
Proof.
  destruct 1 as [db c d currency amt type t|db q user currency|db r|db rows db' Hc|db n Hn]; intros Hwf.
  - by apply insert_tx_txids.
  - unfold insert_reserve. repeat (case_match; try done). by apply insert_tx_txids.
  - unfold insert_revert. case_match; [by apply insert_tx_txids|done].
  - revert db Hc Hwf. induction rows as [|e rows IH]; intros db; cbn; [by intros [= ->]|].
    destruct (row_ok db e) eqn:He; [|done]. apply row_ok_spec in He as (_ & _ & Ht).
    intros Hc Hwf. eapply IH; [exact Hc|]. by apply txids_wf_snoc.
  - done.
Qed.

Lemma Db_new_wf : db_wf Db_new.
Proof.
  split_and!; [|constructor|constructor]. cbn.
  constructor; [by intros ?%list_elem_of_singleton|]. constructor; [apply not_elem_of_nil|constructor].
Qed.

Lemma reachable_wf `{Schema} db : rtc db_step Db_new db -> db_wf db.
Proof.
  generalize Db_new_wf. generalize Db_new. intros db0 Hwf0.
  induction 1 as [db1|db1 db2 db3 Hstep _ IH]; [done|]. apply IH. by eapply db_step_wf.
Qed.

Lemma revert_row db e j1 j2 (Hwf : db_wf db) (Hj : journal db = j1 ++ e :: j2)
    (Hcur : currency_ok (tx_currency e) = true) :
  exists db', insert_revert (H := before_0007) db (tx_id e) = (db', Ok (next_tx_id db)) /\
    db_wf db' /\
    forall id, balance_of id (journal db') = balance_of id (j1 ++ j2).
Proof.
  pose proof Hwf as (Hnd & Hf & Hids). rewrite Hj in Hf. pose proof Hf as Hf'.
  apply Forall_app in Hf' as [_ [(Hc & Hd & Hne & Hamt & Hid) _]%Forall_cons].
  assert (List.find (fun e' => tx_id e' =? tx_id e) (journal db) = Some e) as Hfind.
  { rewrite Hj in Hids |- *. rewrite fmap_app in Hids. apply NoDup_app in Hids as (_ & Hnot & _).
    clear -Hnot. induction j1 as [|b j1 IH]; cbn; [by rewrite Z.eqb_refl|].
    destruct (Z.eqb_spec (tx_id b) (tx_id e)) as [Heq|Hne].
    - exfalso. apply (Hnot (tx_id b)); cbn; [left|rewrite Heq; left].
    - apply IH. intros i Hi. apply Hnot. cbn. by right. }
  pose proof (insert_tx_wf (H := before_0007) db (Some (debit_account_id e)) (Some (credit_account_id e))
    (tx_currency e) (amount e) "revert reserve asset" None Hwf) as Hwf'.
  unfold insert_revert. rewrite Hfind. unfold insert_tx in *.
  rewrite (proj2 (Z.leb_gt _ _) Hamt) in *. rewrite (proj2 (Z.eqb_neq _ _)) in * by congruence.
  rewrite Hcur in *. cbn [negb orb] in *.
  rewrite !(proj2 (account_exists_spec _ _)) in * by done. cbn [negb orb txid_check txid_column before_0007] in *.
  eexists. split; [reflexivity|]. split; [exact Hwf'|]. intros id. cbn [journal].
  rewrite balance_of_snoc, Hj. unfold balance_of, transfer, total_credit, total_debit. cbn.
  rewrite !foldr_app. cbn.
  assert (forall f : JournalEntry -> Z, forall k z,
    foldr (fun e z => f e + z) z k = foldr (fun e z => f e + z) 0 k + z) as Hshift.
  { intros f k z. induction k as [|b k IH]; cbn in *; lia. }
  rewrite !(Hshift _ j1 (_ + _)), !(Hshift _ j1 (foldr _ _ j2)). lia.
Qed.

(** The revert of a reservation. *)
Lemma revert_reserved {db user currency a x q} (Hs : reserve_setup db user currency a x q) :
  exists db', insert_revert (H := before_0007) (@reserved_db db currency a x q) (next_tx_id db) =
      (db', Ok (next_tx_id db + 1)) /\
    balance_of (acc_id a) (journal db') = balance_of (acc_id a) (journal db).
Proof.
  destruct (revert_row (@reserved_db db currency a x q) (@reserve_entry db currency a x q) (journal db) []
              (reserved_wf Hs) eq_refl (rs_currency _ _ _ _ _ _ Hs)) as (db' & Hr & _ & Hb).
  exists db'. split; [exact Hr|]. rewrite Hb. by rewrite app_nil_r.
Qed.

(** ** Properties *)

(** Money is neither made nor lost: in every state the tables can reach
    from the migrations' initial one, by any INSERTs, reservations, reverts and
    committed transactions and the opening of accounts, the balances of all
    accounts add up to zero, every row moves a positive amount between two different existing accounts,
    and no two rows have the same id. *)
Theorem double_entry `{Schema} db (Hreach : rtc db_step Db_new db) :
  sum_balances (acc_id <$> accounts db) (journal db) = 0 /\
  Forall (entry_wf db) (journal db) /\ NoDup (tx_id <$> journal db).
Proof.
  pose proof (reachable_wf db Hreach) as Hwf.
  split; [by apply double_entry_zero|]. apply Hwf.
Qed.

(** Reversing a row is exact: if a row is in the journal and the schema
    has no txid column, the revert is accepted and every account - not only
    the two of the row - has the balance it would have without the row and its
    reverse. *)
Theorem revert_cancels_row db e j1 j2 (Hwf : db_wf db) (Hj : journal db = j1 ++ e :: j2)
    (Hcur : currency_ok (tx_currency e) = true) :
  exists db', insert_revert (H := before_0007) db (tx_id e) = (db', Ok (next_tx_id db)) /\
    db_wf db' /\
    forall id, balance_of id (journal db') = balance_of id (j1 ++ j2).
Proof. by apply revert_row. Qed.

(** ** Concrete runs *)

Definition demo_history : Db :=
  mkDb (accounts Db_new ++ [mkAccount 3 "USD" UserSource "7"])
    [mkEntry 1 3 1 "USD" 100 "deposit" None] 2.

Lemma demo_history_reached : rtc (db_step (H := before_0007)) Db_new demo_history.
Proof.
  eapply rtc_l.
  - apply (step_account Db_new (mkAccount 3 "USD" UserSource "7")).
    cbn. rewrite !elem_of_cons, elem_of_nil. lia.
  - eapply rtc_l; [|apply rtc_refl].
    apply step_change, (change_insert (H := before_0007) (mkDb (accounts Db_new ++ [mkAccount 3 "USD" UserSource "7"]) [] 1)
             (Some 3) (Some 1) "USD" 100 "deposit" None).
Qed.

Lemma double_entry_witness :
  rtc (db_step (H := before_0007)) Db_new demo_history /\
  sum_balances (acc_id <$> accounts demo_history) (journal demo_history) = 0.
Proof.
  split; [exact demo_history_reached|].
  exact (proj1 (double_entry (H := before_0007) demo_history demo_history_reached)).
Defined.

Lemma demo_history_wf : db_wf demo_history.
Proof. exact (reachable_wf (H := before_0007) _ demo_history_reached). Qed.

Lemma revert_cancels_row_witness :
  exists db', insert_revert (H := before_0007) demo_history 1 = (db', Ok 2) /\
    balance_of 3 (journal db') = 0.
Proof.
  destruct (revert_cancels_row demo_history (mkEntry 1 3 1 "USD" 100 "deposit" None) [] []
              demo_history_wf eq_refl eq_refl) as (db' & Hr & _ & Hb).
  exists db'. split; [exact Hr|exact (Hb 3)].
Defined.
