(* ===== verification/Tables.v ===== *)
(** * Users, sessions and addresses (the migrations 0001, 0003 and 0005, and the
    queries on their tables).

    The tables as lists of rows, and one function per statement of the program
    with the constraints the migrations declare. Columns that nothing reads
    (serial numbers, update times) are left out. A string is its UTF-8 bytes;
    times are microseconds since the epoch, in UTC. *)

From S2P Require Import Prelude Accounting.

(** ** Text columns *)

Definition byte_of (c : Ascii.ascii) : Z := Z.of_nat (Ascii.nat_of_ascii c).

(** PostgreSQL's text holds every UTF-8 string without the character 0. *)
Definition text_ok (s : string) : bool :=
  forallb (fun c => negb (byte_of c =? 0)) (String.list_ascii_of_string s).

(** The first [n] characters: a byte in 128..191 continues a character. *)
Fixpoint take_chars (n : nat) (l : list Ascii.ascii) : list Ascii.ascii * list Ascii.ascii :=
  match l with
  | [] => ([], [])
  | c :: l' =>
      if (128 <=? byte_of c) && (byte_of c <? 192) then let '(a, b) := take_chars n l' in (c :: a, b)
      else match n with
           | O => ([], l)
           | S n' => let '(a, b) := take_chars n' l' in (c :: a, b)
           end
  end.

(** [VARCHAR(n)]: a longer string is refused, unless all that is too much are
    spaces, which are cut off. *)
Definition varchar (n : nat) (s : string) : option string :=
  let '(kept, excess) := take_chars n (String.list_ascii_of_string s) in
  if text_ok s && forallb (fun c => byte_of c =? 32) excess
  then Some (String.string_of_list_ascii kept) else None.

(** ** Rows *)

Inductive UserRole : Type := RoleUser | RoleAdmin | RoleOper.

#[export] Instance UserRole_eq_dec : EqDecision UserRole.
Proof. solve_decision. Defined.

(** [role as "role: String"] *)
Definition role_text (r : UserRole) : string :=
  match r with RoleUser => "user" | RoleAdmin => "admin" | RoleOper => "oper" end.

Record User : Type := mkUser {
  user_id : Uuid;
  user_name : string;
  user_email : string;
  password_hash : string;
  deleted_at : option Z;
  user_role : UserRole }.

Record SessionToken : Type := mkSession {
  st_token : string;
  st_created_at : Z;
  st_max_age : Z;
  st_user_id : Uuid;
  st_ip_address : option string;
  st_user_agent : option string }.

(** [kind IN ('deposit', 'withdrawal')] *)
Inductive AddressKind : Type := DepositAddress | WithdrawalAddress.

#[export] Instance AddressKind_eq_dec : EqDecision AddressKind.
Proof. solve_decision. Defined.

Definition kind_text (k : AddressKind) : string :=
  match k with DepositAddress => "deposit" | WithdrawalAddress => "withdrawal" end.

Record UserAddress : Type := mkAddress {
  address_text : string;
  ua_user_id : Uuid;
  kind : AddressKind;
  ua_currency : string }.

Record Tables : Type := mkTables {
  users : list User;
  session_tokens : list SessionToken;
  user_addresses : list UserAddress }.

Definition Tables_new : Tables := mkTables [] [] [].

(** ** Statements

    [fetch_one] takes the first row and fails when there is none;
    [fetch_optional] gives it or nothing. *)

Definition fetch_one {R} (rows : list R) : result R SqlxError :=
  match rows with [] => Err RowNotFound | r :: _ => Ok r end.

Definition users_with_id (t : Tables) (id : Uuid) : list User :=
  filter (fun u => user_id u = id) (users t).

Definition users_with_email (t : Tables) (email : string) : list User :=
  filter (fun u => user_email u = email) (users t).

Definition user_exists (t : Tables) (id : Uuid) : bool :=
  existsb (fun u => bool_decide (user_id u = id)) (users t).

(** The INSERT of [create_user]; [new_id] is what [uuid_generate_v4()] draws. *)
Definition insert_user (t : Tables) (new_id : Uuid) (name email hash : string) :
    Tables * result Uuid SqlxError :=
  match varchar 255 name, varchar 255 email with
  | Some name, Some email =>
      if existsb (fun u => bool_decide (user_id u = new_id \/ user_email u = email)) (users t)
      then (t, Err (DatabaseError true))
      else (mkTables (users t ++ [mkUser new_id name email hash None RoleUser])
              (session_tokens t) (user_addresses t), Ok new_id)
  | _, _ => (t, Err (DatabaseError false))
  end.

(** The UPDATE of web/user_delete.rs: the number of rows it affects. *)
Definition mark_deleted (t : Tables) (now : Z) (id : Uuid) : Tables * result Z SqlxError :=
  (mkTables
     ((fun u => if bool_decide (user_id u = id /\ deleted_at u = None)
                then mkUser (user_id u) (user_name u) (user_email u) (password_hash u) (Some now) (user_role u)
                else u) <$> users t)
     (session_tokens t) (user_addresses t),
   Ok (Z.of_nat (length (filter (fun u => user_id u = id /\ deleted_at u = None) (users t))))).

Definition opt_text_ok (o : option string) : bool :=
  match o with Some s => text_ok s | None => true end.

(** The INSERT of [create_session]; the token is a BYTEA. *)
Definition insert_session (t : Tables) (now : Z) (token : string) (max_age : Z) (user : Uuid)
    (ip_address user_agent : option string) : Tables * result unit SqlxError :=
  let ip := match ip_address with None => Some None | Some s => Some <$> varchar 45 s end in
  match ip with
  | None => (t, Err (DatabaseError false))
  | Some ip =>
      if negb (opt_text_ok user_agent) then (t, Err (DatabaseError false))
      else if existsb (fun s => bool_decide (st_token s = token)) (session_tokens t)
      then (t, Err (DatabaseError true))
      else if negb (user_exists t user) then (t, Err (DatabaseError false))
      else (mkTables (users t)
              (session_tokens t ++ [mkSession token now max_age user ip user_agent])
              (user_addresses t), Ok tt)
  end.

Definition sessions_with_token (t : Tables) (token : string) : list SessionToken :=
  filter (fun s => st_token s = token) (session_tokens t).

(** The DELETE of web/session_delete.rs: the row it deletes. *)
Definition delete_session (t : Tables) (token : string) :
    Tables * result (option SessionToken) SqlxError :=
  (mkTables (users t) (filter (fun s => st_token s <> token) (session_tokens t)) (user_addresses t),
   Ok (head (sessions_with_token t token))).

Definition addresses_of (t : Tables) (user : Uuid) : list UserAddress :=
  filter (fun a => ua_user_id a = user) (user_addresses t).

Definition addresses_of_kind (t : Tables) (user : Uuid) (k : AddressKind) : list UserAddress :=
  filter (fun a => ua_user_id a = user /\ kind a = k) (user_addresses t).

Definition same_address (text : string) (user : Uuid) (currency : string) (a : UserAddress) : bool :=
  bool_decide (address_text a = text /\ ua_user_id a = user /\ ua_currency a = currency).

(** The INSERTs of web/deposit_create_addr.rs and web/withdraw_create_addr.rs. *)
Definition insert_address (t : Tables) (user : Uuid) (text : string) (k : AddressKind)
    (currency : string) : Tables * result unit SqlxError :=
  if negb (text_ok text) || negb (currency_ok currency) then (t, Err (DatabaseError false))
  else if existsb (same_address text user currency) (user_addresses t)
  then (t, Err (DatabaseError true))
  else if negb (user_exists t user) then (t, Err (DatabaseError false))
  else (mkTables (users t) (session_tokens t)
          (user_addresses t ++ [mkAddress text user k currency]), Ok tt).

(** The DELETE of web/withdraw_delete_addr.rs. *)
Definition delete_addresses (t : Tables) (user : Uuid) (text : string) :
    Tables * result unit SqlxError :=
  (mkTables (users t) (session_tokens t)
     (filter (fun a => ~ (ua_user_id a = user /\ address_text a = text)) (user_addresses t)), Ok tt).

(** ** What the constraints keep *)

Definition address_key (a : UserAddress) : string * Uuid * string :=
  (address_text a, ua_user_id a, ua_currency a).

Record tables_wf (t : Tables) : Prop := {
  tw_ids : NoDup (user_id <$> users t);
  tw_emails : NoDup (user_email <$> users t);
  tw_tokens : NoDup (st_token <$> session_tokens t);
  tw_session_users : Forall (fun s => st_user_id s ∈ user_id <$> users t) (session_tokens t);
  tw_addresses : NoDup (address_key <$> user_addresses t);
  tw_address_users : Forall (fun a => ua_user_id a ∈ user_id <$> users t) (user_addresses t);
  tw_currencies : Forall (fun a => currency_ok (ua_currency a) = true) (user_addresses t) }.

Lemma user_exists_spec t id : user_exists t id = true <-> id ∈ user_id <$> users t.
Proof.
  unfold user_exists. rewrite existsb_exists, list_elem_of_fmap. split.
  - intros (u & Hu & Hid%bool_decide_eq_true). exists u. split; [done|by apply list_elem_of_In].
  - intros (u & -> & Hu). exists u. split; [by apply list_elem_of_In|by apply bool_decide_eq_true].
Qed.

Lemma Tables_new_wf : tables_wf Tables_new.
Proof. split; cbn; constructor. Qed.

Lemma insert_user_wf t id name email hash : tables_wf t -> tables_wf (insert_user t id name email hash).1.
Proof.
  intros Hwf. unfold insert_user.
  destruct (varchar 255 name) as [name'|]; [|done]. destruct (varchar 255 email) as [email'|]; [|done].
  destruct (existsb _ _) eqn:Hex; [done|]. destruct Hwf as [H1 H2 H3 H4 H5 H6 H7].
  assert (forall u, u ∈ users t -> user_id u <> id /\ user_email u <> email') as Hne.
  { intros u Hu. pose proof (existsb_false _ _ Hex u Hu) as Hf.
    apply bool_decide_eq_false in Hf. tauto. }
  split; cbn [fst users session_tokens user_addresses]; try done.
  - apply NoDup_snoc_fmap; [done|]. intros u Hu. exact (proj1 (Hne u Hu)).
  - apply NoDup_snoc_fmap; [done|]. intros u Hu. exact (proj2 (Hne u Hu)).
  - eapply Forall_impl; [exact H4|]. intros s Hs. rewrite fmap_app. apply elem_of_app. by left.
  - eapply Forall_impl; [exact H6|]. intros s Hs. rewrite fmap_app. apply elem_of_app. by left.
Qed.

Lemma mark_deleted_wf t now id : tables_wf t -> tables_wf (mark_deleted t now id).1.
Proof.
  intros [].
  assert (user_id <$> users (mark_deleted t now id).1 = user_id <$> users t) as Hids.
  { cbn. rewrite <- list_fmap_compose. apply list_fmap_ext. intros i u _. cbn. by case_bool_decide. }
  assert (user_email <$> users (mark_deleted t now id).1 = user_email <$> users t) as Hemails.
  { cbn. rewrite <- list_fmap_compose. apply list_fmap_ext. intros i u _. cbn. by case_bool_decide. }
  split; rewrite ?Hids, ?Hemails; done.
Qed.

Lemma insert_session_wf t now token age user ip agent :
  tables_wf t -> tables_wf (insert_session t now token age user ip agent).1.
Proof.
  intros Hwf. unfold insert_session. cbv zeta.
  destruct (match ip with None => Some None | Some s => Some <$> varchar 45 s end) as [ip'|]; [|done].
  destruct (opt_text_ok agent); cbn [negb]; [|done].
  destruct (existsb _ _) eqn:Hex; [done|].
  destruct (user_exists t user) eqn:Hu; cbn [negb]; [|done].
  apply user_exists_spec in Hu. destruct Hwf.
  split; cbn [fst users session_tokens user_addresses]; try done.
  - apply NoDup_snoc_fmap; [done|]. intros s Hs. pose proof (existsb_false _ _ Hex s Hs) as Hf.
    by apply bool_decide_eq_false in Hf.
  - by apply Forall_app_2; [|constructor].
Qed.

Lemma delete_session_wf t token : tables_wf t -> tables_wf (delete_session t token).1.
Proof.
  intros []. split; cbn [fst delete_session users session_tokens user_addresses];
    auto using NoDup_filter_fmap, Forall_filter_sub.
Qed.

Lemma insert_address_wf t user text k currency :
  tables_wf t -> tables_wf (insert_address t user text k currency).1.
Proof.
  intros Hwf. unfold insert_address.
  destruct (text_ok text); cbn [negb orb]; [|done].
  destruct (currency_ok currency) eqn:Hc; cbn [negb orb]; [|done].
  destruct (existsb _ _) eqn:Hex; [done|].
  destruct (user_exists t user) eqn:Hu; cbn [negb]; [|done].
  apply user_exists_spec in Hu. destruct Hwf.
  split; cbn [fst users session_tokens user_addresses]; try done.
  - apply NoDup_snoc_fmap; [done|]. intros a Ha Heq. pose proof (existsb_false _ _ Hex a Ha) as Hf.
    apply bool_decide_eq_false in Hf. destruct Hf. by injection Heq.
  - by apply Forall_app_2; [|constructor].
  - by apply Forall_app_2; [|constructor].
Qed.

Lemma delete_addresses_wf t user text : tables_wf t -> tables_wf (delete_addresses t user text).1.
Proof.
  intros []. split; cbn [fst delete_addresses users session_tokens user_addresses];
    auto using NoDup_filter_fmap, Forall_filter_sub.
Qed.

Create HintDb tables.
#[export] Hint Resolve insert_user_wf mark_deleted_wf insert_session_wf delete_session_wf
  insert_address_wf delete_addresses_wf Tables_new_wf : tables.

(** ** What the program does to these tables *)

Inductive tables_change : Tables -> Tables -> Prop :=
| change_user t id name email hash : tables_change t (insert_user t id name email hash).1
| change_deleted t now id : tables_change t (mark_deleted t now id).1
| change_session t now token age user ip agent :
    tables_change t (insert_session t now token age user ip agent).1
| change_session_end t token : tables_change t (delete_session t token).1
| change_address t user text k currency : tables_change t (insert_address t user text k currency).1
| change_address_end t user text : tables_change t (delete_addresses t user text).1.

Lemma tables_change_wf t t' : tables_change t t' -> tables_wf t -> tables_wf t'.
Proof. destruct 1; auto with tables. Qed.

(** The row of an email is the only one. *)
Lemma users_with_email_unique t u :
  tables_wf t -> u ∈ users t -> users_with_email t (user_email u) = [u].
Proof.
  intros Hwf Hu. pose proof (tw_emails _ Hwf) as Hnd. unfold users_with_email.
  induction (users t) as [|v l IH]; [by apply elem_of_nil in Hu|].
  csimpl in Hnd. apply NoDup_cons in Hnd as [Hni Hnd]. rewrite filter_cons.
  assert (forall l, user_email u ∉ user_email <$> l -> filter (fun v => user_email v = user_email u) l = []) as Hnil.
  { clear. intros l Hl. induction l as [|v l IH]; [done|]. csimpl in Hl. rewrite not_elem_of_cons in Hl. destruct Hl as [Hne Hl].
    rewrite filter_cons, decide_False by congruence. by apply IH. }
  apply elem_of_cons in Hu as [->|Hu].
  - rewrite decide_True by done. by rewrite Hnil.
  - rewrite decide_False; [by apply IH|]. intros Heq. apply Hni. rewrite Heq. by apply list_elem_of_fmap_2.
Qed.
