(* ===== verification/World.v ===== *)
(** * The world the requests share, and programs that run in it.

    Requests run concurrently on one database, one engine channel and one clock.
    An async method is a program of atomic steps on that world ([prog]), one per
    query, send or read of the clock. Running it alone ([exec]), interleaving it
    with others, and dropping it half-way (a client that hangs up, the timeout
    of web/mod.rs) are all functions of it. Every query can fail on the way to
    the database or on the way back ([Fault]). *)

From S2P Require Import Prelude Trading Accounting Tables.

(** ** The world *)

Inductive TradingEngineState : Type := Suspended | Running | ReduceOnly.

#[export] Instance TradingEngineState_eq_dec : EqDecision TradingEngineState.
Proof. solve_decision. Defined.

(** What happens to the next operation that leaves the process: a query that
    cannot be sent, or one that is executed but whose answer is lost. *)
Inductive Fault : Type := Healthy | Unreachable | AnswerLost.

(** [w_sent]: the commands sent to the engine and not yet received;
    [w_open]: the engine's receiver still exists; [w_now]: the clock, in
    microseconds (one clock for the process and the database); [w_faults]: what
    happens to the operations to come, [Healthy] when it says nothing. *)
Record World : Type := mkWorld {
  w_db : Db;
  w_tables : Tables;
  w_te_state : TradingEngineState;
  w_open : bool;
  w_sent : list TradingEngineCmd;
  w_now : Z;
  w_faults : list Fault }.

Definition set_db (w : World) (db : Db) : World :=
  mkWorld db (w_tables w) (w_te_state w) (w_open w) (w_sent w) (w_now w) (w_faults w).
Definition set_tables (w : World) (t : Tables) : World :=
  mkWorld (w_db w) t (w_te_state w) (w_open w) (w_sent w) (w_now w) (w_faults w).
Definition set_te_state (w : World) (s : TradingEngineState) : World :=
  mkWorld (w_db w) (w_tables w) s (w_open w) (w_sent w) (w_now w) (w_faults w).
Definition set_sent (w : World) (l : list TradingEngineCmd) : World :=
  mkWorld (w_db w) (w_tables w) (w_te_state w) (w_open w) l (w_now w) (w_faults w).
Definition set_faults (w : World) (fs : list Fault) : World :=
  mkWorld (w_db w) (w_tables w) (w_te_state w) (w_open w) (w_sent w) (w_now w) fs.
Definition set_now (w : World) (now : Z) : World :=
  mkWorld (w_db w) (w_tables w) (w_te_state w) (w_open w) (w_sent w) now (w_faults w).

(** A reservation of funds; the balances are [NonZeroU64]. *)
Record ReserveOk : Type := mkReserveOk {
  row_id : Z;
  previous_balance : Z;
  new_balance : option Z }.

(** What a future can leave behind when it is dropped: the one guard of the
    program spawns a task that takes a reservation back. *)
Inductive Cleanup : Type := SpawnRevert (r : ReserveOk).

(** ** Programs of atomic steps *)

(** A program at an await point: what dropping it there leaves behind, and the
    step it takes when it is resumed. *)
#[warnings="-register-all"]
Inductive prog (A : Type) : Type :=
| Done (a : outcome A)
| Step (on_drop : list Cleanup) (f : World -> World * prog A).
Arguments Done {A} a.
Arguments Step {A} on_drop f.

#[export] Instance prog_ret : MRet prog := fun A a => Done (Return a).
#[export] Instance prog_bind : MBind prog := fun A B k => fix go (m : prog A) : prog B :=
  match m with
  | Done (Return a) => k a
  | Done (Panic why) => Done (Panic why)
  | Step d f => Step d (fun w => match f w with (w', m') => (w', go m') end)
  end.

(** Alone, to the end. *)
Fixpoint exec {A} (m : prog A) (w : World) : World * outcome A :=
  match m with
  | Done a => (w, a)
  | Step _ f => match f w with (w', m') => exec m' w' end
  end.

(** One step, and two programs interleaved: [true] lets the first one move. A
    program that is done stays as it is; what the schedule leaves is run to the
    end, the first program first. *)
Definition step {A} (m : prog A) (w : World) : World * prog A :=
  match m with Done _ => (w, m) | Step _ f => f w end.

Fixpoint interleave {A B} (schedule : list bool) (m : prog A) (k : prog B) (w : World) :
    World * outcome A * outcome B :=
  match schedule with
  | [] =>
      let '(w1, a) := exec m w in
      let '(w2, b) := exec k w1 in (w2, a, b)
  | true :: s => let '(w', m') := step m w in interleave s m' k w'
  | false :: s => let '(w', k') := step k w in interleave s m k' w'
  end.

(** A program run for [n] steps, and what dropping it leaves behind. *)
Fixpoint steps {A} (n : nat) (m : prog A) (w : World) : World * prog A :=
  match n with O => (w, m) | S n' => let '(w', m') := step m w in steps n' m' w' end.

Definition dropped {A} (m : prog A) : list Cleanup :=
  match m with Done _ => [] | Step d _ => d end.

(** A local variable that is a guard is live at every await point of [m]. *)
Fixpoint with_guard {A} (c : Cleanup) (m : prog A) : prog A :=
  match m with
  | Done a => Done a
  | Step d f => Step (c :: d) (fun w => match f w with (w', m') => (w', with_guard c m') end)
  end.

(** ** Operations *)

(** A step that cannot fail. *)
Definition atomically {R} (f : World -> World * R) : prog R :=
  Step [] (fun w => let '(w', r) := f w in (w', Done (Return r))).

Definition pop_fault (w : World) : Fault * World :=
  match w_faults w with
  | [] => (Healthy, w)
  | f :: fs => (f, set_faults w fs)
  end.

(** One query, outside a transaction. *)
Definition fallible {R} (q : World -> World * result R SqlxError) : prog (result R SqlxError) :=
  atomically (fun w =>
    let '(f, w) := pop_fault w in
    match f with
    | Healthy => q w
    | Unreachable => (w, Err OtherError)
    | AnswerLost => ((q w).1, Err OtherError)
    end).

(** On the accounts and the journal; on the users, sessions and addresses. *)
Definition query {R} (q : Db -> Db * result R SqlxError) : prog (result R SqlxError) :=
  fallible (fun w => let '(db', r) := q (w_db w) in (set_db w db', r)).
Definition table_query {R} (q : Z -> Tables -> Tables * result R SqlxError) :
    prog (result R SqlxError) :=
  fallible (fun w => let '(t', r) := q (w_now w) (w_tables w) in (set_tables w t', r)).

(** [chrono::Utc::now()] *)
Definition utc_now : prog Z := atomically (fun w => (w, w_now w)).

(** [tokio::task::spawn_blocking(..).await]: the value, or an error when the
    task panics or is cancelled. *)
Definition spawn_blocking {R} (r : R) : prog (result R unit) :=
  atomically (fun w =>
    let '(f, w) := pop_fault w in
    (w, match f with Healthy => Ok r | _ => Err tt end)).

(** ** Transactions

    A transaction holds the rows it has inserted until it commits; its
    statements see them behind what is committed (READ COMMITTED). After an
    error of the database, or the loss of the connection, it is aborted: its
    statements fail, and it ends without effect. Where PostgreSQL makes a
    transaction wait for another one that holds the same unique key, the row is
    let in here and refused at the commit of the later one. *)
Record Tx : Type := mkTx { tx_rows : list JournalEntry; tx_aborted : bool }.

Definition begin_tx : prog (result Tx SqlxError) := fallible (fun w => (w, Ok (mkTx [] false))).

Definition aborts {R} (r : result R SqlxError) : bool :=
  match r with Ok _ | Err RowNotFound => false | Err _ => true end.

(** A statement: the numbers it takes from a sequence are gone at once. *)
Definition tx_statement {R} (tx : Tx) (q : Db -> Db * result R SqlxError) (db : Db) :
    Db * (Tx * result R SqlxError) :=
  if tx_aborted tx then (db, (tx, Err (DatabaseError false)))
  else
    let '(db', r) := q (mkDb (accounts db) (journal db ++ tx_rows tx) (next_tx_id db)) in
    (mkDb (accounts db) (journal db) (next_tx_id db'),
     (mkTx (drop (length (journal db)) (journal db')) (aborts r), r)).

Definition tx_query {R} (tx : Tx) (q : Db -> Db * result R SqlxError) :
    prog (Tx * result R SqlxError) :=
  atomically (fun w =>
    let '(f, w) := pop_fault w in
    match f with
    | Healthy => let '(db', r) := tx_statement tx q (w_db w) in (set_db w db', r)
    | _ => (w, (mkTx (tx_rows tx) true, Err OtherError))
    end).

(** A SELECT, inside a transaction and on its own. *)
Definition select {S R} (q : S -> result R SqlxError) (s : S) : S * result R SqlxError := (s, q s).

(** COMMIT ends an aborted transaction without an error, and without effect. *)
Definition commit_tx `{Schema} (tx : Tx) : prog (result unit SqlxError) :=
  fallible (fun w =>
    if tx_aborted tx then (w, Ok tt)
    else match commit_rows (w_db w) (tx_rows tx) with
         | Some db' => (set_db w db', Ok tt)
         | None => (w, Err (DatabaseError true))
         end).

(** ** Running programs *)

Lemma exec_bind {A B} (m : prog A) (k : A -> prog B) w :
  exec (m ≫= k) w =
    match exec m w with
    | (w', Return a) => exec (k a) w'
    | (w', Panic why) => (w', Panic why)
    end.
Proof.
  revert m w. fix IH 1. intros m w. destruct m as [[a|why]|d f]; [done|done|].
  cbn. destruct (f w) as [w' m']. apply IH.
Qed.

Lemma exec_with_guard {A} c (m : prog A) w : exec (with_guard c m) w = exec m w.
Proof.
  revert m w. fix IH 1. intros m w. destruct m as [a|d f]; [done|].
  cbn. destruct (f w) as [w' m']. apply IH.
Qed.

Lemma exec_step {A} (m : prog A) w : exec m w = let '(w', m') := step m w in exec m' w'.
Proof. by destruct m. Qed.

(** The first step of a sequence. *)
Definition pending {A} (m : prog A) : Prop := match m with Done _ => False | Step _ _ => True end.

Lemma step_bind {A B} (m : prog A) (k : A -> prog B) w w' m' :
  pending m -> step m w = (w', m') -> step (m ≫= k) w = (w', m' ≫= k).
Proof. destruct m as [|d f]; [done|]. cbn. by intros _ ->. Qed.

Lemma steps_S {A} n (m : prog A) w w' m' : step m w = (w', m') -> steps (S n) m w = steps n m' w'.
Proof. cbn. by intros ->. Qed.

(** A run to the end takes some number of steps. *)
Lemma exec_steps {A} (m : prog A) w : exists n, steps n m w = ((exec m w).1, Done (exec m w).2).
Proof.
  revert m w. fix IH 1. intros [a|d f] w; [by exists O|]. destruct (f w) as [w' m'] eqn:Hf.
  destruct (IH m' w') as [n Hn]. exists (S n). cbn. by rewrite Hf.
Qed.

Lemma exec_atomically {R} (f : World -> World * R) w :
  exec (atomically f) w = ((f w).1, Return (f w).2).
Proof. cbn. by destruct (f w). Qed.

Lemma set_db_id w : set_db w (w_db w) = w.
Proof. by destruct w. Qed.
Lemma set_tables_id w : set_tables w (w_tables w) = w.
Proof. by destruct w. Qed.

Lemma pop_fault_none w : w_faults w = [] -> pop_fault w = (Healthy, w).
Proof. unfold pop_fault. by intros ->. Qed.

(** Without faults. *)
Lemma exec_query {R} (q : Db -> Db * result R SqlxError) w :
  w_faults w = [] -> exec (query q) w = (set_db w (q (w_db w)).1, Return (q (w_db w)).2).
Proof.
  intros Hf. unfold query, fallible. rewrite exec_atomically, pop_fault_none by done.
  by destruct (q (w_db w)).
Qed.

Lemma exec_table_query {R} (q : Z -> Tables -> Tables * result R SqlxError) w :
  w_faults w = [] ->
  exec (table_query q) w =
    (set_tables w (q (w_now w) (w_tables w)).1, Return (q (w_now w) (w_tables w)).2).
Proof.
  intros Hf. unfold table_query, fallible. rewrite exec_atomically, pop_fault_none by done.
  by destruct (q _ _).
Qed.

(** Whatever the faults: an error without effect, or the effect. *)
Lemma exec_fallible {R} (q : World -> World * result R SqlxError) w :
  exists fs r, exec (fallible q) w = (set_faults w fs, Return (Err OtherError)) \/
    exec (fallible q) w = ((q (set_faults w fs)).1, Return r) /\
      (r = Err OtherError \/ r = (q (set_faults w fs)).2).
Proof.
  unfold fallible. rewrite exec_atomically. unfold pop_fault. destruct (w_faults w) as [|f fs] eqn:Hfs.
  - exists [], (q w).2. right. replace (set_faults w []) with w by (rewrite <- Hfs; by destruct w).
    split; [done|by right].
  - destruct f.
    + exists fs, (q (set_faults w fs)).2. right. split; [done|by right].
    + exists fs, (Err OtherError). by left.
    + exists fs, (Err OtherError). right. split; [done|by left].
Qed.

(** A query on the tables that answers has had its effect. *)
Lemma exec_table_query_Ok {R} (q : Z -> Tables -> Tables * result R SqlxError) w w' a :
  exec (table_query q) w = (w', Return (Ok a)) ->
  exists fs t', q (w_now w) (w_tables w) = (t', Ok a) /\ w' = set_tables (set_faults w fs) t'.
Proof.
  unfold table_query. set (g := fun w => _). destruct (exec_fallible g w) as (fs & r & [-> |[-> Hr]]); [done|].
  intros [= <- ->]. destruct Hr as [|Hr]; [done|]. unfold g in *. exists fs.
  change (w_now (set_faults w fs)) with (w_now w) in *. change (w_tables (set_faults w fs)) with (w_tables w) in *.
  destruct (q _ _) as [t' r]. exists t'. split; [by rewrite Hr|done].
Qed.

(** A SELECT: the rows, or an error. *)
Lemma exec_select_any {R} (q : Tables -> result R SqlxError) w :
  exists fs r, exec (table_query (fun _ => select q)) w = (set_faults w fs, Return r) /\
    (r = Err OtherError \/ r = q (w_tables w)).
Proof.
  unfold table_query, select.
  destruct (exec_fallible (fun w => (set_tables w (w_tables w), q (w_tables w))) w) as (fs & r & [-> |[-> Hr]]).
  - exists fs, (Err OtherError). split; [done|by left].
  - exists fs, r. by destruct w.
Qed.

(** ** What every step of a program does to the world

    [guar G m]: whatever the world looks like when [m] is resumed, its step is
    in [G], and wherever [m] is dropped, nothing is left behind. What this gives
    holds under any interleaving. *)
Inductive guar (G : World -> World -> Prop) {A} : prog A -> Prop :=
| guar_done a : guar G (Done a)
| guar_step f :
    (forall w, G w (f w).1) -> (forall w, guar G (f w).2) -> guar G (Step [] f).

Section guar.
Context {G : World -> World -> Prop}.

Lemma guar_ret {A} (a : A) : guar G (mret a).
Proof. constructor. Qed.

Lemma guar_bind {A B} (m : prog A) (k : A -> prog B) :
  guar G m -> (forall a, guar G (k a)) -> guar G (m ≫= k).
Proof.
  intros Hm Hk. induction Hm as [[a|why]|f Hf _ IH]; cbn; [apply Hk|constructor|].
  constructor; intros w; specialize (Hf w); specialize (IH w); by destruct (f w).
Qed.

Lemma guar_atomically {R} (f : World -> World * R) : (forall w, G w (f w).1) -> guar G (atomically f).
Proof.
  intros Hf. constructor; intros w; specialize (Hf w); destruct (f w); [done|constructor].
Qed.

Lemma guar_mono {A} (G' : World -> World -> Prop) (m : prog A) :
  (forall w w', G w w' -> G' w w') -> guar G m -> guar G' m.
Proof. intros HG. induction 1; constructor; auto. Qed.

Lemma guar_exec {A} (m : prog A) w : guar G m -> rtc G w (exec m w).1.
Proof.
  intros Hm. revert w. induction Hm as [a|f Hf _ IH]; intros w; cbn; [apply rtc_refl|].
  specialize (Hf w). specialize (IH w). destruct (f w) as [w' m'].
  eapply rtc_l; [exact Hf|apply IH].
Qed.

Lemma guar_step_inv {A} (m : prog A) w :
  guar G m -> (G w (step m w).1 \/ (step m w).1 = w) /\ guar G (step m w).2.
Proof.
  destruct 1 as [a|f Hf Hk]; cbn; [split; [by right|constructor]|].
  split; [left; apply Hf|apply Hk].
Qed.

End guar.

(** Steps that change the two parts of the database, and what has been sent to
    the engine, in given ways. *)
Definition touches (RD : Db -> Db -> Prop) (RT : Tables -> Tables -> Prop)
    (RS : list TradingEngineCmd -> list TradingEngineCmd -> Prop) (w w' : World) : Prop :=
  RD (w_db w) (w_db w') /\ RT (w_tables w) (w_tables w') /\ RS (w_sent w) (w_sent w').

Section touches.
Context {RD : Db -> Db -> Prop} {RT : Tables -> Tables -> Prop}
  {RS : list TradingEngineCmd -> list TradingEngineCmd -> Prop}
  `{!Reflexive RD, !Reflexive RT, !Reflexive RS}.

Lemma touches_pop w : w_db (pop_fault w).2 = w_db w /\ w_tables (pop_fault w).2 = w_tables w /\
  w_sent (pop_fault w).2 = w_sent w.
Proof. unfold pop_fault. by destruct (w_faults w). Qed.

Lemma guar_fallible {R} (q : World -> World * result R SqlxError) :
  (forall w, touches RD RT RS w (q w).1) -> guar (touches RD RT RS) (fallible q).
Proof.
  intros Hq. apply guar_atomically. intros w. pose proof (touches_pop w) as (Hd & Ht & Hs).
  destruct (pop_fault w) as [f w']. cbn in Hd, Ht, Hs. unfold touches. rewrite <- Hd, <- Ht, <- Hs.
  destruct f; [apply Hq|done|apply Hq].
Qed.

Lemma guar_query {R} (q : Db -> Db * result R SqlxError) :
  (forall db, RD db (q db).1) -> guar (touches RD RT RS) (query q).
Proof.
  intros Hq. apply guar_fallible. intros w. specialize (Hq (w_db w)).
  by destruct (q (w_db w)).
Qed.

Lemma guar_table_query {R} (q : Z -> Tables -> Tables * result R SqlxError) :
  (forall now t, RT t (q now t).1) -> guar (touches RD RT RS) (table_query q).
Proof.
  intros Hq. apply guar_fallible. intros w. specialize (Hq (w_now w) (w_tables w)).
  by destruct (q (w_now w) (w_tables w)).
Qed.

Lemma guar_read {R} (f : World -> R) : guar (touches RD RT RS) (atomically (fun w => (w, f w))).
Proof. apply guar_atomically. by intros w. Qed.

Lemma guar_spawn_blocking {R} (r : R) : guar (touches RD RT RS) (spawn_blocking r).
Proof.
  apply guar_atomically. intros w. pose proof (touches_pop w) as (Hd & Ht & Hs).
  destruct (pop_fault w) as [f w']. cbn in *. unfold touches. by rewrite Hd, Ht, Hs.
Qed.

Lemma guar_tx_query {R} tx (q : Db -> Db * result R SqlxError) :
  (forall db n, 0 <= n -> RD db (mkDb (accounts db) (journal db) (next_tx_id db + n))) ->
  (forall db, next_tx_id db <= next_tx_id (q db).1) ->
  guar (touches RD RT RS) (tx_query tx q).
Proof.
  intros Hseq Hq. apply guar_atomically. intros w. pose proof (touches_pop w) as (Hd & Ht & Hs).
  destruct (pop_fault w) as [f w']. cbn in Hd, Ht, Hs. unfold touches. rewrite <- Hd, <- Ht, <- Hs.
  destruct f; [|done|done]. unfold tx_statement. destruct (tx_aborted tx); [done|].
  set (view := mkDb _ _ _). specialize (Hq view). destruct (q view) as [db' r]. cbn in Hq |- *.
  split; [|done]. replace (next_tx_id db') with (next_tx_id (w_db w') + (next_tx_id db' - next_tx_id (w_db w'))) by lia.
  apply Hseq. lia.
Qed.

Lemma guar_commit_tx `{Schema} tx :
  (forall db rows db', commit_rows db rows = Some db' -> RD db db') ->
  guar (touches RD RT RS) (commit_tx tx).
Proof.
  intros Hc. apply guar_fallible. intros w. destruct (tx_aborted tx); [done|].
  destruct (commit_rows _ _) as [db'|] eqn:Hcr; [|done]. split; [by eapply Hc|done].
Qed.

(** What leaves the database and the channel alone. *)
Lemma guar_still {A} (m : prog A) : guar (touches eq eq eq) m -> guar (touches RD RT RS) m.
Proof. apply guar_mono. intros w w' (Hd & Ht & Hs). unfold touches. by rewrite Hd, Ht, Hs. Qed.
End touches.

(** ** Invariants of the world

    [keeps I Q m]: as long as the world is in [I] whenever [m] is resumed, every
    step of [m] keeps it there, and the value [m] ends with is in [Q]. *)
Inductive keeps (I : World -> Prop) {A} (Q : A -> Prop) : prog A -> Prop :=
| keeps_done a : match a with Return v => Q v | Panic _ => True end -> keeps I Q (Done a)
| keeps_step d f :
    (forall w, I w -> I (f w).1) -> (forall w, I w -> keeps I Q (f w).2) -> keeps I Q (Step d f).

Section keeps.
Context {I : World -> Prop}.

Lemma keeps_ret {A} (Q : A -> Prop) (a : A) : Q a -> keeps I Q (mret a).
Proof. by constructor. Qed.

Lemma keeps_bind {A B} (P : A -> Prop) (Q : B -> Prop) (m : prog A) (k : A -> prog B) :
  keeps I P m -> (forall a, P a -> keeps I Q (k a)) -> keeps I Q (m ≫= k).
Proof.
  intros Hm Hk. induction Hm as [[a|why] Ha|d f Hf _ IH]; cbn; [by apply Hk|by constructor|].
  constructor; intros w Hw; specialize (Hf w Hw); specialize (IH w Hw); by destruct (f w).
Qed.

Lemma keeps_mono {A} (P Q : A -> Prop) (m : prog A) : (forall a, P a -> Q a) -> keeps I P m -> keeps I Q m.
Proof. intros HPQ. induction 1 as [[a|why] Ha|]; constructor; auto. Qed.

Lemma keeps_with_guard {A} c (Q : A -> Prop) (m : prog A) : keeps I Q m -> keeps I Q (with_guard c m).
Proof.
  induction 1 as [a Ha|d f Hf _ IH]; cbn; [by constructor|].
  constructor; intros w Hw; specialize (Hf w Hw); specialize (IH w Hw); by destruct (f w).
Qed.

Lemma keeps_atomically {R} (Q : R -> Prop) (f : World -> World * R) :
  (forall w, I w -> I (f w).1 /\ Q (f w).2) -> keeps I Q (atomically f).
Proof.
  intros Hf. constructor; intros w Hw; destruct (Hf w Hw); destruct (f w); [done|by constructor].
Qed.

Lemma guar_keeps {A} (G : World -> World -> Prop) (m : prog A) :
  guar G m -> (forall w w', G w w' -> I w -> I w') -> keeps I (fun _ => True) m.
Proof. intros Hm HG. induction Hm as [[]|]; constructor; eauto. Qed.

(** Alone to the end, and interleaved with another. *)
Lemma keeps_exec {A} (Q : A -> Prop) (m : prog A) w :
  keeps I Q m -> I w -> I (exec m w).1 /\ match (exec m w).2 with Return v => Q v | Panic _ => True end.
Proof.
  intros Hm. revert w. induction Hm as [a Ha|d f Hf _ IH]; intros w Hw; cbn [exec]; [done|].
  specialize (Hf w Hw). specialize (IH w Hw). destruct (f w) as [w' m']. by apply IH.
Qed.

Lemma keeps_step_inv {A} (Q : A -> Prop) (m : prog A) w :
  keeps I Q m -> I w -> I (step m w).1 /\ keeps I Q (step m w).2.
Proof. destruct 1 as [a Ha|d f Hf Hk]; cbn; intros Hw; [split; [done|by constructor]|auto]. Qed.

Lemma keeps_interleave {A B} (P : A -> Prop) (Q : B -> Prop) schedule (m : prog A) (k : prog B) w :
  keeps I P m -> keeps I Q k -> I w ->
  let '(w', a, b) := interleave schedule m k w in
  I w' /\ match a with Return v => P v | Panic _ => True end /\ match b with Return v => Q v | Panic _ => True end.
Proof.
  revert m k w. induction schedule as [|[] schedule IH]; intros m k w Hm Hk Hw; cbn [interleave].
  - pose proof (keeps_exec P m w Hm Hw) as [Hw1 Ha]. destruct (exec m w) as [w1 a].
    pose proof (keeps_exec Q k w1 Hk Hw1) as [Hw2 Hb]. by destruct (exec k w1) as [w2 b].
  - pose proof (keeps_step_inv P m w Hm Hw) as [Hw1 Hm1]. destruct (step m w) as [w1 m1]. by apply IH.
  - pose proof (keeps_step_inv Q k w Hk Hw) as [Hw1 Hk1]. destruct (step k w) as [w1 k1]. by apply IH.
Qed.

(** What a program does after another may depend on the value of that. *)
Lemma guar_bind_post {A B} {G : World -> World -> Prop} (Q : A -> Prop) (m : prog A) (k : A -> prog B) :
  guar G m -> keeps (fun _ => True) Q m -> (forall a, Q a -> guar G (k a)) -> guar G (m ≫= k).
Proof.
  intros Hm Hq Hk. induction Hm as [[a|why]|f Hf _ IH]; cbn.
  - apply Hk. by inversion Hq.
  - constructor.
  - inversion Hq as [|d f' _ Hq']; subst. constructor; intros w; specialize (Hf w);
      specialize (IH w (Hq' w Logic.I)); by destruct (f w).
Qed.
End keeps.

Lemma guar_steps {A} {G : World -> World -> Prop} n (m : prog A) w :
  guar G m -> rtc G w (steps n m w).1 /\ dropped (steps n m w).2 = [].
Proof.
  revert m w. induction n as [|n IH]; intros m w Hm; cbn [steps].
  - split; [apply rtc_refl|]. by destruct Hm.
  - destruct (guar_step_inv m w Hm) as [Hs Hm']. destruct (step m w) as [w' m'].
    destruct (IH m' w' Hm') as [Hr Hd]. split; [|done].
    destruct Hs as [Hs|Hs]; cbn in Hs; [by eapply rtc_l|by subst].
Qed.

(** ** Programs that change nothing

    [still Q m]: run alone, [m] ends with a value in [Q], and all it does to the
    world is to use up faults. *)
Lemma set_faults_none w : w_faults w = [] -> set_faults w [] = w.
Proof. intros <-. by destruct w. Qed.

Definition still {A} (Q : A -> Prop) (m : prog A) : Prop := forall w,
  exists fs a, exec m w = (set_faults w fs, Return a) /\ Q a /\ (w_faults w = [] -> fs = []).

Lemma still_ret {A} (Q : A -> Prop) a : Q a -> still Q (mret a).
Proof. intros Ha w. exists (w_faults w), a. split; [by destruct w|]. done. Qed.

Lemma still_err {A E} (e : E) : still (fun r : result A E => ~ is_Ok r) (mret (Err e)).
Proof. apply still_ret. by intros []. Qed.

Lemma still_bind {A B} (P : A -> Prop) (Q : B -> Prop) (m : prog A) (k : A -> prog B) :
  still P m -> (forall a, P a -> still Q (k a)) -> still Q (m ≫= k).
Proof.
  intros Hm Hk w. destruct (Hm w) as (fs & a & He & Ha & Hfs).
  destruct (Hk a Ha (set_faults w fs)) as (fs' & b & He' & Hb & Hfs').
  exists fs', b. rewrite exec_bind, He, He'. split_and!; [done|done|]. intros Hw. by apply Hfs', Hfs.
Qed.

Lemma still_fallible {R} (Q : result R SqlxError -> Prop) (q : World -> World * result R SqlxError) :
  (forall w, (q w).1 = w /\ Q (q w).2) -> Q (Err OtherError) -> still Q (fallible q).
Proof.
  intros Hq HQ w. unfold fallible. rewrite exec_atomically. unfold pop_fault.
  destruct (w_faults w) as [|f fs] eqn:Hf.
  - destruct (Hq w) as [Hw Hr]. exists [], (q w).2. rewrite set_faults_none, Hw by done. done.
  - destruct (Hq (set_faults w fs)) as [Hw Hr]. exists fs.
    destruct f; cbn [fst snd].
    + exists (q (set_faults w fs)).2. by rewrite Hw.
    + exists (Err OtherError). done.
    + exists (Err OtherError). by rewrite Hw.
Qed.

Lemma still_query {R} (Q : result R SqlxError -> Prop) (q : Db -> Db * result R SqlxError) :
  (forall db, (q db).1 = db /\ Q (q db).2) -> Q (Err OtherError) -> still Q (query q).
Proof.
  intros Hq. apply still_fallible. intros w. destruct (Hq (w_db w)) as [Hd Hr].
  destruct (q (w_db w)) as [db r]. cbn in *. subst db. by rewrite set_db_id.
Qed.

Lemma still_read {R} (Q : R -> Prop) (f : World -> R) :
  (forall w, Q (f w)) -> still Q (atomically (fun w => (w, f w))).
Proof. intros Hf w. exists (w_faults w), (f w). cbn. split; [by destruct w|]. done. Qed.

Lemma still_exec {A} (Q : A -> Prop) (m : prog A) w :
  still Q m -> w_faults w = [] -> exists a, exec m w = (w, Return a) /\ Q a.
Proof.
  intros Hm Hf. destruct (Hm w) as (fs & a & He & Ha & Hfs). exists a.
  rewrite He, (Hfs Hf). by rewrite set_faults_none.
Qed.
