(* ===== verification/Http.v ===== *)
(** * What the handlers share (src/exchange/src/web/mod.rs, the responses, and
    src/exchange/src/web/middleware/mod.rs).

    A response is its status, the headers the handler adds and its body; what
    axum makes of it (content types, encoding) is left out. *)

From Stdlib Require Import Ascii.
From S2P Require Import Prelude Json.

(** ** Responses *)

Definition StatusCode : Type := Z.
Definition OK : StatusCode := 200.
Definition CREATED : StatusCode := 201.
Definition NO_CONTENT : StatusCode := 204.
Definition SEE_OTHER : StatusCode := 303.
Definition BAD_REQUEST : StatusCode := 400.
Definition UNAUTHORIZED : StatusCode := 401.
Definition FORBIDDEN : StatusCode := 403.
Definition NOT_FOUND : StatusCode := 404.
Definition REQUEST_TIMEOUT : StatusCode := 408.
Definition CONFLICT : StatusCode := 409.
Definition INTERNAL_SERVER_ERROR : StatusCode := 500.

Inductive Body : Type :=
| NoBody
| Text (s : string)
| Html (s : string)
| JsonBody (j : Json).

Record Response : Type := mkResponse {
  status : StatusCode;
  headers : list (string * string);
  body : Body }.

Definition status_response (s : StatusCode) : Response := mkResponse s [] NoBody.
Definition text_response (s : StatusCode) (message : string) : Response := mkResponse s [] (Text message).
Definition html_response (s : string) : Response := mkResponse OK [] (Html s).
Definition json_response (j : Json) : Response := mkResponse OK [] (JsonBody j).

(** [internal_server_error] *)
Definition internal_server_error (message : string) : Response :=
  text_response INTERNAL_SERVER_ERROR message.

(** [Redirect::to] *)
Definition redirect_to (uri : string) : Response := mkResponse SEE_OTHER [("location", uri)] NoBody.

(** ** Requests *)

(** [std::net::IpAddr] and its text. *)
Class IpText : Type := {
  IpAddr : Type;
  parse_ip : string -> option IpAddr;
  ip_to_string : IpAddr -> string }.

(** No address has a comma or a space in its text, and its text parses to it. *)
Definition ip_text_char (c : Ascii.ascii) : bool :=
  negb (Ascii.eqb c ","%char) && negb (Ascii.eqb c " "%char).
Class IpTextLaws `{IpText} : Prop := {
  parse_ip_to_string ip : parse_ip (ip_to_string ip) = Some ip;
  parse_ip_chars s : is_Some (parse_ip s) ->
    forallb ip_text_char (String.list_ascii_of_string s) = true }.

(** A header's value, as [to_str().ok()] gives it: [None] when it has bytes
    that are not visible ASCII. *)
Definition HeaderValue : Type := option string.

(** What the handlers and the middleware read of a request besides its
    arguments: the value of the session-token cookie (trimmed), the
    X-Forwarded-For and User-Agent headers, the peer, and HX-Request. *)
Record RequestParts `{IpText} : Type := mkParts {
  rq_session_token : option string;
  rq_forwarded_for : list HeaderValue;
  rq_user_agent : option HeaderValue;
  rq_peer : IpAddr;
  rq_hx : bool }.
Arguments mkParts {_}.
Arguments rq_session_token {_}.
Arguments rq_forwarded_for {_}.
Arguments rq_user_agent {_}.
Arguments rq_peer {_}.
Arguments rq_hx {_}.

(** [split(",").last()] *)
Fixpoint after_last_comma (s : string) : option string :=
  match s with
  | EmptyString => None
  | String c s' =>
      match after_last_comma s' with
      | Some r => Some r
      | None => if Ascii.eqb c ","%char then Some s' else None
      end
  end.
Definition last_piece (s : string) : string := default s (after_last_comma s).

(** [rightmost_ip_address] *)
Definition rightmost_ip_address `{IpText} (forwarded_for : list HeaderValue) : option IpAddr :=
  rightmost ← last forwarded_for;
  st ← rightmost;
  parse_ip (last_piece st).

(** The address and the browser that the handlers record with a session. *)
Definition client_ip `{IpText} (rq : RequestParts) : IpAddr :=
  default (rq_peer rq) (rightmost_ip_address (rq_forwarded_for rq)).
Definition client_user_agent `{IpText} (rq : RequestParts) : option string :=
  hv ← rq_user_agent rq; hv.

(** ** The forwarded address *)

Definition no_comma (s : string) : Prop := after_last_comma s = None.

Lemma after_last_comma_app a b : no_comma b -> after_last_comma (a +:+ String ","%char b) = Some b.
Proof.
  unfold no_comma. intros Hb. induction a as [|c a IH].
  - change ("" +:+ String "," b) with (String "," b). cbn [after_last_comma]. by rewrite Hb.
  - change (String c a +:+ String "," b) with (String c (a +:+ String "," b)).
    cbn [after_last_comma]. by rewrite IH.
Qed.

Lemma parse_ip_space `{IpTextLaws} s : parse_ip (String " "%char s) = None.
Proof.
  destruct (parse_ip (String " "%char s)) as [ip|] eqn:Hp; [|done].
  pose proof (parse_ip_chars (String " "%char s) ltac:(by rewrite Hp)) as Hc. done.
Qed.

Lemma forwarded_last `{IpText} vs a b :
  no_comma b -> rightmost_ip_address (vs ++ [Some (a +:+ String ","%char b)]) = parse_ip b.
Proof.
  intros Hb. unfold rightmost_ip_address. rewrite last_snoc. cbn.
  unfold last_piece. by rewrite after_last_comma_app.
Qed.

(** Of the list that proxies write - the addresses separated by a comma and a
    space - nothing is read: the last piece begins with a space. Only a list
    without spaces, or a single address, yields the last address. *)
Lemma forwarded_list_ignored `{IpTextLaws} vs a b :
  no_comma b -> rightmost_ip_address (vs ++ [Some (a +:+ ", " +:+ b)]) = None.
Proof.
  intros Hb. change (", " +:+ b) with (String ","%char (String " "%char b)).
  rewrite forwarded_last by (unfold no_comma in *; cbn [after_last_comma]; by rewrite Hb). apply parse_ip_space.
Qed.
