(* ===== verification/AppCx.v ===== *)
(** * The application context: orders and reservations (src/exchange/src/app_cx.rs,
    app_cx/reserve_ok.rs, app_cx/defer_guard.rs), and the handler that places an
    order (src/exchange/src/web/trade_add_order.rs).

    Every method is a program of [World]: its queries, its send to the engine
    and its wait for the answer are its steps. *)

From S2P Require Import Prelude Asset Json Orderbook PendingFill Trading Codec Accounting Tables World Http.

#[local] Set Warnings "-clear-no-such-hyp".

(** ** Errors *)

Inductive ReserveError : Type :=
| ReserveInsufficientFunds
| ReserveDatabase (e : SqlxError).

Inductive PlaceOrderError : Type :=
| TradingEngineUnresponsive
| InsufficientFunds.

Inductive CancelOrderError : Type := CancelTradingEngineUnresponsive.

(** [From<ReserveError> for PlaceOrderError] *)
Definition PlaceOrderError_from (value : ReserveError) : outcome PlaceOrderError :=
  match value with
  | ReserveInsufficientFunds => Return InsufficientFunds
  | ReserveDatabase _ => Panic "not yet implemented: internal error"
  end.

(** [i64 as u64] *)
Definition as_u64 (z : Z) : Z := z mod 2 ^ 64.
Definition NonZeroU64_new (z : Z) : option Z := if z =? 0 then None else Some z.

(** ** Accounting *)

Section app_cx.
Context `{Schema, UuidText}.

Definition calculate_balance_from_accounting (user_id : Uuid) (currency : string) :
    prog (result (option Z) SqlxError) :=
  query (select (fun db =>
    match calculate_balance db (uuid_to_string user_id) currency with
    | Err e => Err e
    | Ok rec => Ok (NonZeroU64_new (as_u64 (default 0 rec)))
    end)).

Definition reserve_by_asset (user_uuid : Uuid) (quantity : Z) (currency : string) :
    prog (result ReserveOk ReserveError) :=
  balance ← calculate_balance_from_accounting user_uuid currency;
  match balance with
  | Err e => mret (Err (ReserveDatabase e))
  | Ok balance =>
      match balance with
      | Some balance =>
          if quantity <=? balance then
            rec ← query (fun db => insert_reserve db quantity (uuid_to_string user_uuid) currency);
            match rec with
            | Err e => mret (Err (ReserveDatabase e))
            | Ok id =>
                new_balance ← calculate_balance_from_accounting user_uuid currency;
                match new_balance with
                | Err e => mret (Err (ReserveDatabase e))
                | Ok new_balance =>
                    _ ← Done (match new_balance with
                              | Some nb => assert_ (nb <? balance) "assertion failed: nb.get() < balance.get()"
                              | None => Return tt
                              end);
                    mret (Ok (mkReserveOk id balance new_balance))
                end
            end
          else mret (Err ReserveInsufficientFunds)
      | None => mret (Err ReserveInsufficientFunds)
      end
  end.

(** [ReserveOk::revert] *)
Definition revert (r : ReserveOk) : prog (result Z SqlxError) :=
  query (fun db => insert_revert db (row_id r)).

(** ** Orders *)

Record TradeAddOrder : Type := mkTradeAddOrder {
  ta_side : OrderSide;
  ta_order_type : OrderType;
  ta_quantity : Z;
  ta_price : Z;
  ta_time_in_force : TimeInForce;
  ta_stp : SelfTradeProtection }.

(** [AppCx::new], over a database: the engine is taken to run. *)
Definition AppCx_new (db : Db) (t : Tables) (now : Z) (faults : list Fault) : World :=
  mkWorld db t Running true [] now faults.

Definition trading_engine_state : prog TradingEngineState :=
  atomically (fun w => (w, w_te_state w)).

Definition set_trading_engine_state (state : TradingEngineState) : prog unit :=
  atomically (fun w => (set_te_state w state, tt)).

(** [te_tx.send]: an error when the receiver is gone. *)
Definition send (cmd : TradingEngineCmd) : prog (result unit unit) :=
  atomically (fun w =>
    if w_open w then (set_sent w (w_sent w ++ [cmd]), Ok tt) else (w, Err tt)).

Definition currency_of (asset : Asset) : string :=
  match asset with Bitcoin => "BTC" | Ether => "ETH" end.

(** The [Response] is the handle of the command that was sent last. *)
Definition place_order (asset : Asset) (user_uuid : Uuid) (trade_add_order : TradeAddOrder) :
    prog (result ReserveOk PlaceOrderError) :=
  state ← trading_engine_state;
  if negb (bool_decide (state = Running)) then mret (Err TradingEngineUnresponsive)
  else
    let 'mkTradeAddOrder side order_type quantity price time_in_force stp := trade_add_order in
    reserve ← match side with
              | Buy => reserve_by_asset user_uuid quantity "USD"
              | Sell => reserve_by_asset user_uuid quantity (currency_of asset)
              end;
    match reserve with
    | Err e => e ← Done (PlaceOrderError_from e); mret (Err e)
    | Ok reserve =>
        let place_order :=
          PlaceOrder_new asset user_uuid price quantity order_type stp time_in_force side in
        sent ← send (Trade (CmdPlaceOrder place_order));
        match sent with
        | Ok _ => mret (Ok reserve)
        | Err _ => _ ← revert reserve; mret (Err TradingEngineUnresponsive)
        end
    end.

Definition cancel_order (user_uuid order_uuid : Uuid) : prog (result unit CancelOrderError) :=
  state ← trading_engine_state;
  if bool_decide (state = Suspended) then mret (Err CancelTradingEngineUnresponsive)
  else
    sent ← send (Trade (CmdCancelOrder (CancelOrder_new user_uuid order_uuid)));
    match sent with
    | Ok _ => mret (Ok tt)
    | Err _ => mret (Err CancelTradingEngineUnresponsive)
    end.
End app_cx.

(** ** Deferred actions *)

Record DeferGuard (F : Type) : Type := mkDeferGuard { guard_f : F; guard_active : bool }.
Arguments mkDeferGuard {F}.
Arguments guard_f {F}.
Arguments guard_active {F}.

Definition defer {F} (f : F) : DeferGuard F := mkDeferGuard f true.
Definition cancel {F} (g : DeferGuard F) : DeferGuard F := mkDeferGuard (guard_f g) false.

(** [Drop]: what an active guard does. *)
Definition drop_guard {F} (g : DeferGuard F) : option F :=
  if guard_active g then Some (guard_f g) else None.

(** ** The handler *)

(** [TeResponse::wait]: what the engine answers, [None] when it drops the
    channel. The answer is the world's. *)
Definition te_wait {T} (answer : option (result T TradingEngineError)) :
    prog (option (result T TradingEngineError)) :=
  atomically (fun w => (w, answer)).

(** The guard of a reservation: dropping it spawns a task that reverts. *)
Definition defer_revert (r : ReserveOk) : DeferGuard Cleanup := defer (SpawnRevert r).

Section handler.
Context `{Schema, UuidText}.

(** The task that is spawned. *)
Definition run_cleanup (c : Cleanup) : prog unit :=
  match c with SpawnRevert r => _ ← revert r; mret tt end.

(** [TradeAddOrderResponse] *)
Definition order_placed (order_uuid : OrderUuid) : Response :=
  json_response (JObject [("order_uuid", JString (uuid_to_string order_uuid))]).

(** The handler gives its response and the task it has spawned, if any, which
    the runtime runs on its own. While it waits, the guard is live: dropping the
    handler there spawns the task as well. *)
Definition trade_add_order (answer : option (result PlaceOrderResult TradingEngineError))
    (enabled : list (AssetKey * Asset)) (user_uuid : Uuid) (asset : string)
    (body : TradeAddOrder) : prog (Response * option Cleanup) :=
  match asset_of_param asset with
  | None => mret (text_response NOT_FOUND "invalid asset", None)
  | Some asset =>
      if negb (contains_asset enabled (ByValue asset))
      then mret (text_response NOT_FOUND "asset not enabled", None)
      else
        placed ← place_order asset user_uuid body;
        match placed with
        | Err _ => mret (internal_server_error "failed to place order", None)
        | Ok reserved_funds =>
            let deferred_revert := defer_revert reserved_funds in
            order_uuid ← with_guard (guard_f deferred_revert) (te_wait answer);
            let deferred_revert :=
              match order_uuid with
              | Some (Ok _) => cancel deferred_revert
              | _ => deferred_revert
              end in
            let spawned := drop_guard deferred_revert in
            match order_uuid with
            | Some (Ok res) => mret (order_placed (por_order_uuid res), spawned)
            | Some (Err UnserializableInput) =>
                mret (internal_server_error
                        "this input was considered problematic and could not be processed", spawned)
            | Some (Err _) => mret (internal_server_error "failed to place order", spawned)
            | None => mret (internal_server_error "trading engine unresponsive", spawned)
            end
        end
  end.
End handler.

(** ** Running programs *)

Section facts.
Context `{UuidText}.

Lemma exec_balance user cur w :
  w_faults w = [] ->
  exec (calculate_balance_from_accounting user cur) w =
    (w, Return (match calculate_balance (w_db w) (uuid_to_string user) cur with
                | Err e => Err e
                | Ok rec => Ok (NonZeroU64_new (as_u64 (default 0 rec)))
                end)).
Proof.
  intros Hf. unfold calculate_balance_from_accounting. rewrite exec_query by done. cbn.
  by rewrite set_db_id.
Qed.

(** Every INSERT without a txid is refused once migration 0007 is applied. *)
Lemma insert_tx_refused db c d cur amt type :
  insert_tx (H := all_migrations) db c d cur amt type None = (db, Err (DatabaseError false)).
Proof.
  unfold insert_tx. destruct c as [c|], d as [d|]; [|done..].
  destruct (_ || _); [done|]. by destruct (negb _ || _).
Qed.

Lemma insert_reserve_refused db q user cur :
  exists e, insert_reserve (H := all_migrations) db q user cur = (db, Err e).
Proof.
  unfold insert_reserve. destruct (scalar_subquery _) as [c|e]; [|by eexists].
  destruct (scalar_subquery _) as [d|e]; [|by eexists]. rewrite insert_tx_refused. by eexists.
Qed.

Lemma still_balance user cur :
  still (fun _ => True) (calculate_balance_from_accounting user cur).
Proof. by apply still_query. Qed.

Lemma still_reserve user q cur :
  still (fun r => ~ is_Ok r) (reserve_by_asset (H := all_migrations) user q cur).
Proof.
  unfold reserve_by_asset. eapply still_bind; [apply still_balance|].
  intros [[b|]|e] _; [|apply still_err..].
  destruct (q <=? b); [|apply still_err].
  eapply still_bind.
  { apply (still_query (fun r => exists e, r = Err e)); [|by eexists]. intros db.
    destruct (insert_reserve_refused db q (uuid_to_string user) cur) as [e ->]. split; [done|by eexists]. }
  intros r [e ->]. apply still_err.
Qed.

(** So a reservation fails whatever happens around it, and changes nothing. *)
Lemma keeps_refused_reserve (I : World -> Prop) user q cur :
  (forall w fs, I w -> I (set_faults w fs)) ->
  keeps I (fun r => ~ is_Ok r) (reserve_by_asset (H := all_migrations) user q cur).
Proof.
  intros HI.
  assert (forall R (Q : result R SqlxError -> Prop) (qu : Db -> Db * result R SqlxError),
    (forall db, (qu db).1 = db /\ Q (qu db).2) -> Q (Err OtherError) -> keeps I Q (query qu)) as Hquery.
  { intros R Q qu Hq HQ. apply keeps_atomically. intros w Hw.
    assert (forall fs, let '(db', r) := qu (w_db (set_faults w fs)) in
      set_db (set_faults w fs) db' = set_faults w fs /\ Q r) as Hrun.
    { intros fs. destruct (Hq (w_db (set_faults w fs))) as [Hd Hr].
      destruct (qu _) as [db' r]. cbn in Hd, Hr. subst db'. by destruct w. }
    unfold pop_fault. destruct (w_faults w) as [|f fs] eqn:Hfs.
    - specialize (Hrun (w_faults w)). rewrite Hfs, set_faults_none in Hrun by done.
      destruct (qu (w_db w)) as [db' r]. destruct Hrun as [-> Hr]. done.
    - specialize (Hrun fs). specialize (HI w fs Hw).
      destruct f; cbn [fst snd]; [|done|]; destruct (qu _) as [db' r]; destruct Hrun as [-> Hr]; done. }
  unfold reserve_by_asset. apply (keeps_bind (fun _ => True)); [by apply Hquery|].
  intros [[b|]|e] _; [|by apply keeps_ret; intros []..].
  destruct (q <=? b); [|by apply keeps_ret; intros []].
  apply (keeps_bind (fun r => ~ is_Ok r)).
  { apply Hquery; [|by intros []]. intros db.
    destruct (insert_reserve_refused db q (uuid_to_string user) cur) as [e ->]. split; [done|by intros []]. }
  intros [id|e] Hr; [by destruct Hr|]. apply keeps_ret. by intros [].
Qed.

Lemma guar_refused_reserve user q cur :
  guar (touches eq eq eq) (reserve_by_asset (H := all_migrations) user q cur).
Proof.
  assert (forall user cur, guar (touches eq eq eq) (calculate_balance_from_accounting user cur)) as Hbal
    by (intros; by apply guar_query).
  unfold reserve_by_asset. apply guar_bind; [apply Hbal|].
  intros [[b|]|e]; [|apply guar_ret..]. destruct (q <=? b); [|apply guar_ret].
  apply guar_bind.
  { apply guar_query. intros db. by destruct (insert_reserve_refused db q (uuid_to_string user) cur) as [e ->]. }
  intros [id|e]; [|apply guar_ret]. apply guar_bind; [apply Hbal|].
  intros [nb|e]; [|apply guar_ret]. apply guar_bind; [constructor|]. intros _. apply guar_ret.
Qed.

Lemma refused_place_order asset user order :
  guar (touches eq eq eq) (place_order (H := all_migrations) asset user order) /\
  keeps (fun _ => True) (fun r => ~ is_Ok r) (place_order (H := all_migrations) asset user order).
Proof.
  unfold place_order. destruct order as [side ot q p tif stp]. split.
  - apply guar_bind; [by apply guar_read|]. intros st. destruct (negb _); [apply guar_ret|].
    apply (guar_bind_post (fun r => ~ is_Ok r)).
    + destruct side; apply guar_refused_reserve.
    + destruct side; by apply keeps_refused_reserve.
    + intros [r|e] Hr; [by destruct Hr|]. apply guar_bind; [constructor|intros; apply guar_ret].
  - apply (keeps_bind (fun _ => True)); [by apply keeps_atomically|]. intros st _.
    destruct (negb _); [by apply keeps_ret; intros []|]. apply (keeps_bind (fun r => ~ is_Ok r)).
    + destruct side; by apply keeps_refused_reserve.
    + intros [r|e] Hr; [by destruct Hr|]. apply (keeps_bind (fun _ => True)).
      * constructor. by destruct (PlaceOrderError_from e).
      * intros e' _. apply keeps_ret. by intros [].
Qed.

(** The whole handler then changes nothing, and leaves nothing behind. *)
Lemma guar_refused_order answer enabled user name order :
  guar (touches eq eq eq) (trade_add_order (H := all_migrations) answer enabled user name order).
Proof.
  unfold trade_add_order. destruct (asset_of_param name) as [asset|]; [|apply guar_ret].
  destruct (negb _); [apply guar_ret|]. destruct (refused_place_order asset user order) as [Hg Hk].
  apply (guar_bind_post _ _ _ Hg Hk). intros [r|e] Hr; [by destruct Hr|apply guar_ret].
Qed.

Lemma touches_eq w w' : rtc (touches eq eq eq) w w' -> w_db w' = w_db w /\ w_sent w' = w_sent w.
Proof. induction 1 as [w|w w1 w' (Hd & _ & Hs) _ [IHd IHs]]; [done|]. split; congruence. Qed.

Lemma dropped_refused_order answer enabled user name order n w :
  let '(w', m') := steps n (trade_add_order (H := all_migrations) answer enabled user name order) w in
  w_db w' = w_db w /\ w_sent w' = w_sent w /\ dropped m' = [].
Proof.
  pose proof (guar_steps n _ w (guar_refused_order answer enabled user name order)) as [Hrun Hd].
  destruct (steps n _ w) as [w' m']. apply touches_eq in Hrun as [Hdb Hsent]. done.
Qed.

Lemma as_u64_small z : 0 <= z <= i64_max -> as_u64 z = z.
Proof. unfold as_u64, i64_max. intros Hz. apply Z.mod_small. lia. Qed.

Lemma as_u64_neg z : i64_min <= z < 0 -> as_u64 z = z + 2 ^ 64.
Proof.
  unfold as_u64, i64_min. intros Hz. rewrite <- (Z.mod_small (z + 2 ^ 64) (2 ^ 64)) by lia.
  rewrite Z.add_mod, Z.mod_same, Z.add_0_r, Z.mod_mod by lia. done.
Qed.

Lemma balance_range a j :
  Forall (fun e => 0 < amount e) j -> total_debit a j <= i64_max -> total_credit a j <= i64_max ->
  i64_min <= balance_of a j <= i64_max.
Proof.
  intros Hj Hd Hc. unfold balance_of.
  assert (0 <= total_debit a j /\ 0 <= total_credit a j).
  { clear Hd Hc. unfold total_debit, total_credit. induction Hj as [|e j He _ [IH1 IH2]]; cbn; [lia|].
    split; case_match; lia. }
  unfold i64_min, i64_max in *. lia.
Qed.
End facts.

(** The steps of a reservation that goes through, from each of them on. *)
Section reservation.
Context `{UuidText} {user : Uuid} {cur : string} {a x : Account}.

Definition after_insert (b q : Z) (rec : result Z SqlxError) : prog (result ReserveOk ReserveError) :=
  match rec with
  | Err e => mret (Err (ReserveDatabase e))
  | Ok id =>
      new_balance ← calculate_balance_from_accounting user cur;
      match new_balance with
      | Err e => mret (Err (ReserveDatabase e))
      | Ok new_balance =>
          _ ← Done (match new_balance with
                    | Some nb => assert_ (nb <? b) "assertion failed: nb.get() < balance.get()"
                    | None => Return tt
                    end);
          mret (Ok (mkReserveOk id b new_balance))
      end
  end.

Definition do_insert (b q : Z) : prog (result ReserveOk ReserveError) :=
  rec ← query (fun db => insert_reserve (H := before_0007) db q (uuid_to_string user) cur);
  after_insert b q rec.

(** The first step: the balance is read. *)
Lemma reserve_read w q :
  w_faults w = [] -> reserve_setup (w_db w) (uuid_to_string user) cur a x q ->
  let b := as_u64 (balance_of (acc_id a) (journal (w_db w))) in
  step (reserve_by_asset (H := before_0007) user q cur) w =
    (w, if q <=? b then do_insert b q else Done (Return (Err ReserveInsufficientFunds))).
Proof.
  intros Hf Hs b. unfold reserve_by_asset, calculate_balance_from_accounting, query. cbn.
  rewrite (pop_fault_none w Hf). cbn. rewrite (setup_balance Hs), set_db_id. cbn. fold b. f_equal.
  pose proof (rs_quantity _ _ _ _ _ _ Hs). unfold NonZeroU64_new.
  destruct (Z.eqb_spec b 0) as [->|]; [by rewrite (proj2 (Z.leb_gt q 0)) by lia|].
  by destruct (q <=? b).
Qed.

(** The second: the row is written. *)
Lemma reserve_write w b q :
  w_faults w = [] -> reserve_setup (w_db w) (uuid_to_string user) cur a x q ->
  step (do_insert b q) w =
    (set_db w (@reserved_db (w_db w) cur a x q), after_insert b q (Ok (next_tx_id (w_db w)))).
Proof.
  intros Hf Hs. unfold do_insert, query. cbn. rewrite (pop_fault_none w Hf). cbn.
  by rewrite (setup_insert Hs).
Qed.

(** The third: the new balance is read. *)
Lemma reserve_reread w b q id z :
  w_faults w = [] -> calculate_balance (w_db w) (uuid_to_string user) cur = Ok (Some z) ->
  step (after_insert b q (Ok id)) w =
    (w, let nb := NonZeroU64_new (as_u64 z) in
        _ ← Done (match nb with
                  | Some nb => assert_ (nb <? b) "assertion failed: nb.get() < balance.get()"
                  | None => Return tt
                  end);
        mret (Ok (mkReserveOk id b nb))).
Proof.
  intros Hf Hc. unfold after_insert, calculate_balance_from_accounting, query. cbn.
  rewrite (pop_fault_none w Hf). cbn. by rewrite Hc, set_db_id.
Qed.
End reservation.

(** The assertion at the end of a reservation, when it is alone. *)
Lemma new_balance_ok b q :
  i64_min <= b - q -> 0 <= b <= i64_max -> 0 < q -> q <= b ->
  match NonZeroU64_new (as_u64 (b - q)) with
  | Some nb => assert_ (nb <? as_u64 b) "assertion failed: nb.get() < balance.get()"
  | None => Return tt
  end = Return tt.
Proof.
  intros Hlo Hb Hq Hle. rewrite !as_u64_small by lia. unfold NonZeroU64_new.
  destruct (Z.eqb_spec (b - q) 0); [done|]. by rewrite (proj2 (Z.ltb_lt _ _)) by lia.
Qed.

Lemma NonZeroU64_new_ne z : z <> 0 -> NonZeroU64_new z = Some z.
Proof. intros Hz. unfold NonZeroU64_new. by destruct (Z.eqb_spec z 0). Qed.

Section properties.
Context `{UuidText} {user : Uuid} {cur : string} {a x : Account}.

Lemma setup_range w q :
  reserve_setup (w_db w) (uuid_to_string user) cur a x q ->
  i64_min <= balance_of (acc_id a) (journal (w_db w)) - q /\
  i64_min <= balance_of (acc_id a) (journal (w_db w)) <= i64_max.
Proof.
  intros Hs. pose proof (rs_wf _ _ _ _ _ _ Hs) as (_ & Hj & _).
  assert (Forall (fun e => 0 < amount e) (journal (w_db w))) as Hpos.
  { eapply Forall_impl; [exact Hj|]. by intros e (_ & _ & _ & ? & _). }
  pose proof (rs_debit _ _ _ _ _ _ Hs). pose proof (rs_credit _ _ _ _ _ _ Hs).
  pose proof (rs_quantity _ _ _ _ _ _ Hs).
  pose proof (balance_range (acc_id a) _ Hpos ltac:(lia) ltac:(lia)).
  split; [|done]. unfold balance_of.
  assert (0 <= total_credit (acc_id a) (journal (w_db w))).
  { clear -Hpos. unfold total_credit. induction Hpos; cbn; [lia|]. case_match; lia. }
  unfold i64_min, i64_max in *. lia.
Qed.

Lemma exec_reserve w q :
  w_faults w = [] -> reserve_setup (w_db w) (uuid_to_string user) cur a x q ->
  let b := balance_of (acc_id a) (journal (w_db w)) in
  q <= as_u64 b ->
  exec (reserve_by_asset (H := before_0007) user q cur) w =
    (set_db w (@reserved_db (w_db w) cur a x q),
     _ ← match NonZeroU64_new (as_u64 (b - q)) with
         | Some nb => assert_ (nb <? as_u64 b) "assertion failed: nb.get() < balance.get()"
         | None => Return tt
         end;
     Return (Ok (mkReserveOk (next_tx_id (w_db w)) (as_u64 b) (NonZeroU64_new (as_u64 (b - q)))))).
Proof.
  intros Hf Hs b Hle. rewrite exec_step, (reserve_read w q Hf Hs). fold b.
  rewrite (proj2 (Z.leb_le _ _) Hle). rewrite exec_step, (reserve_write w (as_u64 b) q Hf Hs).
  rewrite exec_step, (reserve_reread (set_db w _) _ _ _ (b - q) Hf) by exact (balance_after Hs).
  rewrite exec_bind. cbn [exec]. cbv zeta.
  destruct (NonZeroU64_new (as_u64 (b - q))) as [nb|]; [|done]. by destruct (nb <? as_u64 b).
Qed.

(** On its own, with the schema before migration 0007 and a database that
    answers, a reservation takes the funds of a user's single account or refuses: with a balance of
    at least the quantity it succeeds, reports the balances before and after,
    lowers the account by exactly the quantity and keeps the double entry;
    with a smaller one it answers [InsufficientFunds] and changes nothing. *)
Theorem reserve_takes_funds w q (Hf : w_faults w = [])
    (Hs : reserve_setup (w_db w) (uuid_to_string user) cur a x q)
    (Hb : 0 <= balance_of (acc_id a) (journal (w_db w))) :
  let b := balance_of (acc_id a) (journal (w_db w)) in
  if q <=? b then
    exists w', exec (reserve_by_asset (H := before_0007) user q cur) w =
        (w', Return (Ok (mkReserveOk (next_tx_id (w_db w)) b (NonZeroU64_new (b - q))))) /\
      db_wf (w_db w') /\ w' = set_db w (w_db w') /\
      balance_of (acc_id a) (journal (w_db w')) = b - q /\
      sum_balances (acc_id <$> accounts (w_db w')) (journal (w_db w')) = 0
  else exec (reserve_by_asset (H := before_0007) user q cur) w =
         (w, Return (Err ReserveInsufficientFunds)).
Proof.
  intros b. pose proof (setup_range w q Hs) as [Hlo Hr]. fold b in Hlo, Hr, Hb.
  pose proof (rs_quantity _ _ _ _ _ _ Hs) as Hq.
  destruct (Z.leb_spec q b) as [Hle|Hgt].
  - eexists. rewrite (exec_reserve w q Hf Hs) by (fold b; by rewrite as_u64_small by lia). fold b.
    rewrite new_balance_ok by lia. cbn [mbind outcome_bind]. rewrite !as_u64_small by lia.
    split; [done|]. cbn [w_db set_db]. split_and!; [exact (reserved_wf Hs)|done|exact (reserved_balance Hs)|].
    apply double_entry_zero. exact (reserved_wf Hs).
  - rewrite exec_step, (reserve_read w q Hf Hs). fold b. rewrite as_u64_small by lia.
    by rewrite (proj2 (Z.leb_gt _ _)) by lia.
Qed.

(** An overdrawn account can reserve anything: the negative balance is
    cast to an unsigned integer, so a reservation of any quantity passes the
    check, is written, and takes the account further down. *)
Theorem overdrawn_account_reserves w q (Hf : w_faults w = [])
    (Hs : reserve_setup (w_db w) (uuid_to_string user) cur a x q)
    (Hb : balance_of (acc_id a) (journal (w_db w)) < 0) :
  exists w' r, exec (reserve_by_asset (H := before_0007) user q cur) w = (w', Return (Ok r)) /\
    balance_of (acc_id a) (journal (w_db w')) = balance_of (acc_id a) (journal (w_db w)) - q /\
    previous_balance r = balance_of (acc_id a) (journal (w_db w)) + 2 ^ 64.
Proof.
  set (b := balance_of (acc_id a) (journal (w_db w))) in *.
  pose proof (setup_range w q Hs) as [Hlo Hr]. fold b in Hlo, Hr.
  pose proof (rs_quantity _ _ _ _ _ _ Hs) as Hq. unfold u32_max in Hq.
  eexists _, _. rewrite (exec_reserve w q Hf Hs).
  2: { fold b. rewrite as_u64_neg by lia. unfold i64_min in *. lia. }
  fold b. rewrite !as_u64_neg by lia. unfold NonZeroU64_new.
  destruct (Z.eqb_spec (b - q + 2 ^ 64) 0); [unfold i64_min in *; lia|].
  rewrite (proj2 (Z.ltb_lt _ _)) by lia. cbn [assert_ mbind outcome_bind].
  split; [done|]. split; [exact (reserved_balance Hs)|done].
Qed.

(** C31: the check of a reservation and its INSERT are separate steps, outside a
    transaction. With the migrations of the repository this has no effect: the
    INSERT has no txid, which migration 0007 forbids, so under every
    interleaving and whatever faults there are two reservations both fail and
    the database stays as it is. With the schema before 0007, for which the
    statement is written, it does: if the account can pay for either of two
    reservations but not for both, they can pass the check together; then the
    first succeeds, and the second panics on its assertion - after its row was
    written, and nothing takes it back - so the account ends up overdrawn. *)
Theorem concurrent_reserves_overdraw w q1 q2 (Hf : w_faults w = [])
    (Hs1 : reserve_setup (w_db w) (uuid_to_string user) cur a x q1)
    (Hs2 : reserve_setup (w_db w) (uuid_to_string user) cur a x q2)
    (Hb : Z.max q1 q2 <= balance_of (acc_id a) (journal (w_db w)) < q1 + q2)
    (Hroom : total_debit (acc_id a) (journal (w_db w)) + q1 + q2 <= i64_max) :
  (forall schedule w0,
     let m q := reserve_by_asset (H := all_migrations) user q cur in
     let '(w', r1, r2) := interleave schedule (m q1) (m q2) w0 in
     w_db w' = w_db w0 /\ (forall r, r1 <> Return (Ok r)) /\ (forall r, r2 <> Return (Ok r))) /\
  (exists w' r why,
     let m q := reserve_by_asset (H := before_0007) user q cur in
     interleave [true; false; true; true; false; false] (m q1) (m q2) w = (w', Return (Ok r), Panic why) /\
     balance_of (acc_id a) (journal (w_db w')) = balance_of (acc_id a) (journal (w_db w)) - q1 - q2 /\
     balance_of (acc_id a) (journal (w_db w')) < 0).
Proof.
  split.
  { intros schedule w0 m.
    assert (forall q, keeps (fun w => w_db w = w_db w0) (fun r => ~ is_Ok r) (m q)) as Hm
      by (intros q; by apply keeps_refused_reserve).
    pose proof (keeps_interleave _ _ schedule _ _ w0 (Hm q1) (Hm q2) eq_refl) as Hi.
    destruct (interleave _ _ _ _) as [[w' r1] r2]. destruct Hi as (Hd & H1 & H2).
    split; [exact Hd|]. by split; intros r ->; [apply H1|apply H2]. }
  set (b := balance_of (acc_id a) (journal (w_db w))) in *.
  pose proof (setup_range w q1 Hs1) as [Hlo Hr]. fold b in Hlo, Hr.
  pose proof (rs_quantity _ _ _ _ _ _ Hs1) as Hq1. pose proof (rs_quantity _ _ _ _ _ _ Hs2) as Hq2.
  set (w1 := set_db w (@reserved_db (w_db w) cur a x q1)).
  assert (reserve_setup (w_db w1) (uuid_to_string user) cur a x q2) as Hs.
  { apply (reserved_setup Hs1); [lia|done]. }
  pose proof (reserved_balance Hs1) as Hb1. fold b in Hb1.
  pose proof (reserved_balance Hs) as Hb2. cbn [w_db w1 set_db] in Hb2. rewrite Hb1 in Hb2.
  pose proof (setup_range w1 q2 Hs) as [Hlo1 _]. cbn [w_db w1 set_db] in Hlo1. rewrite Hb1 in Hlo1.
  eexists _, _, _. cbv zeta.
  cbn [interleave]. rewrite (reserve_read w q1 Hf Hs1). fold b. rewrite as_u64_small by lia.
  rewrite (proj2 (Z.leb_le q1 b)) by lia. rewrite (reserve_read w q2 Hf Hs2). fold b.
  rewrite as_u64_small by lia. rewrite (proj2 (Z.leb_le q2 b)) by lia.
  rewrite (reserve_write w b q1 Hf Hs1). fold w1.
  rewrite (reserve_reread w1 b q1 _ (b - q1) Hf) by exact (balance_after Hs1).
  rewrite (reserve_write w1 b q2 Hf Hs).
  rewrite (reserve_reread (set_db w1 _) b q2 _ (b - q1 - q2) Hf).
  2: { pose proof (balance_after Hs) as Hba. cbn [w_db w1 set_db] in Hba. by rewrite Hb1 in Hba. }
  cbv zeta. pose proof (new_balance_ok b q1 ltac:(lia) ltac:(lia) ltac:(lia) ltac:(lia)) as Hok.
  rewrite (as_u64_small b) in Hok by lia. rewrite Hok.
  rewrite (as_u64_neg (b - q1 - q2)) by lia.
  rewrite (NonZeroU64_new_ne (b - q1 - q2 + 2 ^ 64)) by (unfold i64_min in *; lia).
  rewrite (proj2 (Z.ltb_ge (b - q1 - q2 + 2 ^ 64) b)) by (unfold i64_min, i64_max in *; lia).
  cbn [exec assert_ mbind prog_bind mret prog_ret]. split; [done|]. cbn [w_db set_db].
  assert (forall z, z = b - q1 - q2 -> z = b - q1 - q2 /\ z < 0) as Hz by (intros z ->; lia).
  apply Hz. exact Hb2.
Qed.
End properties.

Section orders.
Context `{UuidText}.

(** The currency an order is reserved in. *)
Definition reserve_currency (asset : Asset) (side : OrderSide) : string :=
  match side with Buy => "USD" | Sell => currency_of asset end.

Lemma exec_state w : exec trading_engine_state w = (w, Return (w_te_state w)).
Proof. done. Qed.

(** C32: with every migration applied no order is ever placed, whatever the
    database does: the reservation writes a row without a txid, which migration
    0007 forbids. Nothing is sent to the engine and nothing is written; and who
    can pay for the order gets a panic. *)
Theorem deployed_orders_never_placed w asset user order :
  exists fs o, exec (place_order (H := all_migrations) asset user order) w = (set_faults w fs, o) /\
    (forall r, o <> Return (Ok r)) /\
    (forall b, w_faults w = [] -> w_te_state w = Running ->
       calculate_balance (w_db w) (uuid_to_string user)
         (reserve_currency asset (ta_side order)) = Ok (Some b) ->
       b <= i64_max -> 0 < ta_quantity order <= b ->
       o = Panic "not yet implemented: internal error").
Proof.
  unfold place_order. rewrite exec_bind, exec_state.
  destruct (decide (w_te_state w = Running)) as [Hrun|Hrun].
  2: { rewrite bool_decide_false by done. exists (w_faults w). eexists. split; [by destruct w|]. done. }
  rewrite bool_decide_true by done. cbn [negb]. destruct order as [side ot q p tif stp].
  cbn [ta_side ta_quantity].
  assert (forall k, exec ((match side with
      | Buy => reserve_by_asset (H := all_migrations) user q "USD"
      | Sell => reserve_by_asset (H := all_migrations) user q (currency_of asset)
      end) ≫= k) w =
    exec (reserve_by_asset (H := all_migrations) user q (reserve_currency asset side) ≫=
          (k : result ReserveOk ReserveError -> prog (result ReserveOk PlaceOrderError))) w) as Hcur
    by by destruct side.
  rewrite Hcur, exec_bind.
  destruct (still_reserve user q (reserve_currency asset side) w) as (fs & r & He & Hr & Hfs).
  rewrite He. destruct r as [r|e]; [by destruct Hr|]. clear Hr.
  destruct e as [|e]; [|by exists fs; eexists; split; [done|]].
  exists fs. eexists. split; [done|]. split; [done|]. intros b Hw _ Hbal Hb Hq. exfalso.
  unfold reserve_by_asset in He. rewrite exec_bind, exec_balance, Hbal in He by done.
  cbv beta iota in He. change (default 0 (Some b)) with b in He.
  rewrite (as_u64_small b), (NonZeroU64_new_ne b), (proj2 (Z.leb_le q b)) in He by lia.
  destruct (insert_reserve_refused (w_db w) q (uuid_to_string user) (reserve_currency asset side)) as [e He2].
  rewrite exec_bind, exec_query, He2 in He by done. cbn in He. congruence.
Qed.

Lemma exec_revert `{Schema} r w :
  w_faults w = [] -> exec (run_cleanup (SpawnRevert r)) w =
    (set_db w (insert_revert (w_db w) (row_id r)).1, Return tt).
Proof. intros Hf. cbn [run_cleanup]. rewrite exec_bind. unfold revert. by rewrite exec_query. Qed.

(** The handler keeps a reservation exactly when the engine reports the
    order placed: then it answers 200 with the order's uuid and spawns nothing.
    On an error reply, or when the engine drops the channel, it answers 500 and
    leaves one task behind, which writes the reverse of the reservation's row
    whenever it runs (if the database can be reached then). *)
Theorem handler_settles_reservation `{Schema} answer enabled user name asset order w w1 r
    (Hname : asset_of_param name = Some asset)
    (Henabled : contains_asset enabled (ByValue asset) = true)
    (Hplaced : exec (place_order asset user order) w = (w1, Return (Ok r))) :
  exists resp spawned,
    exec (trade_add_order answer enabled user name order) w = (w1, Return (resp, spawned)) /\
    match answer with
    | Some (Ok res) => resp = order_placed (por_order_uuid res) /\ spawned = None
    | _ => status resp = INTERNAL_SERVER_ERROR /\
        exists task, spawned = Some task /\
          forall w2, w_faults w2 = [] ->
            exec (run_cleanup task) w2 = (set_db w2 (insert_revert (w_db w2) (row_id r)).1, Return tt)
    end.
Proof.
  unfold trade_add_order. rewrite Hname, Henabled. cbn [negb].
  rewrite exec_bind, Hplaced. cbv zeta. rewrite exec_bind, exec_with_guard. unfold te_wait.
  rewrite exec_atomically. cbn [fst snd].
  destruct answer as [[res|e]|]; [|destruct e|]; (eexists _, _; split; [done|]); try done;
    (split; [done|]; eexists; split; [done|]; intros w2 Hw2; exact (exec_revert r w2 Hw2)).
Qed.
End orders.

Section dropped.
Context `{UuidText} {user : Uuid} {cur : string} {a x : Account}.

(** The parts of the handler's program: the reservation, the send, the wait. *)
Lemma handler_shape answer enabled name asset order w :
  asset_of_param name = Some asset -> contains_asset enabled (ByValue asset) = true ->
  reserve_currency asset (ta_side order) = cur -> w_te_state w = Running ->
  exists K K1 K2,
    trade_add_order (H := before_0007) answer enabled user name order =
      place_order (H := before_0007) asset user order ≫= K /\
    (forall r, dropped (K (Ok r)) = [SpawnRevert r]) /\
    step (place_order (H := before_0007) asset user order) w =
      (w, reserve_by_asset (H := before_0007) user (ta_quantity order) cur ≫= K1) /\
    forall r, K1 (Ok r) =
      send (Trade (CmdPlaceOrder (PlaceOrder_new asset user (ta_price order) (ta_quantity order)
        (ta_order_type order) (ta_stp order) (ta_time_in_force order) (ta_side order)))) ≫= K2 r /\
      K2 r (Ok tt) = mret (Ok r).
Proof.
  intros Hname Henabled Hcur Hrun. destruct order as [side ot q p tif stp].
  eexists _, _, (fun reserve sent => match sent with
    | Ok _ => mret (Ok reserve)
    | Err _ => _ ← revert (H := before_0007) reserve; mret (Err TradingEngineUnresponsive)
    end).
  split; [unfold trade_add_order; rewrite Hname, Henabled; reflexivity|].
  split; [done|]. split.
  - unfold place_order, trading_engine_state. cbn -[reserve_by_asset]. rewrite Hrun. cbn -[reserve_by_asset].
    rewrite <- Hcur. destruct side; reflexivity.
  - intros r. split; reflexivity.
Qed.

(** C30: a request can be dropped at any await point: by the timeout of ten
    seconds, or because the client hangs up. With the migrations of the
    repository no reservation is ever made (migration 0007), so wherever the
    order handler is dropped, whatever the faults, the database and the channel
    are as they were and nothing is left behind. With the schema before 0007, for
    which the handler is written, and a database that answers: dropped after the
    reservation's row is written and before the command is sent, it leaves nothing
    behind that takes the row back, and the funds are lost to the user; dropped
    while it waits for the engine, it does revert - although the order is on its
    way to the engine, which will execute it with no funds behind it. *)
Theorem dropped_request answer enabled name asset order w
    (Hname : asset_of_param name = Some asset)
    (Henabled : contains_asset enabled (ByValue asset) = true)
    (Hcur : reserve_currency asset (ta_side order) = cur)
    (Hrun : w_te_state w = Running) (Hopen : w_open w = true) (Hf : w_faults w = [])
    (Hs : reserve_setup (w_db w) (uuid_to_string user) cur a x (ta_quantity order))
    (Hb : ta_quantity order <= balance_of (acc_id a) (journal (w_db w))) :
  let b := balance_of (acc_id a) (journal (w_db w)) in
  let m := trade_add_order (H := before_0007) answer enabled user name order in
  (forall n w0, let '(w', m') := steps n (trade_add_order (H := all_migrations) answer enabled user name order) w0 in
     w_db w' = w_db w0 /\ w_sent w' = w_sent w0 /\ dropped m' = []) /\
  (exists w3 m3, steps 3 m w = (w3, m3) /\ dropped m3 = [] /\ w_sent w3 = w_sent w /\
     balance_of (acc_id a) (journal (w_db w3)) = b - ta_quantity order) /\
  (exists w5 m5 r, steps 5 m w = (w5, m5) /\ dropped m5 = [SpawnRevert r] /\
     w_sent w5 = w_sent w ++ [Trade (CmdPlaceOrder (PlaceOrder_new asset user (ta_price order)
       (ta_quantity order) (ta_order_type order) (ta_stp order) (ta_time_in_force order) (ta_side order)))] /\
     let w6 := (exec (run_cleanup (H := before_0007) (SpawnRevert r)) w5).1 in
     w_sent w6 = w_sent w5 /\ balance_of (acc_id a) (journal (w_db w6)) = b).
Proof.
  intros b. destruct order as [side ot q p tif stp]. intros m.
  split; [intros n w0; apply dropped_refused_order|].
  cbn [ta_side ta_quantity ta_price ta_order_type ta_stp ta_time_in_force] in *.
  set (w1 := set_db w (@reserved_db (w_db w) cur a x q)).
  pose proof (setup_range w q Hs) as [Hlo Hr]. fold b in Hlo, Hr, Hb.
  pose proof (rs_quantity _ _ _ _ _ _ Hs) as Hq.
  set (cmd := Trade (CmdPlaceOrder (PlaceOrder_new asset user p q ot stp tif side))).
  destruct (handler_shape answer enabled name asset (mkTradeAddOrder side ot q p tif stp) w
              Hname Henabled Hcur Hrun) as (K & K1 & K2 & Hm & HK & H1 & HK1).
  fold m in Hm. cbn [ta_side ta_quantity ta_price ta_order_type ta_stp ta_time_in_force] in H1, HK1. fold cmd in HK1.
  assert (step (place_order (H := before_0007) asset user (mkTradeAddOrder side ot q p tif stp) ≫= K) w =
            (w, (reserve_by_asset (H := before_0007) user q cur ≫= K1) ≫= K)) as S1 by by apply step_bind.
  pose proof (reserve_read w q Hf Hs) as R2. cbv zeta in R2. fold b in R2. rewrite as_u64_small in R2 by lia.
  rewrite (proj2 (Z.leb_le q b)) in R2 by lia.
  assert (step ((reserve_by_asset (H := before_0007) user q cur ≫= K1) ≫= K) w =
            (w, (do_insert b q ≫= K1) ≫= K)) as S2 by by repeat apply step_bind.
  pose proof (reserve_write w b q Hf Hs) as R3. fold w1 in R3.
  assert (step ((do_insert b q ≫= K1) ≫= K) w =
            (w1, (after_insert b q (Ok (next_tx_id (w_db w))) ≫= K1) ≫= K)) as S3
    by by repeat apply step_bind.
  assert (balance_of (acc_id a) (journal (w_db w1)) = b - q) as Hb1 by exact (reserved_balance Hs).
  split.
  - exists w1. eexists. rewrite Hm.
    rewrite (steps_S _ _ _ _ _ S1), (steps_S _ _ _ _ _ S2), (steps_S _ _ _ _ _ S3). done.
  - pose proof (reserve_reread w1 b q (next_tx_id (w_db w)) (b - q) Hf (balance_after Hs)) as R4.
    cbv zeta in R4. pose proof (new_balance_ok b q ltac:(lia) ltac:(lia) ltac:(lia) ltac:(lia)) as Hok.
    rewrite (as_u64_small b) in Hok by lia. rewrite Hok in R4.
    set (r := mkReserveOk (next_tx_id (w_db w)) b (NonZeroU64_new (as_u64 (b - q)))) in *.
    assert (step ((after_insert (user := user) (cur := cur) b q (Ok (next_tx_id (w_db w))) ≫= K1) ≫= K) w1 =
              (w1, K1 (Ok r) ≫= K)) as S4.
    { refine (step_bind _ K _ _ _ _ (step_bind _ K1 _ _ _ _ R4)); exact I. }
    rewrite (proj1 (HK1 r)) in S4.
    assert (step ((send cmd ≫= K2 r) ≫= K) w1 = (set_sent w1 (w_sent w ++ [cmd]), K2 r (Ok tt) ≫= K)) as S5.
    { assert (step (send cmd) w1 = (set_sent w1 (w_sent w ++ [cmd]), mret (Ok tt))) as R5
        by (unfold send; cbn; by rewrite Hopen).
      refine (step_bind _ K _ _ _ _ (step_bind _ (K2 r) _ _ _ _ R5)); exact I. }
    rewrite (proj2 (HK1 r)) in S5.
    exists (set_sent w1 (w_sent w ++ [cmd])), (K (Ok r)), r. rewrite Hm.
    rewrite (steps_S _ _ _ _ _ S1), (steps_S _ _ _ _ _ S2), (steps_S _ _ _ _ _ S3),
      (steps_S _ _ _ _ _ S4), (steps_S _ _ _ _ _ S5).
    split; [done|]. split; [apply HK|]. split; [done|]. rewrite exec_revert by done.
    split; [done|]. cbn [fst w_db set_db].
    change (w_db (set_sent w1 (w_sent w ++ [cmd]))) with (@reserved_db (w_db w) cur a x q). cbn [row_id r].
    destruct (revert_reserved Hs) as (db' & -> & Hbal). exact Hbal.
Qed.
End dropped.

(** ** What the steps of these programs do to the database *)

Section sends.
Context {RD : Db -> Db -> Prop} {RT : Tables -> Tables -> Prop}
  {RS : list TradingEngineCmd -> list TradingEngineCmd -> Prop} `{!Reflexive RD, !Reflexive RT, !Reflexive RS}.

Lemma guar_send cmd : (forall l, RS l (l ++ [cmd])) -> guar (touches RD RT RS) (send cmd).
Proof.
  intros Hc. apply guar_atomically. intros w. destruct (w_open w); [|done].
  split; [done|]. split; [done|apply Hc].
Qed.

Lemma guar_cancel_order user order :
  (forall l, RS l (l ++ [Trade (CmdCancelOrder (CancelOrder_new user order))])) ->
  guar (touches RD RT RS) (cancel_order user order).
Proof.
  intros Hc. unfold cancel_order. apply guar_bind; [apply guar_read|]. intros st.
  destruct (bool_decide _); [apply guar_ret|].
  apply guar_bind; [by apply guar_send|]. intros [[]|e]; apply guar_ret.
Qed.
End sends.

Section guarantees.
Context `{Schema, UuidText} {RT : Tables -> Tables -> Prop}
  {RS : list TradingEngineCmd -> list TradingEngineCmd -> Prop} `{!Reflexive RT, !Reflexive RS}.

#[local] Abbreviation journal_steps := (touches (rtc db_change) RT RS).

Lemma guar_balance user cur : guar journal_steps (calculate_balance_from_accounting user cur).
Proof. apply guar_query. by intros db. Qed.

Lemma guar_reserve user q cur : guar journal_steps (reserve_by_asset user q cur).
Proof.
  unfold reserve_by_asset. apply guar_bind; [apply guar_balance|]. intros [[b|]|e]; [|apply guar_ret..].
  destruct (q <=? b); [|apply guar_ret]. apply guar_bind.
  { apply guar_query. intros db. apply rtc_once. constructor. }
  intros [id|e]; [|apply guar_ret]. apply guar_bind; [apply guar_balance|].
  intros [nb|e]; [|apply guar_ret]. apply guar_bind; [constructor|]. intros _. apply guar_ret.
Qed.

Lemma guar_revert r : guar journal_steps (revert r).
Proof. apply guar_query. intros db. apply rtc_once. constructor. Qed.

Lemma guar_cleanup c : guar journal_steps (run_cleanup c).
Proof. destruct c as [r]. apply guar_bind; [apply guar_revert|intros; apply guar_ret]. Qed.

(** The order that is sent has the price and the quantity of the request. *)
Lemma guar_place_order asset user order :
  (forall l po, po_price po = ta_price order -> po_quantity po = ta_quantity order ->
     RS l (l ++ [Trade (CmdPlaceOrder po)])) ->
  guar journal_steps (place_order asset user order).
Proof.
  intros Hc. unfold place_order. apply guar_bind; [apply guar_read|]. intros st. destruct (negb _); [apply guar_ret|].
  destruct order as [side ot q p tif stp].
  apply guar_bind; [destruct side; apply guar_reserve|]. intros [r|e].
  - apply guar_bind; [apply guar_send; intros l; by apply Hc|]. intros [[]|e]; [apply guar_ret|].
    apply guar_bind; [apply guar_revert|intros; apply guar_ret].
  - apply guar_bind; [constructor|intros; apply guar_ret].
Qed.

(** The handler's guard is the one thing a dropped request leaves behind. *)
Lemma keeps_trade_add_order (I : World -> Prop) answer enabled user asset body :
  (forall l po, po_price po = ta_price body -> po_quantity po = ta_quantity body ->
     RS l (l ++ [Trade (CmdPlaceOrder po)])) ->
  (forall w w', journal_steps w w' -> I w -> I w') ->
  keeps I (fun _ => True) (trade_add_order answer enabled user asset body).
Proof.
  intros Hc HI. unfold trade_add_order. destruct (asset_of_param asset) as [as_|]; [|by apply keeps_ret].
  destruct (negb _); [by apply keeps_ret|]. apply (keeps_bind (fun _ => True)).
  { eapply guar_keeps; [by apply guar_place_order|exact HI]. }
  intros [r|e] _; [|by apply keeps_ret]. cbv zeta. apply (keeps_bind (fun _ => True)).
  { apply keeps_with_guard. by apply keeps_atomically. }
  intros [[res|[]]|] _; by apply keeps_ret.
Qed.
End guarantees.

(** ** Concrete runs *)

Section witnesses.
#[local] Existing Instances decimal_uuid_text.

Definition demo_user : Account := mkAccount 3 "USD" UserSource "7".
Definition demo_cash : Account := mkAccount 1 "USD" FiatSource "exchange".

(** User 7 has paid in [amt] cents, and reserved [res] of them if it is not 0. *)
Definition demo_db (amt res : Z) : Db :=
  mkDb [demo_cash; mkAccount 2 "BTC" CryptoSource "bitcoin"; demo_user]
    (mkEntry 1 3 1 "USD" amt "deposit" None ::
     (if res =? 0 then [] else [mkEntry 2 1 3 "USD" res "reserve asset" None])) 3.
Definition demo_world (amt res : Z) : World := mkWorld (demo_db amt res) Tables_new Running true [] 0 [].

Lemma demo_db_wf amt res : 0 < amt -> 0 <= res -> db_wf (demo_db amt res).
Proof.
  intros Ha Hr. unfold demo_db. split_and!.
  - cbn. apply NoDup_ListNoDup. repeat constructor; cbn; lia.
  - cbn [journal]. constructor; [|destruct (Z.eqb_spec res 0); [constructor|constructor; [|constructor]]];
      unfold entry_wf; cbn; split_and!; rewrite ?elem_of_cons; try lia; tauto.
  - cbn [journal]. destruct (res =? 0); cbn; apply NoDup_ListNoDup; repeat constructor; cbn; lia.
Qed.

Lemma demo_setup amt res q :
  0 < amt <= 1000 -> 0 <= res <= 1000 -> 0 < q <= 1000 ->
  reserve_setup (w_db (demo_world amt res)) (uuid_to_string 7%N) "USD" demo_user demo_cash q.
Proof.
  intros Ha Hr Hq. split; try done.
  - apply demo_db_wf; lia.
  - cbn. destruct (res =? 0); unfold i64_max; cbn; lia.
  - cbn. destruct (res =? 0); unfold i64_max; cbn; lia.
  - unfold u32_max. lia.
Qed.

Lemma reserve_takes_funds_witness :
  exists w', exec (reserve_by_asset (H := before_0007) 7%N 40 "USD") (demo_world 100 0) =
      (w', Return (Ok (mkReserveOk 3 100 (Some 60)))) /\
    balance_of 3 (journal (w_db w')) = 60.
Proof.
  destruct (reserve_takes_funds (demo_world 100 0) 40 eq_refl
              (demo_setup 100 0 40 ltac:(lia) ltac:(lia) ltac:(lia)) ltac:(by apply Z.leb_le))
    as (w' & Hr & _ & _ & Hb & _).
  exists w'. split; [exact Hr|exact Hb].
Defined.

Lemma overdrawn_account_reserves_witness :
  exists w' r, exec (reserve_by_asset (H := before_0007) 7%N 1000 "USD") (demo_world 100 150) =
      (w', Return (Ok r)) /\ balance_of 3 (journal (w_db w')) = -1050.
Proof.
  destruct (overdrawn_account_reserves (demo_world 100 150) 1000 eq_refl
              (demo_setup 100 150 1000 ltac:(lia) ltac:(lia) ltac:(lia)) ltac:(by apply Z.ltb_lt))
    as (w' & r & Hr & Hb & _).
  exists w', r. split; [exact Hr|exact Hb].
Defined.

Lemma concurrent_reserves_overdraw_witness :
  exists w' r why,
    interleave [true; false; true; true; false; false]
      (reserve_by_asset (H := before_0007) 7%N 60 "USD")
      (reserve_by_asset (H := before_0007) 7%N 70 "USD") (demo_world 100 0) =
      (w', Return (Ok r), Panic why) /\
    balance_of 3 (journal (w_db w')) = -30.
Proof.
  destruct (concurrent_reserves_overdraw (demo_world 100 0) 60 70 eq_refl
              (demo_setup 100 0 60 ltac:(lia) ltac:(lia) ltac:(lia))
              (demo_setup 100 0 70 ltac:(lia) ltac:(lia) ltac:(lia))
              ltac:(split; [by apply Z.leb_le|by apply Z.ltb_lt])
              ltac:(by apply Z.leb_le)) as (_ & w' & r & why & Hi & Hb & _).
  exists w', r, why. split; [exact Hi|exact Hb].
Defined.

Definition demo_order : TradeAddOrder :=
  mkTradeAddOrder Buy Limit 40 100 GoodTilCanceled DecreaseCancel.

Definition demo_placed : World * ReserveOk :=
  Eval vm_compute in
    match exec (place_order (H := before_0007) Bitcoin 7%N demo_order) (demo_world 100 0) with
    | (w, Return (Ok r)) => (w, r)
    | (w, _) => (w, mkReserveOk 0 0 None)
    end.

Lemma demo_placed_run :
  exec (place_order (H := before_0007) Bitcoin 7%N demo_order) (demo_world 100 0) =
    (demo_placed.1, Return (Ok demo_placed.2)).
Proof. vm_compute. reflexivity. Qed.

(** The engine drops the channel: the reservation is taken back. *)
Lemma handler_settles_reservation_witness :
  exists resp task,
    exec (trade_add_order (H := before_0007) None internal_asset_list 7%N "btc" demo_order)
      (demo_world 100 0) = (demo_placed.1, Return (resp, Some task)) /\
    status resp = INTERNAL_SERVER_ERROR /\
    balance_of 3 (journal (w_db demo_placed.1)) = 60 /\
    balance_of 3 (journal (w_db (exec (run_cleanup (H := before_0007) task) demo_placed.1).1)) = 100.
Proof.
  destruct (handler_settles_reservation (H0 := before_0007) None internal_asset_list 7%N "btc"
              Bitcoin demo_order (demo_world 100 0) demo_placed.1 demo_placed.2 eq_refl eq_refl
              demo_placed_run) as (resp & spawned & Hr & Hst & task & -> & Ht).
  exists resp, task. split; [exact Hr|]. split; [exact Hst|].
  split; [reflexivity|]. rewrite (Ht demo_placed.1 eq_refl). reflexivity.
Defined.

Lemma dropped_request_witness :
  let m := trade_add_order (H := before_0007) None internal_asset_list 7%N "btc" demo_order in
  exists w5 m5 r, steps 5 m (demo_world 100 0) = (w5, m5) /\ dropped m5 = [SpawnRevert r] /\
    length (w_sent w5) = 1%nat.
Proof.
  destruct (dropped_request (user := 7%N) (a := demo_user) (x := demo_cash) None internal_asset_list "btc"
              Bitcoin demo_order (demo_world 100 0) eq_refl eq_refl eq_refl eq_refl eq_refl eq_refl
              (demo_setup 100 0 40 ltac:(lia) ltac:(lia) ltac:(lia)) ltac:(by apply Z.leb_le))
    as (_ & _ & w5 & m5 & r & Hs & Hd & Hw & _).
  exists w5, m5, r. split; [exact Hs|]. split; [exact Hd|]. by rewrite Hw.
Defined.

Lemma deployed_orders_never_placed_witness :
  exists o, exec (place_order (H := all_migrations) Bitcoin 7%N demo_order) (demo_world 100 0) =
      (demo_world 100 0, o) /\
    o = Panic "not yet implemented: internal error".
Proof.
  destruct (deployed_orders_never_placed (demo_world 100 0) Bitcoin 7%N demo_order) as (fs & o & Ho & _ & Hp).
  assert (o = Panic "not yet implemented: internal error") as ->.
  { apply (Hp 100); [reflexivity|reflexivity|reflexivity|by apply Z.leb_le|].
    split; [by apply Z.ltb_lt|by apply Z.leb_le]. }
  eexists. split; [|reflexivity]. vm_compute. reflexivity.
Defined.
End witnesses.
