(* ===== verification/UserCx.v ===== *)
(** * The application context: users, sessions and addresses
    (src/exchange/src/app_cx.rs and src/exchange/src/password.rs).

    The argon2 and hex crates, the random bytes of a token and the uuid the
    database draws for a user are parameters. *)

From Stdlib Require Import Ascii.
From S2P Require Import Prelude Asset Trading Codec Accounting Tables World Http AppCx.

(** ** Crates *)

(** [argon2]: hashing a password with a salt gives the text of a hash; such a
    text is read back from the bytes the users table holds; a password is
    checked against it. *)
Class Argon2 : Type := {
  hash_password : string -> string -> result string unit;
  password_hash_from_bytes : string -> bool;
  verify_password : string -> string -> bool }.
Class Argon2Laws `{Argon2} : Prop := {
  hash_password_readable password salt h :
    hash_password password salt = Ok h -> password_hash_from_bytes h = true;
  verify_hash_password password salt h :
    hash_password password salt = Ok h -> verify_password password h = true }.

(** [hex::encode] *)
Class Hex : Type := hex_encode : list Z -> string.

(** The order of the rows of a [SELECT DISTINCT]. *)
Class DistinctOrder : Type := distinct_order : list string -> list string.
Class DistinctOrderLaws `{DistinctOrder} : Prop :=
  distinct_order_perm l : distinct_order l ≡ₚ remove_dups l.

(** ** Errors *)

Inductive VerifyLoginDetailsError : Type :=
| Unauthorized
| VerifyOther (e : SqlxError).

Inductive CreateUserError : Type :=
| PasswordHashError
| EmailUniqueViolation (e : SqlxError)
| CreateUserSqlx (e : SqlxError).

(** [From<sqlx::Error> for UserDetailsError] *)
Inductive UserDetailsError : Type := UserDetailsSqlx (e : SqlxError).

(** ** Addresses *)

Definition address_row (rec : UserAddress) : string * string := (address_text rec, ua_currency rec).

Definition list_withdrawal_addrs (user_id : Uuid) : prog (result (list (string * string)) SqlxError) :=
  table_query (fun _ => select (fun t =>
    Ok (address_row <$> addresses_of_kind t user_id WithdrawalAddress))).

Definition list_deposit_addrs (user_id : Uuid) : prog (result (list (string * string)) SqlxError) :=
  table_query (fun _ => select (fun t =>
    Ok (address_row <$> addresses_of_kind t user_id DepositAddress))).

(** ** Passwords, logins and sessions *)

(** [Password::argon2_hash_password], with the salt that is drawn. *)
Definition argon2_hash_password `{Argon2} (password salt : string) : result string unit :=
  hash_password password salt.

(** The [unwrap]s of the stored hash come before the task is spawned; a task
    that panics or is cancelled counts as a match ([unwrap_or(false)]). *)
Definition verify_login_details `{Argon2} (email password : string) :
    prog (result Uuid VerifyLoginDetailsError) :=
  rec ← table_query (fun _ => select (fun t => fetch_one (users_with_email t email)));
  match rec with
  | Err RowNotFound => mret (Err Unauthorized)
  | Err err => mret (Err (VerifyOther err))
  | Ok rec =>
      _ ← Done (assert_ (password_hash_from_bytes (password_hash rec))
                  "called `Result::unwrap()` on an `Err` value");
      mismatch ← spawn_blocking (negb (verify_password password (password_hash rec)));
      if match mismatch with Ok b => b | Err _ => false end
      then mret (Err Unauthorized)
      else mret (Ok (user_id rec))
  end.

(** [bytes]: the 32 random bytes. *)
Definition create_session `{Hex, IpText} (user_uuid : Uuid) (ip_address : option IpAddr)
    (user_agent : option string) (bytes : list Z) : prog (result string SqlxError) :=
  let session_token := hex_encode bytes in
  res ← table_query (fun now t =>
    insert_session t now session_token 3600 user_uuid (ip_to_string <$> ip_address) user_agent);
  match res with
  | Err e => mret (Err e)
  | Ok _ => mret (Ok session_token)
  end.

Definition create_user (name email password_hash : string) (new_id : Uuid) :
    prog (result Uuid CreateUserError) :=
  res ← table_query (fun _ t => insert_user t new_id name email password_hash);
  match res with
  | Ok record => mret (Ok record)
  | Err err =>
      match err with
      | DatabaseError true => mret (Err (EmailUniqueViolation err))
      | _ => mret (Err (CreateUserSqlx err))
      end
  end.

(** ** Details and balances *)

Record UserWalletAddr : Type := mkWalletAddr {
  wa_text : string;
  wa_currency : string;
  wa_kind : string }.

Record UserAccountDetails : Type := mkAccountDetails {
  ad_amount : string;
  deposit_address : option string;
  withdrawal_addresses : list UserWalletAddr }.

Record UserPortfolio : Type := mkPortfolio { portfolio_value : Z }.

Record UserDetails : Type := mkDetails {
  ud_id : Uuid;
  ud_name : string;
  ud_role : string;
  ud_accounts : gmap string UserAccountDetails;
  ud_portfolio : UserPortfolio }.

(** One round of the loop over the addresses. *)
Definition add_address (accounts : gmap string UserAccountDetails) (rec : UserAddress) :
    gmap string UserAccountDetails :=
  let entry := default (mkAccountDetails "" None []) (accounts !! ua_currency rec) in
  let entry :=
    if String.eqb (kind_text (kind rec)) "deposit"
    then mkAccountDetails (ad_amount entry) (Some (address_text rec)) (withdrawal_addresses entry)
    else mkAccountDetails (ad_amount entry) (deposit_address entry)
           (withdrawal_addresses entry ++
            [mkWalletAddr (address_text rec) (ua_currency rec) (kind_text (kind rec))]) in
  <[ua_currency rec := entry]> accounts.

(** The read-only transaction: an error in it ends it. *)
Definition fetch_user_details (user_id : Uuid) : prog (result UserDetails UserDetailsError) :=
  begun ← fallible (fun w => (w, Ok tt));
  match begun with Err e => mret (Err (UserDetailsSqlx e)) | Ok _ =>
  read_only ← fallible (fun w => (w, Ok tt));
  match read_only with Err e => mret (Err (UserDetailsSqlx e)) | Ok _ =>
  rec ← table_query (fun _ => select (fun t => fetch_one (users_with_id t user_id)));
  match rec with Err e => mret (Err (UserDetailsSqlx e)) | Ok rec =>
  addrs ← table_query (fun _ => select (fun t => Ok (addresses_of t user_id)));
  match addrs with Err e => mret (Err (UserDetailsSqlx e)) | Ok addrs =>
  let accounts := foldl add_address ∅ addrs in
  let details := mkDetails (Tables.user_id rec) (user_name rec) (role_text (user_role rec)) accounts
                   (mkPortfolio 0) in
  committed ← fallible (fun w => (w, Ok tt));
  match committed with Err e => mret (Err (UserDetailsSqlx e)) | Ok _ => mret (Ok details) end
  end end end end.

Section accounts.
Context `{UuidText, DistinctOrder}.

(** [UserAccount] has no fields. *)
Definition fetch_user_account (user_id : Uuid) (asset : Asset) :
    prog (result (option unit) SqlxError) :=
  rec ← query (select (fun db =>
    fetch_one (filter (fun a => acc_currency a = to_string asset /\ source_type a = UserSource /\
      source_id a = uuid_to_string user_id) (accounts db))));
  match rec with
  | Ok _ => mret (Ok (Some tt))
  | Err RowNotFound => mret (Ok None)
  | Err err => mret (Err err)
  end.

(** [SELECT DISTINCT currency], in the order the database chooses. *)
Definition currencies_of (db : Db) (user_id : Uuid) : list string :=
  distinct_order (acc_currency <$> filter (fun a => source_id a = uuid_to_string user_id) (accounts db)).

(** A balance that cannot be read is left out. *)
Fixpoint balances_loop (user_id : Uuid) (tx : Tx) (vec : list string) (details : gmap string Z) :
    prog (gmap string Z) :=
  match vec with
  | [] => mret details
  | currency :: vec' =>
      '(tx, bal) ← tx_query tx (select (fun db =>
         calculate_balance db (uuid_to_string user_id) currency));
      match bal with
      | Ok bal => balances_loop user_id tx vec' (<[currency := default 0 bal]> details)
      | Err _ => balances_loop user_id tx vec' details
      end
  end.

Definition user_balance (user_id : Uuid) : prog (result (gmap string Z) SqlxError) :=
  tx ← begin_tx;
  match tx with
  | Err e => mret (Err e)
  | Ok tx =>
      '(tx, vec) ← tx_query tx (select (fun db => Ok (currencies_of db user_id)));
      match vec with
      | Err e => mret (Err e)
      | Ok vec => details ← balances_loop user_id tx vec ∅; mret (Ok details)
      end
  end.
End accounts.

(** ** What the steps do to the database *)

Section guarantees.
Context {RD : Db -> Db -> Prop} {RS : list TradingEngineCmd -> list TradingEngineCmd -> Prop}
  `{!Reflexive RD, !Reflexive RS}.

#[local] Abbreviation table_steps := (touches RD (rtc tables_change) RS).

Lemma guar_select_tables {R} (q : Tables -> result R SqlxError) :
  guar table_steps (table_query (fun _ => select q)).
Proof. by apply guar_table_query. Qed.

Lemma guar_verify_login_details `{Argon2} email password :
  guar table_steps (verify_login_details email password).
Proof.
  unfold verify_login_details. apply guar_bind; [apply guar_select_tables|].
  intros [rec|[]]; try apply guar_ret. apply guar_bind; [constructor|]. intros _.
  apply guar_bind; [apply guar_spawn_blocking|]. intros [[]|[]]; apply guar_ret.
Qed.

Lemma guar_create_session `{Hex, IpText} user ip agent bytes :
  guar table_steps (create_session user ip agent bytes).
Proof.
  unfold create_session. apply guar_bind; [|intros []; apply guar_ret].
  apply guar_table_query. intros now t. apply rtc_once. constructor.
Qed.

Lemma guar_create_user name email hash id : guar table_steps (create_user name email hash id).
Proof.
  unfold create_user. apply guar_bind; [|intros [|[|[]|]]; apply guar_ret].
  apply guar_table_query. intros now t. apply rtc_once. constructor.
Qed.

Lemma guar_fetch_user_details user_id : guar table_steps (fetch_user_details user_id).
Proof.
  unfold fetch_user_details.
  repeat (apply guar_bind; [first [apply guar_select_tables|by apply guar_fallible]|];
          intros []; [|apply guar_ret]).
  apply guar_ret.
Qed.
End guarantees.

(** ** Properties *)

Definition wallet_addr (a : UserAddress) : UserWalletAddr :=
  mkWalletAddr (address_text a) (ua_currency a) "withdrawal".

(** What the page of a user shows for one currency. *)
Definition account_details (addrs : list UserAddress) : UserAccountDetails :=
  mkAccountDetails ""
    (address_text <$> last (filter (fun a => kind a = DepositAddress) addrs))
    (wallet_addr <$> filter (fun a => kind a = WithdrawalAddress) addrs).

Lemma add_addresses_lookup addrs c :
  foldl add_address ∅ addrs !! c =
    let l := filter (fun a => ua_currency a = c) addrs in
    if bool_decide (l = []) then None else Some (account_details l).
Proof.
  cbv zeta.
  induction addrs as [|a addrs IH] using rev_ind; [done|].
  rewrite foldl_snoc, filter_app, filter_cons, filter_nil. unfold add_address at 1. cbv zeta.
  destruct (decide (ua_currency a = c)) as [Hc|Hc].
  2: { rewrite lookup_insert_ne, IH by done. by rewrite app_nil_r. }
  rewrite Hc in *. rewrite lookup_insert_eq. rewrite IH.
  set (l := filter (fun a => ua_currency a = c) addrs) in *.
  assert (default (mkAccountDetails "" None []) (if bool_decide (l = []) then None else Some (account_details l)) =
            account_details l) as -> by by destruct l.
  rewrite (bool_decide_false (l ++ [a] = [])) by by destruct l.
  f_equal. unfold account_details. rewrite !filter_app, !filter_cons, !filter_nil.
  destruct (kind a) eqn:Hk; cbn [kind_text String.eqb Ascii.eqb Bool.eqb].
  - rewrite decide_True, decide_False by (rewrite ?Hk; congruence). rewrite last_snoc, app_nil_r. done.
  - rewrite decide_False, decide_True by (rewrite ?Hk; congruence). rewrite app_nil_r, fmap_app.
    cbn. unfold wallet_addr. by rewrite Hc.
Qed.

Section login.
Context `{Argon2Laws}.

Lemma exec_login email password w :
  w_faults w = [] ->
  exec (verify_login_details email password) w =
    (w, match users_with_email (w_tables w) email with
        | [] => Return (Err Unauthorized)
        | u :: _ =>
            if password_hash_from_bytes (password_hash u) then
              Return (if verify_password password (password_hash u) then Ok (user_id u) else Err Unauthorized)
            else Panic "called `Result::unwrap()` on an `Err` value"
        end).
Proof.
  intros Hf. unfold verify_login_details. rewrite exec_bind, exec_table_query by done. cbn [select fst snd].
  rewrite set_tables_id. destruct (users_with_email (w_tables w) email) as [|u l]; cbn [fetch_one]; [done|].
  rewrite exec_bind. destruct (password_hash_from_bytes _); cbn [exec assert_]; [|done].
  rewrite exec_bind. unfold spawn_blocking. rewrite exec_atomically, pop_fault_none by done. cbn [fst snd].
  by destruct (verify_password _ _).
Qed.

(** Whatever the faults: who is let in has registered that email. *)
Lemma exec_login_any email password w w' res :
  exec (verify_login_details email password) w = (w', Return res) ->
  (exists fs, w' = set_faults w fs) /\
  forall user, res = Ok user -> exists u, u ∈ users_with_email (w_tables w) email /\ user = user_id u.
Proof.
  unfold verify_login_details. rewrite exec_bind.
  destruct (exec_select_any (fun t => fetch_one (users_with_email t email)) w) as (fs & r & -> & Hr).
  destruct r as [u|e].
  - destruct Hr as [|Hr]; [done|].
    assert (u ∈ users_with_email (w_tables w) email) as Hu.
    { destruct (users_with_email _ _); [done|]. cbn in Hr. injection Hr as ->. left. }
    rewrite exec_bind. destruct (password_hash_from_bytes _); cbn [exec assert_]; [|done].
    rewrite exec_bind. unfold spawn_blocking. rewrite exec_atomically. unfold pop_fault.
    destruct (w_faults (set_faults w fs)) as [|f fs'];
      cbn [fst snd]; (match goal with |- context [if ?b then _ else _] => destruct b end);
      intros [= <- <-]; (split; [by eexists|]); intros user [= <-]; by exists u.
  - destruct e; intros [= <- <-]; (split; [by eexists|]); by intros user.
Qed.

(** C24: who knows the password of a registered email gets in as that user, who
    gives another password that argon2 tells apart does not, nor does an
    unregistered email. The row's deletion date plays no part. *)
Theorem login_checks_password w u password salt
    (Hf : w_faults w = []) (Hwf : tables_wf (w_tables w)) (Hu : u ∈ users (w_tables w))
    (Hh : hash_password password salt = Ok (password_hash u)) :
  exec (verify_login_details (user_email u) password) w = (w, Return (Ok (user_id u))) /\
  (forall other, verify_password other (password_hash u) = false ->
     exec (verify_login_details (user_email u) other) w = (w, Return (Err Unauthorized))) /\
  (forall email, email ∉ user_email <$> users (w_tables w) ->
     exec (verify_login_details email password) w = (w, Return (Err Unauthorized))).
Proof.
  pose proof (users_with_email_unique _ _ Hwf Hu) as Hrow.
  pose proof (hash_password_readable _ _ _ Hh) as Hread.
  split_and!.
  - rewrite exec_login, Hrow, Hread by done. by rewrite (verify_hash_password _ _ _ Hh).
  - intros other Hother. rewrite exec_login, Hrow, Hread by done. by rewrite Hother.
  - intros email Hnew. rewrite exec_login by done.
    destruct (users_with_email (w_tables w) email) as [|v l] eqn:Hv; [done|].
    assert (v ∈ users_with_email (w_tables w) email) as Hin by (rewrite Hv; left).
    apply list_elem_of_filter in Hin as [Heq Hin]. destruct Hnew. rewrite <- Heq. by apply list_elem_of_fmap_2.
Qed.

(** The check of the password fails open: when the task that runs it is
    cancelled or panics, every password of a registered email is accepted. *)
Theorem login_fails_open w u email any f
    (Hf : w_faults w = [Healthy; f]) (Hne : f <> Healthy)
    (Hrow : users_with_email (w_tables w) email = [u])
    (Hread : password_hash_from_bytes (password_hash u) = true) :
  exec (verify_login_details email any) w = (set_faults w [], Return (Ok (user_id u))).
Proof.
  unfold verify_login_details. rewrite exec_bind. unfold table_query, fallible, select.
  rewrite exec_atomically. unfold pop_fault. rewrite Hf. cbn -[assert_ spawn_blocking].
  rewrite Hrow. cbn -[assert_ spawn_blocking]. rewrite Hread. cbn -[spawn_blocking].
  rewrite exec_bind. unfold spawn_blocking. rewrite exec_atomically. cbn. by destruct f.
Qed.
End login.

(** The page of a user lists, for every currency with an address, the
    deposit address that was created last and the withdrawal addresses in the
    order of their creation; nothing is written. *)
Theorem user_details_complete w u user
    (Hf : w_faults w = []) (Hu : users_with_id (w_tables w) user = [u]) :
  exists d, exec (fetch_user_details user) w = (w, Return (Ok d)) /\
    ud_id d = user_id u /\ ud_name d = user_name u /\ ud_role d = role_text (user_role u) /\
    forall c, let l := filter (fun a => ua_currency a = c) (addresses_of (w_tables w) user) in
      ud_accounts d !! c = if bool_decide (l = []) then None else Some (account_details l).
Proof.
  eexists. split.
  - unfold fetch_user_details. unfold fallible at 1 2 3.
    rewrite exec_bind, exec_atomically, pop_fault_none by done. cbn [fst snd].
    rewrite exec_bind, exec_atomically, pop_fault_none by done. cbn [fst snd].
    rewrite exec_bind, exec_table_query by done. cbn [select fst snd]. rewrite set_tables_id, Hu.
    cbn [fetch_one]. rewrite exec_bind, exec_table_query by done. cbn [select fst snd]. rewrite set_tables_id.
    rewrite exec_bind, exec_atomically, pop_fault_none by done. cbn [fst snd]. reflexivity.
  - cbn [ud_id ud_name ud_role ud_accounts]. split_and!; [done..|]. intros c. apply add_addresses_lookup.
Qed.

(** ** Balances *)

Section balances.
Context `{UuidText}.

Lemma exec_tx_select {R} rows (q : Db -> result R SqlxError) w :
  w_faults w = [] -> rows = [] ->
  exec (tx_query (mkTx rows false) (select q)) w =
    (w, Return (mkTx [] (aborts (q (w_db w))), q (w_db w))).
Proof.
  intros Hf ->. unfold tx_query. rewrite exec_atomically, pop_fault_none by done.
  unfold tx_statement, select. cbn [tx_aborted tx_rows].
  rewrite app_nil_r, drop_all. cbn [fst snd accounts journal next_tx_id].
  replace (mkDb _ _ _) with (w_db w) by by destruct (w_db w). by rewrite set_db_id.
Qed.

Lemma exec_tx_aborted {R} (q : Db -> result R SqlxError) tx w :
  w_faults w = [] -> tx_aborted tx = true ->
  exec (tx_query tx (select q)) w = (w, Return (tx, Err (DatabaseError false))).
Proof.
  intros Hf Ha. unfold tx_query. rewrite exec_atomically, pop_fault_none by done.
  unfold tx_statement. rewrite Ha. cbn. by rewrite set_db_id.
Qed.

Lemma calculate_balance_Ok db s c z : calculate_balance db s c = Ok z -> exists b, z = Some b.
Proof.
  unfold calculate_balance. destruct (List.find _ _); [|done]. destruct (_ || _); [done|].
  intros [= <-]. by eexists.
Qed.

(** The balances up to the first that cannot be computed. *)
Definition readable (db : Db) (user : Uuid) (currency : string) : Prop :=
  is_Ok (calculate_balance db (uuid_to_string user) currency).
#[export] Instance readable_dec db user currency : Decision (readable db user currency).
Proof. unfold readable, is_Ok. destruct (calculate_balance _ _ _); [left; exact I|right; intros []]. Defined.

Fixpoint readable_prefix (db : Db) (user : Uuid) (vec : list string) : list string :=
  match vec with
  | [] => []
  | c :: vec' => if decide (readable db user c) then c :: readable_prefix db user vec' else []
  end.

Lemma readable_prefix_all db user vec :
  Forall (readable db user) vec -> readable_prefix db user vec = vec.
Proof. induction 1 as [|c vec Hc _ IH]; cbn; [done|]. by rewrite decide_True, IH by done. Qed.

Lemma exec_balances_aborted user vec tx details w :
  w_faults w = [] -> tx_aborted tx = true ->
  exec (balances_loop user tx vec details) w = (w, Return details).
Proof.
  intros Hf Ha. induction vec as [|c vec IH]; cbn [balances_loop]; [done|].
  rewrite exec_bind, exec_tx_aborted by done. apply IH.
Qed.

Lemma exec_balances user vec details w :
  w_faults w = [] ->
  exists m, exec (balances_loop user (mkTx [] false) vec details) w = (w, Return m) /\
    forall c, m !! c =
      if bool_decide (c ∈ readable_prefix (w_db w) user vec)
      then match calculate_balance (w_db w) (uuid_to_string user) c with Ok z => z | Err _ => None end
      else details !! c.
Proof.
  intros Hf. revert details. induction vec as [|c vec IH]; intros details; cbn [balances_loop readable_prefix].
  { exists details. split; [done|]. intros c. by rewrite bool_decide_false by apply not_elem_of_nil. }
  rewrite exec_bind, exec_tx_select by done.
  destruct (calculate_balance (w_db w) (uuid_to_string user) c) as [z|e] eqn:Hc.
  - rewrite decide_True by (unfold readable; by rewrite Hc). cbn [aborts].
    destruct (calculate_balance_Ok _ _ _ _ Hc) as [b ->]. cbn [default].
    destruct (IH (<[c := b]> details)) as (m & Hm & Hl). exists m. split; [exact Hm|].
    intros c'. rewrite Hl. destruct (decide (c = c')) as [<-|Hne].
    + rewrite (bool_decide_true (c ∈ c :: _)) by left. rewrite Hc, lookup_insert_eq. by case_bool_decide.
    + rewrite lookup_insert_ne by done.
      case_bool_decide.
      * by rewrite bool_decide_true by by right.
      * rewrite bool_decide_false; [done|]. rewrite elem_of_cons. by intros [->|].
  - rewrite decide_False by (unfold readable; rewrite Hc; intros []).
    assert (aborts (Err (A := option Z) e) = true) as ->.
    { unfold calculate_balance in Hc. repeat case_match; by simplify_eq. }
    exists details. split; [by apply exec_balances_aborted|].
    intros c'. by rewrite bool_decide_false by apply not_elem_of_nil.
Qed.
End balances.

Section user_balance.
Context `{UuidText, DistinctOrderLaws}.

(** C22: the balances of a user, from a database that answers: one entry for
    each currency of the user's accounts that can be computed, with the balance
    of the journal - up to the first that cannot: it aborts the transaction, and the currencies after it
    are left out although nothing is wrong with them, and no error is reported.
    If all can be computed, none is left out. Nothing is written. *)
Theorem user_balance_spec w user (Hf : w_faults w = []) :
  exists m, exec (user_balance user) w = (w, Return (Ok m)) /\
    (forall c, m !! c =
      if bool_decide (c ∈ readable_prefix (w_db w) user (currencies_of (w_db w) user))
      then match calculate_balance (w_db w) (uuid_to_string user) c with Ok z => z | Err _ => None end
      else None) /\
    (Forall (readable (w_db w) user) (currencies_of (w_db w) user) ->
     forall a, a ∈ accounts (w_db w) -> source_id a = uuid_to_string user -> is_Some (m !! acc_currency a)).
Proof.
  destruct (exec_balances user (currencies_of (w_db w) user) ∅ w Hf) as (m & Hm & Hl).
  exists m. split.
  { unfold user_balance, begin_tx, fallible.
    rewrite exec_bind, exec_atomically, pop_fault_none by done. cbn [fst snd].
    rewrite exec_bind, exec_tx_select by done. cbn [aborts]. by rewrite exec_bind, Hm. }
  split; [intros c; rewrite Hl, lookup_empty; done|]. intros Hall a Ha Hs. rewrite Hl.
  rewrite readable_prefix_all by done.
  assert (acc_currency a ∈ currencies_of (w_db w) user) as Hin.
  { unfold currencies_of. rewrite distinct_order_perm, elem_of_remove_dups.
    by apply list_elem_of_fmap_2, list_elem_of_filter. }
  rewrite bool_decide_true by done. rewrite Forall_forall in Hall. specialize (Hall _ Hin).
  unfold readable in Hall. destruct (calculate_balance _ _ _) as [z|e] eqn:Hc; [|by destruct Hall].
  destruct (calculate_balance_Ok _ _ _ _ Hc) as [b ->]. by eexists.
Qed.
End user_balance.

(** ** Concrete runs *)

(** A hash that keeps the password, after a mark. *)
Definition plain_argon2 : Argon2 := {|
  hash_password password salt := Ok ("$" +:+ password);
  password_hash_from_bytes h := if h is String "$"%char _ then true else false;
  verify_password password h := String.eqb h ("$" +:+ password) |}.

Lemma plain_argon2_laws : @Argon2Laws plain_argon2.
Proof. split; intros password salt h [= <-]; [done|]. apply String.eqb_refl. Qed.

Definition demo_alice : User := mkUser 7%N "alice" "a@x.org" "$secret" (Some 5) RoleUser.
Definition demo_bob : User := mkUser 8%N "bob" "b@x.org" "$hunter2" None RoleUser.
Definition demo_tables : Tables :=
  mkTables [demo_alice; demo_bob] []
    [mkAddress "d1" 7%N DepositAddress "BTC"; mkAddress "w1" 7%N WithdrawalAddress "BTC";
     mkAddress "d2" 7%N DepositAddress "BTC"].
Definition demo_users (fs : list Fault) : World :=
  mkWorld Db_new demo_tables Running true [] 0 fs.

Lemma demo_tables_wf : tables_wf demo_tables.
Proof.
  split; cbn [demo_tables users session_tokens user_addresses].
  all: first [apply NoDup_ListNoDup; repeat constructor; cbn; by intuition | repeat constructor; cbn; set_solver].
Qed.

#[local] Existing Instances plain_argon2.

Lemma login_checks_password_witness :
  exec (verify_login_details "a@x.org" "secret") (demo_users []) = (demo_users [], Return (Ok 7%N)) /\
  exec (verify_login_details "a@x.org" "Secret") (demo_users []) = (demo_users [], Return (Err Unauthorized)).
Proof.
  destruct (login_checks_password (H0 := plain_argon2_laws) (demo_users []) demo_alice "secret" "" eq_refl demo_tables_wf
              ltac:(left) eq_refl) as (Hok & Hother & _).
  split; [exact Hok|]. apply (Hother "Secret"). reflexivity.
Defined.

Lemma login_fails_open_witness :
  exec (verify_login_details "a@x.org" "wrong") (demo_users [Healthy; AnswerLost]) =
    (demo_users [], Return (Ok 7%N)).
Proof.
  apply (login_fails_open (demo_users [Healthy; AnswerLost]) demo_alice "a@x.org" "wrong" AnswerLost);
    first [reflexivity|discriminate].
Defined.

Lemma user_details_complete_witness :
  exists d, exec (fetch_user_details 7%N) (demo_users []) = (demo_users [], Return (Ok d)) /\
    ud_accounts d !! "BTC" = Some (mkAccountDetails "" (Some "d2") [mkWalletAddr "w1" "BTC" "withdrawal"]) /\
    ud_accounts d !! "ETH" = None.
Proof.
  destruct (user_details_complete (demo_users []) demo_alice 7%N eq_refl eq_refl) as (d & Hd & _ & _ & _ & Ha).
  exists d. split; [exact Hd|]. split; rewrite Ha; reflexivity.
Defined.

(** The total of an account that cannot be summed up hides the ones after it. *)
Definition demo_balances : World :=
  mkWorld (mkDb [mkAccount 1 "USD" FiatSource "exchange"; mkAccount 3 "BTC" UserSource "7";
                 mkAccount 4 "USD" UserSource "7"; mkAccount 5 "ETH" UserSource "7"]
             [mkEntry 1 3 1 "USD" 25 "deposit" None; mkEntry 2 4 1 "USD" i64_max "deposit" None;
              mkEntry 3 4 1 "USD" 1 "deposit" None; mkEntry 4 5 1 "USD" 9 "deposit" None] 5)
    Tables_new Running true [] 0 [].

Definition table_order : DistinctOrder := remove_dups.
Lemma table_order_laws : @DistinctOrderLaws table_order.
Proof. by intros l. Qed.

#[local] Existing Instances decimal_uuid_text table_order.

Lemma user_balance_spec_witness :
  exists m, exec (user_balance 7%N) demo_balances = (demo_balances, Return (Ok m)) /\
    m !! "BTC" = Some 25 /\ m !! "USD" = None /\ m !! "ETH" = None.
Proof.
  destruct (user_balance_spec (H1 := table_order_laws) demo_balances 7%N eq_refl) as (m & Hm & Hl & _).
  exists m. split; [exact Hm|]. split_and!; rewrite Hl; reflexivity.
Defined.
