(* ===== verification/BitcoinClient.v ===== *)
(** * The bitcoin client of the exchange (src/exchange/src/bitcoin/client.rs, and
    the messages of src/exchange/proto/bitcoin_rpc.proto).

    The exchange talks to the node through a gRPC proxy. To the application
    context the client is an interface ([BitcoinRpcClient]): two calls that take
    time, can fail, and leave the exchange's database alone. *)

From Stdlib Require Import SpecFloat.
From S2P Require Import Prelude Accounting World.

(** ** Messages *)

(** A [double] is an IEEE 754 binary64 number. *)
Definition F64 : Type := spec_float.

(** [f64 as i64]: towards zero, and to the bounds of the type. *)
Definition f64_as_i64 (f : F64) : Z :=
  match f with
  | S754_zero _ | S754_nan => 0
  | S754_infinity s => if s then i64_min else i64_max
  | S754_finite s m e =>
      let v := Z.shiftl (Z.pos m) e in
      Z.max i64_min (Z.min i64_max (if s then - v else v))
  end.

Record GetNewAddressRequest : Type := mkGetNewAddressRequest {
  na_label : option string;
  na_address_type : option string }.

Record GetNewAddressResponse : Type := mkGetNewAddressResponse { address : string }.

(** [count] and [skip] are [int32]. *)
Record ListTransactionsRequest : Type := mkListTransactionsRequest {
  lt_label : option string;
  lt_count : option Z;
  lt_skip : option Z;
  lt_include_watch_only : option bool }.

Record Transaction : Type := mkTransaction {
  pt_confirmations : Z;
  pt_blockhash : option string;
  pt_blockindex : option Z;
  pt_blocktime : option Z;
  pt_blockheight : option Z;
  pt_txid : string;
  pt_time : Z;
  pt_timereceived : Z;
  pt_bip125_replaceable : string;
  pt_address : option string;
  pt_category : string;
  pt_amount : F64;
  pt_fee : option F64;
  pt_vout : Z;
  pt_abandoned : option bool;
  pt_trusted : option bool;
  pt_comment : option string }.

Record ListTransactionsResponse : Type := mkListTransactionsResponse {
  transactions : list Transaction }.

(** [tonic::Status] *)
Inductive Code : Type := InvalidArgument | Internal | Unknown | Unavailable.
Record Status : Type := mkStatus { status_code : Code; status_message : string }.

(** ** The client *)

Class BitcoinRpcClient : Type := {
  client_get_new_address : GetNewAddressRequest -> prog (result GetNewAddressResponse Status);
  client_list_transactions :
    ListTransactionsRequest -> prog (result ListTransactionsResponse Status) }.

(** A call does nothing to the database. *)
Class BitcoinRpcClientLaws `{BitcoinRpcClient} : Prop := {
  get_new_address_still r : guar (touches eq eq eq) (client_get_new_address r);
  list_transactions_still r : guar (touches eq eq eq) (client_list_transactions r) }.

(** [Inner]: connected to a proxy, or the dummy of the tests, whose calls
    panic. *)
Inductive Inner : Type :=
| Grpc (get_new_address : GetNewAddressRequest -> prog (result GetNewAddressResponse Status))
    (list_transactions : ListTransactionsRequest -> prog (result ListTransactionsResponse Status))
| Mock.

Definition new_mock : Inner := Mock.

Definition get_new_address (inner : Inner) (request : GetNewAddressRequest) :
    prog (result GetNewAddressResponse Status) :=
  match inner with
  | Grpc grpc _ => grpc request
  | Mock => Done (Panic "explicit panic")
  end.

Definition list_transactions (inner : Inner) (request : ListTransactionsRequest) :
    prog (result ListTransactionsResponse Status) :=
  match inner with
  | Grpc _ grpc => grpc request
  | Mock => Done (Panic "explicit panic")
  end.

Definition inner_client (inner : Inner) : BitcoinRpcClient := {|
  client_get_new_address := get_new_address inner;
  client_list_transactions := list_transactions inner |}.

Lemma mock_laws : @BitcoinRpcClientLaws (inner_client new_mock).
Proof. split; intros r; constructor. Qed.

(** ** Amounts *)

(** The canonical binary64 number of a whole number below 2^53. *)
Definition whole_f64 (z : Z) : F64 :=
  match z with
  | Z0 => S754_zero false
  | Zpos p => let k := 52 - Z.log2 (Zpos p) in S754_finite false (Z.to_pos (Z.shiftl (Zpos p) k)) (- k)
  | Zneg p => let k := 52 - Z.log2 (Zpos p) in S754_finite true (Z.to_pos (Z.shiftl (Zpos p) k)) (- k)
  end.

Lemma shiftl_back p k : 0 <= k -> Z.shiftl (Z.pos (Z.to_pos (Z.shiftl (Z.pos p) k))) (- k) = Z.pos p.
Proof.
  intros Hk. rewrite Z2Pos.id.
  - rewrite Z.shiftl_opp_r, Z.shiftr_shiftl_l, Z.sub_diag, Z.shiftl_0_r by done. done.
  - rewrite Z.shiftl_mul_pow2 by done. lia.
Qed.

Lemma whole_f64_as_i64 z : Z.abs z < 2 ^ 53 -> f64_as_i64 (whole_f64 z) = z.
Proof.
  intros Hz. destruct z as [|p|p]; [done| |]; cbn [whole_f64 f64_as_i64].
  all: assert (Z.log2 (Z.pos p) < 53) by (apply Z.log2_lt_pow2; cbn in *; lia).
  all: rewrite shiftl_back by lia; unfold i64_min, i64_max; cbn in Hz; lia.
Qed.
