(* ===== verification/Deposits.v ===== *)
(** * Deposits from the chain (src/exchange/src/app_cx.rs, [update_user_accounts]).

    The transactions the node lists under a user's label are entered in the
    journal, in one database transaction. *)

From S2P Require Import Prelude Trading Codec Accounting Tables World AppCx UserCx BitcoinClient.

Section deposits.
Context `{Schema, UuidText, BitcoinRpcClient}.

(** The map from the txid to the row; only its keys are used. *)
Definition tx_journal_map (rows : list JournalEntry) : gmap string JournalEntry :=
  foldl (fun m rec => match txid rec with Some t => <[t := rec]> m | None => m end) ∅ rows.

Fixpoint deposit_loop (user_account btc_account : Z) (tx_journal : gmap string JournalEntry)
    (db : Tx) (txs : list Transaction) : prog (Tx * result unit SqlxError) :=
  match txs with
  | [] => mret (db, Ok tt)
  | tx :: txs' =>
      if bool_decide (is_Some (tx_journal !! pt_txid tx))
      then deposit_loop user_account btc_account tx_journal db txs'
      else
        '(db, res) ← tx_query db (fun d =>
           insert_tx d (Some user_account) (Some btc_account) "BTC" (f64_as_i64 (pt_amount tx))
             "CHAIN.DEPOSIT" (Some (pt_txid tx)));
        match res with
        | Err e => mret (db, Err e)
        | Ok _ => deposit_loop user_account btc_account tx_journal db txs'
        end
  end.

Definition btc_accounts (db : Db) : list Account :=
  filter (fun a => source_type a = CryptoSource /\ source_id a = "bitcoin") (accounts db).
Definition user_btc_accounts (db : Db) (user_id : Uuid) : list Account :=
  filter (fun a => source_id a = uuid_to_string user_id /\ acc_currency a = "BTC" /\
    source_type a = UserSource) (accounts db).
Definition deposit_entries (db : Db) (user_account btc_account : Z) : list JournalEntry :=
  filter (fun e => credit_account_id e = user_account /\ debit_account_id e = btc_account /\
    tx_currency e = "BTC" /\ transaction_type e = "CHAIN.DEPOSIT") (journal db).

Definition deposit_request (user_id : Uuid) : ListTransactionsRequest :=
  mkListTransactionsRequest (Some (uuid_to_string user_id)) None None None.

(** A transaction that is dropped before its commit is rolled back. *)
Definition check_bitcoind (user_id : Uuid) : prog (result unit SqlxError) :=
  db ← begin_tx;
  match db with Err e => mret (Err e) | Ok db =>
  '(db, btc_account_rec) ← tx_query db (select (fun d => fetch_one (btc_accounts d)));
  match btc_account_rec with Err e => mret (Err e) | Ok btc_account_rec =>
  '(db, user_account_rec) ← tx_query db (select (fun d => fetch_one (user_btc_accounts d user_id)));
  match user_account_rec with Err e => mret (Err e) | Ok user_account_rec =>
  '(db, rows) ← tx_query db (select (fun d =>
    Ok (deposit_entries d (acc_id user_account_rec) (acc_id btc_account_rec))));
  match rows with Err e => mret (Err e) | Ok rows =>
  let tx_journal := tx_journal_map rows in
  txs ← client_list_transactions (deposit_request user_id);
  match txs with
  | Err _ => Done (Panic "called `Result::unwrap()` on an `Err` value")
  | Ok txs =>
      '(db, res) ← deposit_loop (acc_id user_account_rec) (acc_id btc_account_rec) tx_journal db
                     (transactions txs);
      match res with Err e => mret (Err e) | Ok _ => commit_tx db end
  end
  end end end end.

(** The result is not looked at. *)
Definition update_user_accounts (user_id : Uuid) : prog unit :=
  _ ← check_bitcoind user_id; mret tt.
End deposits.

(** ** What is entered *)

(** The rows of a list of transactions, numbered from [n]. *)
Fixpoint deposit_rows (u b n : Z) (txs : list Transaction) : list JournalEntry :=
  match txs with
  | [] => []
  | t :: txs' =>
      mkEntry n u b "BTC" (f64_as_i64 (pt_amount t)) "CHAIN.DEPOSIT" (Some (pt_txid t)) ::
      deposit_rows u b (n + 1) txs'
  end.

(** What the table accepts of them: positive amounts, and txids that are not
    empty, not the same, and not in the journal. *)
Definition importable (j : list JournalEntry) (txs : list Transaction) : Prop :=
  Forall (fun t => 0 < f64_as_i64 (pt_amount t) /\ pt_txid t <> "" /\
            ~ Exists (fun e => txid e = Some (pt_txid t)) j) txs /\
  NoDup (pt_txid <$> txs).

#[export] Instance importable_dec j txs : Decision (importable j txs).
Proof. unfold importable. apply _. Defined.

Lemma importable_nil j : importable j [].
Proof. split; constructor. Qed.

Lemma importable_cons j t txs n u b :
  importable j (t :: txs) <->
  (0 < f64_as_i64 (pt_amount t) /\ pt_txid t <> "" /\ ~ Exists (fun e => txid e = Some (pt_txid t)) j) /\
  importable (j ++ [mkEntry n u b "BTC" (f64_as_i64 (pt_amount t)) "CHAIN.DEPOSIT" (Some (pt_txid t))]) txs.
Proof.
  unfold importable. rewrite fmap_cons, Forall_cons, NoDup_cons.
  assert (forall t', Exists (fun e => txid e = Some (pt_txid t'))
            (j ++ [mkEntry n u b "BTC" (f64_as_i64 (pt_amount t)) "CHAIN.DEPOSIT" (Some (pt_txid t))]) <->
          Exists (fun e => txid e = Some (pt_txid t')) j \/ pt_txid t = pt_txid t') as Hex.
  { intros t'. rewrite Exists_app, Exists_cons, Exists_nil. cbn. split.
    - intros [?|[Heq|[]]]; [by left|right; congruence].
    - intros [?|Heq]; [by left|right; left; congruence]. }
  assert (Forall (fun t' => 0 < f64_as_i64 (pt_amount t') /\ pt_txid t' <> "" /\
            ~ Exists (fun e => txid e = Some (pt_txid t'))
              (j ++ [mkEntry n u b "BTC" (f64_as_i64 (pt_amount t)) "CHAIN.DEPOSIT" (Some (pt_txid t))])) txs <->
          Forall (fun t' => 0 < f64_as_i64 (pt_amount t') /\ pt_txid t' <> "" /\
            ~ Exists (fun e => txid e = Some (pt_txid t')) j) txs /\ pt_txid t ∉ pt_txid <$> txs) as ->.
  { rewrite list_elem_of_fmap, !Forall_forall. split.
    - intros Hall. split.
      + intros t' Ht'. destruct (Hall t' Ht') as (? & ? & Hn). rewrite Hex in Hn. tauto.
      + intros (t' & Heq & Ht'). destruct (Hall t' Ht') as (_ & _ & Hn). apply Hn, Hex. by right.
    - intros [Hall Hni] t' Ht'. destruct (Hall t' Ht') as (? & ? & Hn). split_and!; [done|done|].
      rewrite Hex. intros [?|Heq]; [done|]. apply Hni. by exists t'. }
  tauto.
Qed.

(** One statement: it is accepted exactly when the row is. *)
Lemma insert_deposit acc j n u b t :
  account_exists (mkDb acc j n) u = true -> account_exists (mkDb acc j n) b = true -> u <> b ->
  insert_tx (H := all_migrations) (mkDb acc j n) (Some u) (Some b) "BTC" (f64_as_i64 (pt_amount t))
    "CHAIN.DEPOSIT" (Some (pt_txid t)) =
  if bool_decide (0 < f64_as_i64 (pt_amount t) /\ pt_txid t <> "" /\
       ~ Exists (fun e => txid e = Some (pt_txid t)) j)
  then (mkDb acc (j ++ deposit_rows u b n [t]) (n + 1), Ok n)
  else (mkDb acc j n, Err (DatabaseError (bool_decide (0 < f64_as_i64 (pt_amount t) /\ pt_txid t <> "")))).
Proof.
  intros Hu Hb Hne. unfold insert_tx. rewrite (proj2 (Z.eqb_neq u b) Hne).
  change (negb (currency_ok "BTC")) with false. rewrite Hu, Hb. cbn [negb orb].
  unfold txid_check. cbn [txid_column all_migrations journal accounts next_tx_id].
  destruct (Z.leb_spec (f64_as_i64 (pt_amount t)) 0) as [Hle|Hlt]; cbn [orb].
  { rewrite !bool_decide_false by lia. done. }
  destruct (bool_decide_reflect (pt_txid t = "")) as [He|He].
  { rewrite !bool_decide_false by tauto. done. }
  destruct (existsb _ j) eqn:Hex.
  - rewrite bool_decide_false, bool_decide_true; [done|done|].
    intros (_ & _ & Hn). apply Hn. apply existsb_exists in Hex as (e & Hin & Heq%bool_decide_eq_true).
    apply Exists_exists. exists e. split; [by apply list_elem_of_In|done].
  - rewrite bool_decide_true; [done|]. split_and!; [done|done|].
    intros (e & Hin & Heq)%Exists_exists. pose proof (existsb_false _ _ Hex e Hin) as Hf.
    by apply bool_decide_eq_false in Hf.
Qed.

Section run.
Context `{UuidText}.

(** The statements of the loop, without faults. *)
Lemma exec_deposit_loop u b known rows txs w :
  w_faults w = [] -> account_exists (w_db w) u = true -> account_exists (w_db w) b = true -> u <> b ->
  let fresh := filter (fun t => ~ is_Some (known !! pt_txid t)) txs in
  let view := journal (w_db w) ++ rows in
  exists w' tx r, exec (deposit_loop (H := all_migrations) u b known (mkTx rows false) txs) w =
      (w', Return (tx, r)) /\
    if bool_decide (importable view fresh)
    then r = Ok tt /\ tx = mkTx (rows ++ deposit_rows u b (next_tx_id (w_db w)) fresh) false /\
      w' = set_db w (mkDb (accounts (w_db w)) (journal (w_db w))
                       (next_tx_id (w_db w) + Z.of_nat (length fresh)))
    else ~ is_Ok r /\ exists n, next_tx_id (w_db w) <= n /\ w' = set_db w (mkDb (accounts (w_db w)) (journal (w_db w)) n).
Proof.
  intros Hf Hu Hb Hne. cbv zeta. revert rows w Hf Hu Hb.
  induction txs as [|t txs IH]; intros rows w Hf Hu Hb; cbn [deposit_loop].
  { eexists _, _, _. split; [reflexivity|]. rewrite filter_nil, bool_decide_true by apply importable_nil.
    cbn. rewrite app_nil_r. split_and!; [done|done|]. rewrite Z.add_0_r.
    destruct w as [[]]; done. }
  rewrite filter_cons. destruct (bool_decide_reflect (is_Some (known !! pt_txid t))) as [Hk|Hk].
  { rewrite decide_False by tauto. by apply IH. }
  rewrite decide_True by done. rewrite exec_bind. unfold tx_query at 1.
  rewrite exec_atomically, pop_fault_none by done. unfold tx_statement. cbn [tx_aborted tx_rows].
  rewrite insert_deposit by done.
  set (fresh := filter _ txs). set (n := next_tx_id (w_db w)).
  set (e := mkEntry n u b "BTC" (f64_as_i64 (pt_amount t)) "CHAIN.DEPOSIT" (Some (pt_txid t))).
  pose proof (importable_cons (journal (w_db w) ++ rows) t fresh n u b) as Hcons. fold e in Hcons.
  destruct (bool_decide_reflect (0 < f64_as_i64 (pt_amount t) /\ pt_txid t <> "" /\
       ~ Exists (fun e => txid e = Some (pt_txid t)) (journal (w_db w) ++ rows))) as [Hok|Hok].
  - cbn [deposit_rows fst snd accounts journal next_tx_id aborts]. fold e.
    rewrite <- app_assoc, drop_app_length. set (w1 := set_db w (mkDb (accounts (w_db w)) (journal (w_db w)) (n + 1))).
    destruct (IH (rows ++ [e]) w1 Hf Hu Hb) as (w' & tx & r & He & Hr). fold fresh in Hr.
    exists w', tx, r. split; [exact He|].
    change (journal (w_db w1)) with (journal (w_db w)) in Hr. rewrite app_assoc in Hr.
    rewrite (bool_decide_ext (importable (journal (w_db w) ++ rows) (t :: fresh))
      (importable ((journal (w_db w) ++ rows) ++ [e]) fresh)) by tauto.
    case_bool_decide; cbn in Hr.
    + destruct Hr as (-> & -> & ->). split; [done|]. cbn [deposit_rows length]. fold e n.
      rewrite <- app_assoc. split; [done|]. unfold set_db, w1. cbn. do 2 f_equal. lia.
    + destruct Hr as (Hr & n' & Hn' & ->). split; [done|]. exists n'. split; [cbn in Hn'; lia|done].
  - rewrite (bool_decide_false (importable _ (t :: fresh))) by tauto. eexists _, _, _. split; [reflexivity|].
    split; [intros []|]. exists n. split; [done|reflexivity].
Qed.
End run.

(** The commit, when nothing came in between. *)
Lemma commit_deposits acc j N u b n txs :
  account_exists (mkDb acc j N) u = true -> account_exists (mkDb acc j N) b = true -> u <> b ->
  Forall (fun e => tx_id e < n) j -> n + Z.of_nat (length txs) <= N -> importable j txs ->
  commit_rows (H := all_migrations) (mkDb acc j N) (deposit_rows u b n txs) =
    Some (mkDb acc (j ++ deposit_rows u b n txs) N).
Proof.
  intros Hu Hb Hne. revert j n Hu Hb. induction txs as [|t txs IH]; intros j n Hu Hb Hids Hn Himp.
  { cbn. by rewrite app_nil_r. }
  cbn [deposit_rows commit_rows length] in *.
  apply (importable_cons j t txs n u b) in Himp as [(Hamt & Htx & Hnew) Himp].
  set (e := mkEntry n u b "BTC" (f64_as_i64 (pt_amount t)) "CHAIN.DEPOSIT" (Some (pt_txid t))) in *.
  assert (row_ok (H := all_migrations) (mkDb acc j N) e = true) as ->.
  { unfold row_ok. cbn [amount credit_account_id debit_account_id tx_currency tx_id txid e journal next_tx_id accounts].
    rewrite (proj2 (Z.leb_gt _ _) Hamt), (proj2 (Z.eqb_neq u b) Hne). change (negb (currency_ok "BTC")) with false.
    rewrite Hu, Hb, (proj2 (Z.ltb_lt n N)) by lia. cbn [negb orb andb].
    destruct (existsb (fun e' => tx_id e' =? n) j) eqn:Hex.
    { apply existsb_exists in Hex as (e' & Hin & Heq). apply list_elem_of_In in Hin.
      rewrite Forall_forall in Hids. specialize (Hids e' Hin). lia. }
    cbn [negb andb]. unfold txid_check. cbn [txid_column all_migrations journal].
    rewrite bool_decide_false by done.
    destruct (existsb (fun e' => bool_decide (txid e' = Some (pt_txid t))) j) eqn:Hex'; [|reflexivity].
    exfalso. apply Hnew. apply existsb_exists in Hex' as (e' & Hin & Heq%bool_decide_eq_true).
    apply Exists_exists. exists e'. split; [by apply list_elem_of_In|done]. }
  cbn [accounts journal next_tx_id].
  rewrite (IH (j ++ [e]) (n + 1)); [by rewrite <- app_assoc|done|done| |lia|done].
  apply Forall_app. split; [eapply Forall_impl; [exact Hids|cbn; lia]|].
  apply Forall_singleton. cbn. lia.
Qed.

(** The accounts the import works with, and the node's answer. *)
Record deposit_setup `{UuidText, BitcoinRpcClient} (w : World) (user : Uuid) (a b : Account)
    (txs : list Transaction) : Prop := {
  dsu_wf : db_wf (w_db w);
  dsu_faults : w_faults w = [];
  dsu_user : head (user_btc_accounts (w_db w) user) = Some a;
  dsu_btc : head (btc_accounts (w_db w)) = Some b;
  dsu_answer : exec (client_list_transactions (deposit_request user)) w =
    (w, Return (Ok (mkListTransactionsResponse txs))) }.

(** The transactions that have not been entered for these accounts before. *)
Definition new_transactions (db : Db) (u b : Z) (txs : list Transaction) : list Transaction :=
  filter (fun t => ~ is_Some (tx_journal_map (deposit_entries db u b) !! pt_txid t)) txs.

(** The keys of the map are the txids of the rows. *)
Lemma tx_journal_map_lookup rows k :
  is_Some (tx_journal_map rows !! k) <-> Exists (fun e => txid e = Some k) rows.
Proof.
  unfold tx_journal_map. induction rows as [|e rows IH] using rev_ind.
  { cbn. rewrite lookup_empty, Exists_nil. split; [by intros []|done]. }
  rewrite foldl_snoc, Exists_app, Exists_cons, Exists_nil, <- IH.
  destruct (txid e) as [t|]; [|intuition congruence].
  destruct (decide (t = k)) as [->|Hne].
  - rewrite lookup_insert_eq. split; [intros _; by right; left|by intros _].
  - rewrite lookup_insert_ne by done. split; [by left|]. intros [?|[[= ?]|[]]]; done.
Qed.

(** What one import moves. *)
Definition deposited (txs : list Transaction) : Z :=
  foldr (fun t z => f64_as_i64 (pt_amount t) + z) 0 txs.

Lemma deposit_rows_balance j u b n txs id :
  u <> b ->
  balance_of id (j ++ deposit_rows u b n txs) =
    balance_of id j + (if id =? u then deposited txs else if id =? b then - deposited txs else 0).
Proof.
  intros Hne. revert j n. induction txs as [|t txs IH]; intros j n; cbn [deposit_rows].
  { rewrite app_nil_r. cbn. destruct (id =? u), (id =? b); lia. }
  rewrite cons_middle, app_assoc, IH, balance_of_snoc. unfold transfer.
  cbn [credit_account_id debit_account_id amount deposited foldr]. fold (deposited txs).
  rewrite (Z.eqb_sym u id), (Z.eqb_sym b id).
  destruct (Z.eqb_spec id u), (Z.eqb_spec id b); lia.
Qed.

Lemma deposit_rows_entries u b n txs acc N :
  deposit_entries (mkDb acc (deposit_rows u b n txs) N) u b = deposit_rows u b n txs.
Proof.
  unfold deposit_entries. cbn [journal]. revert n. induction txs as [|t txs IH]; intros n; [done|].
  cbn [deposit_rows]. rewrite filter_cons, decide_True by done. by rewrite IH.
Qed.

Lemma deposit_rows_txids u b n txs k :
  Exists (fun e => txid e = Some k) (deposit_rows u b n txs) <-> k ∈ pt_txid <$> txs.
Proof.
  revert n. induction txs as [|t txs IH]; intros n; cbn [deposit_rows].
  - rewrite Exists_nil. cbn. by rewrite elem_of_nil.
  - rewrite Exists_cons, IH, fmap_cons, elem_of_cons. cbn. split; intros [?|?]; auto; left; congruence.
Qed.

(** After the import nothing of what was listed is new. *)
Lemma nothing_new acc j N n u b txs :
  new_transactions (mkDb acc (j ++ deposit_rows u b n (new_transactions (mkDb acc j N) u b txs)) N) u b txs = [].
Proof.
  assert (forall l, (forall t, t ∈ txs -> is_Some (tx_journal_map l !! pt_txid t)) ->
    filter (fun t => ~ is_Some (tx_journal_map l !! pt_txid t)) txs = []) as Hnil.
  { intros l Hl. apply filter_none. intros t Ht Hn. by apply Hn, Hl. }
  apply Hnil. intros t Ht. apply tx_journal_map_lookup.
  set (fresh := new_transactions _ u b txs).
  pose proof (deposit_rows_entries u b n fresh acc N) as Hrows. unfold deposit_entries in *.
  cbn [journal] in *. rewrite filter_app, Hrows, Exists_app, deposit_rows_txids, <- tx_journal_map_lookup.
  destruct (decide (is_Some (tx_journal_map (filter (fun e => credit_account_id e = u /\
    debit_account_id e = b /\ tx_currency e = "BTC" /\ transaction_type e = "CHAIN.DEPOSIT") j) !! pt_txid t)))
    as [Hk|Hk]; [by left|right].
  apply list_elem_of_fmap_2, list_elem_of_filter. done.
Qed.

Section import.
Context `{UuidText, BitcoinRpcClient} {w : World} {user : Uuid} {a b : Account} {txs : list Transaction}
  (Hs : deposit_setup w user a b txs).

Lemma dsu_accounts :
  account_exists (w_db w) (acc_id a) = true /\ account_exists (w_db w) (acc_id b) = true /\
  acc_id a <> acc_id b.
Proof.
  destruct (head_Some _ _ (dsu_user _ _ _ _ _ Hs)) as [la Hla], (head_Some _ _ (dsu_btc _ _ _ _ _ Hs)) as [lb Hlb].
  assert (a ∈ user_btc_accounts (w_db w) user) as Ha by (rewrite Hla; left).
  assert (b ∈ btc_accounts (w_db w)) as Hb by (rewrite Hlb; left).
  apply list_elem_of_filter in Ha as [(_ & _ & Hta) Ha], Hb as [[Htb _] Hb].
  split_and!; [by apply account_exists_spec, list_elem_of_fmap_2..|].
  intros Heq. pose proof (dsu_wf _ _ _ _ _ Hs) as [Hnd _].
  assert (a = b); [|congruence]. clear -Heq Ha Hb Hnd.
  induction (accounts (w_db w)) as [|c l IH]; [by apply elem_of_nil in Ha|].
  csimpl in Hnd. apply NoDup_cons in Hnd as [Hni Hnd].
  apply elem_of_cons in Ha as [->|Ha], Hb as [->|Hb]; [done| | |by apply IH].
  - destruct Hni. rewrite Heq. by apply list_elem_of_fmap_2.
  - destruct Hni. rewrite <- Heq. by apply list_elem_of_fmap_2.
Qed.

Lemma exec_import :
  let fresh := new_transactions (w_db w) (acc_id a) (acc_id b) txs in
  exists n, next_tx_id (w_db w) <= n /\
    exec (update_user_accounts (H := all_migrations) user) w =
      (set_db w (mkDb (accounts (w_db w))
         (journal (w_db w) ++
            if bool_decide (importable (journal (w_db w)) fresh)
            then deposit_rows (acc_id a) (acc_id b) (next_tx_id (w_db w)) fresh else []) n),
       Return tt).
Proof.
  intros fresh. destruct dsu_accounts as (Hu & Hb & Hne).
  pose proof (dsu_faults _ _ _ _ _ Hs) as Hf. pose proof (dsu_wf _ _ _ _ _ Hs) as (_ & Hrows & _).
  destruct (head_Some _ _ (dsu_user _ _ _ _ _ Hs)) as [la Hla], (head_Some _ _ (dsu_btc _ _ _ _ _ Hs)) as [lb Hlb].
  unfold update_user_accounts, check_bitcoind, begin_tx, fallible.
  rewrite !exec_bind, exec_atomically, pop_fault_none by done. cbn [fst snd].
  rewrite exec_bind, exec_tx_select by done. rewrite Hlb. cbn [fetch_one aborts].
  rewrite exec_bind, exec_tx_select by done. rewrite Hla. cbn [fetch_one aborts].
  rewrite exec_bind, exec_tx_select by done. cbn [aborts]. cbv zeta.
  rewrite exec_bind, (dsu_answer _ _ _ _ _ Hs). cbn [transactions].
  destruct (exec_deposit_loop (acc_id a) (acc_id b)
    (tx_journal_map (deposit_entries (w_db w) (acc_id a) (acc_id b))) [] txs w Hf Hu Hb Hne)
    as (w' & tx & r & He & Hr).
  rewrite exec_bind, He. fold (new_transactions (w_db w) (acc_id a) (acc_id b) txs) in Hr. fold fresh in Hr.
  rewrite app_nil_r in Hr. case_bool_decide as Himp.
  - destruct Hr as (-> & -> & ->). exists (next_tx_id (w_db w) + Z.of_nat (length fresh)). split; [lia|].
    unfold commit_tx, fallible. rewrite exec_atomically, pop_fault_none by done.
    cbn [tx_aborted tx_rows app w_db set_db]. rewrite commit_deposits; [done|done|done|done| |lia|done].
    eapply Forall_impl; [exact Hrows|]. by intros e (_ & _ & _ & _ & ?).
  - destruct Hr as (Hr & n & Hn & ->). destruct r as [[]|e]; [by destruct Hr|].
    exists n. split; [done|]. by rewrite app_nil_r.
Qed.
End import.

(** ** With faults *)

(** The database of a world, but for the numbers taken from the sequence. *)
Definition same_rows (w w' : World) : Prop :=
  accounts (w_db w') = accounts (w_db w) /\ journal (w_db w') = journal (w_db w) /\
  w_tables w' = w_tables w.

Lemma same_rows_refl w : same_rows w w.
Proof. done. Qed.
Lemma same_rows_trans w1 w2 w3 : same_rows w1 w2 -> same_rows w2 w3 -> same_rows w1 w3.
Proof. unfold same_rows. intros (? & ? & ?) (? & ? & ?). split_and!; congruence. Qed.

Lemma pop_fault_world w : (pop_fault w).2 = set_faults w (tail (w_faults w)).
Proof. unfold pop_fault. destruct (w_faults w) as [|f fs] eqn:Hfs; [|done]. cbn. rewrite <- Hfs. by destruct w. Qed.

Lemma same_rows_faults w fs : same_rows w (set_faults w fs).
Proof. done. Qed.

(** A statement of a transaction, whatever happens to it: if it is answered,
    it has run. *)
Lemma exec_tx_query {R} tx (q : Db -> Db * result R SqlxError) w :
  exists w' tx' r, exec (tx_query tx q) w = (w', Return (tx', r)) /\ same_rows w w' /\
    (is_Ok r -> tx_aborted tx = false /\
       let '(db', r') := q (mkDb (accounts (w_db w)) (journal (w_db w) ++ tx_rows tx) (next_tx_id (w_db w))) in
       r = r' /\ tx' = mkTx (drop (length (journal (w_db w))) (journal db')) (aborts r') /\
       w' = set_db (set_faults w (tail (w_faults w)))
              (mkDb (accounts (w_db w)) (journal (w_db w)) (next_tx_id db'))).
Proof.
  unfold tx_query. rewrite exec_atomically. pose proof (pop_fault_world w) as Hpop.
  destruct (pop_fault w) as [f w1]. cbn [snd] in Hpop. subst w1.
  destruct f; [|by (eexists _, _, _; split; [reflexivity|]; split; [done|intros []])..].
  unfold tx_statement. cbn [w_db set_faults]. destruct (tx_aborted tx).
  - eexists _, _, _. split; [reflexivity|]. split; [done|intros []].
  - destruct (q _) as [db' r]. eexists _, _, _. split; [reflexivity|]. split; [done|]. intros _. done.
Qed.

Section atomic.
Context `{Schema, UuidText, BitcoinRpcClientLaws}.

Lemma insert_tx_Ok db c d cur amt type t :
  is_Ok (insert_tx db (Some c) (Some d) cur amt type t).2 ->
  insert_tx db (Some c) (Some d) cur amt type t =
    (mkDb (accounts db) (journal db ++ [mkEntry (next_tx_id db) c d cur amt type t]) (next_tx_id db + 1),
     Ok (next_tx_id db)).
Proof. destruct (insert_tx_spec db c d cur amt type t); [done|by intros []]. Qed.

Lemma exec_deposit_loop_any u b known rows txs w :
  exists w' tx r, exec (deposit_loop u b known (mkTx rows false) txs) w = (w', Return (tx, r)) /\
    same_rows w w' /\
    (is_Ok r -> tx = mkTx (rows ++ deposit_rows u b (next_tx_id (w_db w))
                                     (filter (fun t => ~ is_Some (known !! pt_txid t)) txs)) false).
Proof.
  revert rows w. induction txs as [|t txs IH]; intros rows w; cbn [deposit_loop].
  { eexists _, _, _. split; [reflexivity|]. split; [done|]. intros _. by rewrite filter_nil, app_nil_r. }
  rewrite filter_cons. destruct (bool_decide_reflect (is_Some (known !! pt_txid t))) as [Hk|Hk].
  { rewrite decide_False by tauto. apply IH. }
  rewrite decide_True by done. rewrite exec_bind.
  destruct (exec_tx_query (mkTx rows false) (fun d => insert_tx d (Some u) (Some b) "BTC"
    (f64_as_i64 (pt_amount t)) "CHAIN.DEPOSIT" (Some (pt_txid t))) w) as (w1 & tx1 & r1 & -> & Hs1 & Hr1).
  destruct r1 as [id|e].
  2: { eexists _, _, _. split; [reflexivity|]. split; [done|intros []]. }
  destruct (Hr1 I) as [_ Hq]. cbn [tx_rows] in Hq.
  set (view := mkDb _ _ _) in Hq.
  pose proof (insert_tx_Ok view u b "BTC" (f64_as_i64 (pt_amount t)) "CHAIN.DEPOSIT" (Some (pt_txid t))) as Hok.
  destruct (insert_tx view _ _ _ _ _ _) as [db' r'] eqn:Hins. destruct Hq as (<- & -> & Hw1).
  cbn [snd] in Hok. injection (Hok I) as -> _. cbn [journal next_tx_id view aborts] in *.
  rewrite <- app_assoc, drop_app_length.
  set (e := mkEntry (next_tx_id (w_db w)) u b "BTC" (f64_as_i64 (pt_amount t)) "CHAIN.DEPOSIT" (Some (pt_txid t))).
  destruct (IH (rows ++ [e]) w1) as (w2 & tx2 & r2 & -> & Hs2 & Hr2).
  exists w2, tx2, r2. split; [done|]. split; [by eapply same_rows_trans|].
  intros Hr. rewrite (Hr2 Hr), Hw1. cbn [w_db set_db next_tx_id deposit_rows]. by rewrite <- app_assoc.
Qed.

Lemma exec_begin w :
  exists w' r, exec begin_tx w = (w', Return r) /\ same_rows w w' /\
    (is_Ok r -> r = Ok (mkTx [] false) /\ w' = set_faults w (tail (w_faults w))).
Proof.
  unfold begin_tx, fallible. rewrite exec_atomically. pose proof (pop_fault_world w) as Hpop.
  destruct (pop_fault w) as [f w1]. cbn [snd] in Hpop. subst w1.
  destruct f; (eexists _, _; split; [reflexivity|]; split; [done|]); [done|by intros []..].
Qed.

Lemma exec_client r w :
  same_rows w (exec (client_list_transactions r) w).1 /\
  next_tx_id (w_db (exec (client_list_transactions r) w).1) = next_tx_id (w_db w).
Proof.
  pose proof (guar_exec _ w (list_transactions_still r)) as Hr.
  generalize dependent ((exec (client_list_transactions r) w).1). intros w'.
  induction 1 as [w1|w1 w2 w3 (Hd & Ht & _) _ [IH IHn]]; [done|]. rewrite IHn, Hd. split; [|done].
  eapply same_rows_trans; [|exact IH]. by split_and!; rewrite ?Hd, ?Ht.
Qed.

Lemma exec_tx_select_any {R} (q : Db -> result R SqlxError) w :
  exists w' tx r, exec (tx_query (mkTx [] false) (select q)) w = (w', Return (tx, r)) /\ same_rows w w' /\
    (is_Ok r -> tx = mkTx [] false /\ r = q (w_db w) /\ w' = set_faults w (tail (w_faults w))).
Proof.
  destruct (exec_tx_query (mkTx [] false) (select q) w) as (w' & tx & r & He & Hs & Hr).
  exists w', tx, r. split; [done|]. split; [done|]. intros Hok. destruct (Hr Hok) as [_ Hq].
  unfold select in Hq. cbn [tx_rows next_tx_id] in Hq. rewrite app_nil_r in Hq.
  replace (mkDb _ _ _) with (w_db w) in Hq by by destruct (w_db w).
  destruct Hq as (-> & -> & ->). rewrite drop_all. split; [by destruct (q (w_db w)) as [|[]]|].
  split; [done|]. by destruct w as [[] ? ? ? ? ? ?].
Qed.

Lemma fetch_one_head {R} (l : list R) x : fetch_one l = Ok x -> head l = Some x.
Proof. destruct l; cbn; [done|]. by intros [= ->]. Qed.

(** The world in which the node is asked: four statements have been answered. *)
Definition when_asked (w : World) : World := set_faults w (drop 4 (w_faults w)).

(** What an import has done to the journal: nothing, or all that the answer
    of the node calls for. *)
Definition imported_all (w w' : World) (user : Uuid) : Prop :=
  exists a b answered resp,
    head (user_btc_accounts (w_db w) user) = Some a /\ head (btc_accounts (w_db w)) = Some b /\
    exec (client_list_transactions (deposit_request user)) (when_asked w) = (answered, Return (Ok resp)) /\
    journal (w_db w') = journal (w_db w) ++
      deposit_rows (acc_id a) (acc_id b) (next_tx_id (w_db w))
        (new_transactions (w_db w) (acc_id a) (acc_id b) (transactions resp)).

Lemma exec_commit rows w :
  exists w' r, exec (commit_tx (mkTx rows false)) w = (w', Return r) /\
    accounts (w_db w') = accounts (w_db w) /\ w_tables w' = w_tables w /\
    (journal (w_db w') = journal (w_db w) \/ journal (w_db w') = journal (w_db w) ++ rows).
Proof.
  unfold commit_tx. destruct (exec_fallible (fun w => if tx_aborted (mkTx rows false) then (w, Ok tt)
    else match commit_rows (w_db w) (tx_rows (mkTx rows false)) with
         | Some db' => (set_db w db', Ok tt)
         | None => (w, Err (DatabaseError true))
         end) w) as (fs & r & [Hc|[Hc _]]); rewrite Hc; (eexists _, _; split; [reflexivity|]).
  { split_and!; [done|done|by left]. }
  cbn [tx_aborted tx_rows]. change (w_db (set_faults w fs)) with (w_db w).
  destruct (commit_rows (w_db w) rows) as [db'|] eqn:Hcr; [|split_and!; [done|done|by left]].
  apply commit_rows_journal in Hcr as ->. split_and!; [done|done|by right].
Qed.

(** C27: whatever the database and the node do - any statement may fail, be
    lost before it is run or lose its answer - the import of deposits is all or
    nothing. It leaves the journal as it was, or adds to it exactly one row for
    each transaction the node has listed in answer to this import's request
    that was not entered for these accounts before, in the order listed and
    with the next numbers of the sequence. It changes no account and none of
    the other tables, and it panics only with the journal as it was. *)
Theorem deposits_atomic w user :
  exists w' o, exec (update_user_accounts user) w = (w', o) /\
    accounts (w_db w') = accounts (w_db w) /\ w_tables w' = w_tables w /\
    (journal (w_db w') = journal (w_db w) \/ o = Return tt /\ imported_all w w' user).
Proof.
  assert (forall w' o, same_rows w w' ->
    exists w'' o', (w', o) = (w'', o') /\
      accounts (w_db w'') = accounts (w_db w) /\ w_tables w'' = w_tables w /\
      (journal (w_db w'') = journal (w_db w) \/ o' = Return tt /\ imported_all w w'' user)) as Hnothing.
  { intros w' o (? & ? & ?). exists w', o. split_and!; [done|done|done|by left]. }
  unfold update_user_accounts, check_bitcoind. rewrite exec_bind, exec_bind.
  destruct (exec_begin w) as (w1 & r & -> & S1 & Hr). destruct r as [tx|e]; [|by apply Hnothing].
  destruct (Hr I) as [[= ->] ->]. clear Hr S1.
  rewrite exec_bind. destruct (exec_tx_select_any (fun d => fetch_one (btc_accounts d)) (set_faults w (tail (w_faults w))))
    as (w2 & tx & r & -> & S2 & Hr).
  destruct r as [b|e]; [|by apply Hnothing].
  destruct (Hr I) as (-> & Hb & ->). clear Hr S2. symmetry in Hb. apply fetch_one_head in Hb.
  rewrite exec_bind. edestruct (exec_tx_select_any (fun d => fetch_one (user_btc_accounts d user)))
    as (w3 & tx & r & -> & S3 & Hr).
  destruct r as [a|e]; [|by apply Hnothing].
  destruct (Hr I) as (-> & Ha & ->). clear Hr S3. symmetry in Ha. apply fetch_one_head in Ha.
  rewrite exec_bind. edestruct (exec_tx_select_any (fun d => Ok (deposit_entries d (acc_id a) (acc_id b))))
    as (w4 & tx & r & -> & S4 & Hr).
  destruct r as [known|e]; [|by apply Hnothing].
  destruct (Hr I) as (-> & [= ->] & ->). clear Hr S4. cbv zeta.
  match goal with |- context [exec (_ ≫= _) ?wa] => assert (wa = when_asked w) as -> end.
  { unfold when_asked. cbn. by destruct (w_faults w) as [|? [|? [|? [|? ?]]]]. }
  rewrite exec_bind. pose proof (exec_client (deposit_request user) (when_asked w)) as [S5 Hn].
  destruct (exec (client_list_transactions (deposit_request user)) (when_asked w)) as [w5 o] eqn:Hask.
  cbn [fst] in S5, Hn.
  destruct o as [[resp|e]|why]; [|by apply Hnothing..].
  rewrite exec_bind. destruct (exec_deposit_loop_any (acc_id a) (acc_id b)
    (tx_journal_map (deposit_entries (w_db w) (acc_id a) (acc_id b))) [] (transactions resp) w5)
    as (w6 & tx & r & -> & S6 & Hr).
  pose proof (same_rows_trans _ _ _ S5 S6) as S.
  destruct r as [[]|e]; [|by apply Hnothing]. rewrite (Hr I). clear Hr.
  destruct (exec_commit (deposit_rows (acc_id a) (acc_id b) (next_tx_id (w_db w5))
    (new_transactions (w_db w) (acc_id a) (acc_id b) (transactions resp))) w6) as (w7 & r & Hc & Hacc & Htab & Hj).
  cbn [app]. unfold new_transactions in Hc. rewrite Hc. destruct S as (Sa & Sj & St).
  eexists _, _. split; [reflexivity|]. split; [by rewrite Hacc|]. split; [by rewrite Htab|].
  destruct Hj as [Hj|Hj]; [left; by rewrite Hj|right]. split; [done|].
  exists a, b, w5, resp. split_and!; [done|done|exact Hask|]. by rewrite Hj, Sj, Hn.
Qed.
End atomic.

(** ** What the steps do to the database *)

Section reads.
Context {RD : Db -> Db -> Prop} {RT : Tables -> Tables -> Prop}
  {RS : list TradingEngineCmd -> list TradingEngineCmd -> Prop} `{!Reflexive RD, !Reflexive RT, !Reflexive RS}
  (Hseq : forall db n, 0 <= n -> RD db (mkDb (accounts db) (journal db) (next_tx_id db + n))).

Lemma guar_select_tx {R} tx (q : Db -> result R SqlxError) : guar (touches RD RT RS) (tx_query tx (select q)).
Proof using Type*. apply guar_tx_query; [exact Hseq|by intros db]. Qed.

Lemma guar_begin : guar (touches RD RT RS) begin_tx.
Proof using Type*. by apply guar_fallible. Qed.

Lemma guar_user_balance `{UuidText, DistinctOrder} user : guar (touches RD RT RS) (user_balance user).
Proof using Type*.
  unfold user_balance. apply guar_bind; [apply guar_begin|]. intros [tx|e]; [|apply guar_ret].
  apply guar_bind; [apply guar_select_tx|]. intros [tx' [vec|e]]; [|apply guar_ret].
  apply guar_bind; [|intros; apply guar_ret]. generalize (∅ : gmap string Z) as details.
  revert tx'. induction vec as [|c vec IH]; intros tx' details; cbn [balances_loop]; [apply guar_ret|].
  apply guar_bind; [apply guar_select_tx|]. intros [tx2 [bal|e]]; apply IH.
Qed.
End reads.

Lemma seq_change `{Schema} db n :
  0 <= n -> rtc db_change db (mkDb (accounts db) (journal db) (next_tx_id db + n)).
Proof. intros Hn. apply rtc_once. by constructor. Qed.

Section guarantees.
Context `{Schema, UuidText} {RT : Tables -> Tables -> Prop}
  {RS : list TradingEngineCmd -> list TradingEngineCmd -> Prop} `{!Reflexive RT, !Reflexive RS}.

Lemma guar_commit tx : guar (touches (rtc db_change) RT RS) (commit_tx tx).
Proof. apply guar_commit_tx. intros db rows db' Hc. apply rtc_once. by econstructor. Qed.

Lemma guar_deposit_loop u b known tx txs : guar (touches (rtc db_change) RT RS) (deposit_loop u b known tx txs).
Proof.
  revert tx. induction txs as [|t txs IH]; intros tx; cbn [deposit_loop]; [apply guar_ret|].
  destruct (bool_decide _); [apply IH|]. apply guar_bind.
  - apply guar_tx_query; [apply seq_change|intros db; apply insert_tx_next].
  - intros [tx' [id|e]]; [apply IH|apply guar_ret].
Qed.

Lemma guar_update_user_accounts `{BitcoinRpcClientLaws} user :
  guar (touches (rtc db_change) RT RS) (update_user_accounts user).
Proof.
  unfold update_user_accounts, check_bitcoind.
  apply guar_bind; [|intros; apply guar_ret].
  apply guar_bind; [apply guar_begin, seq_change|]. intros [tx|e]; [|apply guar_ret].
  do 3 (apply guar_bind; [apply guar_select_tx, seq_change|]; intros [? []]; [|apply guar_ret]).
  apply guar_bind; [apply guar_still, list_transactions_still|]. intros [txs|e]; [|constructor].
  apply guar_bind; [apply guar_deposit_loop|]. intros [tx' [[]|e]]; [apply guar_commit|apply guar_ret].
Qed.

(** The queries alone, run to the end. *)
Lemma journal_exec_wf {A} (m : prog A) w :
  guar (touches (rtc db_change) RT RS) m -> db_wf (w_db w) -> db_wf (w_db (exec m w).1).
Proof.
  intros Hm. pose proof (guar_exec m w Hm) as Hr. revert Hr. generalize ((exec m w).1). intros w'.
  induction 1 as [w1|w1 w2 w3 [Hd _] _ IH]; [done|]. intros Hwf. apply IH.
  induction Hd; [done|eauto using db_change_wf].
Qed.
End guarantees.

(** C26: the import credits each deposit once. If the transactions that are new
    are in order - positive amounts, txids not empty, not repeated, not in the
    journal - every one of them is credited to the user and debited from the
    exchange's bitcoin account, and running the import again with the same
    answer of the node adds nothing. If one of them is not, none is credited,
    now or on any later run with this answer; the caller does not learn of
    it. Whether a transaction is confirmed, or received at all, is not looked at. *)
Theorem deposits_imported_once `{UuidText, BitcoinRpcClientLaws} w user a b txs
    (Hs : deposit_setup w user a b txs)
    (Hagain : forall w', w_faults w' = [] ->
       exec (client_list_transactions (deposit_request user)) w' =
         (w', Return (Ok (mkListTransactionsResponse txs)))) :
  let fresh := new_transactions (w_db w) (acc_id a) (acc_id b) txs in
  let credited := if bool_decide (importable (journal (w_db w)) fresh) then deposited fresh else 0 in
  exists w1, exec (update_user_accounts (H := all_migrations) user) w = (w1, Return tt) /\
    (forall id, balance_of id (journal (w_db w1)) = balance_of id (journal (w_db w)) +
       (if id =? acc_id a then credited else if id =? acc_id b then - credited else 0)) /\
    accounts (w_db w1) = accounts (w_db w) /\ w_tables w1 = w_tables w /\
    exists w2, exec (update_user_accounts (H := all_migrations) user) w1 = (w2, Return tt) /\
      journal (w_db w2) = journal (w_db w1).
Proof.
  intros fresh credited. destruct (dsu_accounts Hs) as (_ & _ & Hne).
  destruct (exec_import Hs) as (n & _ & He). fold fresh in He.
  pose proof (journal_exec_wf (RT := eq) (RS := eq) (update_user_accounts (H := all_migrations) user) w
    (guar_update_user_accounts user) (dsu_wf _ _ _ _ _ Hs)) as Hwf1. rewrite He in Hwf1. cbn [fst] in Hwf1.
  eexists. split; [exact He|]. set (w1 := set_db w _) in *.
  assert (deposit_setup w1 user a b txs) as Hs1.
  { destruct Hs. split; [exact Hwf1|done|done|done|by apply Hagain]. }
  split_and!; [|done|done|].
  { intros id. cbn [w1 w_db set_db journal]. subst credited. case_bool_decide; [by apply deposit_rows_balance|].
    rewrite app_nil_r. destruct (id =? acc_id a), (id =? acc_id b); lia. }
  destruct (exec_import Hs1) as (n' & _ & He'). eexists. split; [exact He'|].
  cbn [w_db set_db journal]. clear He He' Hwf1 Hs1.
  destruct (bool_decide_reflect (importable (journal (w_db w)) fresh)) as [Hi|Hi]; subst w1.
  - cbn [w_db set_db accounts journal next_tx_id].
    pose proof (nothing_new (accounts (w_db w)) (journal (w_db w)) n (next_tx_id (w_db w))
      (acc_id a) (acc_id b) txs) as Hnew.
    change (new_transactions (mkDb (accounts (w_db w)) (journal (w_db w)) n) (acc_id a) (acc_id b) txs)
      with fresh in Hnew.
    rewrite Hnew, bool_decide_true by apply importable_nil. by rewrite app_nil_r.
  - cbn [w_db set_db accounts journal]. rewrite app_nil_r.
    change (new_transactions (mkDb (accounts (w_db w)) (journal (w_db w)) n) (acc_id a) (acc_id b) txs)
      with fresh.
    rewrite (bool_decide_false (importable (journal (w_db w)) fresh)) by done. by rewrite app_nil_r.
Qed.

(** ** Concrete runs *)

Section witnesses.
#[local] Existing Instance decimal_uuid_text.

Definition demo_deposit (txid : string) (amt : Z) : Transaction :=
  mkTransaction 0 None None None None txid 0 0 "unknown" None "receive" (whole_f64 amt) None 0 None None None.

Definition demo_client (txs : list Transaction) : BitcoinRpcClient := {|
  client_get_new_address _ := mret (Ok (mkGetNewAddressResponse "bc1"));
  client_list_transactions _ := mret (Ok (mkListTransactionsResponse txs)) |}.

Lemma demo_client_laws txs : @BitcoinRpcClientLaws (demo_client txs).
Proof. split; intros r; constructor. Qed.

Definition demo_btc : Account := mkAccount 2 "BTC" CryptoSource "bitcoin".
Definition demo_wallet : Account := mkAccount 3 "BTC" UserSource "7".
(** Transaction "t1" has been entered before. *)
Definition demo_chain : World :=
  mkWorld (mkDb [mkAccount 1 "USD" FiatSource "exchange"; demo_btc; demo_wallet]
             [mkEntry 1 3 2 "BTC" 500 "CHAIN.DEPOSIT" (Some "t1")] 2) Tables_new Running true [] 0 [].

Lemma demo_chain_setup txs : deposit_setup (H0 := demo_client txs) demo_chain 7%N demo_wallet demo_btc txs.
Proof.
  split; try reflexivity. split_and!.
  - cbn. apply NoDup_ListNoDup. repeat constructor; cbn; lia.
  - cbn [demo_chain w_db journal]. constructor; [|constructor]. unfold entry_wf. cbn.
    split_and!; rewrite ?elem_of_cons; try lia; tauto.
  - apply NoDup_singleton.
Qed.

(** A second deposit is credited; with an outgoing payment in the list nothing is. *)
Lemma deposits_imported_once_witness :
  (let txs := [demo_deposit "t1" 500; demo_deposit "t2" 70] in
   exists w1, exec (update_user_accounts (H := all_migrations) (H1 := demo_client txs) 7%N) demo_chain = (w1, Return tt) /\
     balance_of 3 (journal (w_db w1)) = 570) /\
  (let txs := [demo_deposit "t1" 500; demo_deposit "t2" 70; demo_deposit "t3" (-20)] in
   exists w1, exec (update_user_accounts (H := all_migrations) (H1 := demo_client txs) 7%N) demo_chain = (w1, Return tt) /\
     balance_of 3 (journal (w_db w1)) = 500).
Proof.
  split; intros txs;
    destruct (deposits_imported_once (H1 := demo_client_laws txs) demo_chain 7%N demo_wallet demo_btc txs
                (demo_chain_setup txs) ltac:(reflexivity)) as (w1 & He & Hb & _);
    exists w1; (split; [exact He|]); rewrite Hb; vm_compute; reflexivity.
Defined.

(** The answer to the COMMIT is lost: both rows are there. The second INSERT is
    lost: none is. *)
Lemma deposits_atomic_witness :
  let txs := [demo_deposit "t2" 70; demo_deposit "t3" 5] in
  let run fs := exec (update_user_accounts (H := all_migrations) (H1 := demo_client txs) 7%N) (set_faults demo_chain fs) in
  (exists w', run [Healthy; Healthy; Healthy; Healthy; Healthy; Healthy; AnswerLost] = (w', Return tt) /\
     w_tables w' = w_tables demo_chain /\ length (journal (w_db w')) = 3%nat) /\
  (exists w', run [Healthy; Healthy; Healthy; Healthy; Healthy; Unreachable] = (w', Return tt) /\
     w_tables w' = w_tables demo_chain /\ length (journal (w_db w')) = 1%nat).
Proof.
  intros txs run. split.
  - destruct (deposits_atomic (H := all_migrations) (H2 := demo_client_laws txs)
      (set_faults demo_chain [Healthy; Healthy; Healthy; Healthy; Healthy; Healthy; AnswerLost]) 7%N)
      as (w' & o & He & _ & Ht & _).
    exists w'. split; [|split; [exact Ht|]]; revert He; vm_compute; intros [= <- <-]; reflexivity.
  - destruct (deposits_atomic (H := all_migrations) (H2 := demo_client_laws txs)
      (set_faults demo_chain [Healthy; Healthy; Healthy; Healthy; Healthy; Unreachable]) 7%N)
      as (w' & o & He & _ & Ht & _).
    exists w'. split; [|split; [exact Ht|]]; revert He; vm_compute; intros [= <- <-]; reflexivity.
Defined.
End witnesses.
