(* ===== verification/Auth.v ===== *)
(** * Sessions (src/exchange/src/web/middleware/auth.rs).

    A protected route runs its handler behind [validate_session_token]: the
    cookie's token is looked up, its age checked, and the handler is given the
    user it belongs to. *)

From S2P Require Import Prelude Trading Accounting Tables World Http UserCx.

(** [chrono::DateTime::from_timestamp(secs, 0)], in microseconds; it exists for
    years up to 262000. *)
Class Chrono : Type := from_timestamp : Z -> option Z.
Class ChronoLaws `{Chrono} : Prop :=
  from_timestamp_in_range secs : Z.abs secs <= 2 ^ 42 -> from_timestamp secs = Some (secs * 1000000).

(** What a handler leaves: its response, and a task it has spawned. *)
Definition Reply : Type := Response * option Cleanup.

(** [OffsetDateTime::unix_timestamp]: whole seconds, rounded down. *)
Definition unix_timestamp (t : Z) : Z := t / 1000000.

Section auth.
Context `{Chrono, IpText}.

Definition try_validate_session (headers : RequestParts) :
    prog (result Uuid (StatusCode * string)) :=
  match rq_session_token headers with
  | None => mret (Err (UNAUTHORIZED, "Unauthorized: session-token cookie missing"))
  | Some session_token =>
      rec ← table_query (fun _ => select (fun t => Ok (head (sessions_with_token t session_token))));
      match rec with
      | Err _ => mret (Err (INTERNAL_SERVER_ERROR, "Try again later"))
      | Ok rec =>
          match rec with
          | Some rec =>
              now ← utc_now;
              expires ← Done (expect (from_timestamp (unix_timestamp (st_created_at rec) + st_max_age rec))
                                "called `Option::unwrap()` on a `None` value");
              if expires <=? now
              then mret (Err (UNAUTHORIZED, "Unauthorized: session-token has expired"))
              else mret (Ok (st_user_id rec))
          | None => mret (Err (UNAUTHORIZED, "Unauthorized: invalid session token"))
          end
      end
  end.

Definition validate_session_token (request : RequestParts) (next : Uuid -> prog Reply) : prog Reply :=
  session ← try_validate_session request;
  match session with
  | Ok user_uuid => next user_uuid
  | Err (s, message) => mret (text_response s message, None)
  end.

Definition validate_session_token_or_redirect (request : RequestParts) (next : Uuid -> prog Reply) :
    prog Reply :=
  session ← try_validate_session request;
  match session with
  | Ok user_uuid => next user_uuid
  | Err (s, message) =>
      if bool_decide (s = UNAUTHORIZED) then mret (redirect_to "/", None)
      else mret (text_response s message, None)
  end.

(** ** What its steps do *)

Lemma guar_try_validate {RD : Db -> Db -> Prop} {RT : Tables -> Tables -> Prop}
    {RS : list TradingEngineCmd -> list TradingEngineCmd -> Prop}
    `{!Reflexive RD, !Reflexive RT, !Reflexive RS} rq : guar (touches RD RT RS) (try_validate_session rq).
Proof.
  unfold try_validate_session. destruct (rq_session_token rq) as [tok|]; [|apply guar_ret].
  apply guar_bind; [by apply guar_table_query|]. intros [[rec|]|e]; [|apply guar_ret..].
  apply guar_bind; [apply guar_read|]. intros now. apply guar_bind; [constructor|]. intros expires.
  destruct (_ <=? _); apply guar_ret.
Qed.

(** ** Verdicts *)

(** The user a request is let in as. *)
Definition expiry (s : SessionToken) : Z := (unix_timestamp (st_created_at s) + st_max_age s) * 1000000.
Definition session_user (w : World) (rq : RequestParts) : option Uuid :=
  tok ← rq_session_token rq;
  rec ← head (sessions_with_token (w_tables w) tok);
  if expiry rec <=? w_now w then None else Some (st_user_id rec).

(** Times between the years -67000 and 71000. *)
Definition session_in_range (s : SessionToken) : Prop :=
  Z.abs (st_created_at s) <= 2 ^ 41 * 1000000 /\ Z.abs (st_max_age s) <= 2 ^ 31.

Context `{!ChronoLaws}.

Lemma expires_in_range s :
  session_in_range s -> from_timestamp (unix_timestamp (st_created_at s) + st_max_age s) = Some (expiry s).
Proof.
  intros [Hc Ha]. apply from_timestamp_in_range. unfold unix_timestamp.
  pose proof (Z.div_le_upper_bound (st_created_at s) 1000000 (2 ^ 41) ltac:(lia) ltac:(lia)).
  pose proof (Z.div_le_lower_bound (st_created_at s) 1000000 (- 2 ^ 41) ltac:(lia) ltac:(lia)). lia.
Qed.

(** Whatever the faults: an error of the database, or the verdict. *)
Lemma exec_try_validate w rq :
  Forall session_in_range (session_tokens (w_tables w)) ->
  exists fs r, exec (try_validate_session rq) w = (set_faults w fs, Return r) /\
    (w_faults w = [] -> fs = []) /\
    ((w_faults w <> [] /\ r = Err (INTERNAL_SERVER_ERROR, "Try again later")) \/
     match session_user w rq with
     | Some user => r = Ok user
     | None => exists message, r = Err (UNAUTHORIZED, message)
     end).
Proof.
  intros Hrange. unfold try_validate_session, session_user.
  destruct (rq_session_token rq) as [tok|]; cbn [mbind option_bind].
  2: { exists (w_faults w). eexists. split; [by destruct w|]. split; [done|]. right. by eexists. }
  assert (forall w', w_tables w' = w_tables w -> w_now w' = w_now w ->
    exists r, exec (match head (sessions_with_token (w_tables w) tok) with
          | Some rec =>
              now ← utc_now;
              expires ← Done (expect (from_timestamp (unix_timestamp (st_created_at rec) + st_max_age rec))
                                "called `Option::unwrap()` on a `None` value");
              if expires <=? now
              then mret (Err (UNAUTHORIZED, "Unauthorized: session-token has expired"))
              else mret (Ok (st_user_id rec))
          | None => mret (Err (UNAUTHORIZED, "Unauthorized: invalid session token"))
          end) w' = (w', Return r) /\
      match rec ← head (sessions_with_token (w_tables w) tok);
            if expiry rec <=? w_now w then None else Some (st_user_id rec) with
      | Some user => r = Ok user
      | None => exists message, r = Err (UNAUTHORIZED, message)
      end) as Hrest.
  { intros w' Ht Hn. destruct (head _) as [rec|] eqn:Hrec; cbn [mbind option_bind].
    - destruct (head_Some _ _ Hrec) as [l Hl].
      assert (rec ∈ sessions_with_token (w_tables w) tok) as [_ Hin]%list_elem_of_filter by (rewrite Hl; left).
      rewrite Forall_forall in Hrange. unfold utc_now. rewrite exec_bind, exec_atomically. cbn [fst snd].
      rewrite exec_bind, expires_in_range by by apply Hrange. cbn [expect exec]. rewrite Hn.
      destruct (expiry rec <=? w_now w); eexists; (split; [reflexivity|]); [by eexists|done].
    - eexists. split; [reflexivity|]. by eexists. }
  rewrite exec_bind. unfold table_query, fallible. rewrite exec_atomically. unfold pop_fault.
  destruct (w_faults w) as [|f fs] eqn:Hf.
  - cbn [select fst snd]. rewrite set_tables_id. destruct (Hrest w eq_refl eq_refl) as (r & He & Hr).
    exists [], r. rewrite set_faults_none by done. split; [exact He|]. split; [done|by right].
  - exists fs. destruct f; cbn [select fst snd].
    2, 3: eexists; (split; [reflexivity|]); (split; [done|]); by left.
    destruct (Hrest (set_faults w fs) eq_refl eq_refl) as (r & He & Hr). exists r.
    split; [exact He|]. split; [done|by right].
Qed.

(** Without a valid session what is behind the check is not run, whatever the
    faults; with one, and a healthy database, it is run as the session's user. *)
Lemma protected_by_session w rq
    (Hrange : Forall session_in_range (session_tokens (w_tables w))) :
  match session_user w rq with
  | None => exists fs r1 r2, forall next,
      exec (validate_session_token rq next) w = (set_faults w fs, Return (r1, None)) /\
      exec (validate_session_token_or_redirect rq next) w = (set_faults w fs, Return (r2, None)) /\
      (status r1 = UNAUTHORIZED /\ r2 = redirect_to "/" \/
       w_faults w <> [] /\ status r1 = INTERNAL_SERVER_ERROR /\ status r2 = INTERNAL_SERVER_ERROR)
  | Some user => w_faults w = [] -> forall next,
      exec (validate_session_token rq next) w = exec (next user) w /\
      exec (validate_session_token_or_redirect rq next) w = exec (next user) w
  end.
Proof.
  destruct (exec_try_validate w rq Hrange) as (fs & r & He & Hfs & Hr).
  unfold validate_session_token, validate_session_token_or_redirect.
  destruct (session_user w rq) as [user|].
  - intros Hf next. destruct Hr as [[? _]| ->]; [done|].
    rewrite Hfs, set_faults_none in He by done.
    split; rewrite exec_bind, He; reflexivity.
  - destruct Hr as [[Hf ->]|[message ->]]; eexists fs, _, _; intros next;
      (split; [rewrite exec_bind, He; reflexivity|]); (split; [rewrite exec_bind, He; reflexivity|]);
      first [by left|by right].
Qed.
End auth.

(** ** Concrete parameters *)

Definition whole_seconds : Chrono := fun secs => Some (secs * 1000000).
Lemma whole_seconds_laws : @ChronoLaws whole_seconds.
Proof. by intros secs. Qed.

(** Addresses that are not looked at. *)
Definition no_ips : IpText := {| IpAddr := unit; parse_ip _ := None; ip_to_string _ := "" |}.

Definition demo_request (token : string) : @RequestParts no_ips := @mkParts no_ips (Some token) [] None tt false.

(** A session of user 7, 3600 s long, that began at 10.5 s. *)
Definition demo_session (now : Z) : World :=
  mkWorld Db_new (mkTables [demo_alice] [mkSession "aa" 10500000 3600 7%N None None] []) Running true [] now [].
