(* ===== verification/Handlers.v ===== *)
(** * The handlers of the web interface (src/exchange/src/web/).

    One definition per handler, from the arguments axum has extracted to a
    response. A handler that ends in an error of its own type answers with the
    response its [IntoResponse] makes of it ([.._error]). Random bytes, the uuid of a new user and the engine's
    answer are arguments; the text of a database error, the cookie syntax, the
    rendering of templates and times, and the order of a hash map's entries are
    parameters. *)

From Stdlib Require Import Ascii.
From stdpp Require Import pretty.
From S2P Require Import Prelude Asset Json Trading Codec Accounting Tables World Http.
From S2P Require Import AppCx UserCx BitcoinClient Deposits Auth.

(** ** Parameters *)

Class SqlxText : Type := sqlx_to_string : SqlxError -> string.

(** [Cookie::build((name, value)).max_age(seconds).path(path).to_string()] *)
Class CookieText : Type := cookie_to_string : string -> string -> Z -> string -> string.

Class Rfc3339 : Type := to_rfc3339 : Z -> string.

(** [HashMap::into_iter] *)
Class MapOrder : Type := map_entries : gmap string Z -> list (string * Z).

(** What the two pages hand to their templates. *)
Inductive PageContext : Type :=
| FrontPage (logged_in : bool)
| HomePage (user : UserDetails) (active_tab : string) (explore : option Json).

(** [acquire_env()?.get_template(name)?.render(context)?]: the files are read
    when they have changed; nothing else is touched. *)
Class Jinja : Type := render : string -> PageContext -> prog (result string unit).
Class JinjaLaws `{Jinja} : Prop :=
  render_still name context : guar (touches eq eq eq) (render name context).

(** [str::to_ascii_uppercase] *)
Definition ascii_upper (c : ascii) : ascii :=
  let n := nat_of_ascii c in
  if (97 <=? n)%nat && (n <=? 122)%nat then ascii_of_nat (n - 32) else c.
Definition to_ascii_uppercase (s : string) : string :=
  String.string_of_list_ascii (ascii_upper <$> String.list_ascii_of_string s).

(** ** Orders *)

Section trade.
Context `{Schema, UuidText}.

(** [web/trade_cancel_order.rs]; [answer] as in [trade_add_order]. *)
Definition trade_cancel_order (answer : option (result unit TradingEngineError))
    (enabled : list (AssetKey * Asset)) (user_uuid : Uuid) (asset : string) (order_uuid : Uuid) :
    prog Response :=
  match asset_of_param asset with
  | None => mret (text_response NOT_FOUND "invalid asset")
  | Some asset =>
      if negb (contains_asset enabled (ByValue asset))
      then mret (text_response NOT_FOUND "asset not enabled")
      else
        wait_response ← cancel_order user_uuid order_uuid;
        match wait_response with
        | Err _ => mret (internal_server_error "trading engine is suspended")
        | Ok _ =>
            res ← te_wait answer;
            match res with
            | None => mret (internal_server_error "trading engine is unresponsive")
            | Some (Ok _) => mret (text_response OK "order cancelled")
            | Some (Err _) => mret (internal_server_error "failed to cancel order")
            end
        end
  end.
End trade.

(** [web/trade_edit_order.rs] and [web/user_edit.rs] *)
Definition trade_edit_order : prog Response := mret (status_response OK).
Definition user_edit : prog Response := Done (Panic "not implemented").

(** ** Sessions *)

Section sessions.
Context `{Argon2, Hex, IpText, CookieText}.

Definition session_token_cookie (session_token : string) : string :=
  cookie_to_string "session-token" session_token 3600 "/".

(** [web/session_create.rs] *)
Definition session_create (rq : RequestParts) (email password : string) (bytes : list Z) : prog Response :=
  let ip_address := client_ip rq in
  let user_agent := client_user_agent rq in
  user_uuid ← verify_login_details email password;
  match user_uuid with
  | Err Unauthorized => mret (status_response UNAUTHORIZED)
  | Err (VerifyOther _) => mret (status_response INTERNAL_SERVER_ERROR)
  | Ok user_uuid =>
      session_token ← create_session user_uuid (Some ip_address) user_agent bytes;
      match session_token with
      | Err _ => mret (status_response INTERNAL_SERVER_ERROR)
      | Ok session_token =>
          mret (mkResponse CREATED
                  [("set-cookie", session_token_cookie session_token); ("hx-redirect", "/c")] NoBody)
      end
  end.
End sessions.

Inductive SessionDeleteError : Type := SessionDeleteSqlx (e : SqlxError).

(** [IntoResponse for SessionDeleteError] *)
Definition session_delete_error (e : SessionDeleteError) : Response :=
  match e with SessionDeleteSqlx _ => status_response INTERNAL_SERVER_ERROR end.

(** [web/session_delete.rs] *)
Definition session_delete (session_token : string) : prog Response :=
  rec ← table_query (fun _ t => delete_session t session_token);
  match rec with
  | Err err => mret (session_delete_error (SessionDeleteSqlx err))
  | Ok None => mret (status_response NOT_FOUND)
  | Ok (Some _) => mret (status_response NO_CONTENT)
  end.

(** ** Users *)

(** [IntoResponse for CreateUserError] *)
Definition create_user_error (e : CreateUserError) : Response :=
  match e with
  | PasswordHashError => status_response INTERNAL_SERVER_ERROR
  | EmailUniqueViolation _ => text_response CONFLICT "email has already been used"
  | CreateUserSqlx _ => status_response INTERNAL_SERVER_ERROR
  end.

Inductive UserGetError : Type := GetUserNotFound | UserGetSqlx (e : SqlxError).

(** [IntoResponse for UserGetError] *)
Definition user_get_error (e : UserGetError) : Response :=
  match e with
  | GetUserNotFound => text_response NOT_FOUND "user not found"
  | UserGetSqlx _ => status_response INTERNAL_SERVER_ERROR
  end.

Inductive UserDeleteError : Type := DeleteUserNotFound | UserDeleteSqlx (e : SqlxError).

(** [IntoResponse for UserDeleteError] *)
Definition user_delete_error (e : UserDeleteError) : Response :=
  match e with
  | DeleteUserNotFound => text_response NOT_FOUND "user not found"
  | UserDeleteSqlx _ => status_response INTERNAL_SERVER_ERROR
  end.

Section users.
Context `{UuidText, Argon2, Hex, IpText, CookieText}.

(** [web/user_create.rs]; [salt] and [bytes] are random, [new_id] is the
    database's. *)
Definition user_create (rq : RequestParts) (name email password : string) (salt : string) (new_id : Uuid)
    (bytes : list Z) : prog Response :=
  password_hash ← spawn_blocking (argon2_hash_password password salt);
  match password_hash with
  | Err _ | Ok (Err _) => mret (create_user_error PasswordHashError)
  | Ok (Ok password_hash) =>
      user_uuid ← create_user name email password_hash new_id;
      match user_uuid with
      | Err e => mret (create_user_error e)
      | Ok user_uuid =>
          let ip_address := client_ip rq in
          let user_agent := client_user_agent rq in
          session_token ← create_session user_uuid (Some ip_address) user_agent bytes;
          match session_token with
          | Err err => mret (create_user_error (CreateUserSqlx err))
          | Ok session_token =>
              let user_uuid := JObject [("user_id", JString (uuid_to_string user_uuid))] in
              if rq_hx rq
              then mret (mkResponse OK [("set-cookie", session_token_cookie session_token); ("hx-redirect", "/")]
                           (JsonBody user_uuid))
              else mret (json_response user_uuid)
          end
      end
  end.

(** [web/user_get.rs] *)
Definition user_get (id : Uuid) : prog Response :=
  rec ← table_query (fun _ => select (fun t => Ok (head (users_with_id t id))));
  match rec with
  | Err err => mret (user_get_error (UserGetSqlx err))
  | Ok (Some user) =>
      mret (json_response (JObject [("id", JString (uuid_to_string (user_id user)));
              ("name", JString (user_name user)); ("email", JString (user_email user))]))
  | Ok None => mret (user_get_error GetUserNotFound)
  end.
End users.

(** [web/user_delete.rs] *)
Definition user_delete (id : Uuid) : prog Response :=
  updated_rows ← table_query (fun now t => mark_deleted t now id);
  match updated_rows with
  | Err err => mret (user_delete_error (UserDeleteSqlx err))
  | Ok rows_affected =>
      if rows_affected =? 0 then mret (user_delete_error DeleteUserNotFound)
      else mret (json_response (JObject [("status", JString "deleted")]))
  end.

(** [format!("<div id='balance-{k}'>{v}</div>")] *)
Definition balance_div (k : string) (v : Z) : string :=
  "<div id='balance-" +:+ k +:+ "'>" +:+ pretty v +:+ "</div>".

Section balance.
Context `{Schema, UuidText, BitcoinRpcClient, DistinctOrder, MapOrder}.

(** [web/user_balance.rs] *)
Definition user_balance_page (target_user_id : Uuid) (currency : string) (user_id : Uuid) : prog Response :=
  if negb (bool_decide (target_user_id = user_id)) then mret (status_response FORBIDDEN)
  else if negb (bool_decide (currency = "*")) && negb (String.length currency =? 3)%nat
  then mret (status_response BAD_REQUEST)
  else
    _ ← update_user_accounts user_id;
    if bool_decide (currency = "*") then
      details ← user_balance user_id;
      match details with
      | Err _ => mret (status_response INTERNAL_SERVER_ERROR)
      | Ok details =>
          mret (html_response (String.concat (String "010"%char "")
                  ((fun '(k, v) => balance_div k v) <$> map_entries details)))
      end
    else
      let currency := to_ascii_uppercase currency in
      balance ← calculate_balance_from_accounting user_id currency;
      match balance with
      | Err _ => mret (status_response INTERNAL_SERVER_ERROR)
      | Ok balance => mret (html_response (balance_div currency (default 0 balance)))
      end.
End balance.

(** ** Addresses *)

(** [<p>{address_text}</p>] *)
Definition paragraph (s : string) : string := "<p>" +:+ s +:+ "</p>".

Inductive CreateDepositAddressError : Type :=
| DepositInvalidAsset
| DepositAlreadyExists
| CreateDepositSqlx (e : SqlxError).

Inductive CreateWithdrawalAddressError : Type :=
| WithdrawalInvalidAsset
| WithdrawalAlreadyExists
| CreateWithdrawalSqlx (e : SqlxError).

Inductive DeleteWithdrawalAddressError : Type :=
| DeleteInvalidAsset
| AddressNotFound
| DeleteWithdrawalSqlx (e : SqlxError).

Section addresses.
Context `{UuidText, SqlxText, BitcoinRpcClient}.

(** Their [IntoResponse] *)
Definition create_deposit_address_error (e : CreateDepositAddressError) : Response :=
  match e with
  | DepositInvalidAsset => text_response BAD_REQUEST "Invalid asset specified"
  | CreateDepositSqlx err => text_response INTERNAL_SERVER_ERROR (sqlx_to_string err)
  | DepositAlreadyExists => text_response CONFLICT "An address for this asset already exists"
  end.
Definition create_withdrawal_address_error (e : CreateWithdrawalAddressError) : Response :=
  match e with
  | WithdrawalInvalidAsset => text_response BAD_REQUEST "Invalid asset specified"
  | CreateWithdrawalSqlx err => text_response INTERNAL_SERVER_ERROR (sqlx_to_string err)
  | WithdrawalAlreadyExists => text_response CONFLICT "An address for this asset already exists"
  end.
Definition delete_withdrawal_address_error (e : DeleteWithdrawalAddressError) : Response :=
  match e with
  | DeleteInvalidAsset => text_response BAD_REQUEST "Invalid asset specified"
  | DeleteWithdrawalSqlx err => text_response INTERNAL_SERVER_ERROR (sqlx_to_string err)
  | AddressNotFound => text_response NOT_FOUND "An address for this asset was not found"
  end.

(** [web/deposit_create_addr.rs] *)
Definition deposit_create_addr (user_id : Uuid) (params_asset : string) : prog Response :=
  match asset_of_param params_asset with
  | None => mret (create_deposit_address_error DepositInvalidAsset)
  | Some asset =>
      addrs ← list_deposit_addrs user_id;
      match addrs with
      | Err err => mret (create_deposit_address_error (CreateDepositSqlx err))
      | Ok addrs =>
          if existsb (fun '(_, asset) => String.eqb asset params_asset) addrs
          then mret (create_deposit_address_error DepositAlreadyExists)
          else
            address_text ← match asset with
              | Bitcoin =>
                  res ← client_get_new_address
                          (mkGetNewAddressRequest (Some (uuid_to_string user_id)) None);
                  match res with
                  | Ok res => mret (address res)
                  | Err _ => Done (Panic "called `Result::unwrap()` on an `Err` value")
                  end
              | Ether => Done (Panic "not yet implemented")
              end;
            rec ← table_query (fun _ t =>
              insert_address t user_id address_text DepositAddress (to_string asset));
            match rec with
            | Ok _ => mret (html_response (paragraph address_text))
            | Err _ => Done (Panic "called `Result::unwrap()` on an `Err` value")
            end
      end
  end.

Definition addrs_json (v_rec : list (string * string)) : Json :=
  JArray ((fun '(address_text, currency) =>
    JObject [("address", JString address_text); ("currency", JString currency)]) <$> v_rec).

(** [web/deposit_list_addrs.rs] *)
Definition deposit_list_addrs (user_id : Uuid) : prog Response :=
  v_rec ← list_deposit_addrs user_id;
  match v_rec with
  | Ok v_rec => mret (json_response (addrs_json v_rec))
  | Err _ => mret (status_response INTERNAL_SERVER_ERROR)
  end.

(** [web/deposit_status.rs] *)
Definition deposit_status (user_id : Uuid) (tx_id : string) : prog Response :=
  Done (Panic "not yet implemented").

(** [web/withdraw_create_addr.rs] *)
Definition withdraw_create_addr (user_id : Uuid) (params_asset params_address_text : string) : prog Response :=
  match asset_of_param params_asset with
  | None => mret (create_withdrawal_address_error WithdrawalInvalidAsset)
  | Some asset =>
      addrs ← list_withdrawal_addrs user_id;
      match addrs with
      | Err err => mret (create_withdrawal_address_error (CreateWithdrawalSqlx err))
      | Ok addrs =>
          if existsb (fun '(text, asset) => String.eqb asset params_asset && String.eqb text params_address_text) addrs
          then mret (create_withdrawal_address_error WithdrawalAlreadyExists)
          else
            rec ← table_query (fun _ t =>
              insert_address t user_id params_address_text WithdrawalAddress (to_string asset));
            match rec with
            | Ok _ => mret (mkResponse OK [("hx-trigger", "updateWithdrawalAddrs")]
                              (Html (paragraph params_address_text)))
            | Err _ => Done (Panic "called `Result::unwrap()` on an `Err` value")
            end
      end
  end.

(** The loop of [web/withdraw_delete_addr.rs]. *)
Fixpoint delete_first_match (user_id : Uuid) (params_asset params_address_text : string)
    (addrs : list (string * string)) : prog Response :=
  match addrs with
  | [] => mret (delete_withdrawal_address_error AddressNotFound)
  | (text, asset) :: addrs' =>
      if String.eqb text params_address_text && String.eqb asset params_asset then
        rec ← table_query (fun _ t => delete_addresses t user_id params_address_text);
        match rec with
        | Ok _ => mret (mkResponse OK [("hx-trigger", "updateWithdrawalAddrs")] NoBody)
        | Err err => mret (delete_withdrawal_address_error (DeleteWithdrawalSqlx err))
        end
      else delete_first_match user_id params_asset params_address_text addrs'
  end.

(** [web/withdraw_delete_addr.rs] *)
Definition withdraw_delete_addr (user_id : Uuid) (params_asset params_address_text : string) : prog Response :=
  match asset_of_param params_asset with
  | None => mret (delete_withdrawal_address_error DeleteInvalidAsset)
  | Some _ =>
      addrs ← list_withdrawal_addrs user_id;
      match addrs with
      | Err err => mret (delete_withdrawal_address_error (DeleteWithdrawalSqlx err))
      | Ok addrs => delete_first_match user_id params_asset params_address_text addrs
      end
  end.

(** [web/withdraw_list_addrs.rs]: it calls [list_deposit_addrs]. *)
Definition withdraw_list_addrs (user_id : Uuid) : prog Response :=
  v_rec ← list_deposit_addrs user_id;
  match v_rec with
  | Ok v_rec => mret (json_response (addrs_json v_rec))
  | Err _ => mret (status_response INTERNAL_SERVER_ERROR)
  end.

(** [web/withdraw_status.rs] *)
Definition withdraw_status : prog Response := Done (Panic "not yet implemented").

(** [web/withdraw_transfer.rs], which no route leads to: after the address has
    been found it is not implemented. *)
Definition withdraw_transfer (user_id : Uuid) (body_currency body_address : string) : prog Response :=
  rec ← table_query (fun _ => select (fun t => Ok (head (filter (fun a => address_text a = body_address /\
    ua_currency a = body_currency) (addresses_of_kind t user_id WithdrawalAddress)))));
  match rec with
  | Err _ => mret (status_response INTERNAL_SERVER_ERROR)
  | Ok None => mret (status_response NOT_FOUND)
  | Ok (Some _) =>
      user_amount ← table_query (fun _ => select (fun t => fetch_one (@nil unit)));
      Done (Panic "not yet implemented")
  end.
End addresses.

(** ** Pages *)

(** [web/public_time.rs] *)
Definition public_time `{Rfc3339} : prog Response :=
  now ← utc_now;
  mret (text_response OK (to_rfc3339 now)).

Section pages.
Context `{Chrono, IpText, Jinja}.

Inductive HomeRouteError : Type :=
| HomeJinjaError
| HomeSqlx (e : SqlxError)
| HomeUserDetailsError (e : UserDetailsError).

(** [IntoResponse for HomeRouteError] *)
Definition home_route_error (e : HomeRouteError) : Response := status_response INTERNAL_SERVER_ERROR.

Inductive IndexRouteError : Type := IndexJinjaError | IndexSqlx (e : SqlxError).

(** [IntoResponse for IndexRouteError] *)
Definition index_route_error (e : IndexRouteError) : Response :=
  match e with
  | IndexJinjaError => status_response INTERNAL_SERVER_ERROR
  | IndexSqlx _ => status_response INTERNAL_SERVER_ERROR
  end.

(** [HomeParams]: the tab when the query has none. *)
Definition default_active_tab : string := "home".

Definition template_of_tab (tab : string) : string :=
  if String.eqb tab "explore" then "consumer/explore.html.jinja"
  else if String.eqb tab "portfolio" then "consumer/portfolio.html.jinja"
  else if String.eqb tab "transactions" then "consumer/transactions.html.jinja"
  else if String.eqb tab "deposit" then "consumer/deposit.html.jinja"
  else if String.eqb tab "withdraw" then "consumer/withdraw.html.jinja"
  else if String.eqb tab "transfer" then "consumer/transfer.html.jinja"
  else "consumer/home.html.jinja".

Definition explore_context : Json :=
  JObject [("asset_list", JArray [JObject [("name", JString "BTC")]; JObject [("name", JString "BTC")]])].

(** [web/html_home.rs] *)
Definition html_home (user_id : Uuid) (t : option string) : prog Response :=
  let tab := default default_active_tab t in
  details ← fetch_user_details user_id;
  match details with
  | Err err => mret (home_route_error (HomeUserDetailsError err))
  | Ok details =>
      let context := HomePage details tab (if String.eqb tab "explore" then Some explore_context else None) in
      page ← render (template_of_tab tab) context;
      match page with
      | Ok page => mret (html_response page)
      | Err _ => mret (home_route_error HomeJinjaError)
      end
  end.

(** [web/html_index.rs] *)
Definition html_index (rq : RequestParts) : prog Response :=
  user_uuid ← try_validate_session rq;
  page ← render "front-page.html.jinja" (FrontPage (match user_uuid with Ok _ => true | Err _ => false end));
  match page with
  | Ok page => mret (html_response page)
  | Err _ => mret (index_route_error IndexJinjaError)
  end.
End pages.

(** ** What their steps do *)

(** Bind by bind, with the lemmas of the operations. *)
Create HintDb guar.
#[export] Hint Extern 0 (guar _ (atomically _)) => apply guar_read : guar.
#[export] Hint Extern 0 (guar _ (spawn_blocking _)) => apply guar_spawn_blocking : guar.
#[export] Hint Resolve guar_ret guar_select_tables guar_verify_login_details
  guar_create_session guar_create_user guar_fetch_user_details : guar.
#[export] Hint Extern 0 (guar _ (try_validate_session _)) => apply guar_try_validate : guar.

Ltac guar_bind_auto :=
  repeat first
    [ solve [auto with guar] | apply guar_done
    | apply guar_bind; [|intros ?] | case_match ].

Section guarantees.
Context {RD : Db -> Db -> Prop} {RS : list TradingEngineCmd -> list TradingEngineCmd -> Prop}
  `{!Reflexive RD, !Reflexive RS}.

#[local] Abbreviation steps := (touches RD (rtc tables_change) RS).

Lemma guar_change {R} (q : Z -> Tables -> Tables * result R SqlxError) :
  (forall now t, tables_change t (q now t).1) -> guar steps (table_query q).
Proof. intros Hq. apply guar_table_query. intros now t. by apply rtc_once. Qed.

#[local] Hint Resolve guar_change change_user change_deleted change_session change_session_end
  change_address change_address_end : guar.

Lemma guar_session_create `{Argon2, Hex, IpText, CookieText} rq email password bytes :
  guar steps (session_create rq email password bytes).
Proof. unfold session_create. guar_bind_auto. Qed.

Lemma guar_session_delete token : guar steps (session_delete token).
Proof. unfold session_delete. guar_bind_auto. Qed.

Lemma guar_user_create `{UuidText, Argon2, Hex, IpText, CookieText} rq name email password salt id bytes :
  guar steps (user_create rq name email password salt id bytes).
Proof. unfold user_create. guar_bind_auto. Qed.

Lemma guar_user_get `{UuidText} id : guar steps (user_get id).
Proof. unfold user_get. guar_bind_auto. Qed.

Lemma guar_user_delete id : guar steps (user_delete id).
Proof. unfold user_delete. guar_bind_auto. Qed.

Lemma guar_deposit_create_addr `{UuidText, SqlxText, BitcoinRpcClientLaws} user asset :
  guar steps (deposit_create_addr user asset).
Proof.
  unfold deposit_create_addr, list_deposit_addrs.
  guar_bind_auto; apply guar_still, get_new_address_still.
Qed.

Lemma guar_deposit_list_addrs user : guar steps (deposit_list_addrs user).
Proof. unfold deposit_list_addrs, list_deposit_addrs. guar_bind_auto. Qed.

Lemma guar_withdraw_create_addr `{SqlxText} user asset text :
  guar steps (withdraw_create_addr user asset text).
Proof. unfold withdraw_create_addr, list_withdrawal_addrs. guar_bind_auto. Qed.

Lemma guar_withdraw_delete_addr `{SqlxText} user asset text :
  guar steps (withdraw_delete_addr user asset text).
Proof.
  unfold withdraw_delete_addr, list_withdrawal_addrs. destruct (asset_of_param asset); [|apply guar_ret].
  apply guar_bind; [apply guar_select_tables|]. intros [addrs|e]; [|apply guar_ret].
  induction addrs as [|[? ?] addrs IH]; cbn [delete_first_match]; [apply guar_ret|].
  destruct (_ && _); [|exact IH]. guar_bind_auto.
Qed.

Lemma guar_withdraw_list_addrs user : guar steps (withdraw_list_addrs user).
Proof. unfold withdraw_list_addrs, list_deposit_addrs. guar_bind_auto. Qed.

Lemma guar_public_time `{Rfc3339} : guar steps public_time.
Proof. unfold public_time, utc_now. guar_bind_auto. Qed.

Lemma guar_html_home `{JinjaLaws} user t : guar steps (html_home user t).
Proof. unfold html_home. guar_bind_auto; apply guar_still, render_still. Qed.

Lemma guar_html_index `{Chrono, IpText, JinjaLaws} rq : guar steps (html_index rq).
Proof. unfold html_index. guar_bind_auto; apply guar_still, render_still. Qed.

Lemma guar_trade_cancel_order answer enabled user asset order :
  (forall l c, RS l (l ++ [Trade (CmdCancelOrder c)])) ->
  guar steps (trade_cancel_order answer enabled user asset order).
Proof.
  intros Hc. unfold trade_cancel_order, te_wait.
  destruct (asset_of_param asset) as [a|]; [|apply guar_ret]. destruct (negb _); [apply guar_ret|].
  apply guar_bind; [by apply guar_cancel_order|]. intros r. guar_bind_auto.
Qed.
End guarantees.

Lemma guar_user_balance_page {RS} `{!Reflexive RS}
    `{Schema, UuidText, BitcoinRpcClientLaws, DistinctOrder, MapOrder} target currency user :
  guar (touches (rtc db_change) (rtc tables_change) RS) (user_balance_page target currency user).
Proof.
  unfold user_balance_page.
  repeat first [apply guar_ret|apply guar_update_user_accounts|apply guar_user_balance, seq_change|apply guar_balance
    |apply guar_bind; [|intros ?]|case_match].
Qed.

(** ** Sessions from login to logout *)

Section lifecycle.
Context `{Argon2, Hex, IpText, CookieText}.

Lemma insert_session_Ok t now token age user ip agent t' :
  insert_session t now token age user ip agent = (t', Ok tt) ->
  sessions_with_token t token = [] /\
  exists ip', session_tokens t' = session_tokens t ++ [mkSession token now age user ip' agent].
Proof.
  unfold insert_session. cbv zeta.
  destruct (match ip with None => Some None | Some s => Some <$> varchar 45 s end) as [ip'|]; [|done].
  destruct (opt_text_ok agent); cbn [negb]; [|done].
  destruct (existsb _ _) eqn:Hex; [done|].
  destruct (user_exists t user); cbn [negb]; [|done]. intros [= <-]. split; [|by eexists].
  apply filter_none. intros s Hs Heq. pose proof (existsb_false _ _ Hex s Hs) as Hf.
  by apply bool_decide_eq_false in Hf.
Qed.

(** A session that has just been made lets its token in, and changes nothing
    for the others. *)
Lemma session_user_new w now rq t ip agent token age user made :
  sessions_with_token (w_tables w) token = [] ->
  session_tokens t = session_tokens (w_tables w) ++ [mkSession token made age user ip agent] ->
  session_user (set_now (set_tables w t) now) rq =
    if bool_decide (rq_session_token rq = Some token)
    then if (unix_timestamp made + age) * 1000000 <=? now then None else Some user
    else session_user (set_now w now) rq.
Proof.
  intros Hnone Ht. unfold session_user, sessions_with_token in *. cbn [w_tables w_now set_now set_tables].
  rewrite Ht. destruct (rq_session_token rq) as [tok|]; cbn [mbind option_bind]; [|done].
  rewrite filter_app, filter_cons, filter_nil. cbn [st_token].
  case_bool_decide as Htok.
  - injection Htok as ->. rewrite Hnone, decide_True by done. done.
  - rewrite decide_False by congruence. by rewrite app_nil_r.
Qed.

Lemma session_user_deleted w now rq token :
  session_user (set_now (set_tables w (delete_session (w_tables w) token).1) now) rq =
    if bool_decide (rq_session_token rq = Some token) then None else session_user (set_now w now) rq.
Proof.
  unfold session_user, sessions_with_token. cbn [w_tables w_now set_now set_tables delete_session fst session_tokens].
  destruct (rq_session_token rq) as [tok|]; cbn [mbind option_bind]; [|done].
  assert (filter (fun s => st_token s = tok) (filter (fun s => st_token s <> token) (session_tokens (w_tables w))) =
    if decide (tok = token) then [] else filter (fun s => st_token s = tok) (session_tokens (w_tables w))) as ->.
  { rewrite list_filter_filter. destruct (decide (tok = token)) as [->|Hne].
    - apply filter_none. intros s _ [? ?]. done.
    - apply list_filter_iff. intros s. split; [by intros []|]. intros ->. done. }
  case_bool_decide as Htok; [injection Htok as ->|]; [rewrite decide_True by done; done|].
  rewrite decide_False by congruence. done.
Qed.

(** C23: a session from login to logout. When a login is answered 201, the
    browser is given a cookie with a new token; a request with that token is
    let in as a user who has registered the email, from then on for an hour
    less the fraction of a second at which the session began; no other token
    is affected. Logging the token out is answered 204 and ends exactly this
    session. Faults of the database may have happened before. *)
Theorem session_lifecycle rq email password bytes w w' r
    (Hrun : exec (session_create rq email password bytes) w = (w', Return r))
    (Hst : status r = CREATED) :
  let token := hex_encode bytes in
  headers r = [("set-cookie", session_token_cookie token); ("hx-redirect", "/c")] /\
  exists u, u ∈ users_with_email (w_tables w) email /\
    (forall now rq', session_user (set_now w' now) rq' =
       if bool_decide (rq_session_token rq' = Some token)
       then if (w_now w / 1000000 + 3600) * 1000000 <=? now then None else Some (user_id u)
       else session_user (set_now w now) rq') /\
    (w_faults w' = [] -> exists w2,
       exec (session_delete token) w' = (w2, Return (status_response NO_CONTENT)) /\
       forall now rq', session_user (set_now w2 now) rq' =
         if bool_decide (rq_session_token rq' = Some token) then None
         else session_user (set_now w now) rq').
Proof.
  intros token. unfold session_create in Hrun. rewrite exec_bind in Hrun.
  destruct (exec (verify_login_details email password) w) as [w1 [res|why]] eqn:Hlogin; [|done].
  apply exec_login_any in Hlogin as [[fs ->] Huser].
  destruct res as [user|[|e]]; [|by injection Hrun as <- <-..].
  destruct (Huser user eq_refl) as (u & Hu & ->).
  unfold create_session in Hrun. rewrite !exec_bind in Hrun. fold token in Hrun.
  destruct (exec (table_query _) (set_faults w fs)) as [w1 [ins|why]] eqn:Hq; [|done].
  destruct ins as [[]|e]; [|by injection Hrun as <- <-]. injection Hrun as <- <-.
  apply exec_table_query_Ok in Hq as (fs' & t' & Hins & ->). change (set_faults (set_faults w fs) fs') with (set_faults w fs').
  cbn [w_now w_tables set_faults] in Hins. apply insert_session_Ok in Hins as (Hnone & ip & Ht').
  assert (forall now rq', session_user (set_now (set_tables (set_faults w fs') t') now) rq' =
       if bool_decide (rq_session_token rq' = Some token)
       then if (w_now w / 1000000 + 3600) * 1000000 <=? now then None else Some (user_id u)
       else session_user (set_now w now) rq') as Hsess.
  { intros now rq'. exact (session_user_new (set_faults w fs') now rq' t' ip _ token 3600 _ (w_now w) Hnone Ht'). }
  split; [done|]. exists u. split; [done|]. split; [exact Hsess|]. intros Hf.
  set (w' := set_tables (set_faults w fs') t') in *.
  exists (set_tables w' (delete_session (w_tables w') token).1). split.
  - unfold session_delete. rewrite exec_bind, exec_table_query by done. cbn [delete_session fst snd].
    destruct (sessions_with_token (w_tables w') token) as [|s l] eqn:Hl; [|done]. exfalso.
    unfold sessions_with_token, w' in Hl. cbn [w_tables set_tables] in Hl. rewrite Ht', filter_app in Hl.
    apply app_eq_nil in Hl as [_ Hl]. by rewrite filter_cons, decide_True in Hl.
  - intros now rq'. rewrite session_user_deleted, Hsess. by case_bool_decide.
Qed.
End lifecycle.

(** ** The names of the assets

    The handlers accept "btc" and "BTC", the tables hold "BTC", and the handlers
    compare what the tables hold with what the request says. *)

Definition lower_name (asset : Asset) : string := match asset with Bitcoin => "btc" | Ether => "eth" end.

Section addresses.
Context `{UuidText, SqlxText, BitcoinRpcClient}.

Lemma exec_list_withdrawal user w :
  w_faults w = [] ->
  exec (list_withdrawal_addrs user) w =
    (w, Return (Ok (address_row <$> addresses_of_kind (w_tables w) user WithdrawalAddress))).
Proof.
  intros Hf. unfold list_withdrawal_addrs. rewrite exec_table_query by done. cbn [select fst snd].
  by rewrite set_tables_id.
Qed.

(** No address is stored under a lower-case name. *)
Lemma lower_name_absent t user k text asset :
  tables_wf t -> (text, lower_name asset) ∉ address_row <$> addresses_of_kind t user k.
Proof.
  intros Hwf (a & Heq & [_ Ha]%list_elem_of_filter)%list_elem_of_fmap.
  pose proof (tw_currencies _ Hwf) as Hc. rewrite Forall_forall in Hc. specialize (Hc a Ha).
  injection Heq as _ Heq. rewrite <- Heq in Hc. by destruct asset.
Qed.

Lemma delete_first_match_none user asset text addrs w :
  (text, asset) ∉ addrs ->
  exec (delete_first_match user asset text addrs) w =
    (w, Return (text_response NOT_FOUND "An address for this asset was not found")).
Proof.
  induction addrs as [|[t a] addrs IH]; cbn [delete_first_match]; [done|].
  rewrite not_elem_of_cons. intros [Hne Hni].
  destruct (String.eqb_spec t text), (String.eqb_spec a asset); cbn [andb]; subst; [done|by apply IH..].
Qed.

Lemma delete_first_match_some user asset text addrs w :
  w_faults w = [] -> (text, asset) ∈ addrs ->
  exec (delete_first_match user asset text addrs) w =
    (set_tables w (delete_addresses (w_tables w) user text).1,
     Return (mkResponse OK [("hx-trigger", "updateWithdrawalAddrs")] NoBody)).
Proof.
  intros Hf. induction addrs as [|[t a] addrs IH]; [by intros ?%elem_of_nil|]. cbn [delete_first_match].
  destruct (String.eqb_spec t text), (String.eqb_spec a asset); cbn [andb]; subst.
  2-4: intros [[= ]|Hin]%elem_of_cons; [congruence|by apply IH].
  intros _. rewrite exec_bind, exec_table_query by done. done.
Qed.

(** The spelling of an asset decides. With a withdrawal address on file,
    registering it again as "BTC" is refused with a conflict; as "btc" the
    check does not see it, the INSERT fails and the handler panics. Deleting it
    as "btc" is answered 404 although it is there; deleting it as "BTC" removes
    every address of the user with that text: of other currencies, and deposit
    addresses too. *)
Theorem withdrawal_asset_spelling w user text asset
    (Hf : w_faults w = []) (Hwf : tables_wf (w_tables w))
    (Ha : mkAddress text user WithdrawalAddress (to_string asset) ∈ user_addresses (w_tables w)) :
  exec (withdraw_create_addr user (to_string asset) text) w =
    (w, Return (create_withdrawal_address_error WithdrawalAlreadyExists)) /\
  exec (withdraw_create_addr user (lower_name asset) text) w =
    (w, Panic "called `Result::unwrap()` on an `Err` value") /\
  exec (withdraw_delete_addr user (lower_name asset) text) w =
    (w, Return (text_response NOT_FOUND "An address for this asset was not found")) /\
  exists w' r, exec (withdraw_delete_addr user (to_string asset) text) w = (w', Return r) /\ status r = OK /\
    user_addresses (w_tables w') =
      filter (fun a => ~ (ua_user_id a = user /\ address_text a = text)) (user_addresses (w_tables w)).
Proof.
  set (addrs := address_row <$> addresses_of_kind (w_tables w) user WithdrawalAddress).
  assert ((text, to_string asset) ∈ addrs) as Hin.
  { apply (list_elem_of_fmap_2' address_row _ (mkAddress text user WithdrawalAddress (to_string asset))); [|done].
    by apply list_elem_of_filter. }
  pose proof (lower_name_absent (w_tables w) user WithdrawalAddress text asset Hwf) as Hni. fold addrs in Hni.
  assert (asset_of_param (to_string asset) = Some asset /\ asset_of_param (lower_name asset) = Some asset) as [Hup Hlow]
    by by destruct asset.
  split_and!.
  - unfold withdraw_create_addr. rewrite Hup, exec_bind, exec_list_withdrawal by done. fold addrs.
    replace (existsb _ addrs) with true; [done|]. symmetry. apply existsb_exists.
    exists (text, to_string asset). split; [by apply list_elem_of_In|]. by rewrite !String.eqb_refl.
  - unfold withdraw_create_addr. rewrite Hlow, exec_bind, exec_list_withdrawal by done. fold addrs.
    replace (existsb _ addrs) with false.
    + rewrite exec_bind, exec_table_query by done. unfold insert_address.
      destruct (negb (text_ok text) || _); [cbn; by rewrite set_tables_id|].
      replace (existsb _ _) with true; [cbn; by rewrite set_tables_id|]. symmetry. apply existsb_exists.
      eexists. split; [by apply list_elem_of_In|]. by apply bool_decide_eq_true.
    + symmetry. apply not_true_is_false. intros ([t a] & Hin' & [->%String.eqb_eq ->%String.eqb_eq]%andb_true_iff)%existsb_exists.
      by apply Hni, list_elem_of_In.
  - unfold withdraw_delete_addr. rewrite Hlow, exec_bind, exec_list_withdrawal by done.
    by apply delete_first_match_none.
  - eexists _, _. unfold withdraw_delete_addr. rewrite Hup, exec_bind, exec_list_withdrawal by done.
    rewrite delete_first_match_some by done. split; [reflexivity|]. done.
Qed.

(** With a deposit address on file, the same spelling gets one more. *)
Lemma deposit_address_again w user old new_address
    (Hf : w_faults w = []) (Hwf : tables_wf (w_tables w)) (Hu : user_exists (w_tables w) user = true)
    (Ha : mkAddress old user DepositAddress "BTC" ∈ user_addresses (w_tables w))
    (Hnew : exec (client_get_new_address (mkGetNewAddressRequest (Some (uuid_to_string user)) None)) w =
              (w, Return (Ok (mkGetNewAddressResponse new_address))))
    (Hok : text_ok new_address = true)
    (Hfresh : existsb (same_address new_address user "BTC") (user_addresses (w_tables w)) = false) :
  exec (deposit_create_addr user "BTC") w = (w, Return (create_deposit_address_error DepositAlreadyExists)) /\
  exists w', exec (deposit_create_addr user "btc") w = (w', Return (html_response (paragraph new_address))) /\
    user_addresses (w_tables w') = user_addresses (w_tables w) ++ [mkAddress new_address user DepositAddress "BTC"].
Proof.
  set (addrs := address_row <$> addresses_of_kind (w_tables w) user DepositAddress).
  assert (exec (list_deposit_addrs user) w = (w, Return (Ok addrs))) as Hl.
  { unfold list_deposit_addrs. rewrite exec_table_query by done. cbn [select fst snd]. by rewrite set_tables_id. }
  split.
  - unfold deposit_create_addr. change (asset_of_param "BTC") with (Some Bitcoin). cbv iota.
    rewrite exec_bind, Hl. replace (existsb _ addrs) with true; [done|]. symmetry. apply existsb_exists.
    exists (old, "BTC"). split; [|done]. apply list_elem_of_In.
    apply (list_elem_of_fmap_2' address_row _ (mkAddress old user DepositAddress "BTC")); [|done].
    by apply list_elem_of_filter.
  - unfold deposit_create_addr. change (asset_of_param "btc") with (Some Bitcoin). cbv iota.
    rewrite exec_bind, Hl. replace (existsb _ addrs) with false.
    + rewrite exec_bind, exec_bind, Hnew. cbn [exec mret prog_ret].
      rewrite exec_bind, exec_table_query by done. unfold insert_address. cbn [address to_string].
      rewrite Hok, Hfresh, Hu.
      eexists. split; reflexivity.
    + symmetry. apply not_true_is_false. intros ([t a] & Hin' & ->%String.eqb_eq)%existsb_exists.
      apply list_elem_of_In in Hin'. by apply (lower_name_absent (w_tables w) user DepositAddress t Bitcoin Hwf).
Qed.
End addresses.

(** ** Concrete runs *)

Definition demo_hex : Hex := fun bytes => String.concat "" (pretty <$> bytes).
Definition demo_cookie : CookieText := fun name value _ _ => name +:+ "=" +:+ value.
Definition demo_sqlx : SqlxText := fun _ => "error".

Section witnesses.
#[local] Existing Instances decimal_uuid_text plain_argon2 no_ips demo_hex demo_cookie demo_sqlx.

Definition demo_opened : World :=
  set_tables (demo_users []) (mkTables (users demo_tables) [mkSession "12" 0 3600 7%N (Some "") None] (user_addresses demo_tables)).

Lemma demo_opened_run :
  exec (session_create (demo_request "") "a@x.org" "secret" [1; 2]) (demo_users []) =
    (demo_opened, Return (mkResponse CREATED [("set-cookie", "session-token=12"); ("hx-redirect", "/c")] NoBody)).
Proof. vm_compute. reflexivity. Qed.

Lemma session_lifecycle_witness :
  session_user (set_now demo_opened 3599999999) (demo_request "12") = Some 7%N /\
  session_user (set_now demo_opened 3600000000) (demo_request "12") = None /\
  exists w2, exec (session_delete "12") demo_opened = (w2, Return (status_response NO_CONTENT)) /\
    session_user (set_now w2 0) (demo_request "12") = None.
Proof.
  destruct (session_lifecycle _ _ _ _ _ _ _ demo_opened_run eq_refl) as (_ & u & Hu & Hs & Hend).
  assert (user_id u = 7%N) as Hid.
  { apply list_elem_of_filter in Hu as [Hu Hin].
    repeat (apply elem_of_cons in Hin as [->|Hin]; [done|]). by apply elem_of_nil in Hin. }
  split_and!.
  - rewrite Hs. cbn -[Z.mul Z.div]. rewrite Hid. reflexivity.
  - rewrite Hs. reflexivity.
  - destruct (Hend eq_refl) as (w2 & He & Hw2). exists w2. split; [exact He|]. rewrite Hw2. reflexivity.
Defined.

Lemma withdrawal_asset_spelling_witness :
  exec (withdraw_create_addr 7%N "btc" "w1") (demo_users []) =
    (demo_users [], Panic "called `Result::unwrap()` on an `Err` value") /\
  exec (withdraw_delete_addr 7%N "btc" "w1") (demo_users []) =
    (demo_users [], Return (text_response NOT_FOUND "An address for this asset was not found")).
Proof.
  destruct (withdrawal_asset_spelling (demo_users []) 7%N "w1" Bitcoin eq_refl demo_tables_wf
    ltac:(right; left)) as (_ & Hc & Hd & _).
  split; [exact Hc|exact Hd].
Defined.
End witnesses.
