(* ===== verification/Server.v ===== *)
(** * The web server (src/exchange/src/web/mod.rs): routes, and requests running
    side by side.

    [route] is the table of the routers with the session check in front of the
    routes that have it; [serve] is what happens to one request. [server_step]
    runs any number of requests at once, one step at a time: the runtime picks
    the next step, clients hang up, the timeout drops requests, the tasks that
    dropped or answered requests have spawned run on, and the engine, the clock,
    the network and the database's faults move in between.

    Left out: how axum matches paths and extracts arguments (a request that
    cannot be extracted is answered by a response that is given), the static
    files, headers that only tracing looks at, and compression. *)

From stdpp Require Import pretty.
From S2P Require Import Prelude Asset Json Trading Codec Accounting Tables World Http AppCx.
From S2P Require Import UserCx BitcoinClient Deposits Auth Handlers.

(** ** Routes *)

(** The requests, by method and path. *)
Inductive ApiRequest : Type :=
| PostTradeOrder (asset : string) (body : TradeAddOrder)
| DeleteTradeOrder (asset : string) (order_uuid : Uuid)
| PutTradeOrder (asset : string)
| PostUser (name email password : string)
| DeleteUser (path_id : string) (id : Uuid)
| GetUser (path_id : string) (id : Uuid)
| PutUser (path_id : string)
| GetUserBalance (target_user_id : Uuid) (currency : string)
| PostSession (email password : string)
| DeleteSession (session_token : string)
| GetWithdrawalAddresses
| PostWithdrawalAddresses (asset address_text : string)
| DeleteWithdrawalAddresses (asset address_text : string)
| GetWithdrawalStatus
| GetDepositAddresses
| PostDepositAddresses (asset : string)
| GetDepositStatus (tx_id : string)
| GetPublicTime
| GetIndex
| GetHome (t : option string).

(** Price and quantity are [NonZeroU32]. *)
Definition in_range (r : ApiRequest) : Prop :=
  match r with PostTradeOrder _ body => nz_u32 (ta_price body) /\ nz_u32 (ta_quantity body) | _ => True end.

(** What a request will draw and be told: random values, the engine's answers. *)
Record Draws : Type := mkDraws {
  dr_placed : option (result PlaceOrderResult TradingEngineError);
  dr_cancelled : option (result unit TradingEngineError);
  dr_salt : string;
  dr_new_id : Uuid;
  dr_bytes : list Z }.

Inductive Endpoint : Type :=
| Open (f : prog Reply)
| Session (f : Uuid -> prog Reply)
| SessionOrRedirect (f : Uuid -> prog Reply).

(** A handler that spawns nothing. *)
Definition plain (m : prog Response) : prog Reply := r ← m; mret (r, None).

Section server.
Context `{Schema, UuidText, Argon2, Hex, IpText, CookieText, SqlxText, Rfc3339, MapOrder, DistinctOrder, Chrono,
  Jinja, BitcoinRpcClient}.

(** [trade_routes], [user_routes], [deposit_routes], [withdrawal_routes],
    [session_routes], [public_routes] and [html_router]. *)
Definition route (rq : RequestParts) (d : Draws) (r : ApiRequest) : Endpoint :=
  match r with
  | PostTradeOrder asset body =>
      Session (fun user => trade_add_order (dr_placed d) internal_asset_list user asset body)
  | DeleteTradeOrder asset order_uuid =>
      Session (fun user => plain (trade_cancel_order (dr_cancelled d) internal_asset_list user asset order_uuid))
  | PutTradeOrder _ => Session (fun _ => plain trade_edit_order)
  | PostUser name email password =>
      Open (plain (user_create rq name email password (dr_salt d) (dr_new_id d) (dr_bytes d)))
  | DeleteUser _ id => Session (fun _ => plain (user_delete id))
  | GetUser _ id => Session (fun _ => plain (user_get id))
  | PutUser _ => Session (fun _ => plain user_edit)
  | GetUserBalance target currency => Session (fun user => plain (user_balance_page target currency user))
  | PostSession email password => Open (plain (session_create rq email password (dr_bytes d)))
  | DeleteSession session_token => Open (plain (session_delete session_token))
  | GetWithdrawalAddresses => Session (fun user => plain (withdraw_list_addrs user))
  | PostWithdrawalAddresses asset text => Session (fun user => plain (withdraw_create_addr user asset text))
  | DeleteWithdrawalAddresses asset text => Session (fun user => plain (withdraw_delete_addr user asset text))
  | GetWithdrawalStatus => Session (fun _ => plain withdraw_status)
  | GetDepositAddresses => Session (fun user => plain (deposit_list_addrs user))
  | PostDepositAddresses asset => Session (fun user => plain (deposit_create_addr user asset))
  | GetDepositStatus tx_id => Session (fun user => plain (deposit_status user tx_id))
  | GetPublicTime => Open (plain public_time)
  | GetIndex => Open (plain (html_index rq))
  | GetHome t => SessionOrRedirect (fun user => plain (html_home user t))
  end.

(** [rejection]: what axum answers when the arguments cannot be extracted; the
    session check comes first. *)
Definition extracted (rejection : option Response) (m : prog Reply) : prog Reply :=
  match rejection with Some r => mret (r, None) | None => m end.

Definition serve (rq : RequestParts) (rejection : option Response) (d : Draws) (r : ApiRequest) : prog Reply :=
  match route rq d r with
  | Open f => extracted rejection f
  | Session f => validate_session_token rq (fun user => extracted rejection (f user))
  | SessionOrRedirect f => validate_session_token_or_redirect rq (fun user => extracted rejection (f user))
  end.

(** ** Running side by side *)

Inductive Thread : Type :=
| Request (m : prog Reply)
| Task (m : prog unit).

Definition spawned (cs : list Cleanup) : list Thread := (fun c => Task (run_cleanup c)) <$> cs.

(** One step of a thread: what becomes of it. A panic ends it. *)
Definition run_thread (t : Thread) (w : World) : World * list Thread :=
  match t with
  | Request (Done (Return (_, c))) => (w, spawned (option_list c))
  | Request (Done (Panic _)) => (w, [])
  | Request m => let '(w', m') := step m w in (w', [Request m'])
  | Task (Done _) => (w, [])
  | Task m => let '(w', m') := step m w in (w', [Task m'])
  end.

(** The client hangs up, or the timeout strikes: the request is dropped where
    it is. Tasks run on. *)
Definition drop_thread (t : Thread) : list Thread :=
  match t with
  | Request m => spawned (dropped m)
  | Task m => [t]
  end.

(** What the rest of the program does to the world: the engine takes commands
    off the channel and may end; commands other than trades are sent; the state
    flag, the clock and the faults to come change. *)
Definition other_step (w w' : World) : Prop :=
  w_db w' = w_db w /\ w_tables w' = w_tables w /\
  exists n l, w_sent w' = drop n (w_sent w) ++ l /\ Forall (fun c => match c with Trade _ => False | _ => True end) l.

(** What the server does: a request arrives, runs a step, is dropped. *)
Inductive thread_step : World * list Thread -> World * list Thread -> Prop :=
| thr_arrive w ts rq rejection d r :
    (rejection = None -> in_range r) -> thread_step (w, ts) (w, ts ++ [Request (serve rq rejection d r)])
| thr_run w l t ts w' ts' :
    run_thread t w = (w', ts') -> thread_step (w, l ++ t :: ts) (w', l ++ ts' ++ ts)
| thr_drop w l t ts :
    thread_step (w, l ++ t :: ts) (w, l ++ drop_thread t ++ ts).

Inductive server_step : World * list Thread -> World * list Thread -> Prop :=
| srv_thread s s' : thread_step s s' -> server_step s s'
| srv_other w w' ts : other_step w w' -> server_step (w, ts) (w', ts).

(** A request that nothing interrupts runs as [exec] says, and so does a task. *)
Lemma request_alone m w ts :
  rtc thread_step (w, Request m :: ts)
    ((exec m w).1, match (exec m w).2 with Return (_, c) => spawned (option_list c) | Panic _ => [] end ++ ts).
Proof.
  revert m w. fix IH 1. intros m w.
  pose proof (thr_run w [] (Request m) ts (run_thread (Request m) w).1 (run_thread (Request m) w).2) as Hs.
  cbn [app] in Hs. destruct m as [[[r c]|why]|d f].
  - apply rtc_once, Hs. done.
  - apply rtc_once, Hs. done.
  - specialize (Hs ltac:(by destruct (run_thread _ w))). cbn [run_thread step exec] in *.
    destruct (f w) as [w' m'] eqn:Hf. eapply rtc_l; [exact Hs|]. specialize (IH m' w'). exact IH.
Qed.

Lemma task_alone m w ts : rtc thread_step (w, Task m :: ts) ((exec m w).1, ts).
Proof.
  revert m w. fix IH 1. intros m w.
  pose proof (thr_run w [] (Task m) ts (run_thread (Task m) w).1 (run_thread (Task m) w).2) as Hs.
  cbn [app] in Hs. destruct m as [a|d f].
  - apply rtc_once, Hs. done.
  - specialize (Hs ltac:(by destruct (run_thread _ w))). cbn [run_thread step exec] in *.
    destruct (f w) as [w' m'] eqn:Hf. eapply rtc_l; [exact Hs|]. specialize (IH m' w'). exact IH.
Qed.

Lemma request_runs m w :
  rtc server_step (w, [Request m])
    ((exec m w).1, match (exec m w).2 with Return (_, c) => spawned (option_list c) | Panic _ => [] end).
Proof.
  pose proof (request_alone m w []) as Hr. rewrite app_nil_r in Hr.
  eapply (rtc_congruence id); [|exact Hr]. intros s s'. apply srv_thread.
Qed.

Lemma request_steps n m w : rtc thread_step (w, [Request m]) ((steps n m w).1, [Request (steps n m w).2]).
Proof.
  revert m w. induction n as [|n IH]; intros m w; [done|]. destruct m as [a|d f]; [exact (IH (Done a) w)|].
  pose proof (thr_run w [] (Request (Step d f)) [] (step (Step d f) w).1 [Request (step (Step d f) w).2]) as Hs.
  cbn [app run_thread step] in Hs. cbn [steps step]. specialize (Hs ltac:(by destruct (f w))).
  destruct (f w) as [w' m']. eapply rtc_l; [exact Hs|apply IH].
Qed.

(** ** Invariants of the server *)

(** An invariant that every request and every task keeps, and the rest of the
    program too, holds in every reachable state. *)
Definition thread_keeps (I : World -> Prop) (t : Thread) : Prop :=
  match t with
  | Request m => keeps I (fun _ => True) m
  | Task m => keeps I (fun _ => True) m
  end.

Section invariant.
Context {I : World -> Prop}
  (Hserve : forall rq rejection d r, (rejection = None -> in_range r) -> keeps I (fun _ => True) (serve rq rejection d r))
  (Hcleanup : forall c, keeps I (fun _ => True) (run_cleanup c))
  (Hother : forall w w', other_step w w' -> I w -> I w').

Lemma spawned_safe cs : Forall (thread_keeps I) (spawned cs).
Proof. induction cs; constructor; [apply Hcleanup|done]. Qed.

Lemma run_thread_safe t w :
  thread_keeps I t -> I w -> I (run_thread t w).1 /\ Forall (thread_keeps I) (run_thread t w).2.
Proof.
  intros Ht Hw. destruct t as [m|m]; cbn in Ht.
  - pose proof (keeps_step_inv _ m w Ht Hw) as [Hs1 Hs2]. destruct m as [[[r c]|why]|d f]; cbn [run_thread].
    + split; [done|apply spawned_safe].
    + done.
    + destruct (step _ _) as [w' m']. split; [done|by constructor].
  - pose proof (keeps_step_inv _ m w Ht Hw) as [Hs1 Hs2]. destruct m as [a|d f]; cbn [run_thread]; [done|].
    destruct (step _ _) as [w' m']. split; [done|by constructor].
Qed.

Lemma thread_step_safe s s' :
  thread_step s s' -> I s.1 /\ Forall (thread_keeps I) s.2 -> I s'.1 /\ Forall (thread_keeps I) s'.2.
Proof using Hserve Hcleanup.
  destruct 1 as [w ts rq rej d r Hr|w l t ts w' ts' Hr|w l t ts]; cbn; intros [Hw Hts].
  - split; [done|]. apply Forall_app_2; [done|]. by apply Forall_singleton, Hserve.
  - apply Forall_app in Hts as [Hl [Ht Hts]%Forall_cons].
    pose proof (run_thread_safe t w Ht Hw) as Hs. rewrite Hr in Hs. destruct Hs as [Hw' Hts'].
    split; [done|]. by repeat apply Forall_app_2.
  - apply Forall_app in Hts as [Hl [Ht Hts]%Forall_cons]. split; [done|].
    repeat apply Forall_app_2; [done| |done]. destruct t as [m|m]; [apply spawned_safe|by apply Forall_singleton].
Qed.

Lemma server_step_safe s s' :
  server_step s s' -> I s.1 /\ Forall (thread_keeps I) s.2 -> I s'.1 /\ Forall (thread_keeps I) s'.2.
Proof using Hserve Hcleanup Hother.
  destruct 1 as [s s' Hs|w w' ts Ho]; [by apply thread_step_safe|]. intros [Hw Hts]. split; [by eapply Hother|done].
Qed.

Lemma server_invariant w w' ts : rtc server_step (w, []) (w', ts) -> I w -> I w'.
Proof.
  intros Hr Hw.
  assert (I (w, @nil Thread).1 /\ Forall (thread_keeps I) (w, @nil Thread).2) as Hinit by (split; [done|constructor]).
  change w' with (w', ts).1. generalize dependent (w', ts). generalize dependent (w, @nil Thread). intros s Hs s' Hr.
  induction Hr as [s|s1 s2 s3 Hst _ IH]; [apply Hs|]. by apply IH, (server_step_safe s1).
Qed.
End invariant.
End server.

(** ** What requests do *)

Section guarantees.
Context `{UuidText, Argon2, Hex, IpText, CookieText, SqlxText, Rfc3339, MapOrder, DistinctOrder, Chrono,
  JinjaLaws, BitcoinRpcClientLaws}.

Lemma guar_plain {G} (m : prog Response) : guar G m -> guar G (plain m).
Proof. intros Hm. apply guar_bind; [done|]. intros r. apply guar_ret. Qed.

Lemma guar_extracted {G} rej (m : prog Reply) : guar G m -> guar G (extracted rej m).
Proof. destruct rej; [|done]. intros _. apply guar_ret. Qed.

Section checked.
Context {RD : Db -> Db -> Prop} {RT : Tables -> Tables -> Prop}
  {RS : list TradingEngineCmd -> list TradingEngineCmd -> Prop} `{!Reflexive RD, !Reflexive RT, !Reflexive RS}.

Lemma guar_validate rq next :
  (forall user, guar (touches RD RT RS) (next user)) ->
  guar (touches RD RT RS) (validate_session_token rq next) /\
  guar (touches RD RT RS) (validate_session_token_or_redirect rq next).
Proof.
  intros Hn. split; (apply guar_bind; [apply guar_try_validate|]); intros [user|[s m]]; try apply Hn;
    [|destruct (bool_decide _)]; apply guar_ret.
Qed.

Definition endpoint_guar (e : Endpoint) : Prop :=
  match e with
  | Open f => guar (touches RD RT RS) f
  | Session f | SessionOrRedirect f => forall user, guar (touches RD RT RS) (f user)
  end.

Lemma guar_serve `{Schema} rq rej d r : endpoint_guar (route rq d r) -> guar (touches RD RT RS) (serve rq rej d r).
Proof.
  unfold serve. destruct (route rq d r) as [f|f|f]; cbn; intros Hf.
  - by apply guar_extracted.
  - apply guar_validate. intros user. by apply guar_extracted.
  - apply guar_validate. intros user. by apply guar_extracted.
Qed.
End checked.

(** The requests that leave the journal alone, and those that may write in it. *)
Definition writes_journal (r : ApiRequest) : bool :=
  match r with PostTradeOrder _ _ | GetUserBalance _ _ => true | _ => false end.

Definition is_cancel (r : ApiRequest) : bool := match r with DeleteTradeOrder _ _ => true | _ => false end.

Lemma guar_route {RD RS} `{!Reflexive RD, !Reflexive RS, Schema} rq d r :
  (forall l c, is_cancel r = true -> RS l (l ++ [Trade (CmdCancelOrder c)])) -> writes_journal r = false ->
  endpoint_guar (RD := RD) (RT := rtc tables_change) (RS := RS) (route rq d r).
Proof.
  intros Hc Hr. destruct r; try discriminate Hr; cbn [route endpoint_guar]; try intros user; apply guar_plain.
  - apply guar_trade_cancel_order. intros l c. by apply Hc.
  - apply guar_ret.
  - apply guar_user_create.
  - apply guar_user_delete.
  - apply guar_user_get.
  - constructor.
  - apply guar_session_create.
  - apply guar_session_delete.
  - apply guar_withdraw_list_addrs.
  - apply guar_withdraw_create_addr.
  - apply guar_withdraw_delete_addr.
  - constructor.
  - apply guar_deposit_list_addrs.
  - apply guar_deposit_create_addr.
  - constructor.
  - apply guar_public_time.
  - apply guar_html_index.
  - apply guar_html_home.
Qed.

(** Every request, and every task. *)
Definition any_sent (l l' : list TradingEngineCmd) : Prop := True.
#[local] Instance any_sent_refl : Reflexive any_sent.
Proof. done. Qed.

(** The order a request sends is the one in its body. *)
Definition asks_for (rej : option Response) (r : ApiRequest) (po : PlaceOrder) : Prop :=
  match r with
  | PostTradeOrder _ body => rej = None /\ po_price po = ta_price body /\ po_quantity po = ta_quantity body
  | _ => False
  end.

Lemma keeps_any_request `{Schema} {RS} `{!Reflexive RS} (I : World -> Prop) rq rej d r :
  (forall l c, RS l (l ++ [Trade (CmdCancelOrder c)])) ->
  (forall l po, asks_for rej r po -> RS l (l ++ [Trade (CmdPlaceOrder po)])) ->
  (forall w w', touches (rtc db_change) (rtc tables_change) RS w w' -> I w -> I w') ->
  keeps I (fun _ => True) (serve rq rej d r).
Proof.
  intros Hcancel Hplace HI. destruct r as [asset body| | | | | | | | | | | | | | | | | | |] eqn:Hr.
  1: { apply (keeps_bind (fun _ => True)).
       - eapply guar_keeps; [apply (guar_try_validate (RD := rtc db_change) (RT := rtc tables_change) (RS := RS))|].
         exact HI.
       - intros [user|[s m]] _; [|by apply keeps_ret]. destruct rej; [by apply keeps_ret|].
         apply (keeps_trade_add_order (RT := rtc tables_change) (RS := RS)); [|done].
         intros l po Hp Hq. by apply Hplace. }
  all: eapply guar_keeps; [|exact HI]; apply guar_serve.
  all: try by apply guar_route.
  intros user. apply guar_plain, guar_user_balance_page.
Qed.

(** ** Consistency *)

Definition consistent (accs : list Account) (w : World) : Prop :=
  tables_wf (w_tables w) /\ db_wf (w_db w) /\ txids_wf (w_db w) /\ accounts (w_db w) = accs.

Lemma any_steps_consistent accs w w' :
  touches (rtc (db_change (H := all_migrations))) (rtc tables_change) any_sent w w' ->
  consistent accs w -> consistent accs w'.
Proof.
  intros (Hd & Ht & _) (Hwt & Hwd & Hwx & <-). unfold consistent. split_and!.
  - clear -Ht Hwt. induction Ht; [done|eauto using tables_change_wf].
  - clear -Hd Hwd. induction Hd; [done|eauto using db_change_wf].
  - clear -Hd Hwx. induction Hd; [done|eauto using db_change_txids].
  - clear -Hd. induction Hd as [|x y z Hxy _ IH]; [done|]. rewrite IH. by eapply db_change_accounts.
Qed.

(** C19: whatever requests come, however their steps and those of the tasks
    interleave, wherever requests are dropped and whichever queries fail: the
    tables stay consistent. Emails, user ids, session tokens and addresses stay
    unique and refer to users that exist; every row of the journal moves a
    positive amount between two different accounts, and the balances add up to
    zero; no transaction of the chain is entered twice; and no account is ever
    opened or closed. *)
Theorem server_keeps_books w w' ts
    (Hstart : tables_wf (w_tables w) /\ db_wf (w_db w) /\ txids_wf (w_db w))
    (Hrun : rtc (server_step (H := all_migrations)) (w, []) (w', ts)) :
  tables_wf (w_tables w') /\ db_wf (w_db w') /\ txids_wf (w_db w') /\
  sum_balances (acc_id <$> accounts (w_db w')) (journal (w_db w')) = 0 /\
  accounts (w_db w') = accounts (w_db w).
Proof.
  assert (consistent (accounts (w_db w)) w') as (Ht & Hd & Hx & Ha).
  { apply (server_invariant (H := all_migrations)) with w ts; [..|exact Hrun|by destruct Hstart as (? & ? & ?)].
    - intros rq rej d r _. by apply (keeps_any_request (RS := any_sent)); [..|apply any_steps_consistent].
    - intros c. eapply guar_keeps; [apply (guar_cleanup (RT := rtc tables_change) (RS := any_sent))|].
      apply any_steps_consistent.
    - intros w1 w2 (Hd & Ht & _). unfold consistent. by rewrite Hd, Ht. }
  split_and!; [done..| |done]. by apply double_entry_zero.
Qed.
End guarantees.

(** ** A fresh exchange

    The migrations open two accounts of the exchange, and nothing in the program
    opens one for a user. *)

Definition is_order (c : TradingEngineCmd) : bool :=
  match c with Trade (CmdPlaceOrder _) => true | _ => false end.

Definition inert (w : World) : Prop :=
  Forall (fun a => source_type a <> UserSource) (accounts (w_db w)) /\ journal (w_db w) = [] /\
  Forall (fun c => is_order c = false) (w_sent w).

Section fresh.
Context `{Schema, UuidText, Argon2, Hex, IpText, CookieText, SqlxText, Rfc3339, MapOrder, DistinctOrder, Chrono,
  JinjaLaws, BitcoinRpcClientLaws}.

Definition inert_db (db db' : Db) : Prop := accounts db' = accounts db /\ journal db' = journal db.
Definition no_order_sent (l l' : list TradingEngineCmd) : Prop :=
  Forall (fun c => is_order c = false) l -> Forall (fun c => is_order c = false) l'.

#[local] Instance inert_db_refl : Reflexive inert_db.
Proof. done. Qed.
#[local] Instance no_order_sent_refl : Reflexive no_order_sent.
Proof. by intros l Hl. Qed.

Lemma inert_steps w w' : touches inert_db (rtc tables_change) no_order_sent w w' -> inert w -> inert w'.
Proof. intros ([Ha Hj] & _ & Hs) (Hu & Hn & Ho). unfold inert. rewrite Ha, Hj. auto. Qed.

Lemma guar_inert {A} (m : prog A) :
  guar (touches inert_db (rtc tables_change) no_order_sent) m -> keeps inert (fun _ => True) m.
Proof. intros Hm. eapply guar_keeps; [exact Hm|apply inert_steps]. Qed.

(** A query that fails, and changes nothing, as long as nothing is in the journal. *)
Lemma inert_pop w : inert w -> inert (pop_fault w).2 /\ w_db (pop_fault w).2 = w_db w.
Proof. unfold inert, pop_fault. by destruct (w_faults w). Qed.

Lemma keeps_failing_query {R} (q : Db -> result R SqlxError) :
  (forall w, inert w -> ~ is_Ok (q (w_db w))) -> keeps inert (fun r => ~ is_Ok r) (query (select q)).
Proof.
  intros Hq. apply keeps_atomically. intros w Hw. pose proof (inert_pop w Hw) as [Hi Hd].
  destruct (pop_fault w) as [f w']. cbn [fst snd] in *. specialize (Hq w' Hi). unfold select.
  destruct f; cbn [fst snd]; rewrite ?set_db_id; split; try done; by intros [].
Qed.

Lemma keeps_failing_tx_select {R} tx (q : Db -> result R SqlxError) :
  (forall db, Forall (fun a => source_type a <> UserSource) (accounts db) -> ~ is_Ok (q db)) ->
  keeps inert (fun r => ~ is_Ok r.2) (tx_query tx (select q)).
Proof.
  intros Hq. apply keeps_atomically. intros w Hw. pose proof (inert_pop w Hw) as [Hi Hd].
  destruct (pop_fault w) as [f w']. cbn [fst snd] in *.
  destruct f; [|split; [done|by intros []]..]. unfold tx_statement.
  destruct (tx_aborted tx); [split; [by destruct w' as [[]]|by intros []]|]. cbn [select fst snd].
  split; [by destruct w' as [[]]|]. apply Hq. apply Hi.
Qed.

Lemma calculate_balance_inert w s c : inert w -> ~ is_Ok (calculate_balance (w_db w) s c).
Proof.
  intros (Hu & _ & _). unfold calculate_balance. destruct (List.find _ _) as [a|] eqn:Ha; [|by intros []].
  apply List.find_some in Ha as [Hin Hs]. unfold is_user_account in Hs. apply bool_decide_eq_true in Hs as [Hs _].
  rewrite Forall_forall in Hu. apply list_elem_of_In in Hin. by destruct (Hu a Hin).
Qed.

Lemma keeps_balance user cur : keeps inert (fun r => ~ is_Ok r) (calculate_balance_from_accounting user cur).
Proof.
  apply keeps_failing_query. intros w Hw. pose proof (calculate_balance_inert w (uuid_to_string user) cur Hw) as Hc.
  by destruct (calculate_balance _ _ _).
Qed.

Lemma keeps_place_order asset user order : keeps inert (fun r => ~ is_Ok r) (place_order asset user order).
Proof.
  unfold place_order. apply (keeps_bind (fun _ => True)).
  { apply keeps_atomically. by intros w. }
  intros st _. destruct (negb _); [by apply keeps_ret; intros []|]. destruct order as [side ot q p tif stp].
  apply (keeps_bind (fun r => ~ is_Ok r)).
  - assert (forall cur, keeps inert (fun r => ~ is_Ok r) (reserve_by_asset user q cur)) as Hr.
    { intros cur. unfold reserve_by_asset. apply (keeps_bind (fun r => ~ is_Ok r)); [apply keeps_balance|].
      intros [b|e] Hb; [by destruct Hb|]. by apply keeps_ret; intros []. }
    destruct side; apply Hr.
  - intros [r|e] Hr; [by destruct Hr|]. apply (keeps_bind (fun _ => True)).
    + constructor. by destruct (PlaceOrderError_from e).
    + intros e' _. by apply keeps_ret; intros [].
Qed.

Lemma keeps_import user : keeps inert (fun _ => True) (update_user_accounts user).
Proof.
  unfold update_user_accounts, check_bitcoind. apply (keeps_bind (fun _ => True)); [|intros; by apply keeps_ret].
  apply (keeps_bind (fun _ => True)); [by apply guar_inert, guar_fallible|]. intros [tx|e] _; [|by apply keeps_ret].
  apply (keeps_bind (fun _ => True)).
  { apply guar_inert, guar_select_tx. by intros db n. }
  intros [tx1 [b|e]] _; [|by apply keeps_ret].
  apply (keeps_bind (fun r => ~ is_Ok r.2)); [|intros [tx2 [a|e]] Ha; [by destruct Ha|by apply keeps_ret]].
  apply keeps_failing_tx_select. intros db Hu. unfold user_btc_accounts. rewrite filter_none; [by intros []|].
  intros a Ha (_ & _ & Hs). rewrite Forall_forall in Hu. by apply (Hu a).
Qed.

Lemma keeps_request rq rej d r : keeps inert (fun _ => True) (serve rq rej d r).
Proof.
  destruct (writes_journal r) eqn:Hw.
  2: { apply guar_inert, guar_serve, guar_route; [|done]. intros l c _ Hl. by apply Forall_app_2, Forall_singleton. }
  assert (forall f, (forall user, keeps inert (fun _ => True) (f user)) ->
    keeps inert (fun _ => True) (validate_session_token rq (fun user => extracted rej (f user)))) as Hval.
  { intros f Hf. apply (keeps_bind (fun _ => True)); [apply guar_inert, guar_try_validate|].
    intros [user|[s m]] _; [|by apply keeps_ret]. destruct rej; [by apply keeps_ret|apply Hf]. }
  destruct r; try discriminate Hw; apply Hval; intros user.
  - unfold trade_add_order. destruct (asset_of_param _) as [a|]; [|by apply keeps_ret].
    destruct (negb _); [by apply keeps_ret|].
    apply (keeps_bind (fun r => ~ is_Ok r)); [apply keeps_place_order|].
    intros [r|e] Hr; [by destruct Hr|by apply keeps_ret].
  - apply (keeps_bind (fun _ => True)); [|intros; by apply keeps_ret]. unfold user_balance_page.
    destruct (negb _); [by apply keeps_ret|]. destruct (_ && _); [by apply keeps_ret|].
    apply (keeps_bind (fun _ => True)); [apply keeps_import|]. intros _ _. destruct (bool_decide _).
    + apply (keeps_bind (fun _ => True)); [by apply guar_inert, guar_user_balance|].
      intros [details|e] _; by apply keeps_ret.
    + cbv zeta. apply (keeps_bind (fun r => ~ is_Ok r)); [apply keeps_balance|].
      intros [b|e] _; by apply keeps_ret.
Qed.

Lemma keeps_revert c : keeps inert (fun _ => True) (run_cleanup c).
Proof.
  destruct c as [r]. apply (keeps_bind (fun _ => True)); [|intros; by apply keeps_ret].
  apply keeps_atomically. intros w Hw. pose proof (inert_pop w Hw) as [Hi Hd].
  destruct (pop_fault w) as [f w']. cbn [fst snd] in *.
  assert (insert_revert (w_db w') (row_id r) = (w_db w', Err RowNotFound)) as Hr.
  { destruct Hi as (_ & Hj & _). unfold insert_revert. by rewrite Hj. }
  destruct f; rewrite ?Hr; cbn [fst snd]; rewrite ?set_db_id; done.
Qed.

(** C20: an exchange that has just been set up never trades: from the database
    the migrations leave behind - any users may have signed up - no sequence of
    requests, interleaved and dropped in any way and with any answers of the
    bitcoin node, writes a row to the journal or sends an order to the engine.
    Deposits are never credited and every balance stays unreadable, because
    nothing in the program opens an account for a user. *)
Theorem fresh_exchange_is_inert tables now faults w' ts
    (Hrun : rtc server_step (AppCx_new Db_new tables now faults, []) (w', ts)) :
  journal (w_db w') = [] /\ Forall (fun c => is_order c = false) (w_sent w') /\
  forall user cur, ~ is_Ok (calculate_balance (w_db w') (uuid_to_string user) cur).
Proof.
  assert (inert w') as Hi.
  { apply (server_invariant (I := inert)) with (AppCx_new Db_new tables now faults) ts; [intros; apply keeps_request|apply keeps_revert| |exact Hrun|].
    - intros w1 w2 (Hd & _ & n & l & Hs & Hl) (Hu & Hj & Ho). unfold inert. rewrite Hd, Hs.
      split; [done|]. split; [done|]. apply Forall_app_2; [by apply Forall_drop|].
      eapply Forall_impl; [exact Hl|]. by intros [].
    - split; [repeat constructor; discriminate|]. by split; [|constructor]. }
  split; [apply Hi|]. split; [apply Hi|]. intros user cur. by apply calculate_balance_inert.
Qed.
End fresh.

(** ** Who may do what *)

Definition needs_session (r : ApiRequest) : bool :=
  match r with
  | PostUser _ _ _ | PostSession _ _ | DeleteSession _ | GetPublicTime | GetIndex => false
  | _ => true
  end.

Section access.
Context `{Schema, UuidText, Argon2, Hex, IpText, CookieText, SqlxText, Rfc3339, MapOrder, DistinctOrder, ChronoLaws,
  Jinja, BitcoinRpcClient}.

(** C21: without a valid session - no cookie, a token that is not in the table,
    or one that has expired - only signing up, logging in and out, the time and
    the front page are served. Every other request changes nothing, whatever
    the faults of the database: it is answered 401, or sent to the front page
    if it is for the user's page, or answered 500 if the sessions cannot be
    read. *)
Theorem session_required w rq rej d r
    (Hrange : Forall session_in_range (session_tokens (w_tables w)))
    (Hno : session_user w rq = None) (Hr : needs_session r = true) :
  exists fs resp, exec (serve rq rej d r) w = (set_faults w fs, Return (resp, None)) /\
    (status resp = UNAUTHORIZED \/
     (exists t, r = GetHome t) /\ resp = redirect_to "/" \/
     w_faults w <> [] /\ status resp = INTERNAL_SERVER_ERROR).
Proof.
  pose proof (protected_by_session w rq Hrange) as Hp. rewrite Hno in Hp.
  destruct Hp as (fs & r1 & r2 & Hp).
  unfold serve. destruct r; try discriminate Hr; cbn [route]; edestruct Hp as (He & He' & Hcase);
    first [exists fs, r2; split; [exact He'|]|exists fs, r1; split; [exact He|]];
    destruct Hcase as [[Hs1 Hs2]|(Hw & Hs1 & Hs2)];
    first [by left|by right; left; split; [eexists|]|by right; right].
Qed.

(** A user who is marked as deleted keeps id, email and password. *)
Lemma mark_deleted_login t now id email :
  fmap (fun u => (user_id u, password_hash u)) (users_with_email (mark_deleted t now id).1 email) =
  fmap (fun u => (user_id u, password_hash u)) (users_with_email t email).
Proof.
  unfold users_with_email. cbn [mark_deleted fst users]. induction (users t) as [|u l IH]; [done|].
  rewrite fmap_cons, !filter_cons. case_bool_decide; cbn [user_email]; destruct (decide (user_email u = email));
    cbn; by rewrite ?IH.
Qed.

Lemma exec_login_same email password w w' :
  w_faults w = [] -> w_faults w' = [] ->
  fmap (fun u => (user_id u, password_hash u)) (users_with_email (w_tables w') email) =
    fmap (fun u => (user_id u, password_hash u)) (users_with_email (w_tables w) email) ->
  (exec (verify_login_details email password) w').2 = (exec (verify_login_details email password) w).2.
Proof.
  intros Hf Hf' Heq. rewrite !exec_login by done. cbn [snd].
  destruct (users_with_email (w_tables w') email), (users_with_email (w_tables w) email); try done.
  injection Heq as -> -> _. done.
Qed.

(** C25: any session may delete any user, and deleting a user takes nothing
    away. The id in the path and the user of the session play no part: whoever
    is logged in marks the row of whichever id the body names. After that the
    deleted user's sessions are as valid as before, and so is the password. *)
Theorem any_session_deletes_anyone w rq d path user u
    (Hf : w_faults w = []) (Hrange : Forall session_in_range (session_tokens (w_tables w)))
    (Hsession : session_user w rq = Some user) (Hu : u ∈ users (w_tables w)) (Hlive : deleted_at u = None) :
  exists w', exec (serve rq None d (DeleteUser path (user_id u))) w =
      (w', Return (json_response (JObject [("status", JString "deleted")]), None)) /\
    mkUser (user_id u) (user_name u) (user_email u) (password_hash u) (Some (w_now w)) (user_role u) ∈
      users (w_tables w') /\
    (forall rq', session_user w' rq' = session_user w rq') /\
    (forall email password, (exec (verify_login_details email password) w').2 =
       (exec (verify_login_details email password) w).2).
Proof.
  pose proof (protected_by_session w rq Hrange) as Hp. rewrite Hsession in Hp.
  exists (set_tables w (mark_deleted (w_tables w) (w_now w) (user_id u)).1). split_and!.
  - unfold serve. cbn [route]. rewrite (proj1 (Hp Hf _)). cbn [extracted]. unfold plain, user_delete.
    rewrite !exec_bind, exec_table_query by done. cbn [mark_deleted fst snd].
    rewrite (proj2 (Z.eqb_neq _ 0)); [done|].
    assert (u ∈ filter (fun v => user_id v = user_id u /\ deleted_at v = None) (users (w_tables w))) as Hin
      by by apply list_elem_of_filter.
    destruct (filter _ _); [by apply elem_of_nil in Hin|]. cbn. lia.
  - cbn [w_tables set_tables mark_deleted fst users]. apply list_elem_of_fmap. exists u.
    split; [|done]. by rewrite bool_decide_true.
  - intros rq'. done.
  - intros email password. apply exec_login_same; [done..|]. apply mark_deleted_login.
Qed.
End access.

(** ** Concrete runs *)

Section witnesses.
#[local] Existing Instances decimal_uuid_text plain_argon2 no_ips whole_seconds table_order.
#[local] Existing Instances demo_hex demo_cookie demo_sqlx.
#[local] Instance demo_rfc3339 : Rfc3339 := pretty.
#[local] Instance demo_map_order : MapOrder := map_to_list.
#[local] Instance demo_jinja : Jinja := fun name _ => mret (Ok name).
#[local] Instance demo_node : BitcoinRpcClient := demo_client [demo_deposit "t2" 70].

Lemma demo_jinja_laws : JinjaLaws.
Proof. intros name context. constructor. Qed.

Definition demo_draws : Draws := mkDraws None None "salt" 9%N [1; 2].

(** Alice logs in. *)
Definition demo_login : prog Reply := serve (H := all_migrations) (demo_request "") None demo_draws (PostSession "a@x.org" "secret").
Definition demo_logged_in : World :=
  mkWorld Db_new (mkTables (users demo_tables) [mkSession "12" 0 3600 7%N (Some "") None] (user_addresses demo_tables))
    Running true [] 0 [].

Lemma demo_login_run :
  exec demo_login (demo_users []) = (demo_logged_in,
    Return (mkResponse CREATED [("set-cookie", "session-token=12"); ("hx-redirect", "/c")] NoBody, None)).
Proof. vm_compute. reflexivity. Qed.

Lemma server_keeps_books_witness :
  rtc (server_step (H := all_migrations)) (demo_users [], []) (demo_logged_in, []) /\
  tables_wf (w_tables demo_logged_in) /\ accounts (w_db demo_logged_in) = accounts Db_new.
Proof.
  assert (rtc (server_step (H := all_migrations)) (demo_users [], []) (demo_logged_in, [])) as Hr.
  { eapply rtc_l; [apply srv_thread, (thr_arrive _ [] (demo_request "") None demo_draws (PostSession "a@x.org" "secret")); done|].
    pose proof (request_runs (H := all_migrations) demo_login (demo_users [])) as Hx.
    rewrite demo_login_run in Hx. exact Hx. }
  split; [exact Hr|].
  destruct (server_keeps_books (H10 := demo_jinja_laws) (H12 := demo_client_laws _) (demo_users []) demo_logged_in []
    (conj demo_tables_wf (conj Db_new_wf Db_new_txids)) Hr) as (Ht & _ & _ & _ & Ha).
  split; [exact Ht|exact Ha].
Defined.

Lemma fresh_exchange_is_inert_witness :
  journal (w_db demo_logged_in) = [] /\
  ~ is_Ok (calculate_balance (w_db demo_logged_in) (uuid_to_string 7%N) "BTC").
Proof.
  assert (rtc (server_step (H := all_migrations)) (demo_users [], []) (demo_logged_in, [])) as Hr.
  { eapply rtc_l; [apply srv_thread, (thr_arrive _ [] (demo_request "") None demo_draws (PostSession "a@x.org" "secret")); done|].
    pose proof (request_runs (H := all_migrations) demo_login (demo_users [])) as Hx.
    rewrite demo_login_run in Hx. exact Hx. }
  destruct (fresh_exchange_is_inert (H11 := demo_jinja_laws) (H13 := demo_client_laws _) demo_tables 0 [] demo_logged_in []
    Hr) as (Hj & _ & Hb).
  split; [exact Hj|apply Hb].
Defined.

Lemma demo_sessions_in_range : Forall session_in_range (session_tokens (w_tables demo_logged_in)).
Proof. repeat constructor; cbn; lia. Qed.

(** A stranger asks for the addresses, while the connection is lost. *)
Lemma session_required_witness :
  exists fs resp, exec (serve (H := all_migrations) (demo_request "13") None demo_draws GetDepositAddresses)
      (set_faults demo_logged_in [Healthy]) = (set_faults demo_logged_in fs, Return (resp, None)) /\
    (status resp = UNAUTHORIZED \/ status resp = INTERNAL_SERVER_ERROR).
Proof.
  destruct (session_required (H := all_migrations) (H10 := whole_seconds_laws) (set_faults demo_logged_in [Healthy])
    (demo_request "13") None demo_draws GetDepositAddresses demo_sessions_in_range eq_refl eq_refl)
    as (fs & resp & He & [Hs|[[[t Ht] _]|(_ & Hs)]]); [|discriminate Ht|].
  - exists fs, resp. split; [exact He|by left].
  - exists fs, resp. split; [exact He|by right].
Defined.

(** Alice, who has been deleted, deletes Bob. *)
Lemma any_session_deletes_anyone_witness :
  exists w', exec (serve (H := all_migrations) (demo_request "12") None demo_draws (DeleteUser "x" 8%N)) demo_logged_in =
      (w', Return (json_response (JObject [("status", JString "deleted")]), None)) /\
    (exec (verify_login_details "b@x.org" "hunter2") w').2 = Return (Ok 8%N).
Proof.
  destruct (any_session_deletes_anyone (H := all_migrations) (H10 := whole_seconds_laws) demo_logged_in
    (demo_request "12") demo_draws "x" 7%N demo_bob eq_refl demo_sessions_in_range eq_refl
    ltac:(right; left) eq_refl) as (w' & He & _ & _ & Hl).
  exists w'. split; [exact He|]. rewrite Hl. reflexivity.
Defined.
End witnesses.
