(* ===== verification/Credits.v ===== *)
(** * Credit: what concurrent programs owe one another

    A logic for programs that share a world and hold a part of one quantity of
    it. The world has a [slack]; a program may keep a credit of its own, which
    it can add to whenever its step raises the slack and must pay from whenever
    its step lowers it. As long as every program pays, the credits held at any
    time add up to no more than the slack - so the slack is never negative,
    however the programs interleave and wherever they are dropped. What a
    program leaves behind when it is dropped takes over the credit it claims.

    The quantities of interest depend on the journal and on the commands in the
    engine's channel alone ([View]). What a program knows of them has to stay
    true while others run: it is a fact about every [later] view. *)

From S2P Require Import Prelude Trading Codec Accounting Tables World Http AppCx UserCx BitcoinClient Auth Handlers Server.

Definition View : Type := Db * list TradingEngineCmd.
Definition view (w : World) : View := (w_db w, w_sent w).
Arguments view : simpl never.

Class Economy : Type := {
  good : View -> Prop;
  later : View -> View -> Prop;
  slack : View -> Z;
  claim : Cleanup -> Z -> View -> Prop }.

Class EconomyLaws `{Economy} : Prop := {
  later_preorder :: PreOrder later;
  claim_later c q v v' : later v v' -> claim c q v -> claim c q v' }.

(** A change that needs no credit. *)
Definition gains `{Economy} (v v' : View) : Prop := good v' /\ later v v' /\ slack v <= slack v'.

Definition sum_credits (l : list Z) : Z := foldr Z.add 0 l.

Arguments sum_credits : simpl never.

Lemma sum_credits_nil : sum_credits [] = 0.
Proof. done. Qed.
Lemma sum_credits_cons n l : sum_credits (n :: l) = n + sum_credits l.
Proof. done. Qed.
Lemma sum_credits_app l k : sum_credits (l ++ k) = sum_credits l + sum_credits k.
Proof. induction l as [|n l IH]; cbn [app]; rewrite ?sum_credits_cons, ?sum_credits_nil in *; lia. Qed.

Ltac credits := rewrite ?sum_credits_app, ?sum_credits_cons, ?sum_credits_nil in *; lia.

Section credits.
Context `{EconomyLaws}.

(** [n] is enough for what is left behind. *)
Definition claims (d : list Cleanup) (n : Z) (v : View) : Prop :=
  exists qs, Forall2 (fun c q => 0 <= q /\ claim c q v) d qs /\ sum_credits qs <= n.

(** [pays Q m n v]: with a credit of [n], from a view that is [later] than [v],
    [m] pays for its steps, and ends with a value and a credit in [Q]. *)
Fixpoint pays {A} (Q : A -> Z -> View -> Prop) (m : prog A) (n : Z) (v : View) : Prop :=
  match m with
  | Done (Return a) => Q a n v
  | Done (Panic _) => True
  | Step d f =>
      claims d n v /\
      forall w, later v (view w) -> good (view w) ->
        match f w with
        | (w', m') =>
            good (view w') /\ later (view w) (view w') /\
            exists n', 0 <= n' /\ n' + slack (view w) <= n + slack (view w') /\ pays Q m' n' (view w')
        end
  end.

Lemma claims_nil n v : 0 <= n -> claims [] n v.
Proof. intros Hn. exists []. split; [constructor|done]. Qed.

Lemma claims_one c q v : 0 <= q -> claim c q v -> claims [c] q v.
Proof. intros Hq Hc. exists [q]. split; [by repeat constructor|credits]. Qed.

Lemma claims_later d n v v' : later v v' -> claims d n v -> claims d n v'.
Proof.
  intros Hl (qs & Hqs & Hn). exists qs. split; [|done].
  eapply Forall2_impl; [exact Hqs|]. intros c q [? ?]. split; [done|by eapply claim_later].
Qed.

Lemma claims_mono d n n' v : n <= n' -> claims d n v -> claims d n' v.
Proof. intros Hn (qs & Hqs & Hs). exists qs. split; [done|lia]. Qed.

Lemma claims_cons c q d n v : 0 <= q -> claim c q v -> claims d n v -> claims (c :: d) (q + n) v.
Proof. intros Hq Hc (qs & Hqs & Hn). exists (q :: qs). split; [by constructor|credits]. Qed.

(** ** Rules *)

Lemma pays_mono {A} (P Q : A -> Z -> View -> Prop) (m : prog A) n v :
  (forall a n' v', later v v' -> P a n' v' -> Q a n' v') -> pays P m n v -> pays Q m n v.
Proof.
  revert m n v. fix IH 1. intros m n v HPQ. destruct m as [[a|why]|d f]; cbn; [by apply HPQ|done|].
  intros [Hd Hf]. split; [done|]. intros w Hl Hg. specialize (Hf w Hl Hg).
  destruct (f w) as [w' m'] eqn:He. destruct Hf as (Hg' & Hl' & n' & Hn' & Hs & Hp). split_and!; [done..|].
  exists n'. split_and!; [done..|]. apply (IH m' n' (view w')); [|done].
  intros a n2 v2 Hl2. apply HPQ. by do 2 etrans.
Qed.

Lemma pays_bind {A B} (P : A -> Z -> View -> Prop) (Q : B -> Z -> View -> Prop) (m : prog A) (k : A -> prog B) n v :
  pays P m n v -> (forall a n' v', later v v' -> P a n' v' -> pays Q (k a) n' v') -> pays Q (m ≫= k) n v.
Proof.
  revert m n v. fix IH 1. intros m n v. destruct m as [[a|why]|d f]; cbn; [by intros Hm Hk; apply Hk|done|].
  intros [Hd Hf] Hk. split; [done|]. intros w Hl Hg. specialize (Hf w Hl Hg).
  destruct (f w) as [w' m'] eqn:He. destruct Hf as (Hg' & Hl' & n' & Hn' & Hs & Hp). split_and!; [done..|].
  exists n'. split_and!; [done..|]. apply (IH m'); [done|].
  intros a n2 v2 Hl2. apply Hk. by do 2 etrans.
Qed.

(** The facts hold on, and more credit does no harm. *)
Lemma pays_later {A} (Q : A -> Z -> View -> Prop) (m : prog A) n n' v v' :
  (forall a k k' u u', later v u -> k <= k' -> later u u' -> Q a k u -> Q a k' u') ->
  n <= n' -> later v v' -> pays Q m n v -> pays Q m n' v'.
Proof.
  revert m n n' v v'. fix IH 1. intros m n n' v v' HQ Hn Hv. destruct m as [[a|why]|d f]; cbn; [|done|].
  { by apply HQ. }
  intros [Hd Hf]. split; [by eapply claims_mono, claims_later|]. intros w Hl Hg.
  specialize (Hf w ltac:(by etrans) Hg). destruct (f w) as [w1 m1] eqn:He.
  destruct Hf as (Hg1 & Hl1 & n1 & Hn1 & Hs & Hp). split_and!; [done..|].
  exists n1. split_and!; [done|lia|done].
Qed.

(** Every value that is returned may be put to use with a guard beside it: the
    credit it claims is not touched. *)
Lemma pays_with_guard {A} (P : A -> Z -> View -> Prop) c q (m : prog A) n v :
  0 <= q -> claim c q v -> pays P m n v ->
  pays (fun a k u => claim c q u /\ P a (k - q) u) (with_guard c m) (q + n) v.
Proof.
  intros Hq. revert m n v. fix IH 1. intros m n v Hc. destruct m as [[a|why]|d f]; cbn; [|done|].
  { intros Ha. split; [done|]. by replace (q + n - q) with n by lia. }
  intros [Hd Hf]. split; [by apply claims_cons|]. intros w Hl Hg. specialize (Hf w Hl Hg).
  destruct (f w) as [w' m'] eqn:He. destruct Hf as (Hg' & Hl' & n' & Hn' & Hs & Hp). split_and!; [done..|].
  exists (q + n'). split_and!; [lia|lia|]. apply (IH m'); [|done]. do 2 (eapply claim_later; [done|]). done.
Qed.

Lemma pays_atomically {R} (Q : R -> Z -> View -> Prop) (f : World -> World * R) n v :
  0 <= n ->
  (forall w, later v (view w) -> good (view w) ->
     good (view (f w).1) /\ later (view w) (view (f w).1) /\
     exists n', 0 <= n' /\ n' + slack (view w) <= n + slack (view (f w).1) /\ Q (f w).2 n' (view (f w).1)) ->
  pays Q (atomically f) n v.
Proof.
  intros Hn Hf. split; [by apply claims_nil|]. intros w Hl Hg. specialize (Hf w Hl Hg). by destruct (f w).
Qed.

(** A query: what it does to the database, the answer arriving or not. *)
Lemma pays_query {R} (Q : result R SqlxError -> Z -> View -> Prop) (q : Db -> Db * result R SqlxError) n v :
  0 <= n ->
  (forall db sent, later v (db, sent) -> good (db, sent) ->
     (forall e, Q (Err e) n (db, sent)) /\
     let v' := ((q db).1, sent) in
     good v' /\ later (db, sent) v' /\
     exists n', 0 <= n' /\ n' + slack (db, sent) <= n + slack v' /\ Q (q db).2 n' v' /\ forall e, Q (Err e) n' v') ->
  pays Q (query q) n v.
Proof.
  intros Hn Hq. apply pays_atomically; [done|]. intros w Hl Hg.
  assert (view (pop_fault w).2 = view w) as Hv by (unfold pop_fault, view; by destruct (w_faults w)).
  destruct (pop_fault w) as [fault w1]. cbn [snd] in Hv. rewrite <- Hv in *.
  destruct (Hq (w_db w1) (w_sent w1) Hl Hg) as (Hlost & Hg' & Hl' & n' & Hn' & Hs & HQ & Hany).
  destruct (q (w_db w1)) as [db' r]. unfold view in *. destruct fault; cbn [fst snd set_db w_db w_sent] in *.
  - split_and!; [done..|]. by exists n'.
  - split_and!; [done..|]. exists n. by split_and!.
  - split_and!; [done..|]. by exists n'.
Qed.

(** What programs of the logics of [World] do when their steps need no credit. *)
Lemma pays_guar_keeps {A} (G : World -> World -> Prop) (P : A -> Prop) (m : prog A) n v :
  (forall w w', G w w' -> good (view w) -> gains (view w) (view w')) ->
  guar G m -> keeps (fun _ => True) P m -> 0 <= n -> pays (fun a n' v' => n' = n /\ P a) m n v.
Proof.
  intros HG Hm HP Hn. revert v. induction Hm as [[a|why]|f Hf _ IH]; intros v; cbn.
  - by inversion HP.
  - done.
  - split; [by apply claims_nil|]. intros w Hl Hg. specialize (Hf w). specialize (IH w).
    destruct (keeps_step_inv _ _ w HP I) as [_ HP']. cbn in HP'.
    destruct (f w) as [w' m'] eqn:He. destruct (HG _ _ Hf Hg) as (Hg' & Hl' & Hs). split_and!; [done..|].
    exists n. split_and!; [done|cbn in *; lia|by apply IH].
Qed.
Lemma keeps_any {A} (m : prog A) : keeps (fun _ => True) (fun _ => True) m.
Proof. revert m. fix IH 1. intros [[a|why]|d f]; [by constructor..|]. constructor; intros; [done|apply IH]. Qed.

Lemma pays_guar {A} (G : World -> World -> Prop) (m : prog A) n v :
  (forall w w', G w w' -> good (view w) -> gains (view w) (view w')) ->
  guar G m -> 0 <= n -> pays (fun _ n' v' => n' = n) m n v.
Proof.
  intros HG Hm Hn. eapply pays_mono; [|by eapply pays_guar_keeps; [exact HG|exact Hm|apply keeps_any|]].
  by intros a n' v' _ [-> _].
Qed.
End credits.

(** ** Threads *)

Section threads.
Context `{HE : EconomyLaws}.

(** A request ends with the task it spawns, if any. *)
Definition thread_pays (n : Z) (v : View) (t : Thread) : Prop :=
  0 <= n /\
  match t with
  | Request m => pays (fun r k u => claims (option_list r.2) k u) m n v
  | Task m => pays (fun _ _ _ => True) m n v
  end.

(** The credits of all threads are within the slack, beside what is owed
    elsewhere. *)
Definition solvent (debt : Z) (s : World * list Thread) : Prop :=
  good (view s.1) /\
  exists ns, Forall2 (fun n t => thread_pays n (view s.1) t) ns s.2 /\ sum_credits ns + debt <= slack (view s.1).

Lemma solvent_init debt w : good (view w) -> debt <= slack (view w) -> solvent debt (w, []).
Proof. intros Hg Hd. split; [done|]. exists []. split; [constructor|cbn [fst]; credits]. Qed.

Lemma solvent_slack debt s : solvent debt s -> debt <= slack (view s.1).
Proof.
  intros (_ & ns & Hns & Hs). assert (0 <= sum_credits ns); [|lia]. clear Hs.
  induction Hns as [|n t ns ts [Hn _] _ IH]; credits.
Qed.

Lemma thread_pays_later n v v' t : later v v' -> thread_pays n v t -> thread_pays n v' t.
Proof.
  intros Hl [Hn Ht]. split; [done|]. destruct t as [m|m]; (eapply pays_later; [|reflexivity|exact Hl|exact Ht]); [|done].
  intros [r c] k k' u u' _ Hk Hu Hc. by eapply claims_mono, claims_later.
Qed.

Lemma threads_later v v' ns ts :
  later v v' -> Forall2 (fun n t => thread_pays n v t) ns ts -> Forall2 (fun n t => thread_pays n v' t) ns ts.
Proof. intros Hl Hts. eapply Forall2_impl; [exact Hts|]. intros n t. by apply thread_pays_later. Qed.

Context `{Schema, UuidText, Argon2, Hex, IpText, CookieText, SqlxText, Rfc3339, MapOrder, DistinctOrder, Chrono,
  Jinja, BitcoinRpcClient}.
Context
  (Hserve : forall v rq rejection d r, (rejection = None -> in_range r) ->
     pays (fun r k u => claims (option_list r.2) k u) (serve rq rejection d r) 0 v)
  (Hcleanup : forall c q v, 0 <= q -> claim c q v -> pays (fun _ _ _ => True) (run_cleanup c) q v).

Lemma spawned_pays d n v :
  claims d n v -> exists ns, Forall2 (fun n t => thread_pays n v t) ns (spawned d) /\ sum_credits ns <= n.
Proof using HE Hcleanup.
  intros (qs & Hqs & Hn). exists qs. split; [|done]. unfold spawned. rewrite Forall2_fmap_r.
  clear Hn. induction Hqs as [|c q d qs [Hq Hc] _ IH]; constructor; [|done]. split; [done|by apply Hcleanup].
Qed.

Lemma run_thread_pays n t w :
  good (view w) -> thread_pays n (view w) t ->
  let '(w', ts) := run_thread t w in
  good (view w') /\ later (view w) (view w') /\
  exists ns, Forall2 (fun n t => thread_pays n (view w') t) ns ts /\
    sum_credits ns + slack (view w) <= n + slack (view w').
Proof using HE Hcleanup.
  intros Hg [Hn Ht]. destruct t as [m|m].
  - destruct m as [[[r c]|why]|d f]; cbn [run_thread step] in *.
    + cbn in Ht. destruct (spawned_pays _ _ _ Ht) as (ns & Hns & Hs). split_and!; [done..|]. exists ns. split; [done|lia].
    + split_and!; [done..|]. exists []. split; [constructor|credits].
    + destruct Ht as [_ Hf]. specialize (Hf w ltac:(done) Hg). destruct (f w) as [w' m'].
      destruct Hf as (Hg' & Hl' & n' & Hn' & Hs & Hp). split_and!; [done..|]. exists [n'].
      split; [by repeat constructor|credits].
  - destruct m as [a|d f]; cbn [run_thread step] in *.
    + split_and!; [done..|]. exists []. split; [constructor|credits].
    + destruct Ht as [_ Hf]. specialize (Hf w ltac:(done) Hg). destruct (f w) as [w' m'].
      destruct Hf as (Hg' & Hl' & n' & Hn' & Hs & Hp). split_and!; [done..|]. exists [n'].
      split; [by repeat constructor|credits].
Qed.

Lemma drop_thread_pays n t v :
  thread_pays n v t -> exists ns, Forall2 (fun n t => thread_pays n v t) ns (drop_thread t) /\ sum_credits ns <= n.
Proof using HE Hcleanup.
  intros [Hn Ht]. destruct t as [m|m]; cbn [drop_thread].
  - destruct m as [a|d f]; cbn [dropped].
    + exists []. split; [constructor|done].
    + by apply spawned_pays, Ht.
  - exists [n]. split; [by repeat constructor|credits].
Qed.

(** A step of the server leaves the others what they hold. *)
Lemma thread_step_solvent debt s s' :
  thread_step s s' -> solvent debt s -> solvent debt s' /\ later (view s.1) (view s'.1).
Proof using HE Hserve Hcleanup.
  destruct 1 as [w ts rq rej d r Hr|w l t ts w' ts' Hr|w l t ts]; intros (Hg & ns & Hns & Hs); cbn [fst snd] in *.
  - split; [|done]. split; [done|]. exists (ns ++ [0]). split.
    + apply Forall2_app; [done|]. repeat constructor; [done|by apply Hserve].
    + cbn [fst snd]. credits.
  - apply Forall2_app_inv_r in Hns as (ns1 & ns2 & Hl1 & Hcons & ->).
    apply Forall2_cons_inv_r in Hcons as (n & ns3 & Hn & Hl3 & ->).
    pose proof (run_thread_pays n t w Hg Hn) as Hrun. rewrite Hr in Hrun.
    destruct Hrun as (Hg' & Hl & new & Hnew & Hsum). split; [|done]. split; [done|]. exists (ns1 ++ new ++ ns3). split.
    + apply Forall2_app; [by eapply threads_later|]. apply Forall2_app; [done|by eapply threads_later].
    + cbn [fst snd]. credits.
  - apply Forall2_app_inv_r in Hns as (ns1 & ns2 & Hl1 & Hcons & ->).
    apply Forall2_cons_inv_r in Hcons as (n & ns3 & Hn & Hl3 & ->).
    destruct (drop_thread_pays n t (view w) Hn) as (new & Hnew & Hsum). split; [|done].
    split; [done|]. exists (ns1 ++ new ++ ns3). split.
    + by repeat apply Forall2_app.
    + cbn [fst snd]. credits.
Qed.

(** The rest of the program may do what keeps the debt within the slack. *)
Lemma other_solvent debt debt' w w' ts :
  good (view w') -> later (view w) (view w') -> slack (view w) - debt <= slack (view w') - debt' ->
  solvent debt (w, ts) -> solvent debt' (w', ts).
Proof.
  intros Hg Hl Hsl (_ & ns & Hns & Hs). split; [done|]. exists ns. split; [by eapply threads_later|].
  cbn [fst snd] in *. lia.
Qed.
End threads.
