(* ===== verification/Reservations.v ===== *)
(** * The value of the journal

    What the requests of the server do to the journal and to the engine's
    channel, in credits ([Credits]). A [Valuation] says what a row of the journal
    is worth and what a command in the channel costs. If deposits and
    reservations are worth something, and a reservation pays for its order and
    for its own refund, then the server never spends more than there is: the
    commands that are sent and the refunds cost no more than the rows are worth,
    in any interleaving. *)

From S2P Require Import Prelude Asset Orderbook Trading Codec Accounting Tables World Http AppCx UserCx BitcoinClient.
From S2P Require Import Deposits Auth Handlers Server Credits.

(** ** Rows *)

Definition has_source (accs : list Account) (id : Z) (s : SourceType) : Prop :=
  exists b, b ∈ accs /\ acc_id b = id /\ source_type b = s.

Definition is_deposit (accs : list Account) (e : JournalEntry) : Prop :=
  transaction_type e = "CHAIN.DEPOSIT" /\ has_source accs (debit_account_id e) CryptoSource /\ 0 < amount e.

Definition is_reserve (accs : list Account) (e : JournalEntry) : Prop :=
  transaction_type e = "reserve asset" /\ has_source accs (credit_account_id e) FiatSource /\ 0 < amount e.

(** The row that takes [e] back. *)
Definition refund_of (n : Z) (e : JournalEntry) : JournalEntry :=
  mkEntry n (debit_account_id e) (credit_account_id e) (tx_currency e) (amount e) "revert reserve asset" None.

(** The currency in which an order is reserved. *)
Definition order_currency (po : PlaceOrder) : string :=
  match po_side po with Buy => "USD" | Sell => currency_of (po_asset po) end.

Record Valuation : Type := mkValuation {
  worth : JournalEntry -> Z;
  cost : TradingEngineCmd -> Z }.

Definition value (V : Valuation) (j : list JournalEntry) : Z := foldr (fun e z => worth V e + z) 0 j.
Definition load (V : Valuation) (l : list TradingEngineCmd) : Z := foldr (fun c z => cost V c + z) 0 l.

Lemma value_app V j k : value V (j ++ k) = value V j + value V k.
Proof. unfold value. induction j; cbn in *; lia. Qed.
Lemma value_one V e : value V [e] = worth V e.
Proof. cbn. lia. Qed.
Lemma load_app V l k : load V (l ++ k) = load V l + load V k.
Proof. unfold load. induction l; cbn in *; lia. Qed.
Lemma load_one V c : load V [c] = cost V c.
Proof. cbn. lia. Qed.
Arguments value : simpl never.
Arguments load : simpl never.

(** Refunds cost what they cost, whatever the number of the row; a reservation
    pays for its refund, or for its order. If it is [Sound], it pays for both. *)
Class Fair (accs : list Account) (V : Valuation) : Prop := {
  worth_deposit e : is_deposit accs e -> 0 <= worth V e;
  worth_refund e n : is_reserve accs e -> worth V (refund_of n e) = worth V (refund_of 0 e) /\ worth V (refund_of 0 e) <= 0;
  worth_reserve e : is_reserve accs e -> - worth V (refund_of 0 e) <= worth V e;
  cost_nonneg c : 0 <= cost V c;
  cost_cancel co : cost V (Trade (CmdCancelOrder co)) = 0;
  cost_covered e po : is_reserve accs e -> tx_currency e = order_currency po -> amount e = po_quantity po ->
    cost V (Trade (CmdPlaceOrder po)) <= worth V e }.

Class Sound (accs : list Account) (V : Valuation) : Prop := {
  sound_fair :: Fair accs V;
  cost_order e po : is_reserve accs e -> tx_currency e = order_currency po -> amount e = po_quantity po ->
    cost V (Trade (CmdPlaceOrder po)) - worth V (refund_of 0 e) <= worth V e }.

(** [guards]: what is left behind by a dropped request claims its refund. *)
Section economy.
Context `{Schema} (guards : bool) (accs : list Account) (V : Valuation).

(** A guard stands for a reservation it can refund. *)
Definition refundable (c : Cleanup) (q : Z) (v : View) : Prop :=
  match c with
  | SpawnRevert r => exists e, e ∈ journal v.1 /\ tx_id e = row_id r /\ is_reserve accs e /\ q = - worth V (refund_of 0 e)
  end.

#[export] Instance journal_economy : Economy := {|
  good v := db_wf v.1 /\ accounts v.1 = accs;
  later v v' := journal v.1 `prefix_of` journal v'.1;
  slack v := value V (journal v.1) - load V v.2;
  claim c q v := guards = true -> refundable c q v |}.

#[export] Instance journal_economy_laws : EconomyLaws.
Proof.
  split.
  - split; [intros v; cbn; reflexivity|]. intros u v w Huv Hvw. cbn in *. by etrans.
  - intros [r] q v v' Hl Hc Hg. destruct (Hc Hg) as (e & He & Hr). exists e. split; [|done]. by eapply elem_of_prefix.
Qed.

(** A change of the database that adds rows. *)
Lemma gains_rows db db' sent rows :
  good (db, sent) -> db_change db db' -> journal db' = journal db ++ rows ->
  good (db', sent) /\ later (db, sent) (db', sent) /\ slack (db', sent) = slack (db, sent) + value V rows.
Proof.
  intros [Hwf Ha] Hc Hj. cbn in *. split_and!.
  - by eapply db_change_wf.
  - rewrite (db_change_accounts _ _ Hc). done.
  - rewrite Hj. by apply prefix_app_r.
  - rewrite Hj, value_app. lia.
Qed.

Lemma gains_worth db db' sent rows :
  good (db, sent) -> db_change db db' -> journal db' = journal db ++ rows -> 0 <= value V rows ->
  gains (db, sent) (db', sent).
Proof.
  intros Hg Hc Hj Hv. destruct (gains_rows db db' sent rows Hg Hc Hj) as (Hg' & Hl & Hs).
  split; [done|]. split; [done|]. rewrite Hs. lia.
Qed.

Lemma gains_sequence db n sent :
  0 <= n -> good (db, sent) -> gains (db, sent) (mkDb (accounts db) (journal db) (next_tx_id db + n), sent).
Proof.
  intros Hn Hg.
  by apply (gains_worth _ _ _ []); [|constructor|rewrite app_nil_r|].
Qed.
End economy.

(** ** Queries *)

Section queries.
Context `{Schema} {guards : bool} {accs : list Account} {V : Valuation} `{HV : !Fair accs V}.
#[local] Existing Instance journal_economy.
#[local] Abbreviation economy := (journal_economy guards accs V).
#[local] Abbreviation ipays := (pays (H := economy)).
#[local] Abbreviation iclaims := (claims (H := economy)).

Lemma scalar_subquery_Some P `{!forall a, Decision (P a)} l id :
  scalar_subquery (filter P l) = Ok (Some id) -> exists a : Account, a ∈ l /\ acc_id a = id /\ P a.
Proof.
  destruct (filter P l) as [|a [|b k]] eqn:Hf; cbn; try discriminate. intros [= <-].
  assert (a ∈ filter P l) as [HP Ha]%list_elem_of_filter by (rewrite Hf; left). by exists a.
Qed.

Lemma insert_reserve_spec db q user cur :
  (exists err, insert_reserve db q user cur = (db, Err err)) \/
  exists e, insert_reserve db q user cur = (mkDb (accounts db) (journal db ++ [e]) (next_tx_id db + 1), Ok (tx_id e)) /\
    is_reserve (accounts db) e /\ tx_currency e = cur /\ amount e = q.
Proof.
  unfold insert_reserve. destruct (scalar_subquery _) as [[c|]|e] eqn:Hc; [| |by left; eexists].
  - destruct (scalar_subquery (filter (fun a => source_type a = UserSource /\ _) _)) as [[d|]|e]; [| |by left; eexists].
    + destruct (insert_tx_spec db c d cur q "reserve asset" None) as [_ _ _ Hq|err]; [right|by left; eexists].
      exists (mkEntry (next_tx_id db) c d cur q "reserve asset" None). split; [reflexivity|].
      split_and!; [|done..]. unfold is_reserve. cbn. split_and!; [done| |done].
      apply scalar_subquery_Some in Hc as (a & Ha & Hid & Hs & _). by exists a.
    + left. by eexists.
  - clear Hc. left. destruct (scalar_subquery _) as [[d|]|e]; eexists; reflexivity.
Qed.

Lemma find_row j e : NoDup (tx_id <$> j) -> e ∈ j -> List.find (fun e' => tx_id e' =? tx_id e) j = Some e.
Proof.
  induction j as [|e' j IH]; [by intros _ ?%elem_of_nil|]. csimpl. intros [Hn Hnd]%NoDup_cons [->|He]%elem_of_cons.
  - by rewrite Z.eqb_refl.
  - destruct (Z.eqb_spec (tx_id e') (tx_id e)) as [Heq|]; [|by apply IH].
    destruct Hn. rewrite Heq. by apply list_elem_of_fmap_2.
Qed.

(** A revert adds the refund of its row, or nothing. *)
Lemma insert_revert_spec db e :
  db_wf db -> e ∈ journal db ->
  (exists err, insert_revert db (tx_id e) = (db, Err err)) \/
  exists n r, insert_revert db (tx_id e) = (mkDb (accounts db) (journal db ++ [refund_of n e]) (next_tx_id db + 1), Ok r).
Proof.
  intros (_ & _ & Hnd) He. unfold insert_revert. rewrite find_row by done.
  destruct (insert_tx_spec db (debit_account_id e) (credit_account_id e) (tx_currency e) (amount e)
    "revert reserve asset" None); [right; by do 2 eexists|left; by eexists].
Qed.

(** Queries that only read. *)
Lemma pays_read {A} (m : prog A) n v :
  guar (touches eq eq eq) m -> 0 <= n -> ipays (fun _ n' _ => n' = n) m n v.
Proof using Type.
  intros Hm. apply (pays_guar (touches eq eq eq)); [|exact Hm]. intros w w' (Hd & _ & Hs) Hg.
  assert (view w' = view w) as -> by (unfold view; by rewrite Hd, Hs). by split_and!.
Qed.

Lemma read_balance `{UuidText} user cur : guar (touches eq eq eq) (calculate_balance_from_accounting user cur).
Proof using Type. by apply guar_query. Qed.

(** A reservation holds what its row is worth. *)
Lemma pays_reserve `{UuidText} user q cur v :
  ipays (fun r n u => match r with
    | Ok ok => exists e, e ∈ journal u.1 /\ tx_id e = row_id ok /\ is_reserve accs e /\ tx_currency e = cur /\
                 amount e = q /\ n = worth V e
    | Err _ => 0 <= n
    end) (reserve_by_asset user q cur) 0 v.
Proof using HV.
  unfold reserve_by_asset. eapply pays_bind; [apply pays_read; [apply read_balance|done]|].
  intros [[b|]|err] n v1 _ ->; [|done..]. destruct (q <=? b); [|done].
  apply (pays_bind (fun r n u => match r with
    | Ok id => exists e, e ∈ journal u.1 /\ tx_id e = id /\ is_reserve accs e /\ tx_currency e = cur /\
                 amount e = q /\ n = worth V e
    | Err _ => 0 <= n
    end)).
  - apply pays_query; [done|]. intros db sent _ Hg. split; [done|].
    pose proof (change_reserve db q (uuid_to_string user) cur) as Hc.
    destruct (insert_reserve_spec db q (uuid_to_string user) cur) as [[err Heq]|(e & Heq & He & Hcur & Hq)]; rewrite Heq in Hc |- *; cbn [fst snd] in *.
    + split_and!; [done..|]. exists 0. by split_and!.
    + destruct (gains_rows guards accs V db _ sent [e] Hg Hc eq_refl) as (Hg' & Hl' & Hs).
      split_and!; [done..|]. rewrite value_one in Hs. destruct Hg as [_ Hacc]. cbn in Hacc. rewrite Hacc in He.
      assert (0 <= worth V e) as Hw.
      { pose proof (worth_reserve e He). pose proof (worth_refund e 0 He). lia. }
      exists (worth V e). split_and!; [done|lia| |done]. exists e. split_and!; try done. cbn. apply elem_of_app. right. left.
  - intros [id|err] n v2 _ Hid; [|done]. destruct Hid as (e & He & Hid & Hr & Hcur & Hq & ->).
    assert (0 <= worth V e) as Hw.
    { pose proof (worth_reserve e Hr). pose proof (worth_refund e 0 Hr). lia. }
    eapply pays_bind; [apply pays_read; [apply read_balance|done]|].
    intros [nb|err] n v3 Hl ->; [|done].
    assert (e ∈ journal v3.1) as He3 by by eapply elem_of_prefix.
    destruct nb as [nb|]; [destruct (nb <? b)|]; cbn; [|done|]; eexists; split_and!; by try done.
Qed.

(** A revert pays with the credit of the guard. *)
Lemma pays_revert r n q v : 0 <= q <= n -> refundable accs V (SpawnRevert r) q v ->
  ipays (fun _ n' _ => 0 <= n') (revert r) n v.
Proof using HV.
  intros Hn (e & He & Hid & Hr & ->). unfold revert.
  apply pays_query; [lia|]. intros db sent Hl Hg. split; [intros; lia|].
  assert (e ∈ journal db) as Hed by (eapply elem_of_prefix; [exact He|exact Hl]).
  pose proof (change_revert db (row_id r)) as Hc. rewrite <- Hid in *.
  destruct (insert_revert_spec db e) as [[err Heq]|(n0 & id & Heq)]; [by destruct Hg|done|..]; rewrite Heq in Hc |- *; cbn [fst snd] in *.
  - split_and!; [by destruct Hg..|done|]. exists n. split_and!; [lia|lia|lia|intros; lia].
  - destruct (gains_rows guards accs V db _ sent [refund_of n0 e] Hg Hc eq_refl) as (Hg' & Hl' & Hs).
    split_and!; [by destruct Hg'..|done|]. rewrite value_one in Hs. destruct (worth_refund e n0 Hr) as [Hw _]. exists 0.
    split_and!; [done|lia|done..].
Qed.

Lemma pays_cleanup c q v : 0 <= q -> refundable accs V c q v -> ipays (fun _ _ _ => True) (run_cleanup c) q v.
Proof using HV.
  destruct c as [r]. intros Hq Hr. cbn [run_cleanup]. eapply pays_bind; [by apply (pays_revert r q q)|done].
Qed.
End queries.

(** ** Orders *)

Section orders.
Context `{Schema, UuidText} {guards : bool} {accs : list Account} {V : Valuation} `{HV : !Fair accs V}.
#[local] Existing Instance journal_economy.
#[local] Abbreviation economy := (journal_economy guards accs V).
#[local] Abbreviation ipays := (pays (H := economy)).
#[local] Abbreviation iclaims := (claims (H := economy)).

(** A command is sent at its cost, or not at all. *)
Lemma pays_send cmd n v :
  0 <= n - cost V cmd ->
  ipays (fun r n' _ => n' = match r with Ok _ => n - cost V cmd | Err _ => n end) (send cmd) n v.
Proof using HV.
  intros Hn. pose proof (cost_nonneg cmd) as Hc. apply pays_atomically; [lia|]. intros w _ Hg.
  destruct (w_open w); cbn [fst snd].
  - split; [exact Hg|]. split; [unfold view; cbn; reflexivity|]. exists (n - cost V cmd). split_and!; [done| |done].
    unfold view. cbn [slack journal_economy w_db w_sent set_sent fst snd]. rewrite load_app, load_one. lia.
  - split; [exact Hg|]. split; [unfold view; cbn; reflexivity|]. exists n. split_and!; [lia|lia|done].
Qed.

(** A placed order has spent its cost of what its row is worth. *)
Definition order_paid (ok : ReserveOk) (n : Z) (v : View) : Prop :=
  exists e po, e ∈ journal v.1 /\ tx_id e = row_id ok /\ is_reserve accs e /\
    tx_currency e = order_currency po /\ amount e = po_quantity po /\ n = worth V e - cost V (Trade (CmdPlaceOrder po)).

Lemma pays_place_order asset user order v :
  ipays (fun r n u => match r with Ok ok => order_paid ok n u | Err _ => 0 <= n end)
    (place_order asset user order) 0 v.
Proof using HV.
  unfold place_order. eapply pays_bind; [apply pays_read; [by apply guar_read|done]|].
  intros st n v1 _ ->. destruct (negb _); [done|]. destruct order as [side ot q p tif stp].
  set (po := PlaceOrder_new asset user p q ot stp tif side).
  apply (pays_bind (fun r n u => match r with
    | Ok ok => exists e, e ∈ journal u.1 /\ tx_id e = row_id ok /\ is_reserve accs e /\
                 tx_currency e = order_currency po /\ amount e = q /\ n = worth V e
    | Err _ => 0 <= n
    end)).
  { destruct side; apply pays_reserve. }
  intros [ok|err] n v2 _ Hr; [|by destruct err].
  destruct Hr as (e & He & Hid & Hr & Hcur & Hq & ->). pose proof (cost_covered e po Hr Hcur Hq) as Hcost.
  eapply pays_bind; [apply pays_send; fold po; lia|].
  intros [[]|[]] n v3 Hl ->; cbv zeta.
  - exists e, po. split_and!; try done. by eapply elem_of_prefix.
  - eapply pays_bind; [|by intros a n v4 _ Hn; exact Hn]. apply (pays_revert ok _ (- worth V (refund_of 0 e))).
    + pose proof (worth_reserve e Hr). destruct (worth_refund e 0 Hr). lia.
    + exists e. split_and!; try done. by eapply elem_of_prefix.
Qed.

(** The handler, with a guard that claims its refund, if both are paid for; or
    without, if the engine places the order. *)
Lemma pays_trade_add_order `{HS : !Sound accs V} answer enabled user asset body v :
  ipays (fun r n u => iclaims (option_list r.2) n u) (trade_add_order answer enabled user asset body) 0 v.
Proof using HV.
  unfold trade_add_order. destruct (asset_of_param asset) as [as_|]; [|by apply claims_nil].
  destruct (negb _); [by apply claims_nil|]. eapply pays_bind; [apply pays_place_order|].
  intros [ok|err] n v1 _ Hok; [|by apply claims_nil]. cbv zeta.
  destruct Hok as (e & po & He & Hid & Hr & Hcur & Hq & ->).
  destruct (worth_refund e 0 Hr) as [_ Hrefund]. pose proof (cost_order e po Hr Hcur Hq) as Hcost.
  set (q := - worth V (refund_of 0 e)). set (n := worth V e - _).
  assert (refundable accs V (SpawnRevert ok) q v1) as Hc by by exists e.
  replace n with (q + (n - q)) by lia.
  eapply pays_bind; [apply (pays_with_guard (fun _ n' _ => n' = n - q) (SpawnRevert ok) q); [lia|by intros _|]|].
  { apply pays_read; [by apply guar_read|lia]. }
  intros res k v2 _ [Hclaim Hk]. cbn [guard_f defer_revert defer] in *.
  assert (iclaims [SpawnRevert ok] k v2) as Hone.
  { exists [q]. split; [|credits]. repeat constructor; [lia|done]. }
  destruct res as [[res|[]]|]; cbn; try exact Hone. apply claims_nil. lia.
Qed.

Lemma pays_placed_order (Hg : guards = false) res enabled user asset body v :
  ipays (fun r n u => r.2 = None) (trade_add_order (Some (Ok res)) enabled user asset body) 0 v.
Proof using HV.
  unfold trade_add_order. destruct (asset_of_param asset) as [as_|]; [|done].
  destruct (negb _); [done|]. eapply pays_bind; [apply pays_place_order|].
  intros [ok|err] n v1 _ Hok; [|done]. cbv zeta.
  destruct Hok as (e & po & He & Hid & Hr & Hcur & Hq & ->). pose proof (cost_covered e po Hr Hcur Hq) as Hcost.
  set (n := worth V e - _). change n with (0 + n).
  eapply pays_bind; [apply (pays_with_guard (fun a _ _ => a = Some (Ok res)) (SpawnRevert ok) 0); [done|by rewrite Hg|]|].
  { apply pays_atomically; [lia|]. intros w _ Hw. split; [exact Hw|]. split; [reflexivity|]. exists n.
    split_and!; [lia|reflexivity|done]. }
  by intros ans k v2 _ [_ ->].
Qed.
End orders.

(** ** Deposits *)

Section deposits.
Context `{Schema, UuidText} {guards : bool} {accs : list Account} {V : Valuation} `{HV : !Fair accs V}.
#[local] Existing Instance journal_economy.
#[local] Abbreviation economy := (journal_economy guards accs V).
#[local] Abbreviation ipays := (pays (H := economy)).
#[local] Abbreviation igains := (gains (H := economy)).

(** A step that takes numbers from the sequence at most. *)
Definition seq_step (db db' : Db) : Prop :=
  exists n, 0 <= n /\ db' = mkDb (accounts db) (journal db) (next_tx_id db + n).

#[export] Instance seq_step_refl : Reflexive seq_step.
Proof. intros db. exists 0. split; [done|]. rewrite Z.add_0_r. by destruct db. Qed.

Lemma seq_step_next db n : 0 <= n -> seq_step db (mkDb (accounts db) (journal db) (next_tx_id db + n)).
Proof. by exists n. Qed.

Lemma pays_seq {A} (m : prog A) n v :
  guar (touches seq_step eq eq) m -> 0 <= n -> ipays (fun _ n' _ => n' = n) m n v.
Proof using H.
  intros Hm. apply (pays_guar (touches seq_step eq eq)); [|exact Hm].
  intros w w' ((k & Hk & Hd) & _ & Hs) Hg. unfold view in *. rewrite Hd, <- Hs. by apply gains_sequence.
Qed.

(** A SELECT of a transaction, whose answer speaks of the accounts. *)
Lemma pays_tx_select {R} tx (q : Db -> result R SqlxError) n v :
  0 <= n ->
  ipays (fun r n' _ => n' = n /\ tx_rows r.1 = tx_rows tx /\
           forall a, r.2 = Ok a -> exists db, accounts db = accs /\ q db = Ok a) (tx_query tx (select q)) n v.
Proof using H.
  intros Hn. apply pays_atomically; [done|]. intros w _ Hg.
  assert (view (pop_fault w).2 = view w) as Hv by (unfold pop_fault, view; by destruct (w_faults w)).
  destruct (pop_fault w) as [f w1]. cbn [snd] in Hv. rewrite <- Hv in *. destruct f.
  2,3: cbn [fst snd]; split; [exact Hg|]; split; [reflexivity|]; exists n; by split_and!.
  unfold tx_statement. destruct (tx_aborted tx); cbn [select fst snd].
  - replace (set_db w1 (w_db w1)) with w1 by by destruct w1. split; [exact Hg|]. split; [reflexivity|].
    exists n. by split_and!.
  - cbn [accounts journal next_tx_id]. replace (mkDb (accounts (w_db w1)) (journal (w_db w1)) (next_tx_id (w_db w1)))
      with (w_db w1) by by destruct (w_db w1).
    rewrite set_db_id. split; [exact Hg|]. split; [reflexivity|]. exists n. split_and!; try done.
    + cbn [tx_rows]. by rewrite drop_app_length.
    + intros a Ha. eexists. split; [|exact Ha]. exact (proj2 Hg).
Qed.

(** The INSERTs of the loop stay in the transaction. *)
Lemma pays_deposit_loop u b known tx txs v :
  has_source accs b CryptoSource -> Forall (is_deposit accs) (tx_rows tx) ->
  ipays (fun r n' _ => n' = 0 /\ Forall (is_deposit accs) (tx_rows r.1)) (deposit_loop u b known tx txs) 0 v.
Proof using H.
  intros Hb. revert tx v. induction txs as [|t txs IH]; intros tx v Htx; cbn [deposit_loop]; [done|].
  destruct (bool_decide _); [by apply IH|].
  apply (pays_bind (fun r n' _ => n' = 0 /\ Forall (is_deposit accs) (tx_rows r.1))).
  - apply pays_atomically; [done|]. intros w _ Hg.
    assert (view (pop_fault w).2 = view w) as Hv by (unfold pop_fault, view; by destruct (w_faults w)).
    destruct (pop_fault w) as [f w1]. cbn [snd] in Hv. rewrite <- Hv in *. destruct f.
    2,3: cbn [fst snd]; split; [exact Hg|]; split; [reflexivity|]; exists 0; by split_and!.
    unfold tx_statement. destruct (tx_aborted tx).
    { cbn [fst snd]. rewrite set_db_id. split; [exact Hg|]. split; [reflexivity|]. exists 0. by split_and!. }
    set (db1 := mkDb _ _ _).
    pose proof (insert_tx_spec db1 u b "BTC" (f64_as_i64 (pt_amount t)) "CHAIN.DEPOSIT" (Some (pt_txid t))) as Hi.
    assert (forall k, 0 <= k -> igains (view w1)
      (view (set_db w1 (mkDb (accounts (w_db w1)) (journal (w_db w1)) (next_tx_id (w_db w1) + k))))) as Hgain.
    { intros k Hk. by apply gains_sequence. }
    destruct Hi as [_ _ _ Hamt|err]; cbn [fst snd accounts journal next_tx_id db1].
    + destruct (Hgain 1 ltac:(done)) as (Hg' & Hl' & Hs). split; [exact Hg'|]. split; [exact Hl'|].
      exists 0. split_and!; [done|lia|done|]. cbn [tx_rows]. rewrite <- app_assoc, drop_app_length.
      apply Forall_app_2; [done|]. apply Forall_singleton. unfold is_deposit. by cbn.
    + destruct (Hgain 0 ltac:(done)) as (Hg' & Hl' & Hs). rewrite Z.add_0_r in *.
      split; [exact Hg'|]. split; [exact Hl'|].
      exists 0. split_and!; [done|lia|done|]. cbn [tx_rows]. by rewrite drop_app_length.
  - intros [tx' [id|e]] n v' _ [-> Hrows]; [by apply IH|done].
Qed.

Lemma pays_commit tx v :
  Forall (is_deposit accs) (tx_rows tx) -> ipays (fun _ n' _ => n' = 0) (commit_tx tx) 0 v.
Proof using H HV.
  intros Hrows. apply pays_atomically; [done|]. intros w _ Hg.
  assert (view (pop_fault w).2 = view w) as Hv by (unfold pop_fault, view; by destruct (w_faults w)).
  destruct (pop_fault w) as [f w1]. cbn [snd] in Hv. rewrite <- Hv in *.
  assert (igains (view w1) (view w1)) as Hnone by by split_and!.
  set (q := if tx_aborted tx then _ else _).
  assert (igains (view w1) (view q.1)) as (Hg' & Hl' & Hs').
  { subst q. destruct (tx_aborted tx); [exact Hnone|]. destruct (commit_rows _ _) as [db'|] eqn:Hc; [|exact Hnone].
    apply (gains_worth guards accs V _ _ _ (tx_rows tx) Hg); [by econstructor|by rewrite (commit_rows_journal _ _ _ Hc)|].
    clear -Hrows HV. induction Hrows as [|e rows He _ IH]; [done|]. pose proof (worth_deposit e He).
    unfold value in *. cbn. lia. }
  destruct f; cbn [fst snd].
  - split; [exact Hg'|]. split; [exact Hl'|]. exists 0. split_and!; [done|lia|done].
  - split; [exact Hg|]. split; [reflexivity|]. exists 0. by split_and!.
  - split; [exact Hg'|]. split; [exact Hl'|]. exists 0. split_and!; [done|lia|done].
Qed.

Lemma fetch_one_elem (db : Db) a : fetch_one (btc_accounts db) = Ok a -> has_source (accounts db) (acc_id a) CryptoSource.
Proof.
  intros Ha%fetch_one_head%head_Some. destruct Ha as [l Hl].
  assert (a ∈ btc_accounts db) as [[Hs _] Hin]%list_elem_of_filter by (rewrite Hl; left). by exists a.
Qed.

Context `{HN : BitcoinRpcClientLaws}.

Lemma pays_import user v : ipays (fun _ n' _ => n' = 0) (update_user_accounts user) 0 v.
Proof using H HV HN.
  unfold update_user_accounts, check_bitcoind. eapply pays_bind; [|by intros a n v1 _ Hn; exact Hn].
  apply (pays_bind (fun r n' _ => n' = 0 /\ forall tx, r = Ok tx -> tx_rows tx = [])).
  { apply pays_atomically; [done|]. intros w _ Hg.
    assert (view (pop_fault w).2 = view w) as Hv by (unfold pop_fault, view; by destruct (w_faults w)).
    destruct (pop_fault w) as [f w1]. cbn [snd] in Hv. rewrite <- Hv in *.
    destruct f; cbn [fst snd]; (split; [exact Hg|]; split; [reflexivity|]; exists 0; split_and!; try done);
      by intros tx [= <-]. }
  intros [tx|e] n v1 _ [-> Htx]; [|done]. specialize (Htx tx eq_refl).
  eapply pays_bind; [by apply pays_tx_select|]. intros [tx1 [b|e]] n v2 _ (-> & Hrows1 & Hb); [|done]. cbn in Hrows1, Hb.
  destruct (Hb b eq_refl) as (db & Hacc & Hfetch). apply fetch_one_elem in Hfetch. rewrite Hacc in Hfetch.
  eapply pays_bind; [by apply pays_tx_select|]. intros [tx2 [a|e]] n v3 _ (-> & Hrows2 & _); [|done]. cbn in Hrows2.
  eapply pays_bind; [by apply pays_tx_select|]. intros [tx3 [rows|e]] n v4 _ (-> & Hrows3 & _); [|done]. cbn in Hrows3.
  cbv zeta. eapply pays_bind; [apply pays_read; [apply list_transactions_still|done]|].
  intros [txs|e] n v5 _ ->; [|done].
  eapply pays_bind; [apply pays_deposit_loop; [exact Hfetch|by rewrite Hrows3, Hrows2, Hrows1, Htx]|].
  intros [tx4 [[]|e]] n v6 _ [-> Hall]; [|done]. by apply pays_commit.
Qed.
End deposits.

(** ** Requests *)

Section requests.
Context `{Schema, UuidText, Argon2, Hex, IpText, CookieText, SqlxText, Rfc3339, MapOrder, DistinctOrder, Chrono,
  JinjaLaws, BitcoinRpcClientLaws}.
Context {guards : bool} {accs : list Account} {V : Valuation} `{HV : !Fair accs V}.
#[local] Abbreviation economy := (journal_economy guards accs V).
#[local] Abbreviation ipays := (pays (H := economy)).

(** A command that is not an order costs nothing to send. *)
Definition sends_cancel (l l' : list TradingEngineCmd) : Prop :=
  l' = l \/ exists c, l' = l ++ [Trade (CmdCancelOrder c)].

#[local] Instance sends_cancel_refl : Reflexive sends_cancel.
Proof. by left. Qed.

Lemma pays_balance_page target currency user v :
  ipays (fun _ n' _ => n' = 0) (user_balance_page target currency user) 0 v.
Proof using H HV H13.
  unfold user_balance_page. case_match; [done|]. case_match; [done|].
  eapply pays_bind; [apply pays_import|]. intros [] n v1 _ ->. case_match.
  - eapply pays_bind; [apply pays_seq; [apply guar_user_balance, seq_step_next|done]|].
    intros [details|e] n v2 _ ->; done.
  - cbv zeta. eapply pays_bind; [apply pays_read; [apply read_balance|done]|].
    intros [b|e] n v2 _ ->; done.
Qed.

(** A request that spawns nothing. *)
Definition spawns_nothing (m : prog Reply) : Prop := keeps (fun _ => True) (fun r => r.2 = None) m.

Lemma spawns_plain m : spawns_nothing (plain m).
Proof using Type. apply (keeps_bind (fun _ => True)); [apply keeps_any|]. intros a _. by apply keeps_ret. Qed.

Lemma spawns_extracted rej m : spawns_nothing m -> spawns_nothing (extracted rej m).
Proof using Type. by destruct rej; [intros _; apply keeps_ret|]. Qed.

Lemma spawns_validated rq next :
  (forall user, spawns_nothing (next user)) ->
  spawns_nothing (validate_session_token rq next) /\ spawns_nothing (validate_session_token_or_redirect rq next).
Proof using Type.
  intros Hn. split; (apply (keeps_bind (fun _ => True)); [apply keeps_any|]); intros [user|[s m]] _; try apply Hn.
  - by apply keeps_ret.
  - case_match; by apply keeps_ret.
Qed.

Definition is_trade_order (r : ApiRequest) : bool := match r with PostTradeOrder _ _ => true | _ => false end.

Lemma spawns_serve rq rej d r : is_trade_order r = false -> spawns_nothing (serve rq rej d r).
Proof using Type.
  intros Hr. unfold serve. destruct r; try discriminate Hr; cbn [route];
    first [apply spawns_extracted, spawns_plain|apply spawns_validated; intros; apply spawns_extracted, spawns_plain].
Qed.

Lemma pays_validated (Q : Reply -> Z -> View -> Prop) rq next v :
  (forall user u, ipays Q (next user) 0 u) -> (forall resp u, Q (resp, None) 0 u) ->
  ipays Q (validate_session_token rq next) 0 v.
Proof using H.
  intros Hn HQ. eapply pays_bind; [apply pays_read; [apply guar_try_validate|done]|].
  intros [user|[s m]] n v1 _ ->; [apply Hn|apply HQ].
Qed.

(** Everything but an order keeps its credit, and spawns nothing. *)
Lemma pays_serve_other rq rej d r v :
  is_trade_order r = false -> ipays (fun r n' _ => n' = 0 /\ r.2 = None) (serve rq rej d r) 0 v.
Proof using H HV H11 H13.
  intros Ht. destruct (writes_journal r) eqn:Hw.
  { destruct r; try discriminate Ht; try discriminate Hw. apply pays_validated; [|done]. intros user u.
    destruct rej; [done|]. eapply pays_bind; [apply pays_balance_page|]. by intros resp n u' _ ->. }
  apply (pays_guar_keeps (touches eq (rtc tables_change) sends_cancel) (fun r => r.2 = None));
    [|apply guar_serve, guar_route; [|exact Hw]|by apply spawns_serve|done].
  - intros w w' (Hd & _ & Hs) Hg. unfold view in *. rewrite <- Hd. destruct Hs as [->|[c ->]]; [by split_and!|].
    split; [exact Hg|]. split; [cbn; reflexivity|]. cbn [slack journal_economy fst snd]. rewrite load_app, load_one, cost_cancel. lia.
  - intros l c _. right. by exists c.
Qed.

Lemma pays_serve `{HS : !Sound accs V} rq rej d r v :
  ipays (fun r n' u => claims (H := economy) (option_list r.2) n' u) (serve rq rej d r) 0 v.
Proof using H HV H11 H13.
  destruct (is_trade_order r) eqn:Ht.
  - destruct r; try discriminate Ht. apply pays_validated; [|intros; by apply claims_nil]. intros user u.
    destruct rej; [by apply claims_nil|by apply pays_trade_add_order].
  - eapply pays_mono; [|by apply pays_serve_other]. intros [resp c] n u _ [-> Hc]. cbn in Hc. subst c. by apply claims_nil.
Qed.

(** A request whose order is placed. *)
Lemma pays_serve_placed (Hg : guards = false) rq rej d res r v :
  dr_placed d = Some (Ok res) -> ipays (fun r _ _ => r.2 = None) (serve rq rej d r) 0 v.
Proof using H HV H11 H13.
  intros Hd. destruct (is_trade_order r) eqn:Ht.
  - destruct r; try discriminate Ht. apply pays_validated; [|done]. intros user u.
    destruct rej; [done|]. rewrite Hd. by apply pays_placed_order.
  - eapply pays_mono; [|by apply pays_serve_other]. by intros [resp c] n u _ [_ Hc].
Qed.
End requests.
