(* ===== verification/Balances.v ===== *)
(** * Where the money of a user comes from

    Requests interleave, are dropped half-way, leave tasks behind that take
    reservations back, and queries fail with or without effect. Through all of
    it the balance of a user rises by no more than the deposits from the chain
    that were entered for the user: a refund gives back what its reservation
    took, at most once. A [Valuation] of the journal ([Reservations]) whose rows
    are worth what a deposit adds beyond the transfer says so. *)

From S2P Require Import Prelude Asset Json Trading Codec Accounting Tables World Http AppCx UserCx BitcoinClient.
From S2P Require Import Deposits Auth Handlers Server Credits Reservations.

(** What the deposits from the chain among the rows [j] bring to an account. *)
Definition deposited (id : Z) (e : JournalEntry) : Z :=
  if bool_decide (transaction_type e = "CHAIN.DEPOSIT") && (credit_account_id e =? id) then amount e else 0.
Definition deposits_to (id : Z) (j : list JournalEntry) : Z := foldr (fun e z => deposited id e + z) 0 j.

Lemma not_deposited id e : transaction_type e <> "CHAIN.DEPOSIT" -> deposited id e = 0.
Proof. intros Ht. unfold deposited. by rewrite bool_decide_false. Qed.

Lemma deposits_to_app id j k : deposits_to id (j ++ k) = deposits_to id j + deposits_to id k.
Proof. unfold deposits_to. induction j; cbn in *; lia. Qed.

(** A row is worth what it brings to the account less what it moves there. *)
Definition unspent (id : Z) : Valuation := mkValuation (fun e => deposited id e - transfer e id) (fun _ => 0).

Lemma value_unspent id j : value (unspent id) j = deposits_to id j - balance_of id j.
Proof.
  unfold value, deposits_to, balance_of, total_credit, total_debit. induction j as [|e j IH]; [done|].
  cbn [foldr worth unspent] in *. unfold transfer in *. lia.
Qed.

(** Accounts with one source are not those with another one. *)
Lemma has_source_ne accs a id s :
  NoDup (acc_id <$> accs) -> a ∈ accs -> has_source accs id s -> source_type a <> s -> id <> acc_id a.
Proof.
  intros Hnd Ha (b & Hb & <- & Hs) Hne Heq. apply Hne. rewrite <- Hs. f_equal.
  revert Ha Hb Heq. clear -Hnd. induction accs as [|c l IH]; [by intros ?%elem_of_nil|].
  apply NoDup_cons in Hnd as [Hc Hnd]. intros [->|Ha]%elem_of_cons [->|Hb]%elem_of_cons Heq; try done.
  - destruct Hc. rewrite <- Heq. by apply list_elem_of_fmap_2.
  - destruct Hc. rewrite Heq. by apply list_elem_of_fmap_2.
  - by apply IH.
Qed.

Lemma unspent_sound accs a :
  NoDup (acc_id <$> accs) -> a ∈ accs -> source_type a = UserSource -> Sound accs (unspent (acc_id a)).
Proof.
  intros Hnd Ha Hu.
  assert (forall e, is_deposit accs e -> debit_account_id e <> acc_id a) as Hdep.
  { intros e (_ & Hs & _). by apply (has_source_ne accs a _ CryptoSource); [..|congruence]. }
  assert (forall e, is_reserve accs e -> credit_account_id e <> acc_id a /\ 0 < amount e /\ transaction_type e = "reserve asset") as Hres.
  { intros e (Ht & Hs & Hamt). split; [|done]. by apply (has_source_ne accs a _ FiatSource); [..|congruence]. }
  assert (forall e n, is_reserve accs e -> worth (unspent (acc_id a)) e = transfer e (acc_id a) * -1 /\
    worth (unspent (acc_id a)) (refund_of n e) = transfer e (acc_id a) /\ transfer e (acc_id a) <= 0) as Hpair.
  { intros e n He. destruct (Hres e He) as (Hc & Hamt & Ht). cbn [worth unspent].
    rewrite !not_deposited by (rewrite ?Ht; discriminate). unfold transfer. cbn.
    rewrite (proj2 (Z.eqb_neq _ _) Hc). case_match; lia. }
  split; [split|].
  - intros e He. pose proof (Hdep e He) as Hd. destruct He as (Ht & _ & Hamt). cbn. unfold deposited, transfer.
    rewrite bool_decide_true by done. cbn [andb]. rewrite (proj2 (Z.eqb_neq _ _) Hd). lia.
  - intros e n He. pose proof (Hpair e n He). pose proof (Hpair e 0 He). lia.
  - intros e He. pose proof (Hpair e 0 He). lia.
  - done.
  - done.
  - intros e po He _ _. pose proof (Hpair e 0 He). cbn [cost unspent]. lia.
  - intros e po He _ _. pose proof (Hpair e 0 He). cbn [cost unspent]. lia.
Qed.

Section server.
Context `{Schema, UuidText, Argon2, Hex, IpText, CookieText, SqlxText, Rfc3339, MapOrder, DistinctOrder, Chrono,
  JinjaLaws, BitcoinRpcClientLaws}.

(** Where commands cost nothing, the value of the journal never falls. *)
Section free.
Context {accs : list Account} {V : Valuation} `{HV : !Sound accs V} (Hfree : forall c, cost V c = 0).
#[local] Existing Instance journal_economy.
#[local] Abbreviation economy := (journal_economy true accs V).

Lemma load_free l : load V l = 0.
Proof using Hfree. unfold load. induction l; cbn; [done|]. rewrite Hfree. lia. Qed.

Lemma server_value s s' debt :
  rtc server_step s s' -> solvent (H := economy) debt s ->
  solvent (H := economy) debt s' /\ later (Economy := economy) (view s.1) (view s'.1).
Proof using All.
  induction 1 as [s|s1 s2 s3 Hst _ IH]; [done|]. intros Hs.
  assert (solvent (H := economy) debt s2 /\ later (Economy := economy) (view s1.1) (view s2.1)) as [Hs2 Hl].
  { destruct Hst as [s1 s2 Hst|w w' ts (Hd & _)].
    - eapply thread_step_solvent; [intros; by apply pays_serve|intros c q v Hq Hc; by apply pays_cleanup, Hc|exact Hst|exact Hs].
    - split; [|unfold view; cbn; by rewrite Hd].
      apply (other_solvent debt debt w); [..|exact Hs]; destruct Hs as [Hg _]; unfold view in *; cbn in *;
        rewrite Hd; [done|done|]. rewrite !load_free. lia. }
  destruct (IH Hs2) as [Hs3 Hl3]. split; [done|]. by etrans.
Qed.
End free.

(** C18: nobody is credited more than was deposited. From any consistent
    database, whatever requests come and however they interleave, are dropped,
    lose their connections and leave tasks behind: rows are only added to the
    journal, and over the new rows the balance of a user's account rises by no
    more than the deposits from the chain that were entered for it - no
    reservation is taken back twice, none that was not made, and no order gives
    anybody money. *)
Theorem balance_backed_by_deposits w w' ts a
    (Hwf : db_wf (w_db w)) (Ha : a ∈ accounts (w_db w)) (Hu : source_type a = UserSource)
    (Hrun : rtc server_step (w, []) (w', ts)) :
  exists new, journal (w_db w') = journal (w_db w) ++ new /\
    balance_of (acc_id a) (journal (w_db w')) <=
      balance_of (acc_id a) (journal (w_db w)) + deposits_to (acc_id a) new.
Proof.
  pose proof (unspent_sound _ a (proj1 Hwf) Ha Hu) as HV. set (V := unspent (acc_id a)) in *.
  set (economy := journal_economy true (accounts (w_db w)) V).
  destruct (server_value (V := V) ltac:(done) _ _ (slack (Economy := economy) (view w)) Hrun) as [Hs [new Hj]].
  { by apply solvent_init. }
  exists new. cbn in Hj. split; [done|]. apply solvent_slack in Hs. cbn in Hs. revert Hs.
  rewrite !load_free by done. subst V. rewrite !value_unspent. cbn.
  unfold view in *. cbn [fst] in *. rewrite Hj at 1. rewrite deposits_to_app. lia.
Qed.
End server.

(** ** A concrete run: a page with a deposit on it *)

Section witnesses.
#[local] Existing Instances decimal_uuid_text plain_argon2 no_ips whole_seconds table_order.
#[local] Existing Instances demo_hex demo_cookie demo_sqlx demo_rfc3339 demo_map_order demo_jinja demo_node.

Definition demo_saver : World := set_db demo_logged_in (w_db demo_chain).
Definition demo_saver_page : prog Reply :=
  serve (H := all_migrations) (demo_request "12") None demo_draws (GetUserBalance 7%N "BTC").
Definition demo_saver_after : World :=
  set_db demo_saver (mkDb (accounts (w_db demo_saver))
    (journal (w_db demo_saver) ++ [mkEntry 2 3 2 "BTC" 70 "CHAIN.DEPOSIT" (Some "t2")]) 3).

Lemma demo_saver_run :
  exists resp, exec demo_saver_page demo_saver = (demo_saver_after, Return (resp, None)) /\ status resp = OK.
Proof. vm_compute. eexists. split; reflexivity. Qed.

Lemma balance_backed_by_deposits_witness :
  rtc (server_step (H := all_migrations)) (demo_saver, []) (demo_saver_after, []) /\
  balance_of 3 (journal (w_db demo_saver)) = 500 /\ balance_of 3 (journal (w_db demo_saver_after)) = 570 /\
  exists new, journal (w_db demo_saver_after) = journal (w_db demo_saver) ++ new /\ 70 <= deposits_to 3 new.
Proof.
  assert (rtc (server_step (H := all_migrations)) (demo_saver, []) (demo_saver_after, [])) as Hr.
  { eapply rtc_l; [apply srv_thread, (thr_arrive _ [] (demo_request "12") None demo_draws (GetUserBalance 7%N "BTC")); done|].
    pose proof (request_runs (H := all_migrations) demo_saver_page demo_saver) as Hx.
    destruct demo_saver_run as (resp & He & _). rewrite He in Hx. exact Hx. }
  split; [exact Hr|]. split; [reflexivity|]. split; [reflexivity|].
  destruct (balance_backed_by_deposits (H := all_migrations) (H11 := demo_jinja_laws) (H13 := demo_client_laws [demo_deposit "t2" 70])
    demo_saver demo_saver_after [] demo_wallet) as (new & Hj & Hb).
  - apply (demo_chain_setup []).
  - right; right; left.
  - reflexivity.
  - exact Hr.
  - exists new. split; [exact Hj|]. change (570 <= 500 + deposits_to 3 new) in Hb. lia.
Defined.
End witnesses.
