(* ===== verification/Engine.v ===== *)
(** * The trading engine supervisor and its event log
    (src/exchange/src/spawn_trading_engine.rs).

    The supervisor is a loop over the commands it receives. A command comes
    with what the world does while it is handled ([CmdEnv]: the uuid drawn for
    an order, and the database's answer to the INSERT); handling it gives the
    next engine and the reply put into the command's oneshot channel, [None]
    when the channel is dropped without a reply. *)

From S2P Require Import Prelude Asset Orderbook PendingFill TryFill MatchSpec Trading Json Codec.

(** ** Data *)

Record CmdEnv : Type := mkCmdEnv {
  env_order_uuid : OrderUuid;
  env_insert : result unit SqlxError }.

Section supervisor.
Context `{BuildProfile} {Json : Type} `{EventCodec Json}.

(** [event_source]: the rows of the trading_event_source table, by id. *)
Record Engine : Type := mkEngine {
  running : bool;
  assets : Assets;
  event_source : list Json }.

Definition Engine_new (rows : list Json) : Engine := mkEngine true Assets_new rows.

Inductive signal : Type :=
| Continue (e : Engine) (reply : option Reply)
| Break.

(** The [try_event_log!] macro. *)
Definition try_event_log {A} (e : Engine) (jstr : option Json)
    (run : outcome (Assets * result A TradingEngineError)) (insert : result unit SqlxError) :
    outcome (Engine * result A TradingEngineError) :=
  match jstr with
  | Some jstr =>
      '(assets', res) ← run;
      match insert with
      | Ok _ => Return (mkEngine (running e) assets' (event_source e ++ [jstr]), res)
      | Err err => Return (mkEngine (running e) assets' (event_source e), Err (Database err))
      end
  | None => Return (e, Err UnserializableInput)
  end.

(** One round of the loop of [trading_engine_supervisor]. *)
Definition handle_cmd (e : Engine) (cmd : TradingEngineCmd) (env : CmdEnv) : outcome signal :=
  if negb (running e) then Return (Continue e None)
  else match cmd with
  | Suspend => Return (Continue (mkEngine false (assets e) (event_source e)) None)
  | Resume => Return (Continue (mkEngine true (assets e) (event_source e)) None)
  | Shutdown => Return Break
  | Trade (CmdPlaceOrder place_order) =>
      '(e', t) ← try_event_log e (place_to_value place_order)
                  (do_place_order (assets e) place_order (env_order_uuid env)) (env_insert env);
      Return (Continue e' (Some (PlaceReply t)))
  | Trade (CmdCancelOrder cancel_order) =>
      '(e', t) ← try_event_log e (cancel_to_value cancel_order)
                  (do_cancel_order (assets e) cancel_order) (env_insert env);
      Return (Continue e' (Some (CancelReply t)))
  | Bootstrap (PayloadPlaceOrder place_order) =>
      '(assets', _) ← do_place_order (assets e) place_order (env_order_uuid env);
      Return (Continue (mkEngine (running e) assets' (event_source e)) None)
  | Bootstrap (PayloadCancelOrder cancel_order) =>
      '(assets', _) ← do_cancel_order (assets e) cancel_order;
      Return (Continue (mkEngine (running e) assets' (event_source e)) None)
  end.

(** The loop: the replies in order, and whether it ended on [Shutdown]. *)
Fixpoint trading_engine_supervisor (e : Engine) (cmds : list (TradingEngineCmd * CmdEnv)) :
    outcome (Engine * list (option Reply) * bool) :=
  match cmds with
  | [] => Return (e, [], false)
  | (cmd, env) :: cmds' =>
      s ← handle_cmd e cmd env;
      match s with
      | Break => Return (e, [], true)
      | Continue e' reply =>
          '(e'', replies, stopped) ← trading_engine_supervisor e' cmds';
          Return (e'', reply :: replies, stopped)
      end
  end.

(** [init_from_db]: the commands sent for the rows of the SELECT, up to the
    first row that could not be fetched. *)
Fixpoint init_from_db (rows : list (result Json SqlxError)) :
    outcome (list TradingEngineCmd * result unit SqlxError) :=
  match rows with
  | [] => Return ([], Ok tt)
  | Err err :: _ => Return ([], Err err)
  | Ok jstr :: rows' =>
      payload ← expect (payload_from_value jstr)
                  "called `Result::unwrap()` on an `Err` value";
      '(cmds, r) ← init_from_db rows';
      Return (Bootstrap payload :: cmds, r)
  end.

(** ** The state a log stands for *)

Definition apply_payload (a : Assets) (p : TradeCmdPayload) : outcome Assets :=
  match p with
  | PayloadPlaceOrder po => fst <$> do_place_order a po 0%N
  | PayloadCancelOrder co => fst <$> do_cancel_order a co
  end.

Fixpoint replay (a : Assets) (rows : list Json) : outcome Assets :=
  match rows with
  | [] => Return a
  | jstr :: rows' =>
      p ← expect (payload_from_value jstr) "called `Result::unwrap()` on an `Err` value";
      a' ← apply_payload a p;
      replay a' rows'
  end.

(** The engine's books are the ones its log rebuilds. *)
Definition synced (e : Engine) : Prop := replay Assets_new (event_source e) = Return (assets e).
End supervisor.
Arguments Engine : clear implicits.
Arguments signal : clear implicits.

(** ** Reachable engines *)

(** Sorted, well-formed and uncrossed books, no more than [n] sequence numbers
    in use, and no order known by uuid. *)
Definition engine_inv (n : Z) (a : Assets) : Prop :=
  assets_wf n a /\ order_uuids a = ∅ /\ forall asset, uncrossed (abs_book (book_of a asset)).

Definition cmd_wf (cmd : TradingEngineCmd) : Prop :=
  match cmd with
  | Trade (CmdPlaceOrder po) => place_order_wf po
  | Bootstrap p => payload_wf p
  | _ => True
  end.

Lemma engine_inv_new : engine_inv 0 Assets_new.
Proof.
  split_and!; [apply Assets_new_wf|done|].
  intros [] b a Hb; by apply elem_of_nil in Hb.
Qed.

Lemma engine_inv_mono n n' a : n <= n' -> engine_inv n a -> engine_inv n' a.
Proof. intros ? (? & ? & ?). split_and!; [by eapply assets_wf_mono|done|done]. Qed.

Section facts.
Context `{BuildProfile} {Json : Type} `{EventCodec Json}.

Lemma place_post_inv n a po uuid a' r :
  engine_inv n a -> place_post n a po uuid a' r -> engine_inv (n + 1) a'.
Proof.
  intros (Hwf & Hu & Hc) (Hwf' & Habs & _ & _ & _ & Hother & Hu').
  split_and!; [done|congruence|]. intros asset.
  destruct (decide (asset = po_asset po)) as [->|Hne].
  - rewrite Habs. apply spec_place_uncrossed; [|apply Hc].
    rewrite spec_side_abs. apply (abs_sorted n), Hwf.
  - unfold book_of. rewrite Hother by done. apply Hc.
Qed.

Lemma do_place_order_inv n a po uuid :
  engine_inv n a -> 0 <= n < u32_max -> place_order_wf po ->
  exists a' r, do_place_order a po uuid = Return (a', r) /\ engine_inv (n + 1) a'.
Proof.
  intros Hinv Hn Hpo. destruct (do_place_order_post n a po uuid (proj1 Hinv) Hn Hpo) as (a' & r & Hr & Hpost).
  exists a', r. split; [done|]. by eapply place_post_inv.
Qed.

Lemma do_cancel_order_inv n a co :
  engine_inv n a ->
  do_cancel_order a co = Return (a, Err (OrderNotFound (co_user_uuid co) (co_order_uuid co))).
Proof. intros (_ & Hu & _). destruct co. unfold do_cancel_order. by rewrite Hu, lookup_empty. Qed.

Lemma handle_cmd_inv n e cmd env :
  engine_inv n (assets e) -> 0 <= n < u32_max -> cmd_wf cmd ->
  exists s, handle_cmd e cmd env = Return s /\
    forall e' reply, s = Continue e' reply -> engine_inv (n + 1) (assets e').
Proof.
  intros Hinv Hn Hcmd. pose proof (engine_inv_mono n (n + 1) _ ltac:(lia) Hinv) as Hinv'.
  unfold handle_cmd. destruct (running e); cbn [negb].
  2: { eexists. split; [done|]. by intros ? ? [= <- _]. }
  destruct cmd as [| | |[po|co]|[po|co]]; cbn [cmd_wf payload_wf] in Hcmd.
  - eexists. split; [done|]. by intros ? ?.
  - eexists. split; [done|]. by intros ? ? [= <- _].
  - eexists. split; [done|]. by intros ? ? [= <- _].
  - destruct (do_place_order_inv n _ po (env_order_uuid env) Hinv Hn Hcmd) as (a' & r & Hr & Ha').
    unfold try_event_log. destruct (place_to_value po); [rewrite Hr|]; cbn.
    + destruct (env_insert env); cbn; (eexists; split; [done|]); by intros ? ? [= <- _].
    + eexists. split; [done|]. by intros ? ? [= <- _].
  - unfold try_event_log. rewrite (do_cancel_order_inv n) by done. destruct (cancel_to_value co); cbn.
    + destruct (env_insert env); cbn; (eexists; split; [done|]); by intros ? ? [= <- _].
    + eexists. split; [done|]. by intros ? ? [= <- _].
  - destruct (do_place_order_inv n _ po (env_order_uuid env) Hinv Hn Hcmd) as (a' & r & Hr & Ha').
    rewrite Hr. cbn. eexists. split; [done|]. by intros ? ? [= <- _].
  - rewrite (do_cancel_order_inv n) by done. cbn. eexists. split; [done|]. by intros ? ? [= <- _].
Qed.

Lemma supervisor_inv n e cmds :
  engine_inv n (assets e) -> 0 <= n -> n + Z.of_nat (length cmds) <= u32_max ->
  Forall (fun c => cmd_wf c.1) cmds ->
  exists e' replies stopped, trading_engine_supervisor e cmds = Return (e', replies, stopped) /\
    engine_inv (n + Z.of_nat (length cmds)) (assets e').
Proof.
  intros Hinv Hn Hlen Hwf. revert n e Hinv Hn Hlen.
  induction Hwf as [|[cmd env] cmds Hcmd _ IH]; intros n e Hinv Hn Hlen.
  { eexists _, _, _. split; [done|]. eapply engine_inv_mono; [|done]. lia. }
  cbn [length] in Hlen. destruct (handle_cmd_inv n e cmd env Hinv ltac:(lia) Hcmd) as (s & Hs & Hnext).
  cbn [trading_engine_supervisor]. step_bind Hs. destruct s as [e1 reply|].
  - destruct (IH (n + 1) e1 (Hnext _ _ eq_refl) ltac:(lia) ltac:(lia)) as (e' & rs & st & Hr & Hinv').
    step_bind Hr. eexists _, _, _. split; [done|]. eapply engine_inv_mono; [|done]. cbn. lia.
  - eexists _, _, _. split; [done|]. eapply engine_inv_mono; [|done]. lia.
Qed.

(** ** The log rebuilds the books *)

Lemma do_place_order_uuid a po u1 u2 :
  fst <$> do_place_order a po u1 = fst <$> do_place_order a po u2.
Proof.
  destruct po. unfold do_place_order. cbn.
  destruct (try_fill_orders _ _ _ _) as [[pf|[]]|]; cbn; [|done].
  destruct (enforce_time_in_force _ _); [|done].
  destruct (commit pf) as [[ob [[ft [o|]]|err]]|]; cbn; try done.
  destruct (rest_order _ _ _ _) as [[oi ob']|]; cbn; [|done].
  destruct (assert_ _ _); cbn; [|done]. by destruct (u32_sub _ _).
Qed.

Lemma replay_app a rows rows' : replay a (rows ++ rows') = replay a rows ≫= fun a' => replay a' rows'.
Proof.
  revert a. induction rows as [|j rows IH]; intros a; [done|]. cbn.
  destruct (expect _ _) as [p|]; cbn; [|done]. destruct (apply_payload a p); cbn; [apply IH|done].
Qed.

Lemma synced_log e a' p j :
  synced e -> payload_from_value j = Some p -> apply_payload (assets e) p = Return a' ->
  synced (mkEngine (running e) a' (event_source e ++ [j])).
Proof.
  intros Hs Hp Ha. unfold synced in *. cbn. rewrite replay_app, Hs. cbn. by rewrite Hp, <- Ha; cbn; rewrite Ha.
Qed.

Definition is_bootstrap (cmd : TradingEngineCmd) : bool :=
  match cmd with Bootstrap _ => true | _ => false end.

Definition logged_ok (c : TradingEngineCmd * CmdEnv) : Prop :=
  cmd_wf c.1 /\ is_bootstrap c.1 = false /\ env_insert c.2 = Ok tt.

Lemma handle_cmd_synced `{!EventCodecLaws Json} e cmd env e' reply :
  synced e -> logged_ok (cmd, env) -> handle_cmd e cmd env = Return (Continue e' reply) -> synced e'.
Proof.
  intros Hs (Hwf & Hb & Hins). unfold handle_cmd. cbn in Hins.
  destruct (running e) eqn:Hrun; cbn [negb]; [|by intros [= <- _]].
  destruct cmd as [| | |[po|co]|]; cbn in Hwf, Hb; try done.
  - by intros [= <- _].
  - by intros [= <- _].
  - unfold try_event_log. destruct (place_to_value po) as [j|] eqn:Hj; cbn; [|by intros [= <- _]].
    pose proof (do_place_order_uuid (assets e) po 0%N (env_order_uuid env)) as Hu.
    destruct (do_place_order _ _ (env_order_uuid env)) as [[a' r]|]; cbn; [|done].
    rewrite Hins. cbn. intros [= <- _].
    eapply synced_log; [done|by apply place_roundtrip|done].
  - unfold try_event_log. destruct (cancel_to_value co) as [j|] eqn:Hj; cbn; [|by intros [= <- _]].
    destruct (do_cancel_order (assets e) co) as [[a' r]|] eqn:Hc; cbn; [|done].
    rewrite Hins. cbn. intros [= <- _].
    eapply synced_log; [done|by apply cancel_roundtrip|]. cbn. by rewrite Hc.
Qed.

Lemma supervisor_synced `{!EventCodecLaws Json} e cmds e' replies stopped :
  synced e -> Forall logged_ok cmds ->
  trading_engine_supervisor e cmds = Return (e', replies, stopped) -> synced e'.
Proof.
  intros Hs Hall. revert e Hs replies. induction Hall as [|[cmd env] cmds Hc _ IH];
    intros e Hs replies; cbn; [by intros [= <- _ _]|].
  destruct (handle_cmd e cmd env) as [[e1 reply|]|] eqn:Hh; cbn; [|by intros [= <- _ _]|done].
  destruct (trading_engine_supervisor e1 cmds) as [[[e2 rs] st]|] eqn:Hr; cbn; [|done].
  intros [= <- _ <-]. eapply IH; [|done]. by eapply handle_cmd_synced.
Qed.

(** Start-up: the bootstrap commands replay the rows. *)
Lemma boot_replay a a' log rows envs :
  replay a rows = Return a' -> length envs = length rows ->
  exists cmds replies, init_from_db (Ok <$> rows) = Return (cmds, Ok tt) /\
    trading_engine_supervisor (mkEngine true a log) (zip cmds envs) =
      Return (mkEngine true a' log, replies, false).
Proof.
  revert a envs. induction rows as [|j rows IH]; intros a [|env envs] Hr Hlen; try done.
  { injection Hr as <-. by exists [], []. }
  cbn in Hr. destruct (payload_from_value j) as [p|] eqn:Hp; [|done]. cbn in Hr.
  destruct (apply_payload a p) as [a1|] eqn:Ha; [|done]. cbn in Hr.
  destruct (IH a1 envs Hr) as (cmds & replies & Hi & Hsup); [by injection Hlen|].
  exists (Bootstrap p :: cmds), (None :: replies). csimpl. rewrite Hp. cbn [mbind outcome_bind expect].
  rewrite Hi. split; [done|].
  assert (handle_cmd (mkEngine true a log) (Bootstrap p) env =
            Return (Continue (mkEngine true a1 log) None)) as ->.
  { destruct p as [po|co]; cbn in Ha |- *.
    - pose proof (do_place_order_uuid a po 0%N (env_order_uuid env)) as Hu.
      rewrite Ha in Hu. destruct (do_place_order a po (env_order_uuid env)) as [[? ?]|]; [|done].
      cbn in Hu |- *. by injection Hu as ->.
    - destruct (do_cancel_order a co) as [[? ?]|]; [|done]. cbn in Ha |- *. by injection Ha as ->. }
  cbn [mbind outcome_bind]. by rewrite Hsup.
Qed.
End facts.

(** A placed order always moves the book. *)
Lemma place_post_changes `{BuildProfile} n a po uuid a' res :
  assets_wf n a -> place_order_wf po -> place_post n a po uuid a' (Ok res) -> a' <> a.
Proof.
  intros Hwf [_ Hq] (_ & Habs & Hv & _) ->. unfold nz_u32 in Hq.
  pose proof (spec_place_total (po_side po) (po_order_type po) (policy_of (po_time_in_force po))
    (po_price po) (po_quantity po) (abs_book (book_of a (po_asset po))) ltac:(lia)) as Ht.
  rewrite spec_side_abs in Ht. specialize (Ht (abs_positive n _ _ (Hwf _))). revert Habs Hv Ht.
  unfold spec_place. rewrite spec_side_abs.
  pose proof (spec_match_left (accepts (po_side po) (po_order_type po) (po_price po)) (po_quantity po)
    (abs_orders (book_orders (book_of a (po_asset po)) (opposite (po_side po)))) ltac:(lia)
    (abs_positive n _ _ (Hwf _))) as Hl.
  destruct (spec_match _ _ _) as [rest makers']. cbn [fst] in Hl.
  destruct (Z.leb_spec rest 0); [|destruct (policy_of _)]; cbn [fst snd traded rested].
  - intros <- _ [Ht _]. rewrite spec_side_abs in Ht. lia.
  - intros <- _ [_ Ht]. lia.
  - destruct (Z.eqb_spec rest (po_quantity po)); cbn [fst snd traded rested]; [done|].
    intros <- _ [Ht _]. rewrite spec_side_abs in Ht. lia.
  - done.
Qed.

Section boot.
Context `{BuildProfile} {Json : Type} `{EventCodec Json}.

Lemma init_from_db_payloads (rows : list Json) ps :
  payload_from_value <$> rows = Some <$> ps ->
  init_from_db (Ok <$> rows) = Return (Bootstrap <$> ps, Ok tt).
Proof.
  revert ps. induction rows as [|j rows IH]; intros [|p ps] Hp; try done.
  injection Hp as Hj Hp. csimpl. rewrite Hj. cbn [expect mbind outcome_bind].
  by rewrite (IH ps Hp).
Qed.

Lemma boot_run n (e : Engine Json) ps envs :
  engine_inv n (assets e) -> running e = true -> Forall payload_wf ps ->
  0 <= n -> n + Z.of_nat (length ps) <= u32_max ->
  exists e' replies,
    trading_engine_supervisor e (zip (Bootstrap <$> ps) envs) = Return (e', replies, false) /\
    running e' = true /\ event_source e' = event_source e /\
    engine_inv (n + Z.of_nat (length ps)) (assets e').
Proof.
  intros Hinv Hrun Hps. revert n e envs Hinv Hrun.
  induction Hps as [|p ps Hp _ IH]; intros n e envs Hinv Hrun Hn Hlen.
  { exists e, []. split_and!; [done|done|done|]. eapply engine_inv_mono; [|done]. lia. }
  destruct envs as [|env envs].
  { exists e, []. split_and!; [done|done|done|]. eapply engine_inv_mono; [|done]. lia. }
  cbn [length] in Hlen.
  assert (exists a, handle_cmd e (Bootstrap p) env =
            Return (Continue (mkEngine true a (event_source e)) None) /\ engine_inv (n + 1) a)
    as (a & Ha & Hinva).
  { unfold handle_cmd. rewrite Hrun. cbn [negb]. destruct p as [po|co].
    - destruct (do_place_order_inv n _ po (env_order_uuid env) Hinv ltac:(lia) Hp) as (a & r & Hr & Ha).
      exists a. by rewrite Hr.
    - exists (assets e). rewrite (do_cancel_order_inv n) by done. split; [done|].
      eapply engine_inv_mono; [|done]. lia. }
  destruct (IH (n + 1) (mkEngine true a (event_source e)) envs Hinva eq_refl ltac:(lia) ltac:(lia))
    as (e' & rs & Hsup & ? & ? & Hinv').
  exists e', (None :: rs).
  change (zip (Bootstrap <$> p :: ps) (env :: envs))
    with ((Bootstrap p, env) :: zip (Bootstrap <$> ps) envs).
  cbn [trading_engine_supervisor]. rewrite Ha. cbn [mbind outcome_bind]. rewrite Hsup. cbn [length]. split_and!; [done|done|done|].
  eapply engine_inv_mono; [|done]. lia.
Qed.
End boot.

(** ** Properties *)

Section properties.
Context `{BuildProfile} {Json : Type} `{EventCodec Json}.

(** C5: from start-up on, whatever commands arrive (no more than a [u32]
    counts, with prices and quantities a [NonZeroU32] can hold) and whatever
    the database answers, the engine does not panic, and both its books stay
    well formed, in price-time order and uncrossed. *)
Theorem engine_never_panics rows cmds (Hlen : Z.of_nat (length cmds) <= u32_max)
    (Hwf : Forall (fun c => cmd_wf c.1) cmds) :
  exists e replies stopped,
    trading_engine_supervisor (Engine_new rows) cmds = Return (e, replies, stopped) /\
    assets_wf (Z.of_nat (length cmds)) (assets e) /\
    forall asset, uncrossed (abs_book (book_of (assets e) asset)).
Proof.
  destruct (supervisor_inv 0 (Engine_new rows) cmds engine_inv_new ltac:(lia) ltac:(lia) Hwf)
    as (e & rs & st & Hr & Ha & _ & Hu).
  by exists e, rs, st.
Qed.

(** C6: restarting restores the books. If every INSERT of a run succeeded,
    reading the log back and replaying it as bootstrap commands - with
    freshly drawn uuids - brings a new engine to the same books, replies to
    nobody and logs nothing. *)
Theorem restart_restores_books `{!EventCodecLaws Json} cmds e replies stopped envs
    (Hcmds : Forall logged_ok cmds)
    (Hrun : trading_engine_supervisor (Engine_new []) cmds = Return (e, replies, stopped))
    (Henvs : length envs = length (event_source e)) :
  exists boot quiet,
    init_from_db (Ok <$> event_source e) = Return (boot, Ok tt) /\
    trading_engine_supervisor (Engine_new (event_source e)) (zip boot envs) =
      Return (mkEngine true (assets e) (event_source e), quiet, false).
Proof.
  assert (synced e) as Hs by (by eapply (supervisor_synced (Engine_new []))).
  exact (boot_replay Assets_new (assets e) (event_source e) (event_source e) envs Hs Henvs).
Qed.

(** C11: the order is executed before it is logged. If the INSERT fails, the
    client is told [Database] although the order was executed - the books
    differ from before whenever the order was accepted - and the log does
    not have it, so a restart would not bring those books back. *)
Theorem failed_insert_desyncs n e po env err j a' res
    (Hwf : assets_wf n (assets e)) (Hn : 0 <= n < u32_max) (Hpo : place_order_wf po)
    (Hrunning : running e = true) (Hj : place_to_value po = Some j)
    (Hins : env_insert env = Err err)
    (Hrun : do_place_order (assets e) po (env_order_uuid env) = Return (a', Ok res)) :
  exists e', handle_cmd e (Trade (CmdPlaceOrder po)) env =
      Return (Continue e' (Some (PlaceReply (Err (Database err))))) /\
    assets e' = a' /\ assets e' <> assets e /\ event_source e' = event_source e /\
    (synced e -> ~ synced e').
Proof.
  destruct (do_place_order_post n _ po (env_order_uuid env) Hwf Hn Hpo) as (a2 & r2 & Hr & Hpost).
  rewrite Hr in Hrun. injection Hrun as -> ->.
  pose proof (place_post_changes _ _ _ _ _ _ Hwf Hpo Hpost) as Hne.
  exists (mkEngine (running e) a' (event_source e)).
  unfold handle_cmd, try_event_log. rewrite Hrunning, Hj. cbn [negb].
  rewrite Hr. cbn [mbind outcome_bind]. rewrite Hins. split_and!; [done|done|done|done|].
  unfold synced. cbn. intros Hs Hs'. rewrite Hs in Hs'. congruence.
Qed.

(** Suspending is final. Once [Suspend] has been handled, every later
    command is dropped - [Resume] and [Shutdown] too - so the engine never
    runs again, never stops, changes nothing, and no client is answered. *)
Theorem suspend_is_final e env cmds (Hrunning : running e = true) :
  trading_engine_supervisor e ((Suspend, env) :: cmds) =
    Return (mkEngine false (assets e) (event_source e), None :: replicate (length cmds) None, false).
Proof.
  cbn. unfold handle_cmd. rewrite Hrunning. cbn.
  induction cmds as [|[cmd env'] cmds IH]; [done|]. cbn in *.
  destruct (trading_engine_supervisor _ cmds) as [[[e' rs] st]|]; cbn in *; [|done].
  by injection IH as -> -> ->.
Qed.

(** C13: no order can be cancelled: nothing ever enters the table of uuids,
    so in every state the engine can reach a cancel leaves the books as they
    are and is answered with an error - [OrderNotFound] when it is logged. *)
Theorem cancel_never_finds rows cmds e replies stopped co env j
    (Hlen : Z.of_nat (length cmds) <= u32_max) (Hwf : Forall (fun c => cmd_wf c.1) cmds)
    (Hrun : trading_engine_supervisor (Engine_new rows) cmds = Return (e, replies, stopped))
    (Hrunning : running e = true) (Hj : cancel_to_value co = Some j) :
  exists e' err, handle_cmd e (Trade (CmdCancelOrder co)) env =
      Return (Continue e' (Some (CancelReply (Err err)))) /\
    assets e' = assets e /\
    (env_insert env = Ok tt -> err = OrderNotFound (co_user_uuid co) (co_order_uuid co)).
Proof.
  destruct (supervisor_inv 0 (Engine_new rows) cmds engine_inv_new ltac:(lia) ltac:(lia) Hwf)
    as (e2 & rs & st & Hr & Hinv).
  rewrite Hr in Hrun. injection Hrun as -> -> ->.
  unfold handle_cmd, try_event_log. rewrite Hrunning, Hj, (do_cancel_order_inv _ _ co Hinv).
  cbn. destruct (env_insert env) as [[]|err]; cbn; by eexists _, _.
Qed.

(** A running engine answers every trade command, with a reply of the
    command's kind; what it appends to the log is the command's own JSON, and
    that exactly when the INSERT succeeded - also for an order it refused. *)
Theorem trade_replied_and_logged n e cmd env (Hinv : engine_inv n (assets e))
    (Hn : 0 <= n < u32_max) (Hcmd : cmd_wf (Trade cmd)) (Hrunning : running e = true) :
  let jstr := match cmd with
              | CmdPlaceOrder po => place_to_value po
              | CmdCancelOrder co => cancel_to_value co
              end in
  exists e' reply, handle_cmd e (Trade cmd) env = Return (Continue e' (Some reply)) /\
    (match cmd, reply with
     | CmdPlaceOrder _, PlaceReply _ | CmdCancelOrder _, CancelReply _ => True
     | _, _ => False
     end) /\
    running e' = true /\
    event_source e' = event_source e ++
      match env_insert env with Ok _ => option_list jstr | Err _ => [] end.
Proof.
  cbv zeta. unfold handle_cmd, try_event_log. rewrite Hrunning. cbn [negb].
  destruct cmd as [po|co]; cbn in Hcmd.
  - destruct (do_place_order_inv n _ po (env_order_uuid env) Hinv Hn Hcmd) as (a' & r & Hr & _).
    destruct (place_to_value po); [rewrite Hr|]; cbn;
      destruct (env_insert env); cbn; eexists _, _; split_and!; rewrite ?app_nil_r; done.
  - rewrite (do_cancel_order_inv n) by done.
    destruct (cancel_to_value co); cbn;
      destruct (env_insert env); cbn; eexists _, _; split_and!; rewrite ?app_nil_r; done.
Qed.

(** A boot never panics on a log written by engines: rows that decode
    to commands in range, no more than a [u32] counts, rebuild some
    well-formed, uncrossed books. *)
Theorem boot_never_panics rows ps envs (Hrows : payload_from_value <$> rows = Some <$> ps)
    (Hps : Forall payload_wf ps) (Hlen : Z.of_nat (length rows) <= u32_max) :
  exists boot e replies stopped,
    init_from_db (Ok <$> rows) = Return (boot, Ok tt) /\
    boot = Bootstrap <$> ps /\
    trading_engine_supervisor (Engine_new rows) (zip boot envs) = Return (e, replies, stopped) /\
    running e = true /\ stopped = false /\ event_source e = rows /\
    engine_inv (Z.of_nat (length rows)) (assets e).
Proof.
  assert (length ps = length rows) as Hlps.
  { transitivity (length (Some <$> ps)); [by rewrite length_fmap|]. by rewrite <- Hrows, length_fmap. }
  destruct (boot_run 0 (Engine_new rows) ps envs engine_inv_new eq_refl Hps ltac:(lia) ltac:(lia))
    as (e & rs & Hsup & Hr & Hl & Hinv).
  eexists _, e, rs, false. rewrite <- Hlps.
  split_and!; [by apply init_from_db_payloads|done|exact Hsup|done|done|done|exact Hinv].
Qed.
End properties.

(** ** Concrete runs *)

Section witnesses.
#[local] Existing Instances debug_profile decimal_uuid_text decimal_uuid_text_laws.

(** Rest an ask, then buy into it. *)
Definition demo_sell : PlaceOrder :=
  mkPlaceOrder Bitcoin 3%N 100 30 Limit DecreaseCancel GoodTilCanceled Sell.
Definition demo_cmds : list (TradingEngineCmd * CmdEnv) :=
  [ (Trade (CmdPlaceOrder demo_sell), mkCmdEnv 11%N (Ok tt));
    (Trade (CmdPlaceOrder (demo_buy GoodTilCanceled)), mkCmdEnv 12%N (Ok tt));
    (Trade (CmdCancelOrder (mkCancelOrder 3%N 11%N)), mkCmdEnv 0%N (Ok tt)) ].
Definition demo_engine : Engine Json := Engine_new [].

Lemma demo_sell_wf : place_order_wf demo_sell.
Proof. split; unfold_nz; cbn; lia. Qed.

Lemma demo_cmds_wf : Forall logged_ok demo_cmds.
Proof.
  repeat constructor; cbn; try apply demo_sell_wf; try apply demo_buy_wf; unfold_nz; lia.
Qed.

Lemma demo_cmds_cmd_wf : Forall (fun c => cmd_wf c.1) demo_cmds.
Proof. eapply Forall_impl; [apply demo_cmds_wf|]. by intros c (? & _). Qed.

Lemma engine_never_panics_witness :
  exists e replies stopped,
    trading_engine_supervisor (Engine_new (Json := Json) []) demo_cmds =
      Return (e, replies, stopped) /\
    uncrossed (abs_book (book_of (assets e) Bitcoin)).
Proof.
  destruct (engine_never_panics (Json := Json) [] demo_cmds ltac:(by apply Z.leb_le) demo_cmds_cmd_wf)
    as (e & rs & st & Hr & _ & Hu).
  exists e, rs, st. split; [exact Hr|exact (Hu Bitcoin)].
Defined.

Definition demo_after : Engine Json * list (option Reply) :=
  Eval vm_compute in
    match trading_engine_supervisor demo_engine demo_cmds with
    | Return (e, replies, _) => (e, replies)
    | Panic _ => (demo_engine, [])
    end.

Lemma demo_after_run :
  trading_engine_supervisor (Engine_new (Json := Json) []) demo_cmds =
    Return (demo_after.1, demo_after.2, false).
Proof. vm_compute. reflexivity. Qed.

Lemma restart_restores_books_witness :
  exists e replies boot quiet,
    trading_engine_supervisor (Engine_new (Json := Json) []) demo_cmds = Return (e, replies, false) /\
    init_from_db (Ok <$> event_source e) = Return (boot, Ok tt) /\
    trading_engine_supervisor (Engine_new (event_source e))
      (zip boot (replicate 3 (mkCmdEnv 99%N (Ok tt)))) = Return (e, quiet, false).
Proof.
  exists demo_after.1, demo_after.2.
  destruct (restart_restores_books (Json := Json) demo_cmds _ _ _
              (replicate 3 (mkCmdEnv 99%N (Ok tt))) demo_cmds_wf demo_after_run eq_refl)
    as (boot & quiet & Hi & Hr).
  exists boot, quiet. split; [exact demo_after_run|]. split; [exact Hi|exact Hr].
Defined.

Lemma failed_insert_desyncs_witness :
  exists e', handle_cmd demo_engine (Trade (CmdPlaceOrder demo_sell)) (mkCmdEnv 11%N (Err OtherError)) =
      Return (Continue e' (Some (PlaceReply (Err (Database OtherError))))) /\ ~ synced e'.
Proof.
  destruct (failed_insert_desyncs 0 demo_engine demo_sell (mkCmdEnv 11%N (Err OtherError)) OtherError
              (to_value demo_sell) _ _ Assets_new_wf ltac:(by unfold u32_max) demo_sell_wf eq_refl
              eq_refl eq_refl ltac:(vm_compute; reflexivity)) as (e' & Hh & _ & _ & _ & Hs).
  exists e'. split; [exact Hh|]. apply Hs. reflexivity.
Defined.

Lemma suspend_is_final_witness :
  trading_engine_supervisor demo_engine
    [(Suspend, mkCmdEnv 0%N (Ok tt)); (Resume, mkCmdEnv 0%N (Ok tt));
     (Trade (CmdPlaceOrder demo_sell), mkCmdEnv 1%N (Ok tt)); (Shutdown, mkCmdEnv 0%N (Ok tt))] =
    Return (mkEngine false Assets_new [], [None; None; None; None], false).
Proof.
  apply (suspend_is_final demo_engine (mkCmdEnv 0%N (Ok tt))
           [(Resume, mkCmdEnv 0%N (Ok tt)); (Trade (CmdPlaceOrder demo_sell), mkCmdEnv 1%N (Ok tt));
            (Shutdown, mkCmdEnv 0%N (Ok tt))] eq_refl).
Defined.

Lemma cancel_never_finds_witness :
  exists e replies e' err,
    trading_engine_supervisor (Engine_new (Json := Json) []) demo_cmds = Return (e, replies, false) /\
    handle_cmd e (Trade (CmdCancelOrder (mkCancelOrder 3%N 11%N))) (mkCmdEnv 0%N (Ok tt)) =
      Return (Continue e' (Some (CancelReply (Err err)))).
Proof.
  exists demo_after.1, demo_after.2.
  destruct (cancel_never_finds (Json := Json) [] demo_cmds _ _ _ (mkCancelOrder 3%N 11%N)
              (mkCmdEnv 0%N (Ok tt)) (to_value (mkCancelOrder 3%N 11%N)) ltac:(by apply Z.leb_le)
              demo_cmds_cmd_wf demo_after_run eq_refl eq_refl)
    as (e' & err & Hh & _).
  exists e', err. split; [exact demo_after_run|exact Hh].
Defined.

Lemma trade_replied_and_logged_witness :
  exists e' reply, handle_cmd demo_engine (Trade (CmdPlaceOrder demo_sell)) (mkCmdEnv 1%N (Ok tt)) =
      Return (Continue e' (Some reply)) /\ event_source e' = [to_value demo_sell].
Proof.
  destruct (trade_replied_and_logged 0 demo_engine (CmdPlaceOrder demo_sell) (mkCmdEnv 1%N (Ok tt))
              engine_inv_new ltac:(by unfold u32_max) demo_sell_wf eq_refl)
    as (e' & reply & Hh & _ & _ & Hl).
  exists e', reply. split; [exact Hh|exact Hl].
Defined.

Definition demo_row : Json := payload_to_value (PayloadPlaceOrder demo_sell).

Lemma boot_never_panics_witness :
  exists boot e replies,
    init_from_db [Ok demo_row] = Return (boot, Ok tt) /\
    trading_engine_supervisor (Engine_new [demo_row]) (zip boot [mkCmdEnv 1%N (Ok tt)]) =
      Return (e, replies, false) /\ running e = true.
Proof.
  pose proof (boot_never_panics [demo_row] [PayloadPlaceOrder demo_sell] [mkCmdEnv 1%N (Ok tt)]) as Hb.
  destruct (Hb eq_refl ltac:(repeat constructor; cbn; unfold_nz; lia) ltac:(by apply Z.leb_le))
    as (boot & e & rs & st & Hi & _ & Hr & Hrun & -> & _).
  exists boot, e, rs. split; [exact Hi|]. split; [exact Hr|exact Hrun].
Defined.
End witnesses.
