(* ===== verification/Config.v ===== *)
(** * The configuration (src/exchange/src/config.rs).

    A configuration is read from a TOML file; what the file leaves out is taken
    from the environment or from a constant, or ends the program. The TOML
    parser, socket addresses and gRPC endpoints are parameters. *)

From S2P Require Import Prelude.

(** [std::env::var(name).ok()] *)
Definition Env : Type := string -> option string.

(** [std::net::SocketAddr], [tonic::transport::Endpoint], and the errors of the
    TOML parser. *)
Class Net : Type := {
  SocketAddr : Type;
  parse_socket_addr : string -> option SocketAddr;
  unspecified_v4 : Z -> SocketAddr;
  Endpoint : Type;
  endpoint_from_shared : string -> option Endpoint;
  endpoint_from_static : string -> Endpoint;
  TomlError : Type;
  custom : string -> TomlError }.

(** The default addresses are addresses. *)
Class NetLaws `{Net} : Prop :=
  grpc_default_parses : is_Some (parse_socket_addr "0.0.0.0:50051").

(** What a file holds for each field, its types checked: the text of addresses
    and endpoints is not parsed yet. *)
Record RawConfiguration : Type := mkRaw {
  raw_webserver_bind_addr : option string;
  raw_database_url : option string;
  raw_te_channel_capacity : option Z;
  raw_eth_wallet_mnemonic : option string;
  raw_bitcoin_rpc_url : option string;
  raw_bitcoin_rpc_auth_user : option string;
  raw_bitcoin_rpc_auth_password : option string;
  raw_bitcoin_wallet_name : option string;
  raw_bitcoin_grpc_endpoint : option string;
  raw_bitcoin_grpc_bind_addr : option string;
  raw_jinja_template_dir : option string;
  raw_fe_web_dir : option string }.

Section config.
Context `{Net}.

Record Configuration : Type := mkConfiguration {
  webserver_bind_addr : SocketAddr;
  database_url : string;
  te_channel_capacity : Z;
  eth_wallet_mnemonic : option string;
  bitcoin_rpc_url : string;
  bitcoin_rpc_auth_user : string;
  bitcoin_rpc_auth_password : string;
  bitcoin_wallet_name : string;
  bitcoin_grpc_endpoint : Endpoint;
  bitcoin_grpc_bind_addr : SocketAddr;
  cfg_jinja_template_dir : option string;
  cfg_fe_web_dir : option string }.

(** ** The defaults *)

Definition WEBSERVER_ADDRESS : string := "WEBSERVER_ADDRESS".
Definition WEBSERVER_ADDRESS_DEFAULT_PORT : Z := 3000.
Definition WEBSERVER_ADDRESS_DEFAULT : SocketAddr := unspecified_v4 WEBSERVER_ADDRESS_DEFAULT_PORT.

Definition webserver_address (env : Env) : SocketAddr :=
  default WEBSERVER_ADDRESS_DEFAULT (st ← env WEBSERVER_ADDRESS; parse_socket_addr st).

Definition DATABASE_URL : string := "DATABASE_URL".
Definition default_database_url (env : Env) : outcome string :=
  expect (env DATABASE_URL) "DATABASE_URL env var not set".

Definition CONFIG_FILE_PATH : string := "CONFIG_FILE_PATH".
Definition config_file_path (env : Env) : option string := env CONFIG_FILE_PATH.

Definition default_te_channel_capacity : Z := 1024.

Definition BITCOIN_RPC_URL : string := "BITCOIN_RPC_URL".
Definition default_bitcoin_rpc_url (env : Env) : outcome string :=
  expect (env BITCOIN_RPC_URL) "BITCOIN_RPC_URL env var not set".

Definition default_bitcoin_grpc_endpoint : Endpoint := endpoint_from_static "http://[::1]:50051".

(** [bitcoin_grpc_url], which nothing calls. *)
Definition bitcoin_grpc_url (env : Env) : outcome string :=
  expect (env BITCOIN_RPC_URL) "BITCOIN_RPC_URL env var not set".

Definition BITCOIN_GRPC_BIND_ADDR_DEFAULT : string := "0.0.0.0:50051".
Definition bitcoin_grpc_bind_url_default : outcome SocketAddr :=
  expect (parse_socket_addr BITCOIN_GRPC_BIND_ADDR_DEFAULT) "called `Result::unwrap()` on an `Err` value".

Definition JINJA_TEMPLATE_DIR : string := "JINJA_TEMPLATE_DIR".
Definition FE_WEB_DIR : string := "FE_WEB_DIR".

(** ** Reading a file *)

(** An entry of the file that has to be parsed: an error if it cannot be. *)
Definition de_entry {A} (parse : string -> option A) (st : option string) : result (option A) TomlError :=
  match st with
  | None => Ok None
  | Some st => match parse st with Some a => Ok (Some a) | None => Err (custom st) end
  end.

(** [#[serde(default = "..")]] *)
Definition or_default {A} (o : option A) (d : outcome A) : outcome A :=
  match o with Some a => Return a | None => d end.

(** [Deserialize for Configuration]: the entries of the file first, then the
    defaults of those that are missing, in the order of the fields. (Of several
    entries that cannot be parsed, the file's order decides which is reported;
    here the fields' order does.) *)
Definition deserialize (env : Env) (raw : RawConfiguration) : outcome (result Configuration TomlError) :=
  match de_entry parse_socket_addr (raw_webserver_bind_addr raw) with Err e => Return (Err e) | Ok bind =>
  match de_entry endpoint_from_shared (raw_bitcoin_grpc_endpoint raw) with Err e => Return (Err e) | Ok endpoint =>
  match de_entry parse_socket_addr (raw_bitcoin_grpc_bind_addr raw) with Err e => Return (Err e) | Ok grpc_bind =>
    bind ← or_default bind (Return (webserver_address env));
    db ← or_default (raw_database_url raw) (default_database_url env);
    capacity ← or_default (raw_te_channel_capacity raw) (Return default_te_channel_capacity);
    rpc ← or_default (raw_bitcoin_rpc_url raw) (default_bitcoin_rpc_url env);
    endpoint ← or_default endpoint (Return default_bitcoin_grpc_endpoint);
    grpc_bind ← or_default grpc_bind bitcoin_grpc_bind_url_default;
    Return (Ok (mkConfiguration bind db capacity (raw_eth_wallet_mnemonic raw) rpc
      (default "" (raw_bitcoin_rpc_auth_user raw)) (default "" (raw_bitcoin_rpc_auth_password raw))
      (default "" (raw_bitcoin_wallet_name raw)) endpoint grpc_bind
      (raw_jinja_template_dir raw) (raw_fe_web_dir raw)))
  end end end.

Section files.
Context {IoError : Type} (parse_toml : string -> result RawConfiguration TomlError)
  (canonicalize read_to_string : string -> result string IoError) (io_other : TomlError -> IoError).

(** [toml::from_str] *)
Definition from_str (env : Env) (st : string) : outcome (result Configuration TomlError) :=
  match parse_toml st with Err e => Return (Err e) | Ok raw => deserialize env raw end.

Definition load_from_toml (env : Env) (st : string) : outcome Configuration :=
  r ← from_str env st;
  match r with Ok c => Return c | Err _ => Panic "Failed to parse config file" end.

Definition load_from_path (env : Env) (path : string) : outcome (result Configuration IoError) :=
  match canonicalize path with
  | Err e => Return (Err e)
  | Ok config_file_path =>
      match read_to_string config_file_path with
      | Err e => Return (Err e)
      | Ok st => r ← from_str env st; Return (result_map_err io_other r)
      end
  end.
End files.

Definition bitcoin_rpc_auth (c : Configuration) : string * string :=
  (bitcoin_rpc_auth_user c, bitcoin_rpc_auth_password c).

Definition jinja_template_dir (env : Env) (c : Configuration) : outcome string :=
  or_default (cfg_jinja_template_dir c)
    (expect (env JINJA_TEMPLATE_DIR) "called `Result::unwrap()` on an `Err` value").

Definition fe_web_dir (env : Env) (c : Configuration) : outcome string :=
  or_default (cfg_fe_web_dir c)
    (expect (env FE_WEB_DIR) "called `Result::unwrap()` on an `Err` value").

(** ** Properties *)

(** The value of a field: the file's, or the variable's. *)
Definition file_or_env (o : option string) (env : Env) (name : string) : option string :=
  match o with Some st => Some st | None => env name end.

(** C35: where a setting comes from. A file whose addresses can be parsed gives
    a configuration exactly when the two URLs are in the file or in the
    environment, and the program panics otherwise. A webserver address in the
    environment that cannot be parsed is passed over for 0.0.0.0:3000. Only
    three variables are ever read: the gRPC endpoint and its bind address come
    from the file or are constants, whatever BITCOIN_GRPC_ENDPOINT and
    BITCOIN_GRPC_BIND_ADDR say. *)
Theorem configuration_sources `{!NetLaws} env raw bind endpoint grpc_bind
    (Hbind : de_entry parse_socket_addr (raw_webserver_bind_addr raw) = Ok bind)
    (Hend : de_entry endpoint_from_shared (raw_bitcoin_grpc_endpoint raw) = Ok endpoint)
    (Hgrpc : de_entry parse_socket_addr (raw_bitcoin_grpc_bind_addr raw) = Ok grpc_bind) :
  match file_or_env (raw_database_url raw) env "DATABASE_URL",
        file_or_env (raw_bitcoin_rpc_url raw) env "BITCOIN_RPC_URL" with
  | Some db, Some rpc => exists c, deserialize env raw = Return (Ok c) /\
      database_url c = db /\ bitcoin_rpc_url c = rpc /\
      te_channel_capacity c = default 1024 (raw_te_channel_capacity raw) /\
      webserver_bind_addr c =
        match bind, env "WEBSERVER_ADDRESS" ≫= parse_socket_addr with
        | Some a, _ => a
        | None, Some a => a
        | None, None => unspecified_v4 3000
        end /\
      bitcoin_grpc_endpoint c = default default_bitcoin_grpc_endpoint endpoint /\
      Some (bitcoin_grpc_bind_addr c) =
        match grpc_bind with Some a => Some a | None => parse_socket_addr "0.0.0.0:50051" end
  | _, _ => exists why, deserialize env raw = Panic why
  end.
Proof.
  unfold deserialize. rewrite Hbind, Hend, Hgrpc. unfold default_database_url, default_bitcoin_rpc_url,
    bitcoin_grpc_bind_url_default, webserver_address, file_or_env, DATABASE_URL, BITCOIN_RPC_URL, WEBSERVER_ADDRESS.
  destruct grpc_default_parses as [a Ha]. unfold BITCOIN_GRPC_BIND_ADDR_DEFAULT. rewrite Ha.
  destruct (raw_database_url raw) as [db|], (raw_bitcoin_rpc_url raw) as [rpc|];
    try destruct (env "DATABASE_URL") as [db|]; try destruct (env "BITCOIN_RPC_URL") as [rpc|];
    destruct bind, (raw_te_channel_capacity raw), endpoint, grpc_bind; cbn;
    eexists; (split; [reflexivity|]) || reflexivity; cbn; split_and!; try reflexivity;
    by destruct (env "WEBSERVER_ADDRESS" ≫= parse_socket_addr).
Qed.

(** The variables that are read. *)
Lemma deserialize_reads env env' raw :
  (forall name, name = "WEBSERVER_ADDRESS" \/ name = "DATABASE_URL" \/ name = "BITCOIN_RPC_URL" ->
     env name = env' name) ->
  deserialize env raw = deserialize env' raw.
Proof.
  intros He. unfold deserialize, webserver_address, default_database_url, default_bitcoin_rpc_url,
    WEBSERVER_ADDRESS, DATABASE_URL, BITCOIN_RPC_URL.
  by rewrite !He by tauto.
Qed.
End config.

(** ** A concrete file *)

(** Addresses are kept as their texts; only a text with a dot is one. *)
Fixpoint has_dot (st : string) : bool :=
  match st with
  | EmptyString => false
  | String c st' => Ascii.eqb c (Ascii.ascii_of_nat 46) || has_dot st'
  end.

#[local] Instance demo_net : Net := {|
  SocketAddr := string;
  parse_socket_addr st := if has_dot st then Some st else None;
  unspecified_v4 port := "0.0.0.0:3000";
  Endpoint := string;
  endpoint_from_shared := Some;
  endpoint_from_static st := st;
  TomlError := string;
  custom st := st |}.

Lemma demo_net_laws : NetLaws.
Proof. by eexists. Qed.

Definition demo_raw : RawConfiguration :=
  mkRaw None (Some "postgres://exchange") None None None None None None None None None None.

Definition demo_env : Env := fun name =>
  if String.eqb name "BITCOIN_RPC_URL" then Some "http://node"
  else if String.eqb name "WEBSERVER_ADDRESS" then Some "localhost"
  else if String.eqb name "BITCOIN_GRPC_ENDPOINT" then Some "http://proxy"
  else None.

(** With these variables the web server listens on 0.0.0.0:3000 and the proxy
    is looked for on this host; without any, the program panics. *)
Lemma configuration_sources_witness :
  (exists c, deserialize demo_env demo_raw = Return (Ok c) /\
     bitcoin_rpc_url c = "http://node" /\ webserver_bind_addr c = "0.0.0.0:3000" /\
     bitcoin_grpc_endpoint c = "http://[::1]:50051") /\
  exists why, deserialize (fun _ => None) demo_raw = Panic why.
Proof.
  pose proof demo_net_laws. split.
  - destruct (configuration_sources demo_env demo_raw None None None eq_refl eq_refl eq_refl)
      as (c & Hc & _ & Hurl & _ & Haddr & Hend & _).
    exists c. split_and!; [exact Hc|exact Hurl|exact Haddr|exact Hend].
  - exact (configuration_sources (fun _ => None) demo_raw None None None eq_refl eq_refl eq_refl).
Defined.
