(* ===== verification/Rpc.v ===== *)
(** * Calls to the bitcoin node (src/exchange/src/bitcoin/rpc.rs, the part the
    methods share): errors, requests, and the default arguments.

    A method of the client is a program that may send requests and go on with
    the answers ([rpc]): what it sends and returns can be observed without
    fixing the node or the transport. The types of the bitcoincore crates are
    parameters, known by how they are written to and read from JSON. *)

From stdpp Require Import pretty.
From S2P Require Import Prelude Json.

(** ** Errors *)

(** The error types of the crates the client uses, and how jsonrpc_async
    reports a result it cannot read. *)
Class RpcErrors : Type := {
  JsonRpcError : Type;
  HexToBytesError : Type;
  JsonError : Type;
  EncodeError : Type;
  Secp256k1Error : Type;
  IoError : Type;
  ParseAmountError : Type;
  jsonrpc_json : JsonError -> JsonRpcError;
  invalid_type : JsonError }.

Section rpc.
Context `{RpcErrors}.

Inductive Error : Type :=
| JsonRpc (e : JsonRpcError)
| Hex (e : HexToBytesError)
| JsonErr (e : JsonError)
| BitcoinSerialization (e : EncodeError)
| Secp256k1 (e : Secp256k1Error)
| Io (e : IoError)
| InvalidAmount (e : ParseAmountError)
| InvalidCookieFile
| UnexpectedStructure.

(** [serde::Serialize], [serde::Deserialize] and [ToString] *)
Class Serialize (T : Type) : Type := to_json : T -> result Json JsonError.
Class Deserialize (T : Type) : Type := from_json : Json -> result T JsonError.
Class ToString (T : Type) : Type := to_str : T -> string.

(** ** Programs that send requests *)

Inductive rpc (A : Type) : Type :=
| Done (r : result A Error)
| Panicked (why : string)
| Request (cmd : string) (args : list Json) (k : result Json JsonRpcError -> rpc A).
Arguments Done {A} r.
Arguments Panicked {A} why.
Arguments Request {A} cmd args k.

#[export] Instance rpc_ret : MRet rpc := fun A a => Done (Ok a).

(** [?] and [.await]: an error ends the method. *)
#[export] Instance rpc_bind : MBind rpc :=
  fun A B f => fix go (m : rpc A) : rpc B :=
    match m with
    | Done (Ok a) => f a
    | Done (Err e) => Done (Err e)
    | Panicked why => Panicked why
    | Request cmd args k => Request cmd args (fun r => go (k r))
    end.

Definition throw {A} (e : Error) : rpc A := Done (Err e).

(** [ok_or(err)?] *)
Definition ok_or {A} (o : option A) (e : Error) : rpc A :=
  match o with Some a => mret a | None => throw e end.

Definition lift_json {A} (r : result A JsonError) : rpc A :=
  match r with Ok a => mret a | Err e => throw (JsonErr e) end.

Definition of_outcome {A} (o : outcome A) : rpc A :=
  match o with Return a => mret a | Panic why => Panicked why end.

(** What a method does, given the node's answers in order: the requests it
    makes, and its result; [None] if the answers run out. *)
Fixpoint run {A} (m : rpc A) (answers : list (result Json JsonRpcError)) :
    list (string * list Json) * option (outcome (result A Error)) :=
  match m with
  | Done r => ([], Some (Return r))
  | Panicked why => ([], Some (Panic why))
  | Request cmd args k =>
      match answers with
      | [] => ([(cmd, args)], None)
      | a :: answers' => let '(reqs, r) := run (k a) answers' in ((cmd, args) :: reqs, r)
      end
  end.

(** ** Shorthands *)

Definition into_json `{Serialize T} (val : T) : rpc Json := lift_json (to_json val).

Definition opt_into_json `{Serialize T} (opt : option T) : rpc Json :=
  match opt with
  | Some val => into_json val
  | None => mret JNull
  end.

Definition null : Json := JNull.
Definition empty_arr : Json := JArray [].
Definition empty_obj : Json := JObject [].

Definition opt_result `{Deserialize T} (res : Json) : rpc (option T) :=
  if is_null res then mret None
  else v ← lift_json (from_json res); mret (Some v).

Definition send_request `{Deserialize T} (cmd : string) (args : list Json) : rpc T :=
  Request cmd args (fun resp =>
    match resp with
    | Err e => throw (JsonRpc e)
    | Ok v => match from_json v with
              | Ok t => mret t
              | Err e => throw (JsonRpc (jsonrpc_json e))
              end
    end).
End rpc.
Arguments Done {_} {A} r.
Arguments Panicked {_} {A} why.
Arguments Request {_} {A} cmd args k.
Arguments JsonRpc {_} e.
Arguments Hex {_} e.
Arguments JsonErr {_} e.
Arguments BitcoinSerialization {_} e.
Arguments InvalidAmount {_} e.
Arguments UnexpectedStructure {_}.

(** ** Default arguments *)

Definition missing_default (args_i : nat) : string :=
  "Missing `default` for argument idx " +:+ pretty args_i.

(** [a[i]] and [a[i] = v] *)
Definition index {A} (l : list A) (i : nat) : outcome A := expect (l !! i) "index out of bounds".

(** The loop over [i in 0..defaults.len()], with [n] rounds to go. *)
Fixpoint handle_defaults_loop (n i : nat) (args defaults : list Json)
    (first_non_null_optional_idx : option nat) : outcome (list Json * option nat) :=
  match n with
  | O => Return (args, first_non_null_optional_idx)
  | S n' =>
      let args_i := (length args - 1 - i)%nat in
      let defaults_i := (length defaults - 1 - i)%nat in
      arg ← index args args_i;
      if is_null arg then
        if bool_decide (is_Some first_non_null_optional_idx) then
          default ← index defaults defaults_i;
          if is_null default then Panic (missing_default args_i)
          else handle_defaults_loop n' (S i) (<[args_i := default]> args) defaults
                 first_non_null_optional_idx
        else handle_defaults_loop n' (S i) args defaults first_non_null_optional_idx
      else if bool_decide (is_Some first_non_null_optional_idx)
      then handle_defaults_loop n' (S i) args defaults first_non_null_optional_idx
      else handle_defaults_loop n' (S i) args defaults (Some args_i)
  end.

Definition handle_defaults (args defaults : list Json) : outcome (list Json) :=
  _ ← assert_ (length defaults <=? length args)%nat
        "assertion failed: args.len() >= defaults.len()";
  '(args, first) ← handle_defaults_loop (length defaults) 0 args defaults None;
  let required_num := (length args - length defaults)%nat in
  match first with
  | Some i => Return (take (i + 1) args)
  | None => Return (take required_num args)
  end.

(** ** What the doc comment of [handle_defaults] promises *)

Fixpoint drop_trailing_nulls (l : list Json) : list Json :=
  match l with
  | [] => []
  | a :: l' =>
      match drop_trailing_nulls l' with
      | [] => if is_null a then [] else [a]
      | r => a :: r
      end
  end.

Definition substitute (ad : Json * Json) : option Json :=
  if is_null ad.1 then if is_null ad.2 then None else Some ad.2 else Some ad.1.

(** The optional arguments as they are sent: cut after the last non-null one,
    nulls replaced by their defaults; [None] when one has no default. *)
Definition fill_optional (opt defaults : list Json) : option (list Json) :=
  mapM substitute (zip (drop_trailing_nulls opt) defaults).

Lemma drop_trailing_nulls_snoc l a :
  drop_trailing_nulls (l ++ [a]) = if is_null a then drop_trailing_nulls l else l ++ [a].
Proof.
  induction l as [|b l IH]; cbn; [done|]. rewrite IH.
  destruct (is_null a); [done|]. by destruct l.
Qed.

Lemma drop_trailing_nulls_prefix l : exists l', l = drop_trailing_nulls l ++ l'.
Proof.
  induction l as [|a l [l' Hl']] using rev_ind; [by exists []|].
  rewrite drop_trailing_nulls_snoc. destruct (is_null a); [|by exists []; rewrite app_nil_r].
  exists (l' ++ [a]). by rewrite app_assoc, <- Hl'.
Qed.

Lemma mapM_app_option {A B} (f : A -> option B) l k :
  mapM f (l ++ k) = l' ← mapM f l; k' ← mapM f k; Some (l' ++ k').
Proof.
  induction l as [|a l IH].
  - cbn. by destruct (mapM f k).
  - change (mapM f ((a :: l) ++ k)) with (b ← f a; r ← mapM f (l ++ k); Some (b :: r)).
    change (mapM f (a :: l)) with (b ← f a; r ← mapM f l; Some (b :: r)).
    destruct (f a); cbn [mbind option_bind]; [|done]. rewrite IH.
    destruct (mapM f l); cbn; [|done]. by destruct (mapM f k).
Qed.

Lemma mapM_substitute_length l ds f : mapM substitute (zip l ds) = Some f -> length f = Nat.min (length l) (length ds).
Proof. intros Hf. rewrite <- (length_mapM _ _ _ Hf). apply length_zip_with. Qed.

Lemma mapM_substitute_snoc opt ds a d :
  length opt = length ds ->
  mapM substitute (zip (opt ++ [a]) (ds ++ [d])) =
    match mapM substitute (zip opt ds) with
    | Some f => (fun x => f ++ [x]) <$> substitute (a, d)
    | None => None
    end.
Proof.
  intros Hlen. rewrite zip_with_app by done. rewrite mapM_app_option.
  destruct (mapM substitute (zip opt ds)); cbn; [|done]. by destruct (substitute (a, d)).
Qed.

(** One round: the element at the place the indices point to. *)
Lemma loop_index {A} (l1 l2 : list A) a :
  index (l1 ++ a :: l2) (length (l1 ++ a :: l2) - 1 - length l2) = Return a.
Proof. unfold index. rewrite list_lookup_middle; [done|]. rewrite length_app. cbn. lia. Qed.

Lemma loop_place {A} (l1 l2 : list A) a : (length (l1 ++ a :: l2) - 1 - length l2)%nat = length l1.
Proof. rewrite length_app. cbn. lia. Qed.

(** What the loop computes over the optional arguments [opt], once [i] of them
    (the [tail]) have been passed. *)
Definition loop_result (req opt ds tail : list Json) (first : option nat) :
    option (list Json * option nat) :=
  match first with
  | Some idx =>
      filled ← mapM substitute (zip opt ds); Some (req ++ filled ++ tail, Some idx)
  | None =>
      let kept := drop_trailing_nulls opt in
      filled ← mapM substitute (zip kept ds);
      Some (req ++ filled ++ drop (length kept) opt ++ tail,
            match kept with [] => None | _ => Some (length req + length kept - 1)%nat end)
  end.

Definition agrees {A} (o : outcome A) (r : option A) : Prop :=
  match r with Some a => o = Return a | None => exists why, o = Panic why end.

Lemma loop_result_snoc req opt ds tail a d first :
  length opt = length ds ->
  loop_result req (opt ++ [a]) (ds ++ [d]) tail first =
    match first with
    | Some _ =>
        if is_null a then
          if is_null d then loop_result req opt ds (d :: tail) first ≫= fun _ => None
          else loop_result req opt ds (d :: tail) first
        else loop_result req opt ds (a :: tail) first
    | None =>
        if is_null a then loop_result req opt ds (a :: tail) None
        else loop_result req opt ds (a :: tail) (Some (length req + length opt)%nat)
    end.
Proof.
  intros Hlen. unfold loop_result. destruct first as [idx|].
  - rewrite mapM_substitute_snoc by done. unfold substitute at 2. cbn [fst snd].
    destruct (mapM substitute (zip opt ds)) as [f|], (is_null a), (is_null d); cbn;
      by rewrite <- ?app_assoc.
  - rewrite drop_trailing_nulls_snoc. destruct (is_null a) eqn:Ha.
    + destruct (drop_trailing_nulls_prefix opt) as [l' Hl'].
      set (kept := drop_trailing_nulls opt) in *.
      assert (length kept <= length opt)%nat as Hk by (rewrite Hl', length_app; lia).
      rewrite zip_with_app_r, (drop_ge kept), zip_with_nil_l, app_nil_r, (take_ge kept) by lia.
      rewrite drop_app_le by done. by rewrite <- app_assoc.
    + rewrite mapM_substitute_snoc by done. unfold substitute at 2. cbn [fst snd]. rewrite Ha.
      destruct (mapM substitute (zip opt ds)) as [f|]; cbn; [|done].
      rewrite drop_ge by done. cbn [app]. rewrite <- app_assoc, length_app. cbn [app length].
      destruct (opt ++ [a]) eqn:Hnil; [by destruct opt|]. do 3 f_equal. lia.
Qed.

Lemma handle_defaults_loop_spec opt req ds tail dtail first :
  length opt = length ds -> length tail = length dtail ->
  agrees (handle_defaults_loop (length opt) (length tail) (req ++ opt ++ tail) (ds ++ dtail) first)
    (loop_result req opt ds tail first).
Proof.
  revert ds tail dtail first.
  induction opt as [|a opt IH] using rev_ind; intros ds tail dtail first Hlen Htail.
  { destruct ds; [|done]. by destruct first. }
  rewrite length_app in Hlen. cbn in Hlen.
  destruct ds as [|d ds _] using rev_ind; [cbn in Hlen; lia|].
  rewrite length_app in Hlen. cbn in Hlen.
  rewrite loop_result_snoc by lia. rewrite length_app, Nat.add_1_r. cbn [length handle_defaults_loop].
  rewrite <- !app_assoc. cbn [app].
  assert (index (req ++ opt ++ a :: tail)
            (length (req ++ opt ++ a :: tail) - 1 - length tail) = Return a) as Hia.
  { rewrite app_assoc. apply loop_index. }
  assert (index (ds ++ d :: dtail) (length (ds ++ d :: dtail) - 1 - length tail) = Return d) as Hid.
  { rewrite Htail. apply loop_index. }
  assert (length (req ++ opt ++ a :: tail) - 1 - length tail = length req + length opt)%nat as Hpl.
  { rewrite app_assoc, loop_place, length_app. done. }
  rewrite Hia, Hid. cbn [mbind outcome_bind]. rewrite Hpl.
  assert (<[(length req + length opt)%nat := d]> (req ++ opt ++ a :: tail) =
            req ++ opt ++ d :: tail) as Hset.
  { rewrite insert_app_r. by rewrite <- (Nat.add_0_r (length opt)), insert_app_r. }
  rewrite Hset.
  pose proof (IH ds (a :: tail) (d :: dtail) first ltac:(lia) ltac:(cbn; lia)) as IHa.
  pose proof (IH ds (d :: tail) (d :: dtail) first ltac:(lia) ltac:(cbn; lia)) as IHd.
  pose proof (IH ds (a :: tail) (d :: dtail) (Some (length req + length opt)%nat)
                ltac:(lia) ltac:(cbn; lia)) as IHs.
  destruct (is_null a) eqn:Ha, first as [idx|]; cbn [is_Some bool_decide decide]; rewrite ?bool_decide_true by eauto;
    try exact IHa; try exact IHs.
  destruct (is_null d); [|exact IHd].
  destruct (loop_result req opt ds (d :: tail) (Some idx)); by eexists.
Qed.

Lemma handle_defaults_fill req opt ds :
  length opt = length ds ->
  agrees (handle_defaults (req ++ opt) ds) (app req <$> fill_optional opt ds).
Proof.
  intros Hlen. pose proof (handle_defaults_loop_spec opt req ds [] [] None Hlen eq_refl) as Hloop.
  rewrite !app_nil_r in Hloop. cbn [length] in Hloop.
  unfold handle_defaults. rewrite (proj2 (Nat.leb_le _ _)) by (rewrite length_app; lia).
  cbn [assert_ mbind outcome_bind]. rewrite <- Hlen at 1.
  unfold fill_optional. unfold loop_result in Hloop.
  destruct (drop_trailing_nulls_prefix opt) as [l' Hl'].
  set (kept := drop_trailing_nulls opt) in *.
  assert (length kept <= length opt)%nat as Hk by (rewrite Hl', length_app; lia).
  destruct (mapM substitute (zip kept ds)) as [f|] eqn:Hf; cbn in Hloop |- *.
  - rewrite Hloop. cbn [mbind outcome_bind].
    apply mapM_substitute_length in Hf. rewrite Nat.min_l in Hf by lia.
    destruct kept as [|k kept]; cbn [length] in Hf.
    + destruct f; [|done]. cbn [app drop length]. rewrite !app_nil_r. do 2 f_equal.
      apply take_app_length'. rewrite drop_0, length_app. lia.
    + do 2 f_equal. rewrite app_assoc. apply take_app_length'. rewrite length_app, Hf. cbn. lia.
  - destruct Hloop as [why ->]. by exists why.
Qed.

(** No default is missing: only the last argument has none. *)
Definition defaults_ok (ds : list Json) : bool := forallb (fun d => negb (is_null d)) (removelast ds).

Lemma fill_optional_total opt ds :
  length opt = length ds -> defaults_ok ds = true -> is_Some (fill_optional opt ds).
Proof.
  unfold fill_optional, defaults_ok. intros Hlen Hok.
  destruct ds as [|d ds _] using rev_ind; [destruct opt; [by eexists|done]|].
  rewrite removelast_last in Hok. rewrite length_app in Hlen. cbn in Hlen.
  assert (forall opt', (length opt' <= length ds)%nat -> is_Some (mapM substitute (zip opt' (ds ++ [d]))))
    as Hall.
  { clear -Hok. induction ds as [|e ds IH]; intros [|o opt'] Hl; cbn in Hl; try (by eexists); [lia|].
    cbn in Hok. apply andb_true_iff in Hok as [He Hok]. apply negb_true_iff in He.
    destruct (IH Hok opt' ltac:(lia)) as [f Hf].
    change (is_Some (b ← substitute (o, e); r ← mapM substitute (zip opt' (ds ++ [d])); Some (b :: r))).
    rewrite Hf. unfold substitute. cbn. rewrite He. destruct (is_null o); cbn; by eexists. }
  destruct opt as [|a opt _] using rev_ind; [by eexists|].
  rewrite length_app in Hlen. cbn in Hlen. rewrite drop_trailing_nulls_snoc.
  destruct (is_null a) eqn:Ha.
  - apply Hall. destruct (drop_trailing_nulls_prefix opt) as [l' Hl'].
    pose proof (f_equal length Hl') as Hl. rewrite length_app in Hl. lia.
  - rewrite mapM_substitute_snoc by lia.
    destruct (Hall opt ltac:(lia)) as [f Hf].
    rewrite zip_with_app_r, (drop_ge opt), zip_with_nil_l, app_nil_r, (take_ge opt) in Hf by lia.
    rewrite Hf. unfold substitute. cbn. rewrite Ha. by eexists.
Qed.

Lemma handle_defaults_total args ds :
  (length ds <= length args)%nat -> defaults_ok ds = true ->
  exists sent, handle_defaults args ds = Return sent.
Proof.
  intros Hlen Hok. rewrite <- (take_drop (length args - length ds) args).
  assert (length (drop (length args - length ds) args) = length ds) as Hl by (rewrite length_drop; lia).
  destruct (fill_optional_total _ ds Hl Hok) as [f Hf].
  pose proof (handle_defaults_fill (take (length args - length ds) args) _ ds Hl) as Hs.
  rewrite Hf in Hs. cbn in Hs. by eexists.
Qed.

(** ** Properties *)

(** C39: [handle_defaults] does what its comment says. The last
    [defaults.len()] arguments are optional; the others are passed as they are;
    of the optional ones the trailing nulls are left out, and every other null
    is replaced by its default. It panics exactly when such a null has no
    default. *)
Theorem handle_defaults_spec req opt defaults (Hlen : length opt = length defaults) :
  match fill_optional opt defaults with
  | Some filled =>
      handle_defaults (req ++ opt) defaults = Return (req ++ filled) /\
      (length filled <= length opt)%nat /\
      (forall a, last filled = Some a -> is_null a = false) /\
      Forall (fun o => is_null o = true) (drop (length filled) opt)
  | None => exists why, handle_defaults (req ++ opt) defaults = Panic why
  end.
Proof.
  pose proof (handle_defaults_fill req opt defaults Hlen) as Hs.
  destruct (fill_optional opt defaults) as [filled|] eqn:Hf; [|exact Hs].
  split; [exact Hs|]. clear Hs. unfold fill_optional in Hf.
  revert defaults filled Hlen Hf.
  induction opt as [|o opt IH] using rev_ind; intros ds filled Hlen Hf.
  { cbn in Hf. injection Hf as <-. split_and!; [done|done|constructor]. }
  destruct ds as [|d ds _] using rev_ind; [rewrite length_app in Hlen; cbn in Hlen; lia|].
  rewrite !length_app in Hlen. cbn in Hlen. rewrite drop_trailing_nulls_snoc in Hf.
  destruct (is_null o) eqn:Ho.
  - destruct (drop_trailing_nulls_prefix opt) as [l' Hl'].
    pose proof (f_equal length Hl') as Hl. rewrite length_app in Hl.
    rewrite zip_with_app_r, (drop_ge (drop_trailing_nulls _)), zip_with_nil_l, app_nil_r, (take_ge (drop_trailing_nulls _)) in Hf by lia.
    destruct (IH ds filled ltac:(lia) Hf) as (Hle & Hlast & Hnull).
    rewrite length_app. split_and!; [lia|done|].
    rewrite drop_app_le by done. apply Forall_app. split; [done|]. by apply Forall_singleton.
  - rewrite mapM_substitute_snoc in Hf by lia.
    destruct (mapM substitute (zip opt ds)) as [f|] eqn:Hm; [|done].
    apply mapM_substitute_length in Hm.
    unfold substitute in Hf. cbn in Hf. rewrite Ho in Hf. injection Hf as <-.
    rewrite !length_app. cbn [length]. split_and!; [lia| |].
    + intros a. rewrite last_snoc. by intros [= <-].
    + rewrite drop_ge; [constructor|]. rewrite length_app. cbn. lia.
Qed.

Lemma handle_defaults_spec_witness :
  exists filled,
    fill_optional [JNull; JBool true; JNull] [JString ""; JNull; JNull] = Some filled /\
    handle_defaults ([JNumber 2] ++ [JNull; JBool true; JNull]) [JString ""; JNull; JNull] =
      Return ([JNumber 2] ++ filled).
Proof.
  exists [JString ""; JBool true]. split; [reflexivity|].
  exact (proj1 (handle_defaults_spec [JNumber 2] [JNull; JBool true; JNull]
                  [JString ""; JNull; JNull] eq_refl)).
Defined.
