(* ===== verification/RpcMethods.v ===== *)
(** * The methods of the bitcoin node's client
    (src/exchange/src/bitcoin/rpc.rs, [impl BitcoinCoreRpcHttp]).

    Every method is the program of requests it sends ([Rpc.rpc]). The types of
    the bitcoincore crates are type parameters; an argument of such a type is
    known by its JSON ([Serialize]) or its text ([ToString]), a result by how it
    is read ([Deserialize]). Integers are [Z]; the callers pass them in the
    range of their Rust type. *)

From S2P Require Import Prelude Json Rpc.

(** ** JSON of the standard types *)

Section values.
Context `{RpcErrors}.

#[export] Instance Z_serialize : Serialize Z := fun z => Ok (JNumber z).
#[export] Instance bool_serialize : Serialize bool := fun b => Ok (JBool b).
#[export] Instance string_serialize : Serialize string := fun s => Ok (JString s).

Fixpoint result_map_list {A B E} (f : A -> result B E) (l : list A) : result (list B) E :=
  match l with
  | [] => Ok []
  | a :: l' =>
      match f a with
      | Err e => Err e
      | Ok b => match result_map_list f l' with Ok bs => Ok (b :: bs) | Err e => Err e end
      end
  end.

#[export] Instance list_serialize {T} `{!Serialize T} : Serialize (list T) :=
  fun l => match result_map_list to_json l with Ok js => Ok (JArray js) | Err e => Err e end.

(** [usize] and [u64] *)
#[export] Instance Z_deserialize : Deserialize Z := fun j =>
  match j with
  | JNumber z => if (0 <=? z) && (z <? 2 ^ 64) then Ok z else Err invalid_type
  | _ => Err invalid_type
  end.
#[export] Instance bool_deserialize : Deserialize bool := fun j =>
  match j with JBool b => Ok b | _ => Err invalid_type end.
#[export] Instance string_deserialize : Deserialize string := fun j =>
  match j with JString s => Ok s | _ => Err invalid_type end.
#[export] Instance unit_deserialize : Deserialize unit := fun j =>
  match j with JNull => Ok tt | _ => Err invalid_type end.
#[export] Instance Json_deserialize : Deserialize Json := Ok.
#[export] Instance list_deserialize {T} `{!Deserialize T} : Deserialize (list T) := fun j =>
  match j with JArray l => result_map_list from_json l | _ => Err invalid_type end.

(** A required field, and an [Option] field, of a derived struct. *)
Definition field_from {T} `{!Deserialize T} (k : string) (j : Json) : result T JsonError :=
  match field k j with Some v => from_json v | None => Err invalid_type end.
Definition opt_field_from {T} `{!Deserialize T} (k : string) (j : Json) : result (option T) JsonError :=
  match field k j with
  | None | Some JNull => Ok None
  | Some v => match from_json v with Ok t => Ok (Some t) | Err e => Err e end
  end.
End values.

(** [RawTx::raw_hex] *)
Class RawTx (R : Type) : Type := raw_hex : R -> string.

(** The three operations of the crates on raw bytes and amounts. *)
Class BitcoinOps `{RpcErrors} (Transaction Amount F64 : Type) : Type := {
  from_hex : string -> result (list Z) HexToBytesError;
  encode_deserialize : list Z -> result Transaction EncodeError;
  from_btc : F64 -> result Amount ParseAmountError;
  to_btc_value : Amount -> Json }.

Section client.
Context `{RpcErrors}.
Context {Transaction Amount F64 : Type} `{!BitcoinOps Transaction Amount F64}.
Context {Address AddressType PubKeyOrAddress BlockHash Txid PublicKey PrivateKey Script : Type}
  `{!ToString Address, !Serialize Address, !Serialize AddressType, !Serialize PubKeyOrAddress,
    !Serialize BlockHash, !Serialize Txid, !ToString PublicKey, !ToString PrivateKey,
    !Serialize PrivateKey, !ToString Script}.
Context `{!Deserialize F64, !Deserialize Address, !Deserialize BlockHash, !Deserialize Txid,
  !Deserialize PrivateKey}.

(** [self.send_request(cmd, handle_defaults(&mut args, &defaults))] *)
Definition send_defaults {T} `{!Deserialize T} (cmd : string) (args defaults : list Json) : rpc T :=
  sent ← of_outcome (handle_defaults args defaults);
  send_request cmd sent.

Definition hex_bytes (hex : string) : rpc (list Z) :=
  match from_hex hex with Ok bytes => mret bytes | Err e => throw (Hex e) end.
Definition decode_transaction (bytes : list Z) : rpc Transaction :=
  match encode_deserialize bytes with Ok tx => mret tx | Err e => throw (BitcoinSerialization e) end.
Definition amount_from (f : F64) : rpc Amount :=
  match from_btc f with Ok a => mret a | Err e => throw (InvalidAmount e) end.

(** ** Node and wallet *)

Definition get_network_info {GetNetworkInfoResult} `{!Deserialize GetNetworkInfoResult} : rpc GetNetworkInfoResult :=
  send_request "getnetworkinfo" [].

Definition version : rpc Z :=
  res ← send_request (T := Json) "getnetworkinfo" [];
  match field_from "version" res with
  | Ok v => mret v
  | Err e => throw (JsonRpc (jsonrpc_json e))
  end.

Definition add_multisig_address {AddMultiSigAddressResult} `{!Deserialize AddMultiSigAddressResult} (nrequired : Z)
    (keys : list PubKeyOrAddress) (label : option string) (address_type : option AddressType) :
    rpc AddMultiSigAddressResult :=
  nrequired ← into_json nrequired;
  keys ← into_json keys;
  label ← opt_into_json label;
  address_type ← opt_into_json address_type;
  empty ← into_json "";
  send_defaults "addmultisigaddress" [nrequired; keys; label; address_type] [empty; null].

Definition load_wallet {LoadWalletResult} `{!Deserialize LoadWalletResult} (wallet : string) : rpc LoadWalletResult :=
  send_request "loadwallet" [JString wallet].

Definition unload_wallet (wallet : option string) : rpc unit :=
  wallet ← opt_into_json wallet;
  send_defaults "unloadwallet" [wallet] [null].

Definition create_wallet {LoadWalletResult} `{!Deserialize LoadWalletResult} (wallet : string)
    (disable_private_keys blank : option bool) (passphrase : option string)
    (avoid_reuse : option bool) : rpc LoadWalletResult :=
  disable_private_keys ← opt_into_json disable_private_keys;
  blank ← opt_into_json blank;
  passphrase ← opt_into_json passphrase;
  avoid_reuse ← opt_into_json avoid_reuse;
  empty ← into_json "";
  send_defaults "createwallet" [JString wallet; disable_private_keys; blank; passphrase; avoid_reuse]
    [JBool false; JBool false; empty; JBool false].

Definition list_wallets : rpc (list string) := send_request "listwallets" [].

Definition get_wallet_info {GetWalletInfoResult} `{!Deserialize GetWalletInfoResult} : rpc GetWalletInfoResult :=
  send_request "getwalletinfo" [].

Definition backup_wallet (destination : option string) : rpc unit :=
  destination ← opt_into_json destination;
  send_defaults "backupwallet" [destination] [null].

Definition dump_private_key (address : Address) : rpc PrivateKey :=
  send_request "dumpprivkey" [JString (to_str address)].

Definition encrypt_wallet (passphrase : string) : rpc unit :=
  passphrase ← into_json passphrase;
  send_request "encryptwallet" [passphrase].

Definition get_difficulty : rpc F64 := send_request "getdifficulty" [].

Definition get_connection_count : rpc Z := send_request "getconnectioncount" [].

(** ** Blocks and transactions *)

Definition get_block_hex (hash : BlockHash) : rpc string :=
  hash ← into_json hash;
  send_request "getblock" [hash; JNumber 0].

Definition get_block_info {GetBlockResult} `{!Deserialize GetBlockResult} (hash : BlockHash) : rpc GetBlockResult :=
  hash ← into_json hash;
  send_request "getblock" [hash; JNumber 1].

Definition get_block_header_info {GetBlockHeaderResult} `{!Deserialize GetBlockHeaderResult} (hash : BlockHash) :
    rpc GetBlockHeaderResult :=
  hash ← into_json hash;
  send_request "getblockheader" [hash; JBool true].

Definition get_mining_info {GetMiningInfoResult} `{!Deserialize GetMiningInfoResult} : rpc GetMiningInfoResult :=
  send_request "getmininginfo" [].

Definition get_block_count : rpc Z := send_request "getblockcount" [].

Definition get_best_block_hash : rpc BlockHash := send_request "getbestblockhash" [].

Definition get_block_hash (height : Z) : rpc BlockHash :=
  send_request "getblockhash" [JNumber height].

Definition get_raw_transaction (txid : Txid) (block_hash : option BlockHash) : rpc Transaction :=
  txid ← into_json txid;
  verbose ← into_json false;
  block_hash ← opt_into_json block_hash;
  hex ← send_defaults "getrawtransaction" [txid; verbose; block_hash] [null];
  bytes ← hex_bytes hex;
  decode_transaction bytes.

Definition get_raw_transaction_hex (txid : Txid) (block_hash : option BlockHash) : rpc string :=
  txid ← into_json txid;
  verbose ← into_json false;
  block_hash ← opt_into_json block_hash;
  send_defaults "getrawtransaction" [txid; verbose; block_hash] [null].

Definition get_raw_transaction_info {GetRawTransactionResult} `{!Deserialize GetRawTransactionResult} (txid : Txid)
    (block_hash : option BlockHash) : rpc GetRawTransactionResult :=
  txid ← into_json txid;
  verbose ← into_json true;
  block_hash ← opt_into_json block_hash;
  send_defaults "getrawtransaction" [txid; verbose; block_hash] [null].

Definition get_block_filter {GetBlockFilterResult} `{!Deserialize GetBlockFilterResult} (block_hash : BlockHash) :
    rpc GetBlockFilterResult :=
  block_hash ← into_json block_hash;
  send_request "getblockfilter" [block_hash].

Definition get_balance (minconf : option Z) (include_watchonly : option bool) : rpc Amount :=
  minconf ← opt_into_json minconf;
  include_watchonly ← opt_into_json include_watchonly;
  f ← send_defaults (T := F64) "getbalance" [JString "*"; minconf; include_watchonly]
        [JNumber 0; null];
  amount_from f.

Definition get_balances {GetBalancesResult} `{!Deserialize GetBalancesResult} : rpc GetBalancesResult :=
  send_request "getbalances" [].

Definition get_received_by_address (address : Address) (minconf : option Z) : rpc Amount :=
  minconf ← opt_into_json minconf;
  f ← send_defaults (T := F64) "getreceivedbyaddress" [JString (to_str address); minconf] [null];
  amount_from f.

Definition get_transaction {GetTransactionResult} `{!Deserialize GetTransactionResult} (txid : Txid)
    (include_watchonly : option bool) : rpc GetTransactionResult :=
  txid ← into_json txid;
  include_watchonly ← opt_into_json include_watchonly;
  send_defaults "gettransaction" [txid; include_watchonly] [null].

Definition list_transactions {ListTransactionResult} `{!Deserialize ListTransactionResult} (label : option string)
    (count skip : option Z) (include_watchonly : option bool) : rpc (list ListTransactionResult) :=
  count ← opt_into_json count;
  skip ← opt_into_json skip;
  include_watchonly ← opt_into_json include_watchonly;
  send_defaults "listtransactions"
    [JString (default "*" label); count; skip; include_watchonly] [JNumber 10; JNumber 0; null].

Definition list_since_block {ListSinceBlockResult} `{!Deserialize ListSinceBlockResult} (blockhash : option BlockHash)
    (target_confirmations : option Z) (include_watchonly include_removed : option bool) :
    rpc ListSinceBlockResult :=
  blockhash ← opt_into_json blockhash;
  target_confirmations ← opt_into_json target_confirmations;
  include_watchonly ← opt_into_json include_watchonly;
  include_removed ← opt_into_json include_removed;
  send_defaults "listsinceblock"
    [blockhash; target_confirmations; include_watchonly; include_removed] [null].

Definition get_tx_out {GetTxOutResult} `{!Deserialize GetTxOutResult} (txid : Txid) (vout : Z)
    (include_mempool : option bool) : rpc (option GetTxOutResult) :=
  txid ← into_json txid;
  vout ← into_json vout;
  include_mempool ← opt_into_json include_mempool;
  res ← send_defaults "gettxout" [txid; vout; include_mempool] [null];
  opt_result res.

Definition get_tx_out_proof (txids : list Txid) (block_hash : option BlockHash) : rpc (list Z) :=
  txids ← into_json txids;
  block_hash ← opt_into_json block_hash;
  hex ← send_defaults "gettxoutproof" [txids; block_hash] [null];
  hex_bytes hex.

(** ** Imports and the wallet's outputs *)

Definition import_public_key (pubkey : PublicKey) (label : option string) (rescan : option bool) :
    rpc unit :=
  label ← opt_into_json label;
  rescan ← opt_into_json rescan;
  empty ← into_json "";
  send_defaults "importpubkey" [JString (to_str pubkey); label; rescan] [empty; null].

Definition import_private_key (privkey : PrivateKey) (label : option string) (rescan : option bool) :
    rpc unit :=
  label ← opt_into_json label;
  rescan ← opt_into_json rescan;
  empty ← into_json "";
  send_defaults "importprivkey" [JString (to_str privkey); label; rescan] [empty; null].

Definition import_address (address : Address) (label : option string) (rescan : option bool) :
    rpc unit :=
  label ← opt_into_json label;
  rescan ← opt_into_json rescan;
  empty ← into_json "";
  send_defaults "importaddress" [JString (to_str address); label; rescan] [empty; null].

(** [script.to_hex_string()] is the script's text here. *)
Definition import_address_script (script : Script) (label : option string)
    (rescan p2sh : option bool) : rpc unit :=
  label ← opt_into_json label;
  rescan ← opt_into_json rescan;
  p2sh ← opt_into_json p2sh;
  empty ← into_json "";
  send_defaults "importaddress" [JString (to_str script); label; rescan; p2sh]
    [empty; JBool true; null].

Definition import_multi {ImportMultiRequest} `{!Serialize ImportMultiRequest} {ImportMultiOptions}
    `{!Serialize ImportMultiOptions} {ImportMultiResult} `{!Deserialize ImportMultiResult}
    (requests : list ImportMultiRequest) (options : option ImportMultiOptions) :
    rpc (list ImportMultiResult) :=
  json_requests ← lift_json (result_map_list to_json requests);
  options ← opt_into_json options;
  send_defaults "importmulti" [JArray json_requests; options] [null].

Definition set_label (address : Address) (label : string) : rpc unit :=
  send_request "setlabel" [JString (to_str address); JString label].

Definition key_pool_refill (new_size : option Z) : rpc unit :=
  new_size ← opt_into_json new_size;
  send_defaults "keypoolrefill" [new_size] [null].

Definition list_unspent {ListUnspentQueryOptions} `{!Serialize ListUnspentQueryOptions}
    {ListUnspentResultEntry} `{!Deserialize ListUnspentResultEntry}
    (minconf maxconf : option Z) (addresses : option (list Address)) (include_unsafe : option bool)
    (query_options : option ListUnspentQueryOptions) : rpc (list ListUnspentResultEntry) :=
  minconf ← opt_into_json minconf;
  maxconf ← opt_into_json maxconf;
  addresses ← opt_into_json addresses;
  include_unsafe ← opt_into_json include_unsafe;
  query_options ← opt_into_json query_options;
  d0 ← into_json 0;
  d1 ← into_json 9999999;
  d3 ← into_json true;
  send_defaults "listunspent" [minconf; maxconf; addresses; include_unsafe; query_options]
    [d0; d1; empty_arr; d3; null].

(** [JsonOutPoint::from] of the [OutPoint]s, written by [serde_json] (the
    [unwrap] of its result panics). *)
Definition json_out_point (o : Txid * Z) : rpc Json :=
  match to_json o.1 with
  | Ok txid => mret (JObject [("txid", txid); ("vout", JNumber o.2)])
  | Err _ => Panicked "called `Result::unwrap()` on an `Err` value"
  end.

Fixpoint json_out_points (outputs : list (Txid * Z)) : rpc (list Json) :=
  match outputs with
  | [] => mret []
  | o :: outputs' =>
      j ← json_out_point o;
      js ← json_out_points outputs';
      mret (j :: js)
  end.

Definition lock_unspent (outputs : list (Txid * Z)) : rpc bool :=
  outputs ← json_out_points outputs;
  send_request "lockunspent" [JBool false; JArray outputs].

Definition unlock_unspent (outputs : list (Txid * Z)) : rpc bool :=
  outputs ← json_out_points outputs;
  send_request "lockunspent" [JBool true; JArray outputs].

Definition list_received_by_address {ListReceivedByAddressResult}
    `{!Deserialize ListReceivedByAddressResult} (address_filter : option Address)
    (minconf : option Z) (include_empty include_watchonly : option bool) :
    rpc (list ListReceivedByAddressResult) :=
  minconf ← opt_into_json minconf;
  include_empty ← opt_into_json include_empty;
  include_watchonly ← opt_into_json include_watchonly;
  address_filter ← opt_into_json address_filter;
  send_defaults "listreceivedbyaddress" [minconf; include_empty; include_watchonly; address_filter]
    [JNumber 1; JBool false; JBool false; null].

(** ** Raw transactions *)

(** A [serde_json::Map] of the amounts by address. *)
Definition outs_converted (outs : list (string * Amount)) : Json :=
  JObject (foldl (fun m kv => map_insert kv.1 (to_btc_value kv.2) m) [] outs).

Definition create_raw_transaction_hex {CreateRawTransactionInput}
    `{!Serialize CreateRawTransactionInput} (utxos : list CreateRawTransactionInput)
    (outs : list (string * Amount)) (locktime : option Z) (replaceable : option bool) : rpc string :=
  utxos ← into_json utxos;
  locktime ← opt_into_json locktime;
  replaceable ← opt_into_json replaceable;
  d0 ← into_json 0;
  send_defaults "createrawtransaction" [utxos; outs_converted outs; locktime; replaceable] [d0; null].

Definition create_raw_transaction {CreateRawTransactionInput}
    `{!Serialize CreateRawTransactionInput} (utxos : list CreateRawTransactionInput)
    (outs : list (string * Amount)) (locktime : option Z) (replaceable : option bool) :
    rpc Transaction :=
  hex ← create_raw_transaction_hex utxos outs locktime replaceable;
  bytes ← hex_bytes hex;
  decode_transaction bytes.

Definition fund_raw_transaction {R} `{!RawTx R} {FundRawTransactionOptions}
    `{!Serialize FundRawTransactionOptions} {FundRawTransactionResult}
    `{!Deserialize FundRawTransactionResult} (tx : R) (options : option FundRawTransactionOptions)
    (is_witness : option bool) : rpc FundRawTransactionResult :=
  options ← opt_into_json options;
  is_witness ← opt_into_json is_witness;
  send_defaults "fundrawtransaction" [JString (raw_hex tx); options; is_witness] [empty_obj; null].

Section signing.
Context {R SignRawTransactionInput EcdsaSighashType SignRawTransactionResult : Type}
  `{!RawTx R, !Serialize SignRawTransactionInput, !Serialize EcdsaSighashType,
    !Deserialize SignRawTransactionResult}.

Definition sign_raw_transaction (tx : R) (utxos : option (list SignRawTransactionInput))
    (private_keys : option (list PrivateKey)) (sighash_type : option EcdsaSighashType) :
    rpc SignRawTransactionResult :=
  utxos ← opt_into_json utxos;
  private_keys ← opt_into_json private_keys;
  sighash_type ← opt_into_json sighash_type;
  send_defaults "signrawtransaction" [JString (raw_hex tx); utxos; private_keys; sighash_type]
    [empty_arr; empty_arr; null].

Definition sign_raw_transaction_with_wallet (tx : R)
    (utxos : option (list SignRawTransactionInput)) (sighash_type : option EcdsaSighashType) :
    rpc SignRawTransactionResult :=
  utxos ← opt_into_json utxos;
  sighash_type ← opt_into_json sighash_type;
  send_defaults "signrawtransactionwithwallet" [JString (raw_hex tx); utxos; sighash_type]
    [empty_arr; null].

Definition sign_raw_transaction_with_key (tx : R) (privkeys : list PrivateKey)
    (prevtxs : option (list SignRawTransactionInput)) (sighash_type : option EcdsaSighashType) :
    rpc SignRawTransactionResult :=
  privkeys ← into_json privkeys;
  prevtxs ← opt_into_json prevtxs;
  sighash_type ← opt_into_json sighash_type;
  send_defaults "signrawtransactionwithkey"
    [JString (raw_hex tx); privkeys; prevtxs; sighash_type] [empty_arr; null].
End signing.

Definition test_mempool_accept {R} `{!RawTx R} {TestMempoolAcceptResult}
    `{!Deserialize TestMempoolAcceptResult} (rawtxs : list R) : rpc (list TestMempoolAcceptResult) :=
  send_request "testmempoolaccept" [JArray ((fun r => JString (raw_hex r)) <$> rawtxs)].

Definition stop : rpc string := send_request "stop" [].

Definition verify_message {Signature} `{!ToString Signature} (address : Address)
    (signature : Signature) (message : string) : rpc bool :=
  message ← into_json message;
  send_request "verifymessage" [JString (to_str address); JString (to_str signature); message].

(** ** Addresses, mining, the mempool *)

Definition get_new_address (label : option string) (address_type : option AddressType) : rpc Address :=
  label ← opt_into_json label;
  address_type ← opt_into_json address_type;
  send_request "getnewaddress" [label; address_type].

Definition get_address_info {GetAddressInfoResult} `{!Deserialize GetAddressInfoResult}
    (address : Address) : rpc GetAddressInfoResult :=
  send_request "getaddressinfo" [JString (to_str address)].

Definition generate_to_address (block_num : Z) (address : Address) : rpc (list BlockHash) :=
  send_request "generatetoaddress" [JNumber block_num; JString (to_str address)].

Definition generate (block_num : Z) (maxtries : option Z) : rpc (list BlockHash) :=
  maxtries ← opt_into_json maxtries;
  send_request "generate" [JNumber block_num; maxtries].

Definition invalidate_block (block_hash : BlockHash) : rpc unit :=
  block_hash ← into_json block_hash;
  send_request "invalidateblock" [block_hash].

Definition reconsider_block (block_hash : BlockHash) : rpc unit :=
  block_hash ← into_json block_hash;
  send_request "reconsiderblock" [block_hash].

Definition get_raw_mempool : rpc (list Txid) := send_request "getrawmempool" [].

Definition get_mempool_entry {GetMempoolEntryResult} `{!Deserialize GetMempoolEntryResult}
    (txid : Txid) : rpc GetMempoolEntryResult :=
  txid ← into_json txid;
  send_request "getmempoolentry" [txid].

Definition send_to_address {EstimateMode} `{!Serialize EstimateMode} (address : Address)
    (amount : Amount) (comment comment_to : option string)
    (subtract_fee replaceable : option bool) (confirmation_target : option Z)
    (estimate_mode : option EstimateMode) : rpc Txid :=
  comment ← opt_into_json comment;
  comment_to ← opt_into_json comment_to;
  subtract_fee ← opt_into_json subtract_fee;
  replaceable ← opt_into_json replaceable;
  confirmation_target ← opt_into_json confirmation_target;
  estimate_mode ← opt_into_json estimate_mode;
  send_defaults "sendtoaddress"
    [JString (to_str address); to_btc_value amount; comment; comment_to; subtract_fee; replaceable;
     confirmation_target; estimate_mode]
    [JString ""; JString ""; JBool false; JBool false; JNumber 6; null].

Definition get_peer_info {GetPeerInfoResult} `{!Deserialize GetPeerInfoResult} :
    rpc (list GetPeerInfoResult) :=
  send_request "getpeerinfo" [].

Definition ping : rpc unit := send_request "ping" [].

Definition send_raw_transaction {R} `{!RawTx R} (tx : R) : rpc Txid :=
  send_request "sendrawtransaction" [JString (raw_hex tx)].

Definition estimate_smart_fee {EstimateMode} `{!Serialize EstimateMode} {EstimateSmartFeeResult}
    `{!Deserialize EstimateSmartFeeResult} (conf_target : Z) (estimate_mode : option EstimateMode) :
    rpc EstimateSmartFeeResult :=
  conf_target ← into_json conf_target;
  estimate_mode ← opt_into_json estimate_mode;
  send_defaults "estimatesmartfee" [conf_target; estimate_mode] [null].

Definition wait_for_new_block {BlockRef} `{!Deserialize BlockRef} (timeout : Z) : rpc BlockRef :=
  timeout ← into_json timeout;
  send_request "waitfornewblock" [timeout].

Definition wait_for_block {BlockRef} `{!Deserialize BlockRef} (blockhash : BlockHash) (timeout : Z) :
    rpc BlockRef :=
  blockhash ← into_json blockhash;
  timeout ← into_json timeout;
  send_request "waitforblock" [blockhash; timeout].

(** ** Psbts, descriptors, the chain *)

Definition wallet_create_funded_psbt {CreateRawTransactionInput}
    `{!Serialize CreateRawTransactionInput} {WalletCreateFundedPsbtOptions}
    `{!Serialize WalletCreateFundedPsbtOptions} {WalletCreateFundedPsbtResult}
    `{!Deserialize WalletCreateFundedPsbtResult} (inputs : list CreateRawTransactionInput)
    (outputs : list (string * Amount)) (locktime : option Z)
    (options : option WalletCreateFundedPsbtOptions) (bip32derivs : option bool) :
    rpc WalletCreateFundedPsbtResult :=
  inputs ← into_json inputs;
  locktime ← opt_into_json locktime;
  options ← opt_into_json options;
  bip32derivs ← opt_into_json bip32derivs;
  send_defaults "walletcreatefundedpsbt"
    [inputs; outs_converted outputs; locktime; options; bip32derivs]
    [JNumber 0; JObject []; JBool false].

Definition get_descriptor_info {GetDescriptorInfoResult} `{!Deserialize GetDescriptorInfoResult}
    (desc : string) : rpc GetDescriptorInfoResult :=
  send_request "getdescriptorinfo" [JString desc].

Definition combine_psbt (psbts : list string) : rpc string :=
  psbts ← into_json psbts;
  send_request "combinepsbt" [psbts].

Definition finalize_psbt {FinalizePsbtResult} `{!Deserialize FinalizePsbtResult} (psbt : string)
    (extract : option bool) : rpc FinalizePsbtResult :=
  psbt ← into_json psbt;
  extract ← opt_into_json extract;
  send_defaults "finalizepsbt" [psbt; extract] [JBool true].

(** [range]: the two bounds. *)
Definition derive_addresses (descriptor : string) (range : option (Z * Z)) : rpc (list Address) :=
  descriptor ← into_json descriptor;
  range ← opt_into_json ((fun r => [r.1; r.2]) <$> range);
  send_defaults "deriveaddresses" [descriptor; range] [null].

Definition rescan_blockchain (start_from stop_height : option Z) : rpc (Z * option Z) :=
  start_from ← opt_into_json start_from;
  stop_height ← opt_into_json stop_height;
  res ← send_defaults (T := Json) "rescanblockchain" [start_from; stop_height] [JNumber 0; null];
  match field_from "start_height" res, opt_field_from "stop_height" res with
  | Ok s, Ok t => mret (s, t)
  | Err e, _ | _, Err e => throw (JsonRpc (jsonrpc_json e))
  end.

Definition get_tx_out_set_info {GetTxOutSetInfoResult} `{!Deserialize GetTxOutSetInfoResult} :
    rpc GetTxOutSetInfoResult :=
  send_request "gettxoutsetinfo" [].

Definition get_net_totals {GetNetTotalsResult} `{!Deserialize GetNetTotalsResult} :
    rpc GetNetTotalsResult :=
  send_request "getnettotals" [].

Definition get_network_hash_ps (nblocks height : option Z) : rpc F64 :=
  nblocks ← opt_into_json nblocks;
  height ← opt_into_json height;
  send_defaults "getnetworkhashps" [nblocks; height] [null; null].

Definition uptime : rpc Z := send_request "uptime" [].

Definition scan_tx_out_set_blocking {ScanTxOutRequest} `{!Serialize ScanTxOutRequest}
    {ScanTxOutResult} `{!Deserialize ScanTxOutResult} (descriptors : list ScanTxOutRequest) :
    rpc ScanTxOutResult :=
  descriptors ← into_json descriptors;
  send_request "scantxoutset" [JString "start"; descriptors].
End client.

(** ** The state of the chain, from old nodes and new *)

Inductive SoftforkType : Type := Buried | Bip9.

(** [Bip9SoftforkInfo] and [Softfork] of bitcoincore_rpc_json, whose fields the
    method fills in. *)
Record Bip9SoftforkInfo (Status Statistics : Type) : Type := mkBip9SoftforkInfo {
  bi_status : Status;
  bi_bit : option Z;
  bi_start_time : Z;
  bi_timeout : Z;
  bi_since : Z;
  bi_statistics : option Statistics }.
Arguments mkBip9SoftforkInfo {Status Statistics}.

Record Softfork (Status Statistics : Type) : Type := mkSoftfork {
  sf_type : SoftforkType;
  sf_bip9 : option (Bip9SoftforkInfo Status Statistics);
  sf_height : option Z;
  sf_active : bool }.
Arguments mkSoftfork {Status Statistics}.

Section blockchain_info.
Context `{RpcErrors}.
Context {Bip9SoftforkStatus Bip9SoftforkStatistics GetBlockchainInfoResult : Type}
  `{!Deserialize Bip9SoftforkStatus, !Deserialize Bip9SoftforkStatistics,
    !Deserialize GetBlockchainInfoResult}.
(** [Bip9SoftforkStatus::Active], and [ret.softforks.insert]. *)
Context (is_active : Bip9SoftforkStatus -> bool)
  (softforks_insert : string -> Softfork Bip9SoftforkStatus Bip9SoftforkStatistics ->
     GetBlockchainInfoResult -> GetBlockchainInfoResult).

(** An integer of a width. *)
Definition int_from (lo hi : Z) (k : string) (j : Json) : result Z JsonError :=
  match field k j with
  | Some (JNumber z) => if (lo <=? z) && (z <=? hi) then Ok z else Err invalid_type
  | _ => Err invalid_type
  end.
Definition opt_u8_from (k : string) (j : Json) : result (option Z) JsonError :=
  match field k j with
  | None | Some JNull => Ok None
  | Some _ => match int_from 0 255 k j with Ok z => Ok (Some z) | Err e => Err e end
  end.

(** [OldBip9SoftFork], read into the [Softfork] made from it. *)
Definition old_bip9_softfork (j : Json) :
    rpc (Softfork Bip9SoftforkStatus Bip9SoftforkStatistics) :=
  status ← lift_json (field_from "status" j);
  bit ← lift_json (opt_u8_from "bit" j);
  start_time ← lift_json (int_from (- 2 ^ 63) (2 ^ 63 - 1) "startTime" j);
  timeout ← lift_json (int_from 0 (2 ^ 64 - 1) "timeout" j);
  since ← lift_json (int_from 0 u32_max "since" j);
  statistics ← lift_json (opt_field_from "statistics" j);
  mret (mkSoftfork Bip9 (Some (mkBip9SoftforkInfo status bit start_time timeout since statistics))
          None (is_active status)).

Fixpoint add_old_softforks (sfs : list Json) (ret : GetBlockchainInfoResult) :
    rpc GetBlockchainInfoResult :=
  match sfs with
  | [] => mret ret
  | sf :: sfs' =>
      json ← ok_or (as_object sf) UnexpectedStructure;
      id ← ok_or (assoc "id" json) UnexpectedStructure;
      id ← ok_or (as_str id) UnexpectedStructure;
      reject ← ok_or (assoc "reject" json) UnexpectedStructure;
      reject ← ok_or (as_object reject) UnexpectedStructure;
      active ← ok_or (assoc "status" reject) UnexpectedStructure;
      active ← ok_or (as_bool active) UnexpectedStructure;
      add_old_softforks sfs' (softforks_insert id (mkSoftfork Buried None None active) ret)
  end.

Fixpoint add_bip9_softforks (sfs : list (string * Json)) (ret : GetBlockchainInfoResult) :
    rpc GetBlockchainInfoResult :=
  match sfs with
  | [] => mret ret
  | (id, sf) :: sfs' =>
      sf ← old_bip9_softfork sf;
      add_bip9_softforks sfs' (softforks_insert id sf ret)
  end.

Definition get_blockchain_info : rpc GetBlockchainInfoResult :=
  raw ← send_request (T := Json) "getblockchaininfo" [];
  v ← version;
  if v <? 190000 then
    map ← ok_or (as_object raw) UnexpectedStructure;
    let '(bip9_softforks, map) := map_remove "bip9_softforks" map in
    bip9_softforks ← ok_or bip9_softforks UnexpectedStructure;
    let '(old_softforks, map) := map_remove "softforks" map in
    old_softforks ← ok_or old_softforks UnexpectedStructure;
    let map := map_insert "softforks" (JObject []) map in
    ret ← lift_json (from_json (JObject map));
    old ← ok_or (as_array old_softforks) UnexpectedStructure;
    ret ← add_old_softforks old ret;
    bip9 ← ok_or (as_object bip9_softforks) UnexpectedStructure;
    add_bip9_softforks bip9 ret
  else lift_json (from_json raw).
End blockchain_info.

(** ** Methods that cannot panic *)

Section safe.
Context `{RpcErrors}.

Inductive safe {A} : rpc A -> Prop :=
| safe_done r : safe (Done r)
| safe_request cmd args k : (forall r, safe (k r)) -> safe (Request cmd args k).

Lemma safe_run {A} (m : rpc A) answers why : safe m -> (run m answers).2 <> Some (Panic why).
Proof.
  intros Hm. revert answers. induction Hm as [r|cmd args k _ IH]; intros answers; cbn; [done|].
  destruct answers as [|a answers]; [done|]. specialize (IH a answers).
  by destruct (run (k a) answers) as [reqs r].
Qed.

Lemma safe_ret {A} (a : A) : safe (mret a).
Proof. constructor. Qed.

Lemma safe_bind {A B} (m : rpc A) (f : A -> rpc B) :
  safe m -> (forall a, safe (f a)) -> safe (m ≫= f).
Proof.
  intros Hm Hf. induction Hm as [[a|e]|cmd args k _ IH]; cbn; [apply Hf|constructor|].
  constructor. intros r. apply IH.
Qed.

Lemma safe_throw {A} (e : Error) : safe (throw (A := A) e).
Proof. constructor. Qed.

Lemma safe_ok_or {A} (o : option A) e : safe (ok_or o e).
Proof. destruct o; constructor. Qed.

Lemma safe_lift_json {A} (r : result A JsonError) : safe (lift_json r).
Proof. destruct r; constructor. Qed.

Lemma safe_into_json {T} `{!Serialize T} (t : T) : safe (into_json t).
Proof. apply safe_lift_json. Qed.

Lemma safe_opt_into_json {T} `{!Serialize T} (t : option T) : safe (opt_into_json t).
Proof. destruct t; [apply safe_into_json|constructor]. Qed.

Lemma safe_opt_result {T} `{!Deserialize T} j : safe (opt_result (T := T) j).
Proof.
  unfold opt_result. destruct (is_null j); [constructor|].
  apply safe_bind; [apply safe_lift_json|constructor].
Qed.

Lemma safe_send_request {T} `{!Deserialize T} cmd args : safe (send_request (T := T) cmd args).
Proof. constructor. intros [v|e]; [destruct (from_json v)|]; constructor. Qed.

Lemma safe_send_defaults {T} `{!Deserialize T} cmd args ds :
  (length ds <= length args)%nat -> defaults_ok ds = true ->
  safe (send_defaults (T := T) cmd args ds).
Proof.
  intros Hlen Hok. unfold send_defaults.
  destruct (handle_defaults_total args ds Hlen Hok) as [sent ->].
  apply safe_bind; [constructor|]. intros l. apply safe_send_request.
Qed.
End safe.

Create HintDb rpc.
#[export] Hint Resolve safe_ret safe_bind safe_throw safe_ok_or safe_lift_json safe_into_json
  safe_opt_into_json safe_opt_result safe_send_request : rpc.
#[export] Hint Extern 1 (safe (send_defaults _ _ _)) =>
  apply safe_send_defaults; [cbn; lia|reflexivity] : rpc.

Section safe_blockchain_info.
Context `{RpcErrors}.
Context {Bip9SoftforkStatus Bip9SoftforkStatistics GetBlockchainInfoResult : Type}
  `{!Deserialize Bip9SoftforkStatus, !Deserialize Bip9SoftforkStatistics,
    !Deserialize GetBlockchainInfoResult}.
Context (is_active : Bip9SoftforkStatus -> bool)
  (softforks_insert : string -> Softfork Bip9SoftforkStatus Bip9SoftforkStatistics ->
     GetBlockchainInfoResult -> GetBlockchainInfoResult).

Lemma safe_add_old_softforks sfs ret : safe (add_old_softforks softforks_insert sfs ret).
Proof.
  revert ret. induction sfs as [|sf sfs IH]; intros ret; cbn [add_old_softforks]; [constructor|].
  repeat (apply safe_bind; [apply safe_ok_or|intros ?]). apply IH.
Qed.

Lemma safe_add_bip9_softforks sfs ret : safe (add_bip9_softforks is_active softforks_insert sfs ret).
Proof.
  revert ret. induction sfs as [|[id sf] sfs IH]; intros ret; cbn [add_bip9_softforks]; [constructor|].
  apply safe_bind; [|intros ?; apply IH]. unfold old_bip9_softfork.
  repeat (apply safe_bind; [apply safe_lift_json|intros ?]). constructor.
Qed.

Lemma safe_version : safe version.
Proof.
  unfold version. apply safe_bind; [apply safe_send_request|intros res].
  destruct (field_from _ res); constructor.
Qed.

Lemma safe_blockchain_info : safe (get_blockchain_info is_active softforks_insert).
Proof.
  unfold get_blockchain_info. apply safe_bind; [apply safe_send_request|intros raw].
  apply safe_bind; [apply safe_version|intros v]. destruct (v <? 190000); [|apply safe_lift_json].
  apply safe_bind; [apply safe_ok_or|intros map].
  destruct (map_remove "bip9_softforks" map) as [bip9 map1]. apply safe_bind; [apply safe_ok_or|intros ?].
  destruct (map_remove "softforks" map1) as [old map2]. apply safe_bind; [apply safe_ok_or|intros ?].
  apply safe_bind; [apply safe_lift_json|intros ?]. apply safe_bind; [apply safe_ok_or|intros ?].
  apply safe_bind; [apply safe_add_old_softforks|intros ?]. apply safe_bind; [apply safe_ok_or|intros ?].
  apply safe_add_bip9_softforks.
Qed.
End safe_blockchain_info.

(** ** Properties *)

Section properties.
Context `{RpcErrors}.
Context {Transaction Amount F64 : Type} `{!BitcoinOps Transaction Amount F64}.
Context {Address AddressType PubKeyOrAddress BlockHash Txid PublicKey PrivateKey Script : Type}
  `{!ToString Address, !Serialize Address, !Serialize AddressType, !Serialize PubKeyOrAddress,
    !Serialize BlockHash, !Serialize Txid, !ToString PublicKey, !ToString PrivateKey,
    !Serialize PrivateKey, !ToString Script}.
Context `{!Deserialize F64, !Deserialize Address, !Deserialize BlockHash, !Deserialize Txid,
  !Deserialize PrivateKey}.

(** Go through a method; what a literal is written as is kept. *)
Ltac head_of t := match t with ?f _ => head_of f | _ => t end.
Ltac safe_step :=
  lazymatch goal with
  | |- safe (into_json (T := string) ?v ≫= ?f) => change (safe (f (JString v))); cbv beta
  | |- safe (into_json (T := Z) ?v ≫= ?f) => change (safe (f (JNumber v))); cbv beta
  | |- safe (into_json (T := bool) ?v ≫= ?f) => change (safe (f (JBool v))); cbv beta
  | |- safe (_ ≫= _) => apply safe_bind; [solve [eauto with rpc]|intros]
  end.
Ltac solve_safe :=
  intros; match goal with |- safe ?m => let h := head_of m in unfold h end;
  repeat safe_step; eauto with rpc.

Lemma safe_hex_bytes hex : safe (hex_bytes hex).
Proof. unfold hex_bytes. destruct (from_hex hex); constructor. Qed.
Lemma safe_decode_transaction bytes : safe (decode_transaction bytes).
Proof. unfold decode_transaction. destruct (encode_deserialize bytes); constructor. Qed.
Lemma safe_amount_from f : safe (amount_from f).
Proof. unfold amount_from. destruct (from_btc f); constructor. Qed.
#[local] Hint Resolve safe_hex_bytes safe_decode_transaction safe_amount_from : rpc.

Lemma safe_create_raw_transaction_hex {I} `{!Serialize I} (utxos : list I) outs locktime replaceable :
  safe (create_raw_transaction_hex utxos outs locktime replaceable).
Proof. solve_safe. Qed.
#[local] Hint Resolve safe_create_raw_transaction_hex : rpc.

Lemma safe_rescan_blockchain start stop_height : safe (rescan_blockchain start stop_height).
Proof.
  unfold rescan_blockchain. do 2 (apply safe_bind; [apply safe_opt_into_json|intros ?]).
  apply safe_bind; [eauto with rpc|intros res].
  destruct (field_from _ res); [|constructor]. destruct (opt_field_from _ res); constructor.
Qed.

(** Transaction ids that can be written as JSON, as those of the library. *)
Definition writable (outputs : list (Txid * Z)) : Prop := Forall (fun o => is_Ok (to_json o.1)) outputs.

Lemma json_out_points_cases outputs :
  writable outputs /\ (exists js, json_out_points outputs = Done (Ok js)) \/
  ~ writable outputs /\ exists why, json_out_points outputs = Panicked why.
Proof.
  unfold writable. induction outputs as [|o outputs IH]; cbn [json_out_points].
  { left. split; [constructor|by eexists]. }
  rewrite Forall_cons. unfold json_out_point. destruct (to_json o.1) as [j|e]; cbn.
  - destruct IH as [[Hw [js ->]]|[Hw [why ->]]]; [left|right]; (split; [tauto|by eexists]).
  - right. split; [by intros [[] _]|by eexists].
Qed.

Lemma safe_json_out_points {A} outputs (f : list Json -> rpc A) :
  (forall js, safe (f js)) -> safe (json_out_points outputs ≫= f) <-> writable outputs.
Proof.
  intros Hf. destruct (json_out_points_cases outputs) as [[Hw [js ->]]|[Hw [why ->]]]; cbn.
  - split; [done|intros _; apply Hf].
  - split; [inversion 1|done].
Qed.

Lemma safe_get_network_hash_ps nblocks height :
  ~ (nblocks = None /\ height <> None) -> safe (get_network_hash_ps (F64 := F64) nblocks height).
Proof.
  intros Hn. destruct nblocks as [n|], height as [h|]; [apply safe_send_request..| |apply safe_send_request].
  by destruct Hn.
Qed.

(** C40: the client does not panic. In whatever combination the optional
    arguments of a method are given, and whatever the node answers, every
    method of the client ends in a result or an error: where arguments are
    left out, its table of defaults is complete. There are two exceptions:
    [get_network_hash_ps], asked for a height without a number of blocks,
    panics before it sends anything, and only then; and the two methods that
    lock outputs unwrap the JSON of each transaction id, which has to be
    writable. *)
Theorem client_methods_never_panic {R} `{!RawTx R, !Deserialize R, !Serialize R, !ToString R}
    (is_active : R -> bool) (softforks_insert : string -> Softfork R R -> R -> R) :
  (* the methods with optional arguments *)
  (forall n (keys : list PubKeyOrAddress) label (ty : option AddressType),
     safe (add_multisig_address (AddMultiSigAddressResult := R) n keys label ty)) /\
  (forall w, safe (unload_wallet w)) /\
  (forall w a b c d, safe (create_wallet (LoadWalletResult := R) w a b c d)) /\
  (forall d, safe (backup_wallet d)) /\
  (forall (txid : Txid) (b : option BlockHash), safe (get_raw_transaction txid b)) /\
  (forall (txid : Txid) (b : option BlockHash), safe (get_raw_transaction_hex txid b)) /\
  (forall (txid : Txid) (b : option BlockHash),
     safe (get_raw_transaction_info (GetRawTransactionResult := R) txid b)) /\
  (forall c w, safe (get_balance c w)) /\
  (forall (a : Address) c, safe (get_received_by_address a c)) /\
  (forall (txid : Txid) w, safe (get_transaction (GetTransactionResult := R) txid w)) /\
  (forall l c s w, safe (list_transactions (ListTransactionResult := R) l c s w)) /\
  (forall (b : option BlockHash) c w r, safe (list_since_block (ListSinceBlockResult := R) b c w r)) /\
  (forall (txid : Txid) v m, safe (get_tx_out (GetTxOutResult := R) txid v m)) /\
  (forall (txids : list Txid) (b : option BlockHash), safe (get_tx_out_proof txids b)) /\
  (forall (k : PublicKey) l r, safe (import_public_key k l r)) /\
  (forall (k : PrivateKey) l r, safe (import_private_key k l r)) /\
  (forall (a : Address) l r, safe (import_address a l r)) /\
  (forall (s : Script) l r p, safe (import_address_script s l r p)) /\
  (forall (rs : list R) (o : option R), safe (import_multi (ImportMultiResult := R) rs o)) /\
  (forall n, safe (key_pool_refill n)) /\
  (forall a b (l : option (list Address)) u (q : option R),
     safe (list_unspent (ListUnspentResultEntry := R) a b l u q)) /\
  (forall (a : option Address) m e w,
     safe (list_received_by_address (ListReceivedByAddressResult := R) a m e w)) /\
  (forall (utxos : list R) outs t r, safe (create_raw_transaction_hex utxos outs t r)) /\
  (forall (utxos : list R) outs t r, safe (create_raw_transaction utxos outs t r)) /\
  (forall (tx : R) (o : option R) w, safe (fund_raw_transaction (FundRawTransactionResult := R) tx o w)) /\
  (forall (tx : R) (u : option (list R)) (p : option (list PrivateKey)) (s : option R),
     safe (sign_raw_transaction (SignRawTransactionResult := R) tx u p s)) /\
  (forall (tx : R) (u : option (list R)) (s : option R),
     safe (sign_raw_transaction_with_wallet (SignRawTransactionResult := R) tx u s)) /\
  (forall (tx : R) (k : list PrivateKey) (u : option (list R)) (s : option R),
     safe (sign_raw_transaction_with_key (SignRawTransactionResult := R) tx k u s)) /\
  (forall l (ty : option AddressType), safe (get_new_address l ty)) /\
  (forall n t, safe (generate n t)) /\
  (forall (a : Address) amt c d e f g (m : option R), safe (send_to_address a amt c d e f g m)) /\
  (forall t (m : option R), safe (estimate_smart_fee (EstimateSmartFeeResult := R) t m)) /\
  (forall (i : list R) o l (op : option R) b,
     safe (wallet_create_funded_psbt (WalletCreateFundedPsbtResult := R) i o l op b)) /\
  (forall p e, safe (finalize_psbt (FinalizePsbtResult := R) p e)) /\
  (forall d r, safe (derive_addresses d r)) /\
  (forall s t, safe (rescan_blockchain s t)) /\
  (forall n h, if bool_decide (n = None /\ h <> None)
     then forall answers, run (get_network_hash_ps (F64 := F64) n h) answers =
            ([], Some (Panic "Missing `default` for argument idx 0"))
     else safe (get_network_hash_ps (F64 := F64) n h)) /\
  (* the others *)
  safe (get_network_info (GetNetworkInfoResult := R)) /\ safe version /\
  (forall w, safe (load_wallet (LoadWalletResult := R) w)) /\
  safe list_wallets /\ safe (get_wallet_info (GetWalletInfoResult := R)) /\
  (forall a : Address, safe (dump_private_key a)) /\ (forall p, safe (encrypt_wallet p)) /\
  safe (get_difficulty (F64 := F64)) /\ safe get_connection_count /\
  (forall h : BlockHash, safe (get_block_hex h)) /\
  (forall h : BlockHash, safe (get_block_info (GetBlockResult := R) h)) /\
  (forall h : BlockHash, safe (get_block_header_info (GetBlockHeaderResult := R) h)) /\
  safe (get_mining_info (GetMiningInfoResult := R)) /\
  safe (get_blockchain_info is_active softforks_insert) /\
  safe get_block_count /\ safe get_best_block_hash /\ (forall n, safe (get_block_hash n)) /\
  (forall h : BlockHash, safe (get_block_filter (GetBlockFilterResult := R) h)) /\
  safe (get_balances (GetBalancesResult := R)) /\
  (forall (a : Address) l, safe (set_label a l)) /\
  (forall outputs, safe (lock_unspent outputs) <-> writable outputs) /\
  (forall outputs, safe (unlock_unspent outputs) <-> writable outputs) /\
  (forall txs : list R, safe (test_mempool_accept (TestMempoolAcceptResult := R) txs)) /\
  safe stop /\ (forall (a : Address) (s : R) m, safe (verify_message a s m)) /\
  (forall a : Address, safe (get_address_info (GetAddressInfoResult := R) a)) /\
  (forall n (a : Address), safe (generate_to_address n a)) /\
  (forall h : BlockHash, safe (invalidate_block h)) /\ (forall h : BlockHash, safe (reconsider_block h)) /\
  safe get_raw_mempool /\
  (forall txid : Txid, safe (get_mempool_entry (GetMempoolEntryResult := R) txid)) /\
  safe (get_peer_info (GetPeerInfoResult := R)) /\ safe ping /\
  (forall tx : R, safe (send_raw_transaction tx)) /\
  (forall t, safe (wait_for_new_block (BlockRef := R) t)) /\
  (forall (h : BlockHash) t, safe (wait_for_block (BlockRef := R) h t)) /\
  (forall d, safe (get_descriptor_info (GetDescriptorInfoResult := R) d)) /\
  (forall l, safe (combine_psbt l)) /\
  safe (get_tx_out_set_info (GetTxOutSetInfoResult := R)) /\
  safe (get_net_totals (GetNetTotalsResult := R)) /\ safe uptime /\
  (forall l : list R, safe (scan_tx_out_set_blocking (ScanTxOutResult := R) l)).
Proof.
  split_and!; try solve [solve_safe].
  - apply safe_rescan_blockchain.
  - intros n h. case_bool_decide as Hn; [|by apply safe_get_network_hash_ps].
    destruct Hn as [-> Hh]. intros answers. by destruct h.
  - apply safe_version.
  - apply safe_blockchain_info.
  - intros outputs. apply safe_json_out_points. intros js. apply safe_send_request.
  - intros outputs. apply safe_json_out_points. intros js. apply safe_send_request.
Qed.

(** What [list_transactions] asks the node: the label or "*", and the
    other arguments up to the last one given, the ones left out before it
    with the node's defaults (10 transactions, skip none). *)
Theorem list_transactions_request {T} `{!Deserialize T} label count skip include_watchonly
    (answers : list (result Json JsonRpcError)) :
  (run (list_transactions (ListTransactionResult := T) label count skip include_watchonly) answers).1 =
    [("listtransactions",
      JString (default "*" label) ::
      match include_watchonly, skip, count with
      | Some w, _, _ => [JNumber (default 10 count); JNumber (default 0 skip); JBool w]
      | None, Some s, _ => [JNumber (default 10 count); JNumber s]
      | None, None, Some c => [JNumber c]
      | None, None, None => []
      end)].
Proof.
  destruct count, skip, include_watchonly, answers as [|[v|e] answers]; cbn; try done;
    by destruct (from_json v).
Qed.
End properties.

Section blockchain_info_properties.
Context `{RpcErrors}.
Context {Bip9SoftforkStatus Bip9SoftforkStatistics GetBlockchainInfoResult : Type}
  `{!Deserialize Bip9SoftforkStatus, !Deserialize Bip9SoftforkStatistics,
    !Deserialize GetBlockchainInfoResult}.
Context (is_active : Bip9SoftforkStatus -> bool)
  (softforks_insert : string -> Softfork Bip9SoftforkStatus Bip9SoftforkStatistics ->
     GetBlockchainInfoResult -> GetBlockchainInfoResult).

Lemma add_old_softforks_buried (forks : list (string * bool)) ret :
  add_old_softforks softforks_insert
    ((fun f => JObject [("id", JString f.1); ("reject", JObject [("status", JBool f.2)])]) <$> forks)
    ret =
  mret (foldl (fun r f => softforks_insert f.1 (mkSoftfork Buried None None f.2) r) ret forks).
Proof. revert ret. induction forks as [|[id active] forks IH]; intros ret; [done|]. apply IH. Qed.

Lemma filter_other_fields (k : string) (kvs : list (string * Json)) :
  Forall (fun e => e.1 <> k) kvs -> filter (fun e => e.1 <> k) kvs = kvs.
Proof.
  induction 1 as [|e l He _ IH]; [done|]. rewrite filter_cons_True by done. by rewrite IH.
Qed.

Lemma map_remove_head k v (kvs : list (string * Json)) :
  Forall (fun e => e.1 <> k) kvs -> map_remove k ((k, v) :: kvs) = (Some v, kvs).
Proof.
  intros Hk. unfold map_remove. cbn [assoc]. rewrite String.eqb_refl.
  rewrite filter_cons_False by (cbn; tauto). by rewrite filter_other_fields.
Qed.

Lemma map_insert_new k v (kvs : list (string * Json)) :
  Forall (fun e => e.1 <> k) kvs -> map_insert k v kvs = (k, v) :: kvs.
Proof. intros Hk. unfold map_insert. by rewrite filter_other_fields. Qed.

(** The client reads both generations of nodes. It asks for the chain and
    then for the node's version. From version 190000 on, the answer is read
    as it is; from an older node, every entry of the "softforks" array becomes
    a buried softfork, and the other fields are read with that array replaced
    by an empty map - so an old node that reports no bip9 softforks yields the
    node's own fields with exactly its buried softforks inserted. *)
Theorem blockchain_info_by_version raw kvs info v base (forks : list (string * bool))
    (Hv : field_from (T := Z) "version" info = Ok v)
    (Hraw : raw = JObject (("bip9_softforks", JObject []) ::
       ("softforks", JArray ((fun f => JObject [("id", JString f.1);
          ("reject", JObject [("status", JBool f.2)])]) <$> forks)) :: kvs))
    (Hkvs : Forall (fun e => e.1 <> "softforks" /\ e.1 <> "bip9_softforks") kvs)
    (Hbase : from_json (T := GetBlockchainInfoResult)
               (if v <? 190000 then JObject (("softforks", JObject []) :: kvs) else raw) = Ok base) :
  run (get_blockchain_info is_active softforks_insert) [Ok raw; Ok info] =
    ([("getblockchaininfo", []); ("getnetworkinfo", [])],
     Some (Return (Ok
       (if v <? 190000
        then foldl (fun r f => softforks_insert f.1 (mkSoftfork Buried None None f.2) r) base forks
        else base)))).
Proof.
  apply Forall_and in Hkvs as [Hk1 Hk2].
  unfold get_blockchain_info, version.
  cbn -[map_remove map_insert add_old_softforks as_object]. rewrite Hv.
  cbn -[map_remove map_insert add_old_softforks as_object].
  destruct (v <? 190000) eqn:Hlt; [|by rewrite Hbase].
  subst raw. cbn -[map_remove map_insert add_old_softforks].
  rewrite map_remove_head by (by constructor).
  cbn -[map_remove map_insert add_old_softforks].
  rewrite map_remove_head by done. cbn -[map_insert add_old_softforks].
  rewrite map_insert_new by done. rewrite Hbase. cbn -[add_old_softforks].
  by rewrite add_old_softforks_buried.
Qed.
End blockchain_info_properties.

(** A concrete set of types, to run a method. *)
Definition demo_errors : RpcErrors := {|
  JsonRpcError := unit; HexToBytesError := unit; JsonError := unit; EncodeError := unit;
  Secp256k1Error := unit; IoError := unit; ParseAmountError := unit;
  jsonrpc_json := id; invalid_type := tt |}.

Definition demo_chain : Type := list (string * bool).
Definition demo_chain_deserialize : @Deserialize demo_errors demo_chain :=
  fun j => match field "chain" j with Some _ => Ok [] | None => Err tt end.
Definition demo_insert (id : string) (sf : Softfork bool bool) (c : demo_chain) : demo_chain :=
  c ++ [(id, sf_active _ _ sf)].

Section witnesses.
#[local] Existing Instances demo_errors demo_chain_deserialize.

Lemma blockchain_info_by_version_witness :
  run (get_blockchain_info (fun b => b) demo_insert)
    [Ok (JObject [("bip9_softforks", JObject []);
                  ("softforks", JArray [JObject [("id", JString "bip65");
                                          ("reject", JObject [("status", JBool true)])]]);
                  ("chain", JString "main")]);
     Ok (JObject [("version", JNumber 180100)])] =
    ([("getblockchaininfo", []); ("getnetworkinfo", [])],
     Some (Return (Ok [("bip65", true)]))).
Proof.
  apply (blockchain_info_by_version (fun b => b) demo_insert _ [("chain", JString "main")]
           (JObject [("version", JNumber 180100)]) 180100 [] [("bip65", true)] eq_refl eq_refl).
  - constructor; [split; discriminate|constructor].
  - reflexivity.
Defined.
End witnesses.
