(* ===== verification/Proxy.v ===== *)
(** * The gRPC proxy in front of the bitcoin node (src/exchange/src/bitcoin/mod.rs).

    The proxy turns the two calls of the exchange's client ([BitcoinClient])
    into calls of the node's client ([RpcMethods]) and the answers back. The
    types of the bitcoincore crates are parameters; of a listed transaction, the
    fields that are read. Connecting, the server and its shutdown are left out. *)

From S2P Require Import Prelude Json Rpc RpcMethods.
From S2P Require BitcoinClient.

Import BitcoinClient (F64, f64_as_i64, whole_f64, whole_f64_as_i64, Code, Status, mkStatus,
  InvalidArgument, Internal).

(** ** Integers

    [n as i32] and [n as usize]: the low bits. *)

Definition as_i32 (z : Z) : Z := (z + 2 ^ 31) mod 2 ^ 32 - 2 ^ 31.
Definition as_usize (z : Z) : Z := z mod 2 ^ 64.

Lemma as_i32_small z : - 2 ^ 31 <= z < 2 ^ 31 -> as_i32 z = z.
Proof. intros Hz. unfold as_i32. rewrite Z.mod_small by lia. lia. Qed.

Lemma as_usize_small z : 0 <= z < 2 ^ 64 -> as_usize z = z.
Proof. apply Z.mod_small. Qed.

(** ** Types of the crates *)

Inductive AddressType : Type := Legacy | P2shSegwit | Bech32.
Inductive Bip125Replaceable : Type := Yes | No | UnknownReplaceable.
Inductive GetTransactionResultDetailCategory : Type := Send | Receive | Generate | Immature | Orphan.

(** [ListTransactionResult] with its [WalletTxInfo] and
    [GetTransactionResultDetail]: the fields the proxy reads. An amount is a
    [SignedAmount], in satoshis. *)
Record ListTransactionResult (BlockHash Txid Address : Type) : Type := mkListTransactionResult {
  lr_confirmations : Z;
  lr_blockhash : option BlockHash;
  lr_blockindex : option Z;
  lr_blocktime : option Z;
  lr_blockheight : option Z;
  lr_txid : Txid;
  lr_time : Z;
  lr_timereceived : Z;
  lr_bip125_replaceable : Bip125Replaceable;
  lr_address : option Address;
  lr_category : GetTransactionResultDetailCategory;
  lr_amount : Z;
  lr_fee : option Z;
  lr_vout : Z;
  lr_abandoned : option bool;
  lr_trusted : option bool;
  lr_comment : option string }.
Arguments mkListTransactionResult {_ _ _}.
Arguments lr_confirmations {_ _ _}.
Arguments lr_blockhash {_ _ _}.
Arguments lr_blockindex {_ _ _}.
Arguments lr_blocktime {_ _ _}.
Arguments lr_blockheight {_ _ _}.
Arguments lr_txid {_ _ _}.
Arguments lr_time {_ _ _}.
Arguments lr_timereceived {_ _ _}.
Arguments lr_bip125_replaceable {_ _ _}.
Arguments lr_address {_ _ _}.
Arguments lr_category {_ _ _}.
Arguments lr_amount {_ _ _}.
Arguments lr_fee {_ _ _}.
Arguments lr_vout {_ _ _}.
Arguments lr_abandoned {_ _ _}.
Arguments lr_trusted {_ _ _}.
Arguments lr_comment {_ _ _}.

(** [SignedAmount::to_float_in(Denomination::Satoshi)]: the nearest double,
    which for a whole number below 2^53 is the number itself. *)
Class ToFloat : Type := to_float_in_satoshi : Z -> F64.
Class ToFloatLaws `{ToFloat} : Prop :=
  to_float_exact sat : Z.abs sat < 2 ^ 53 -> to_float_in_satoshi sat = whole_f64 sat.

Section proxy.
Context `{RpcErrors, ToFloat} {Address BlockHash Txid : Type}
  `{!ToString Address, !ToString BlockHash, !ToString Txid,
    !Serialize AddressType, !Deserialize Address, !Deserialize (ListTransactionResult BlockHash Txid Address)}.

(** A call whose error is looked at. *)
Fixpoint caught {A} (m : rpc A) : rpc (result A Error) :=
  match m with
  | Done r => Done (Ok r)
  | Panicked why => Panicked why
  | Request cmd args k => Request cmd args (fun r => caught (k r))
  end.

(** ** [get_new_address] *)

(** The strings the proxy takes for an address type. *)
Definition address_type_of (st : string) : option AddressType :=
  if String.eqb st "legacy" then Some Legacy
  else if String.eqb st "p2sh-segwit" then Some P2shSegwit
  else if String.eqb st "bech32" then Some Bech32
  else None.

Definition invalid_address_type : Status :=
  mkStatus InvalidArgument "Invalid address type. Valid values are: legacy, p2sh-segwit, bech32".

(** The rest of the handler, once the address type is known. *)
Definition request_new_address (label : option string) (address_type : option AddressType) :
    rpc (result BitcoinClient.GetNewAddressResponse Status) :=
  res ← caught (RpcMethods.get_new_address (Address := Address) label address_type);
  match res with
  | Ok res => mret (Ok (BitcoinClient.mkGetNewAddressResponse (to_str res)))
  | Err _ => mret (Err (mkStatus Internal "Failed to get new address from Bitcoin Core RPC"))
  end.

Definition get_new_address (request : BitcoinClient.GetNewAddressRequest) :
    rpc (result BitcoinClient.GetNewAddressResponse Status) :=
  match BitcoinClient.na_address_type request with
  | Some st =>
      match address_type_of st with
      | Some address_type => request_new_address (BitcoinClient.na_label request) (Some address_type)
      | None => mret (Err invalid_address_type)
      end
  | None => request_new_address (BitcoinClient.na_label request) None
  end.

(** ** [list_transactions] *)

Definition replaceable_text (r : Bip125Replaceable) : string :=
  match r with Yes => "yes" | No => "no" | UnknownReplaceable => "unknown" end.

Definition category_text (c : GetTransactionResultDetailCategory) : string :=
  match c with
  | Send => "send" | Receive => "receive" | Generate => "generate"
  | Immature => "immature" | Orphan => "orphan"
  end.

Definition proto_transaction (tx : ListTransactionResult BlockHash Txid Address) : BitcoinClient.Transaction :=
  BitcoinClient.mkTransaction
    (lr_confirmations tx) (to_str <$> lr_blockhash tx) (as_i32 <$> lr_blockindex tx) (as_i32 <$> lr_blocktime tx)
    (as_i32 <$> lr_blockheight tx) (to_str (lr_txid tx)) (as_i32 (lr_time tx)) (as_i32 (lr_timereceived tx))
    (replaceable_text (lr_bip125_replaceable tx)) (to_str <$> lr_address tx) (category_text (lr_category tx))
    (to_float_in_satoshi (lr_amount tx)) (to_float_in_satoshi <$> lr_fee tx) (as_i32 (lr_vout tx))
    (lr_abandoned tx) (lr_trusted tx) (lr_comment tx).

Definition list_transactions (request : BitcoinClient.ListTransactionsRequest) :
    rpc (result BitcoinClient.ListTransactionsResponse Status) :=
  res ← caught (RpcMethods.list_transactions (ListTransactionResult := ListTransactionResult BlockHash Txid Address)
          (BitcoinClient.lt_label request) (as_usize <$> BitcoinClient.lt_count request)
          (as_usize <$> BitcoinClient.lt_skip request) (BitcoinClient.lt_include_watch_only request));
  match res with
  | Ok txs => mret (Ok (BitcoinClient.mkListTransactionsResponse (proto_transaction <$> txs)))
  | Err _ => Panicked "called `Result::unwrap()` on an `Err` value"
  end.

(** ** Properties *)

Lemma run_bind_caught {A B} (m : rpc A) (k : result A Error -> rpc B) answers :
  run (caught m ≫= k) answers =
    match (run m answers).2 with
    | Some (Return r) =>
        let '(reqs, r') := run (k r) (drop (length (run m answers).1) answers) in ((run m answers).1 ++ reqs, r')
    | Some (Panic why) => ((run m answers).1, Some (Panic why))
    | None => ((run m answers).1, None)
    end.
Proof.
  revert answers. induction m as [[a|e]|why|cmd args k' IH]; intros answers; cbn.
  - by destruct (run _ _).
  - by destruct (run _ _).
  - done.
  - destruct answers as [|a answers]; [done|]. rewrite (IH a). cbn.
    destruct (run (k' a) answers) as [reqs [[r|why]|]]; cbn; [|done..].
    by destruct (run (k r) _).
Qed.

(** The request the exchange makes for a user's deposits reaches the node as one
    call with the label alone: how many transactions to list is left to the
    node's default. *)
Lemma deposits_listing_request user_label answers :
  (run (list_transactions (BitcoinClient.mkListTransactionsRequest (Some user_label) None None None)) answers).1 =
    [("listtransactions", [JString user_label])].
Proof.
  unfold list_transactions. rewrite run_bind_caught. cbn.
  destruct answers as [|[v|e] answers]; cbn; [done| |done].
  destruct (from_json v); cbn; done.
Qed.

(** C29: what the journal is told of a deposit is what the node has said. The
    amount goes from satoshis to a double and back to an integer without loss,
    for every amount of bitcoin there can be - 21 million, 2.1 * 10^15
    satoshis -, and so does the txid; an outgoing payment arrives with its
    negative amount. Times, heights and indices only do so below 2^31: from
    2038 on times arrive as negative numbers. *)
Theorem deposit_amount_preserved `{!ToFloatLaws} (tx : ListTransactionResult BlockHash Txid Address)
    (Hsat : Z.abs (lr_amount tx) <= 21000000 * 100000000) :
  let t := proto_transaction tx in
  f64_as_i64 (BitcoinClient.pt_amount t) = lr_amount tx /\
  BitcoinClient.pt_txid t = to_str (lr_txid tx) /\
  (0 <= lr_time tx < 2 ^ 31 -> BitcoinClient.pt_time t = lr_time tx) /\
  (2 ^ 31 <= lr_time tx < 2 ^ 32 -> BitcoinClient.pt_time t < 0).
Proof.
  cbn. split_and!; [|done|..].
  - rewrite to_float_exact by lia. apply whole_f64_as_i64. lia.
  - intros Ht. apply as_i32_small. lia.
  - intros Ht. unfold as_i32. replace (lr_time tx + 2 ^ 31) with (lr_time tx - 2 ^ 31 + 1 * 2 ^ 32) by lia.
    rewrite Z.mod_add, Z.mod_small by lia. lia.
Qed.

(** Errors of the node: a new address that cannot be had, or an unknown
    address type, is answered with a status; a listing that fails panics in
    the proxy. *)
Lemma proxy_errors request listing e answers :
  (exists status, (run (get_new_address request) (Err e :: answers)).2 = Some (Return (Ok (Err status)))) /\
  (forall st, address_type_of st = None -> BitcoinClient.na_address_type request = Some st ->
     run (get_new_address request) answers = ([], Some (Return (Ok (Err invalid_address_type))))) /\
  exists why, (run (list_transactions listing) (Err e :: answers)).2 = Some (Panic why).
Proof.
  assert (forall label type, exists status,
    (run (request_new_address label type) (Err e :: answers)).2 = Some (Return (Ok (Err status)))) as Hnew.
  { intros label type. unfold request_new_address, RpcMethods.get_new_address, opt_into_json, into_json.
    destruct label, type as [ty|]; cbn; try (destruct (to_json ty); cbn); eexists; reflexivity. }
  split_and!.
  - unfold get_new_address. destruct (BitcoinClient.na_address_type request) as [st|]; [|apply Hnew].
    destruct (address_type_of st); [apply Hnew|by eexists].
  - intros st Hst Hty. unfold get_new_address. by rewrite Hty, Hst.
  - eexists. unfold list_transactions.
    destruct listing as [[label|] [count|] [skip|] [watch|]]; cbn; reflexivity.
Qed.
End proxy.

(** ** A concrete transaction *)

#[local] Instance exact_floats : ToFloat := whole_f64.
Lemma exact_floats_laws : ToFloatLaws.
Proof. by intros sat. Qed.

#[local] Instance same_text : ToString string := fun s => s.

Definition demo_listed : ListTransactionResult string string string :=
  mkListTransactionResult 6 None None None None "t1" 4102444800 0 No (Some "bc1") Receive 2100000000000000 None 0 None
    None None.

(** All bitcoin there can be, on the first day of 2100. *)
Lemma deposit_amount_preserved_witness :
  f64_as_i64 (BitcoinClient.pt_amount (proto_transaction demo_listed)) =
    2100000000000000 /\
  BitcoinClient.pt_time (proto_transaction demo_listed) < 0.
Proof.
  destruct (deposit_amount_preserved (H1 := exact_floats_laws) demo_listed ltac:(cbn; lia)) as (Ha & _ & _ & Ht).
  split; [exact Ha|]. apply Ht. cbn. lia.
Defined.
