(* ===== verification/Startup.v ===== *)
(** * Start-up and shutdown (src/exchange/src/lib.rs, [start_fullstack], with
    signal.rs, jinja.rs and [serve] of web/mod.rs).

    The process connects to the database and the bitcoin proxy, opens the
    engine's channel, replays the event log into the engine, finds its
    directories, and then waits for the first of four things: the web server's
    end, the engine's end, the timer of debug builds, or Ctrl-C. Then it asks the
    engine to stop and waits until it has. What the outside decides is a [Run]:
    the answers, the commands the engine has received by then, those still in the
    channel, and which of the four came first. *)

From S2P Require Import Prelude Trading Json Codec Engine Config.

(** ** Signals *)

Inductive SignalSource : Type := Tokio.
Record Signals : Type := mkSignals { sig_ctrl_c : SignalSource }.
Definition from_host_os : Signals := mkSignals Tokio.

(** [Signals::ctrl_c]: it registers a handler, which may be refused, and gives
    what the stream of signals is awaited for. *)
Definition ctrl_c {E} (s : Signals) (registered : result unit E) : outcome (option unit -> result unit unit) :=
  match sig_ctrl_c s with
  | Tokio =>
      match registered with
      | Err _ => Panic "failed to register signal handler"
      | Ok _ => Return (fun received => match received with Some _ => Ok tt | None => Err tt end)
      end
  end.

(** [tokio::sync::mpsc::channel] panics for some capacities: 0, and more than a
    semaphore has permits. *)
Definition max_permits : Z := 2305843009213693951.
Class Runtime : Type := mpsc_channel : Z -> outcome unit.
Class RuntimeLaws `{Runtime} : Prop := {
  mpsc_channel_ok n : 0 < n <= max_permits -> mpsc_channel n = Return tt;
  mpsc_channel_zero : exists why, mpsc_channel 0 = Panic why }.

(** ** Data *)

Section startup.
Context {IoError AxumError TransportError : Type}.

Inductive ServeError : Type :=
| Axum (e : AxumError)
| Io (e : IoError).

Inductive StartFullstackError : Type :=
| Webserver (e : ServeError)
| StartDatabase (e : SqlxError)
| BitcoinRpc (e : TransportError)
| Interrupted.

(** [web::serve]: what binding the address gives, and then the server's loop. *)
Definition web_serve (bound : result unit IoError) (app : result unit AxumError) : result unit ServeError :=
  match bound with
  | Err e => Err (Io e)
  | Ok _ => result_map_err Axum app
  end.

(** The branch of the [select!] that was ready first. *)
Inductive Winner : Type :=
| WebserverEnded (bound : result unit IoError) (app : result unit AxumError)
| EngineEnded
| AutoShutdown
| CtrlC (received : option unit).

Context `{BuildProfile} {Json : Type} `{EventCodec Json}.

(** The engine's task: waiting for commands behind a queue, returned, or
    panicked. *)
Inductive EngineTask : Type :=
| TaskRunning (e : Engine Json) (queue : list (TradingEngineCmd * CmdEnv))
| TaskFinished
| TaskPanicked.

Context `{Net, Runtime}.

(** [make_jinja_env]: the directory the templates are loaded from; [html_router]
    looks for the other one. *)
Definition make_jinja_env (env : Env) (c : Configuration) : outcome string := jinja_template_dir env c.

Record Run : Type := mkRun {
  run_connect : result unit SqlxError;
  run_bitcoin : result unit TransportError;
  run_rows : list Json;
  run_rows_end : option SqlxError;
  run_boot_envs : list CmdEnv;
  run_served : list (TradingEngineCmd * CmdEnv);
  run_queue : list (TradingEngineCmd * CmdEnv);
  run_shutdown_env : CmdEnv;
  run_signal : result unit IoError;
  run_winner : Winner }.

(** The rows of the event log, and an error at the end of the stream. *)
Definition run_stream (r : Run) : list (result Json SqlxError) :=
  (Ok <$> run_rows r) ++ match run_rows_end r with Some e => [Err e] | None => [] end.

Definition engine_task (rows : list Json) (received queue : list (TradingEngineCmd * CmdEnv)) : EngineTask :=
  match trading_engine_supervisor (Engine_new rows) received with
  | Return (e, _, stopped) => if stopped then TaskFinished else TaskRunning e queue
  | Panic _ => TaskPanicked
  end.

(** ** [start_fullstack] *)

(** The value of the [select!]; [None] if its branch is not ready. *)
Definition select_result (w : Winner) (task : EngineTask) : option (result unit StartFullstackError) :=
  match w with
  | WebserverEnded bound app => Some (result_map_err Webserver (web_serve bound app))
  | EngineEnded =>
      match task with
      | TaskRunning _ _ => None
      | TaskFinished => Some (Ok tt)
      | TaskPanicked => Some (Err Interrupted)
      end
  | AutoShutdown => Some (Ok tt)
  | CtrlC _ => Some (Err Interrupted)
  end.

(** [te_tx.send(Shutdown)], then [te_handle.await]: whether it returns. While
    it waits, [te_tx] is alive, so the engine's channel is not closed. *)
Definition graceful_shutdown (task : EngineTask) (env : CmdEnv) : bool :=
  match task with
  | TaskFinished | TaskPanicked => true
  | TaskRunning e queue =>
      match trading_engine_supervisor e (queue ++ [(Shutdown, env)]) with
      | Return (_, _, stopped) => stopped
      | Panic _ => true
      end
  end.

(** [None]: it never returns. The futures of the [select!] are made before any
    of them is awaited. *)
Definition start_fullstack (env : Env) (c : Configuration) (s : Signals) (r : Run) :
    outcome (option (result unit StartFullstackError)) :=
  match run_connect r with
  | Err e => Return (Some (Err (StartDatabase e)))
  | Ok _ =>
      match run_bitcoin r with
      | Err e => Return (Some (Err (BitcoinRpc e)))
      | Ok _ =>
          _ ← mpsc_channel (te_channel_capacity c);
          '(boot, res) ← init_from_db (run_stream r);
          match res with
          | Err e => Return (Some (Err (StartDatabase e)))
          | Ok _ =>
              _ ← make_jinja_env env c;
              _ ← fe_web_dir env c;
              _ ← ctrl_c s (run_signal r);
              let task := engine_task (run_rows r) (zip boot (run_boot_envs r) ++ run_served r) (run_queue r) in
              match select_result (run_winner r) task with
              | None => Return None
              | Some res =>
                  Return (if graceful_shutdown task (run_shutdown_env r) then Some res else None)
              end
          end
      end
  end.

(** [automatic_shutdown]: the timer, in seconds. *)
Definition automatic_shutdown : option Z := if overflow_checks then Some 300 else None.
End startup.

(** ** Does it come to an end? *)

(** The first of [Suspend] and [Shutdown] that comes. *)
Fixpoint verdict (cmds : list (TradingEngineCmd * CmdEnv)) : option bool :=
  match cmds with
  | [] => None
  | (Suspend, _) :: _ => Some false
  | (Shutdown, _) :: _ => Some true
  | _ :: cmds' => verdict cmds'
  end.

Lemma verdict_app c1 c2 : verdict (c1 ++ c2) = match verdict c1 with Some b => Some b | None => verdict c2 end.
Proof. induction c1 as [|[[] env] c1 IH]; cbn; done. Qed.

Lemma verdict_bootstrap ps envs : verdict (zip (Bootstrap <$> ps) envs) = None.
Proof. revert envs. induction ps as [|p ps IH]; intros [|env envs]; [done..|]. cbn. apply IH. Qed.

Section termination.
Context `{BuildProfile} {Json : Type} `{EventCodec Json}.

(** A round of a running engine: it stops, is suspended, or runs on. *)
Lemma handle_cmd_running e cmd env s :
  running e = true -> handle_cmd e cmd env = Return s ->
  match cmd, s with
  | Shutdown, Break => True
  | Suspend, Continue e' _ => running e' = false
  | Suspend, Break | Shutdown, Continue _ _ => False
  | _, Continue e' _ => running e' = true
  | _, Break => False
  end.
Proof.
  intros Hr. unfold handle_cmd. rewrite Hr. cbn [negb].
  destruct cmd as [| | |[po|co]|[po|co]]; cbn; try (by intros [= <-]).
  - unfold try_event_log. destruct (place_to_value po); cbn; [|by intros [= <-]].
    destruct (do_place_order _ _ _) as [[a r]|]; cbn; [|done]. destruct (env_insert env); by intros [= <-].
  - unfold try_event_log. destruct (cancel_to_value co); cbn; [|by intros [= <-]].
    destruct (do_cancel_order _ _) as [[a r]|]; cbn; [|done]. destruct (env_insert env); by intros [= <-].
  - destruct (do_place_order _ _ _) as [[a r]|]; cbn; [|done]. by intros [= <-].
  - destruct (do_cancel_order _ _) as [[a r]|]; cbn; [|done]. by intros [= <-].
Qed.

Lemma supervisor_suspended e cmds e' rs st :
  running e = false -> trading_engine_supervisor e cmds = Return (e', rs, st) -> st = false /\ running e' = false.
Proof.
  intros Hr. revert rs. induction cmds as [|[cmd env] cmds IH]; intros rs; cbn; [by intros [= <- <- <-]|].
  unfold handle_cmd at 1. rewrite Hr. cbn.
  destruct (trading_engine_supervisor e cmds) as [[[e2 rs2] st2]|] eqn:Hs; cbn; [|done].
  intros [= <- <- <-]. by eapply IH.
Qed.

Lemma supervisor_verdict e cmds e' rs st :
  running e = true -> trading_engine_supervisor e cmds = Return (e', rs, st) ->
  match verdict cmds with
  | Some true => st = true
  | Some false => st = false /\ running e' = false
  | None => st = false /\ running e' = true
  end.
Proof.
  revert e rs. induction cmds as [|[cmd env] cmds IH]; intros e rs Hr; cbn; [by intros [= <- <- <-]|].
  destruct (handle_cmd e cmd env) as [s|] eqn:Hs; cbn; [|done].
  pose proof (handle_cmd_running e cmd env s Hr Hs) as Hcmd. destruct s as [e1 reply|].
  - destruct (trading_engine_supervisor e1 cmds) as [[[e2 rs2] st2]|] eqn:Hsup; cbn; [|done].
    intros [= <- <- <-].
    destruct cmd; first [done|by eapply supervisor_suspended|by eapply IH].
  - intros [= <- <- <-]. by destruct cmd.
Qed.

End termination.

(** The settings the process cannot start without: a capacity ([usize]) and two
    directories. *)
Definition settings_ok `{Net} (env : Env) (c : Configuration) : bool :=
  (0 <? te_channel_capacity c) &&
  bool_decide (is_Some (file_or_env (cfg_jinja_template_dir c) env "JINJA_TEMPLATE_DIR")) &&
  bool_decide (is_Some (file_or_env (cfg_fe_web_dir c) env "FE_WEB_DIR")).

Lemma or_default_env (o : option string) (env : Env) name msg :
  or_default o (expect (env name) msg) =
    match file_or_env o env name with Some st => Return st | None => Panic msg end.
Proof. by destruct o. Qed.

Section shutdown.
Context {IoError AxumError TransportError : Type} `{BuildProfile} {Json : Type} `{EventCodec Json} `{Net, RuntimeLaws}.
#[local] Abbreviation Runs := (Run (IoError := IoError) (AxumError := AxumError) (TransportError := TransportError) (Json := Json)).

(** The commands of a run are in range, and no more than a [u32] counts. *)
Record run_wf (r : Runs) (ps : list TradeCmdPayload) : Prop := {
  rw_connect : run_connect r = Ok tt;
  rw_bitcoin : run_bitcoin r = Ok tt;
  rw_rows : payload_from_value <$> run_rows r = Some <$> ps;
  rw_rows_end : run_rows_end r = None;
  rw_payloads : Forall payload_wf ps;
  rw_served : Forall (fun c => cmd_wf c.1) (run_served r);
  rw_queue : Forall (fun c => cmd_wf c.1) (run_queue r);
  rw_signal : run_signal r = Ok tt;
  rw_count : Z.of_nat (length ps + length (run_served r) + length (run_queue r) + 1) <= u32_max }.

Lemma graceful_shutdown_spec n e queue env :
  engine_inv n (assets e) -> 0 <= n -> Forall (fun c => cmd_wf c.1) queue ->
  n + Z.of_nat (length queue + 1) <= u32_max ->
  graceful_shutdown (TaskRunning e queue) env =
    bool_decide (running e = true /\ verdict (queue ++ [(Shutdown, env)]) = Some true).
Proof.
  intros Hinv Hn Hwf Hlen. unfold graceful_shutdown.
  destruct (supervisor_inv n e (queue ++ [(Shutdown, env)]) Hinv Hn ltac:(rewrite length_app; cbn; lia))
    as (e2 & rs & st & Hsup & _).
  { apply Forall_app_2; [done|]. by constructor. }
  rewrite Hsup. destruct (running e) eqn:Hr.
  - pose proof (supervisor_verdict e _ _ _ _ Hr Hsup) as Hv. rewrite verdict_app in *.
    destruct (verdict queue) as [[]|]; cbn in *; [by rewrite Hv|by destruct Hv as [-> _]|by rewrite Hv].
  - destruct (supervisor_suspended e _ _ _ _ Hr Hsup) as [-> _]. by rewrite bool_decide_false by by intros [].
Qed.

(** The engine's task when the [select!] ends, and whether it can be stopped. *)
Lemma engine_task_spec rows ps envs served queue env :
  Forall payload_wf ps -> Forall (fun c => cmd_wf c.1) served -> Forall (fun c => cmd_wf c.1) queue ->
  Z.of_nat (length ps + length served + length queue + 1) <= u32_max ->
  let task := engine_task rows (zip (Bootstrap <$> ps) envs ++ served) queue in
  (verdict served = Some true /\ task = TaskFinished \/
   verdict served <> Some true /\ exists e, task = TaskRunning e queue) /\
  graceful_shutdown task env = bool_decide (verdict (served ++ queue ++ [(Shutdown, env)]) = Some true).
Proof.
  intros Hps Hserved Hqueue Hcount task. subst task. set (boot := zip (Bootstrap <$> ps) envs).
  assert (verdict boot = None) as Hvb by apply verdict_bootstrap.
  assert (length boot <= length ps)%nat as Hlen by (unfold boot; rewrite length_zip_with, length_fmap; lia).
  assert (Forall (fun c => cmd_wf c.1) (boot ++ served)) as Hwf.
  { apply Forall_app_2; [|done]. apply Forall_forall. intros [c env'] Hin%elem_of_zip_l.
    apply list_elem_of_fmap in Hin as (p & -> & Hp). rewrite Forall_forall in Hps. exact (Hps p Hp). }
  destruct (supervisor_inv 0 (Engine_new rows) (boot ++ served) engine_inv_new ltac:(lia)
    ltac:(rewrite length_app; lia) Hwf) as (e & rs & st & Hsup & Hinv).
  pose proof (supervisor_verdict (Engine_new rows) _ _ _ _ eq_refl Hsup) as Hv.
  rewrite verdict_app, Hvb in Hv. unfold engine_task. rewrite Hsup, verdict_app.
  assert (graceful_shutdown (TaskRunning e queue) env =
    bool_decide (running e = true /\ verdict (queue ++ [(Shutdown, env)]) = Some true)) as Hg.
  { eapply graceful_shutdown_spec; [exact Hinv|lia|done|rewrite length_app; lia]. }
  destruct (verdict served) as [[]|].
  - rewrite Hv. split; [by left|done].
  - destruct Hv as [-> Hr]. split; [right; split; [done|by eexists]|]. rewrite Hg, Hr.
    rewrite !bool_decide_false; [done|done|by intros []].
  - destruct Hv as [-> Hr]. split; [right; split; [done|by eexists]|]. rewrite Hg, Hr.
    apply bool_decide_ext. split; [by intros []|done].
Qed.

(** Up to the [select!]. *)
Lemma start_fullstack_ready env c s r ps :
  0 <= te_channel_capacity c <= max_permits -> run_wf r ps ->
  if settings_ok env c
  then start_fullstack env c s r =
    (let task := engine_task (run_rows r) (zip (Bootstrap <$> ps) (run_boot_envs r) ++ run_served r) (run_queue r) in
     match select_result (run_winner r) task with
     | None => Return None
     | Some res => Return (if graceful_shutdown task (run_shutdown_env r) then Some res else None)
     end)
  else exists why, start_fullstack env c s r = Panic why.
Proof.
  intros Hcap [Hc Hb Hrows Hend _ _ _ Hsig _]. unfold start_fullstack, run_stream, ctrl_c, settings_ok.
  rewrite Hc, Hb, Hend, app_nil_r, Hsig. destruct s as [[]]. cbn [sig_ctrl_c].
  unfold make_jinja_env, jinja_template_dir, fe_web_dir. rewrite !or_default_env. unfold JINJA_TEMPLATE_DIR, FE_WEB_DIR.
  destruct (Z.ltb_spec 0 (te_channel_capacity c)); cbn [andb].
  - rewrite mpsc_channel_ok by lia. cbn [mbind outcome_bind].
    rewrite (init_from_db_payloads _ _ Hrows). cbn [mbind outcome_bind].
    destruct (file_or_env (cfg_jinja_template_dir c) _ _); [|by eexists]. cbn [mbind outcome_bind].
    destruct (file_or_env (cfg_fe_web_dir c) _ _); [done|by eexists].
  - replace (te_channel_capacity c) with 0 by lia. destruct mpsc_channel_zero as [why ->]. by exists why.
Qed.

(** What comes first decides, if the engine can be stopped. *)
Lemma start_fullstack_ends env c s r ps w :
  settings_ok env c = true -> 0 <= te_channel_capacity c <= max_permits -> run_wf r ps ->
  run_winner r = w -> w <> EngineEnded ->
  exists res, select_result w (TaskFinished (Json := Json)) = Some res /\
    start_fullstack env c s r = Return (if decide (verdict (run_served r ++ run_queue r ++
      [(Shutdown, run_shutdown_env r)]) = Some true) then Some res else None).
Proof.
  intros Hset Hcap Hwf Hw Hne. pose proof (start_fullstack_ready env c s r ps Hcap Hwf) as Hs. rewrite Hset in Hs.
  rewrite Hs. destruct Hwf as [_ _ _ _ Hps Hserved Hqueue _ Hcount]. cbv zeta.
  destruct (engine_task_spec (run_rows r) ps (run_boot_envs r) (run_served r) (run_queue r) (run_shutdown_env r)
    Hps Hserved Hqueue Hcount) as [_ ->]. rewrite Hw.
  destruct w as [bound app| | |rcv]; [|done|..]; (eexists; split; [reflexivity|]); cbn [select_result];
    by case_bool_decide; case_decide.
Qed.

(** C12: the exchange shuts down if and only if its engine has not been
    suspended. Once it has started, with its settings and on a log that engines
    have written, the end of the web server, the timer and Ctrl-C make
    [start_fullstack] return the result of whichever came first - unless a
    [Suspend] has reached the engine before the first [Shutdown]: then the wait
    for the engine never ends. Nothing the engine has been sent makes it panic
    on the way. *)
Theorem shutdown_returns env c s r ps (Hset : settings_ok env c = true)
    (Hcap : 0 <= te_channel_capacity c <= max_permits) (Hwf : run_wf r ps) :
  let cmds := run_served r ++ run_queue r ++ [(Shutdown, run_shutdown_env r)] in
  match run_winner r with
  | EngineEnded =>
      start_fullstack env c s r = Return (if decide (verdict (run_served r) = Some true) then Some (Ok tt) else None)
  | w => exists res,
      select_result w (TaskFinished (Json := Json)) = Some res /\
      start_fullstack env c s r = Return (if decide (verdict cmds = Some true) then Some res else None)
  end.
Proof.
  intros cmds. destruct (run_winner r) eqn:Hw.
  1,3,4: by apply (start_fullstack_ends env c s r ps).
  pose proof (start_fullstack_ready env c s r ps Hcap Hwf) as Hs. rewrite Hset in Hs. rewrite Hs, Hw.
  destruct Hwf as [_ _ _ _ Hps Hserved Hqueue _ Hcount].
  destruct (engine_task_spec (run_rows r) ps (run_boot_envs r) (run_served r) (run_queue r) (run_shutdown_env r)
    Hps Hserved Hqueue Hcount) as [Htask Hg]. fold cmds in Hg. cbv zeta. rewrite Hg. cbn [select_result].
  destruct Htask as [[Hv ->]|[Hv [e ->]]]; [|by rewrite decide_False].
  rewrite decide_True, bool_decide_true; [done| |done].
  unfold cmds. by rewrite verdict_app, Hv.
Qed.
End shutdown.

(** ** Concrete runs *)

Section witnesses.
#[local] Existing Instances release_profile decimal_uuid_text decimal_uuid_text_laws demo_net.
#[local] Instance demo_runtime : Runtime := fun n =>
  if (0 <? n) && (n <=? 2305843009213693951) then Return tt else Panic "mpsc bounded channel requires buffer > 0".

Lemma demo_runtime_laws : RuntimeLaws.
Proof.
  split; [|by eexists]. intros n Hn. unfold mpsc_channel, demo_runtime, max_permits in *.
  by rewrite (proj2 (Z.ltb_lt 0 n)), (proj2 (Z.leb_le _ _)) by lia.
Qed.

Definition demo_dirs : Env := fun name =>
  if String.eqb name "JINJA_TEMPLATE_DIR" then Some "/www/templates" else if String.eqb name "FE_WEB_DIR" then Some "/www" else None.
Definition demo_config : Configuration :=
  mkConfiguration "0.0.0.0:3000" "postgres://exchange" 1024 None "http://node" "" "" "" "http://proxy" "0.0.0.0:50051" None None.

Definition demo_cmd_env : CmdEnv := mkCmdEnv 0%N (Ok tt).
Definition demo_run (served : list TradingEngineCmd) :
    Run (IoError := unit) (AxumError := unit) (TransportError := unit) (Json := Json) :=
  mkRun (Ok tt) (Ok tt) [] None [] ((fun c => (c, demo_cmd_env)) <$> served) [] demo_cmd_env (Ok tt) (CtrlC (Some tt)).

Lemma demo_run_wf served :
  Forall cmd_wf served -> (length served <= 10)%nat -> run_wf (demo_run served) [].
Proof.
  intros Hwf Hlen. split; try done; cbn.
  - by apply Forall_fmap.
  - unfold u32_max. rewrite length_fmap. lia.
Qed.

(** Ctrl-C ends a running engine, and not one that has been suspended, even if
    it has been resumed. *)
Lemma shutdown_returns_witness :
  start_fullstack demo_dirs demo_config from_host_os (demo_run []) = Return (Some (Err Interrupted)) /\
  start_fullstack demo_dirs demo_config from_host_os (demo_run [Suspend; Resume]) = Return None.
Proof.
  pose proof demo_runtime_laws. split.
  - destruct (shutdown_returns demo_dirs demo_config from_host_os (demo_run []) [] eq_refl ltac:(by split)
      (demo_run_wf [] ltac:(constructor) ltac:(cbn; lia))) as (res & Hres & Hs). injection Hres as <-. exact Hs.
  - destruct (shutdown_returns demo_dirs demo_config from_host_os (demo_run [Suspend; Resume]) [] eq_refl ltac:(by split)
      (demo_run_wf [Suspend; Resume] ltac:(repeat constructor) ltac:(cbn; lia))) as (res & _ & Hs). exact Hs.
Defined.
End witnesses.
