(* ===== verification/Entry.v ===== *)
(** * The two processes (src/exchange/src/bin/exchange.rs, bin/bitcoind-grpc.rs and
    [start_grpc_proxy] of bitcoin/mod.rs).

    Each [main] reads the .env file and the configuration the environment points
    to, and runs its server on a runtime of its own: the exchange
    ([Startup.start_fullstack]) or the proxy in front of the bitcoin node. What
    is done with the process's exit code, and logging, are left out. *)

From S2P Require Import Prelude Trading Json Codec Engine Config Startup.

(** [dotenv::dotenv()]: the environment it leaves behind, and whether a file was
    found and read to its end. *)
Class Dotenv : Type := {
  DotenvError : Type;
  dotenv : Env -> Env * result unit DotenvError }.

Section mains.
Context {IoError AxumError TransportError : Type} `{BuildProfile} {Json : Type} `{EventCodec Json} `{Net, Runtime, Dotenv}.
Context (parse_toml : string -> result RawConfiguration TomlError)
  (canonicalize read_to_string : string -> result string IoError) (io_other : TomlError -> IoError).

(** ** The proxy *)

(** How the proxy's server ends: by itself, or after SIGINT, when the calls that
    are under way have been answered - [drain] milliseconds later, or never. *)
Inductive ProxyEnd : Type :=
| ServerEnded (res : result unit TransportError)
| Sigint (received : option unit) (drain : option Z) (res : result unit TransportError).

Record ProxyRun : Type := mkProxyRun {
  px_reflection : result unit TransportError;
  px_bound : result unit TransportError;
  px_signal : result unit IoError;
  px_end : ProxyEnd }.

(** What is left of the process: a result, or an exit with a code by the task
    that SIGINT spawned; and the milliseconds from SIGINT on. *)
Inductive ProxyExit : Type :=
| Returned (res : result unit TransportError)
| Exited (code : Z).

Definition exit_delay : Z := 3000.

Definition start_grpc_proxy (s : Signals) (r : ProxyRun) : outcome (ProxyExit * option Z) :=
  match px_reflection r with
  | Err _ => Panic "failed to build reflection service"
  | Ok _ =>
      match px_bound r with
      | Err e => Return (Returned (Err e), None)
      | Ok _ =>
          signal ← ctrl_c s (px_signal r);
          Return match px_end r with
                 | ServerEnded res => (Returned res, None)
                 | Sigint received drain res =>
                     let _ := signal received in
                     match drain with
                     | Some t => if t <? exit_delay then (Returned res, Some t) else (Exited 1, Some exit_delay)
                     | None => (Exited 1, Some exit_delay)
                     end
                 end
      end
  end.

(** ** The mains *)

Inductive MainError (E : Type) : Type :=
| LoadError (e : IoError)
| ServiceError (e : E).
#[global] Arguments LoadError {E} e.
#[global] Arguments ServiceError {E} e.

(** The configuration both read. *)
Definition load_configuration (env : Env) : outcome (result Configuration IoError) :=
  path ← expect (config_file_path env) "called `Option::unwrap()` on a `None` value";
  load_from_path parse_toml canonicalize read_to_string io_other env path.

(** bin/exchange.rs; [None]: it does not end. *)
Definition exchange_main (env : Env) (run : Configuration -> Run (IoError := IoError) (AxumError := AxumError)
    (TransportError := TransportError) (Json := Json)) :
    outcome (option (result unit (MainError (StartFullstackError (IoError := IoError) (AxumError := AxumError)
      (TransportError := TransportError))))) :=
  match dotenv env with
  | (_, Err _) => Panic "called `Result::unwrap()` on an `Err` value"
  | (env, Ok _) =>
      config ← load_configuration env;
      match config with
      | Err e => Return (Some (Err (LoadError e)))
      | Ok c =>
          res ← (start_fullstack env c from_host_os (run c) : outcome _);
          Return (option_map (result_map_err ServiceError) res)
      end
  end.

(** bin/bitcoind-grpc.rs: a file that cannot be read is passed over. Shutting
    down the runtime takes two seconds at most. *)
Definition shutdown_timeout : Z := 2000.

Definition bitcoind_grpc_main (env : Env) (run : Configuration -> ProxyRun) :
    outcome (result (ProxyExit * option Z) IoError) :=
  let env := (dotenv env).1 in
  config ← load_configuration env;
  match config with
  | Err e => Return (Err e)
  | Ok c => '(exit, t) ← start_grpc_proxy from_host_os (run c); Return (Ok (exit, t))
  end.

(** ** Properties *)

Lemma proxy_exits r t drain res :
  px_end r = Sigint t drain res -> px_bound r = Ok tt -> px_signal r = Ok tt -> px_reflection r = Ok tt ->
  exists exit ms, start_grpc_proxy from_host_os r = Return (exit, Some ms) /\ ms <= exit_delay /\
    (exit = Returned res \/ exit = Exited 1 /\ ms = exit_delay).
Proof.
  intros He Hb Hs Hr. unfold start_grpc_proxy. rewrite Hr, Hb, Hs, He. cbn.
  destruct drain as [d|]; [destruct (Z.ltb_spec d exit_delay)|]; eexists _, _; (split; [done|]);
    (split; [unfold exit_delay in *; lia|]); by (left + right).
Qed.

(** C34: which process starts. Without a .env file the exchange panics, whatever
    the environment says; the proxy starts all the same. With one, and a
    configuration that can be read, the exchange runs - until Ctrl-C, when the
    database and the proxy have answered, its log is in order and nothing has
    suspended its engine - if and only if its channel has a capacity and it knows
    the directories of its templates and pages: otherwise it panics. *)
Theorem processes_start `{!RuntimeLaws} env c run px ps received
    (Hload : load_configuration (dotenv env).1 = Return (Ok c))
    (Hcap : 0 <= te_channel_capacity c <= max_permits)
    (Hrun : run_wf (run c) ps) (Hwait : run_winner (run c) = CtrlC received)
    (Hcalm : verdict (run_served (run c) ++ run_queue (run c) ++ [(Shutdown, run_shutdown_env (run c))]) = Some true) :
  bitcoind_grpc_main env px = (p ← start_grpc_proxy from_host_os (px c); Return (Ok p)) /\
  match (dotenv env).2 with
  | Err _ => exists why, exchange_main env run = Panic why
  | Ok _ =>
      if settings_ok (dotenv env).1 c
      then exchange_main env run = Return (Some (Err (ServiceError Interrupted)))
      else exists why, exchange_main env run = Panic why
  end.
Proof.
  unfold bitcoind_grpc_main, exchange_main. destruct (dotenv env) as [env' r]. cbn [fst snd] in *.
  rewrite Hload. cbn [mbind outcome_bind]. split.
  { by destruct (start_grpc_proxy _ _) as [[]|]. }
  destruct r as [[]|e]; [|by eexists].
  destruct (settings_ok env' c) eqn:Hset.
  - destruct (start_fullstack_ends env' c from_host_os (run c) ps _ Hset Hcap Hrun Hwait) as (res & Hres & ->); [done|].
    rewrite decide_True by done. cbn. by injection Hres as <-.
  - pose proof (start_fullstack_ready env' c from_host_os (run c) ps Hcap Hrun) as Hs. rewrite Hset in Hs.
    destruct Hs as [why ->]. by exists why.
Qed.
End mains.

(** ** Concrete processes *)

Section witnesses.
#[local] Existing Instances release_profile decimal_uuid_text decimal_uuid_text_laws demo_net demo_runtime.

(** A .env file that sets the directories, if there is one. *)
Definition env_file (there : bool) : Dotenv := {|
  DotenvError := unit;
  dotenv env :=
    if there then (fun name => match env name with Some v => Some v | None => demo_dirs name end, Ok tt) else (env, Err tt) |}.

(** The variables of a container, and its configuration file. *)
Definition container : Env := fun name => if String.eqb name "CONFIG_FILE_PATH" then Some "/etc/exchange/conf.toml" else None.
Definition container_file : RawConfiguration :=
  mkRaw None (Some "postgres://exchange") (Some 1024) None (Some "http://node") None None None None None None None.
Definition container_toml (st : string) : result RawConfiguration TomlError := Ok container_file.
Definition container_reads (st : string) : result string unit := Ok st.
Definition container_proxy (c : Configuration) : ProxyRun (IoError := unit) (TransportError := unit) :=
  mkProxyRun (Ok tt) (Ok tt) (Ok tt) (Sigint (Some tt) (Some 5) (Ok tt)).

(** With the file both run; without it only the proxy does, until SIGINT. *)
Lemma processes_start_witness :
  (exists p, bitcoind_grpc_main (H3 := env_file false) container_toml container_reads container_reads (fun _ => tt) container container_proxy =
     Return (Ok p)) /\
  (exists why, exchange_main (H3 := env_file false) container_toml container_reads container_reads (fun _ => tt) container (fun _ => demo_run []) =
     Panic why) /\
  exchange_main (H3 := env_file true) container_toml container_reads container_reads (fun _ => tt) container (fun _ => demo_run []) =
    Return (Some (Err (ServiceError Interrupted))).
Proof.
  pose proof demo_runtime_laws as Hlaws. pose proof (demo_run_wf [] ltac:(constructor) ltac:(cbn; lia)) as Hwf.
  destruct (processes_start (H3 := env_file false) container_toml container_reads container_reads (fun _ => tt) container
    _ (fun _ => demo_run []) container_proxy [] (Some tt) eq_refl ltac:(by split) Hwf eq_refl eq_refl) as [Hp Hx].
  destruct (processes_start (H3 := env_file true) container_toml container_reads container_reads (fun _ => tt) container
    _ (fun _ => demo_run []) container_proxy [] (Some tt) eq_refl ltac:(by split) Hwf eq_refl eq_refl) as [_ Hx'].
  split; [eexists; exact Hp|]. split; [exact Hx|exact Hx'].
Defined.
End witnesses.
