(* ===== verification/Sends.v ===== *)
(** * How much the requests send to the engine

    Each request sends at most one command to the engine, and the tasks that
    requests leave behind send none ([sends], [thread_sends]); nothing they do
    takes a command off the channel. *)

From S2P Require Import Prelude Asset Trading Codec Accounting Tables World.
From S2P Require Import Http AppCx UserCx BitcoinClient Deposits Auth Handlers Server.

(** ** How much a program sends *)

(** [m] adds at most [k] commands to the channel, whatever happens to it in
    between. *)
Fixpoint sends {A} (k : nat) (m : prog A) : Prop :=
  match m with
  | Done _ => True
  | Step _ f => forall w,
      match f w with
      | (w', m') => exists l, w_sent w' = w_sent w ++ l /\ (length l <= k)%nat /\ sends (k - length l) m'
      end
  end.

Lemma sends_mono {A} (m : prog A) j k : (j <= k)%nat -> sends j m -> sends k m.
Proof.
  revert m j k. fix IH 1. intros [a|d f] j k Hk; cbn; [done|]. intros Hf w. specialize (Hf w).
  destruct (f w) as [w' m']. destruct Hf as (l & Hl & Hn & Hm). exists l. split_and!; [done|lia|].
  eapply IH; [|exact Hm]. lia.
Qed.

Lemma sends_bind {A B} (m : prog A) (K : A -> prog B) j k :
  sends j m -> (forall a, sends k (K a)) -> sends (j + k) (m ≫= K).
Proof.
  revert m j. fix IH 1. intros [[a|why]|d f] j Hm HK; cbn in Hm |- *; [|done|].
  - eapply sends_mono; [|apply HK]. lia.
  - intros w. specialize (Hm w). destruct (f w) as [w' m']. destruct Hm as (l & Hl & Hn & Hm).
    exists l. split_and!; [done|lia|]. eapply sends_mono; [|by apply (IH m' (j - length l)%nat)]. lia.
Qed.

Lemma sends_with_guard {A} c (m : prog A) k : sends k m -> sends k (with_guard c m).
Proof.
  revert m k. fix IH 1. intros [a|d f] k; cbn; [done|]. intros Hf w. specialize (Hf w).
  destruct (f w) as [w' m']. destruct Hf as (l & Hl & Hn & Hm). exists l. split_and!; [done..|]. by apply IH.
Qed.

Lemma sends_guar {A} RD RT (m : prog A) : guar (touches RD RT eq) m -> sends 0 m.
Proof.
  induction 1 as [a|f Hf _ IH]; cbn; [done|]. intros w. specialize (Hf w). specialize (IH w).
  destruct (f w) as [w' m']. destruct Hf as (_ & _ & Hs). exists []. cbn in Hs. by rewrite app_nil_r.
Qed.

Lemma sends_send cmd : sends 1 (send cmd).
Proof.
  intros w. destruct (w_open w); cbn; [by exists [cmd]|]. exists []. rewrite app_nil_r. split_and!; [done|cbn; lia|done].
Qed.

Lemma sends_exec {A} (m : prog A) k w :
  sends k m -> exists l, w_sent (exec m w).1 = w_sent w ++ l /\ (length l <= k)%nat.
Proof.
  revert m k w. fix IH 1. intros [a|d f] k w; cbn.
  - intros _. exists []. rewrite app_nil_r. split; [done|cbn; lia].
  - intros Hf. specialize (Hf w). destruct (f w) as [w' m']. destruct Hf as (l & Hl & Hn & Hm).
    destruct (IH m' _ w' Hm) as (l' & Hl' & Hn'). exists (l ++ l'). rewrite Hl', Hl, app_assoc, length_app.
    split; [done|lia].
Qed.

(** Step by step. *)
Lemma sends_step_inv {A} (m m' : prog A) k w w' :
  sends k m -> step m w = (w', m') -> sends k m' /\ w_sent w `prefix_of` w_sent w'.
Proof.
  destruct m as [a|d f]; cbn; [by intros _ [= <- <-]|]. intros Hf. specialize (Hf w). intros Heq. rewrite Heq in Hf.
  destruct Hf as (l & -> & _ & Hm). split; [|by apply prefix_app_r]. eapply sends_mono; [|exact Hm]. lia.
Qed.

Lemma sends_steps_inv {A} n (m m' : prog A) k w w' :
  sends k m -> steps n m w = (w', m') -> sends k m' /\ w_sent w `prefix_of` w_sent w'.
Proof.
  revert m w. induction n as [|n IH]; intros m w Hm; cbn [steps]; [by intros [= <- <-]|].
  destruct (step m w) as [w1 m1] eqn:Hs. destruct (sends_step_inv _ _ _ _ _ Hm Hs) as [Hm1 Hp].
  intros Hn. destruct (IH m1 w1 Hm1 Hn) as [Hm' Hp']. split; [done|by etrans].
Qed.

(** ** Requests and tasks *)

Section requests.
Context `{UuidText, Argon2, Hex, IpText, CookieText, SqlxText, Rfc3339, MapOrder, DistinctOrder, Chrono,
  JinjaLaws, BitcoinRpcClientLaws, Schema}.

Lemma sends_validated rq (next : Uuid -> prog Auth.Reply) k :
  (forall user, sends k (next user)) -> sends k (validate_session_token rq next).
Proof.
  intros Hn. apply (sends_bind _ _ 0 k).
  - apply (sends_guar eq eq), guar_try_validate.
  - by intros [user|[s m]].
Qed.

Lemma sends_place_order asset user order : sends 1 (place_order asset user order).
Proof.
  unfold place_order. apply (sends_bind _ _ 0 1); [by apply (sends_guar eq eq), guar_read|].
  intros st. destruct (negb _); [done|]. destruct order as [side ot q p tif stp].
  apply (sends_bind _ _ 0 1).
  - apply (sends_guar (rtc db_change) eq). destruct side; apply guar_reserve.
  - intros [r|e]; [|by destruct e]. apply (sends_bind _ _ 1 0); [apply sends_send|]. intros [[]|[]]; [done|].
    apply (sends_bind _ _ 0 0); [apply (sends_guar (rtc db_change) eq), guar_revert|done].
Qed.

Lemma sends_trade_add_order answer enabled user asset body :
  sends 1 (trade_add_order answer enabled user asset body).
Proof.
  unfold trade_add_order. destruct (asset_of_param asset) as [a|]; [|done]. destruct (negb _); [done|].
  apply (sends_bind _ _ 1 0); [apply sends_place_order|]. intros [r|e]; [|done]. cbv zeta.
  apply (sends_bind _ _ 0 0).
  - by apply sends_with_guard, (sends_guar eq eq), guar_read.
  - by intros [[res|[]]|].
Qed.

Lemma sends_trade_cancel_order answer enabled user asset order :
  sends 1 (trade_cancel_order answer enabled user asset order).
Proof.
  unfold trade_cancel_order, cancel_order. destruct (asset_of_param asset) as [a|]; [|done]. destruct (negb _); [done|].
  apply (sends_bind _ _ 1 0).
  - apply (sends_bind _ _ 0 1); [by apply (sends_guar eq eq), guar_read|]. intros st. destruct (bool_decide _); [done|].
    apply (sends_bind _ _ 1 0); [apply sends_send|]. by intros [[]|[]].
  - intros [u|e]; [|done]. apply (sends_bind _ _ 0 0); [by apply (sends_guar eq eq), guar_read|].
    by intros [[u'|e]|].
Qed.

(** A request sends one command at most. *)
Lemma sends_serve rq rej d r : sends 1 (serve rq rej d r).
Proof.
  destruct (is_cancel r) eqn:Hc; [|destruct (writes_journal r) eqn:Hw].
  - destruct r; try discriminate Hc. apply sends_validated. intros user. destruct rej; [done|].
    apply (sends_bind _ _ 1 0); [apply sends_trade_cancel_order|done].
  - destruct r; try discriminate Hw; apply sends_validated; intros user; (destruct rej; [done|]).
    + apply sends_trade_add_order.
    + apply (sends_mono _ 0); [lia|]. apply (sends_guar (rtc db_change) (rtc tables_change)).
      apply guar_plain, guar_user_balance_page.
  - apply (sends_mono _ 0); [lia|]. apply (sends_guar eq (rtc tables_change)), guar_serve, guar_route; [|done].
    intros l c. congruence.
Qed.

Lemma sends_cleanup c : sends 0 (run_cleanup c).
Proof. apply (sends_guar (rtc db_change) eq), guar_cleanup. Qed.

Definition thread_sends (t : Thread) : Prop :=
  match t with Request m => sends 1 m | Task m => sends 0 m end.

Lemma spawned_sends cs : Forall thread_sends (spawned cs).
Proof. induction cs; constructor; [apply sends_cleanup|done]. Qed.

Lemma run_thread_sends t w : thread_sends t -> Forall thread_sends (run_thread t w).2.
Proof.
  destruct t as [[[[r c]|why]|d f]|[a|d f]]; cbn [thread_sends run_thread step sends]; try done.
  - intros _. apply spawned_sends.
  - intros Hf. specialize (Hf w). destruct (f w) as [w' m']. destruct Hf as (l & _ & _ & Hm). constructor; [|done].
    eapply sends_mono; [|exact Hm]. lia.
  - intros Hf. specialize (Hf w). destruct (f w) as [w' m']. destruct Hf as (l & _ & _ & Hm). by constructor.
Qed.

Lemma run_thread_grows t w : thread_sends t -> w_sent w `prefix_of` w_sent (run_thread t w).1.
Proof.
  destruct t as [[[[r c]|why]|d f]|[a|d f]]; cbn [thread_sends run_thread step sends]; try done;
    intros Hf; specialize (Hf w); destruct (f w) as [w' m']; destruct Hf as (l & Hl & _); by exists l.
Qed.

Lemma thread_step_sends s s' : thread_step s s' -> Forall thread_sends s.2 -> Forall thread_sends s'.2.
Proof.
  destruct 1 as [w ts rq rej d r _|w l t ts w' ts' Hr|w l t ts]; cbn; intros Hts.
  - apply Forall_app_2; [done|]. apply Forall_singleton, sends_serve.
  - apply Forall_app in Hts as [Hl [Ht Hts]%Forall_cons]. pose proof (run_thread_sends t w Ht) as Hs.
    rewrite Hr in Hs. by repeat apply Forall_app_2.
  - apply Forall_app in Hts as [Hl [Ht Hts]%Forall_cons]. repeat apply Forall_app_2; [done| |done].
    destruct t as [m|m]; [apply spawned_sends|by apply Forall_singleton].
Qed.

Lemma thread_steps_send s s' : rtc thread_step s s' -> Forall thread_sends s.2 -> Forall thread_sends s'.2.
Proof. induction 1 as [s|s1 s2 s3 Hst _ IH]; [done|]. intros Hts. by apply IH, (thread_step_sends s1). Qed.

(** Commands are only added to the channel. *)
Lemma thread_step_grows s s' :
  thread_step s s' -> Forall thread_sends s.2 -> w_sent s.1 `prefix_of` w_sent s'.1.
Proof.
  destruct 1 as [w ts rq rej d r _|w l t ts w' ts' Hr|w l t ts]; cbn; intros Hts; [done| |done].
  apply Forall_app in Hts as [_ [Ht _]%Forall_cons]. pose proof (run_thread_grows t w Ht) as Hg. by rewrite Hr in Hg.
Qed.

Lemma thread_steps_grow s s' :
  rtc thread_step s s' -> Forall thread_sends s.2 -> w_sent s.1 `prefix_of` w_sent s'.1.
Proof.
  induction 1 as [s|s1 s2 s3 Hst _ IH]; [done|]. intros Hts. etrans; [by apply thread_step_grows|].
  by apply IH, (thread_step_sends s1).
Qed.
End requests.
