(* ===== verification/Exchange.v ===== *)
(** * The exchange at work: the web server and the engine on one channel

    The requests put orders into the channel of the engine, and the engine takes
    them out, one by one, in between. [exchange_step] is that: a step of the
    server ([Server.thread_step]), a round of the supervisor's loop on the
    command at the head of the channel ([Engine.handle_cmd]), or a change of the
    clock, the state flag and the faults to come. The channel holds so many
    commands and no more: a sender waits while it is full. What a request is
    told by the engine is not tied here to what the engine does: the answer is
    any answer, or none; [Answers] ties it. *)

From S2P Require Import Prelude Asset Orderbook PendingFill TryFill MatchSpec Trading Json Codec Accounting Tables World.
From S2P Require Import Http AppCx UserCx BitcoinClient Deposits Auth Handlers Server Sends Credits Reservations Engine Startup.

Section exchange.
Context `{Schema, UuidText, Argon2, Hex, IpText, CookieText, SqlxText, Rfc3339, MapOrder, DistinctOrder, Chrono,
  Jinja, BitcoinRpcClient} `{BuildProfile} {Log : Type} `{EventCodec Log}.

(** [x_handled]: what the engine has done so far, the command and the reply. *)
Record Exchange : Type := mkExchange {
  x_world : World;
  x_threads : list Thread;
  x_engine : Engine Log;
  x_handled : list (TradingEngineCmd * option Trading.Reply) }.

(** The channel of [spawn_trading_engine], of [te_channel_capacity]: a step that
    sends is possible when there is room. *)
Definition fits (cap : nat) (w w' : World) : Prop := w_sent w' = w_sent w \/ (length (w_sent w') <= cap)%nat.

Inductive exchange_step (cap : nat) : Exchange -> Exchange -> Prop :=
| x_serve w ts w' ts' e h :
    thread_step (w, ts) (w', ts') -> fits cap w w' -> exchange_step cap (mkExchange w ts e h) (mkExchange w' ts' e h)
| x_receive w ts e h cmd rest env e' reply :
    w_sent w = cmd :: rest -> handle_cmd e cmd env = Return (Continue e' reply) ->
    exchange_step cap (mkExchange w ts e h) (mkExchange (set_sent w rest) ts e' (h ++ [(cmd, reply)]))
| x_outside w ts e h st open now faults :
    exchange_step cap (mkExchange w ts e h)
      (mkExchange (mkWorld (w_db w) (w_tables w) st open (w_sent w) now faults) ts e h).

(** An engine that runs, has handled commands worth [n] sequence numbers, and
    no request is under way. *)
Definition start (w : World) (e : Engine Log) : Exchange := mkExchange w [] e [].
Definition handled (s : Exchange) : Z := Z.of_nat (length (x_handled s)).

Lemma handled_mono cap s s' : exchange_step cap s s' -> handled s <= handled s'.
Proof. destruct 1; unfold handled; cbn; rewrite ?length_app; lia. Qed.
End exchange.

Section runs.
Context `{UuidText, Argon2, Hex, IpText, CookieText, SqlxText, Rfc3339, MapOrder, DistinctOrder, Chrono,
  JinjaLaws, BitcoinRpcClientLaws, Schema} `{BuildProfile} {Log : Type} `{EventCodec Log}.

(** A run of the server whose commands fit into the channel. *)
Lemma server_runs cap w ts w' ts' (e : Engine Log) h :
  rtc thread_step (w, ts) (w', ts') -> Forall thread_sends ts -> (length (w_sent w') <= cap)%nat ->
  rtc (exchange_step cap) (mkExchange w ts e h) (mkExchange w' ts' e h).
Proof.
  intros Hr. remember (w, ts) as s eqn:Hs. remember (w', ts') as s' eqn:Hs'. revert w ts Hs.
  induction Hr as [s|s1 [w2 ts2] s3 Hst Hr IH]; intros w ts ->; [by injection Hs' as -> ->|]. intros Hts Hcap. subst s3.
  pose proof (thread_step_sends _ _ Hst Hts) as Hts2. pose proof (thread_steps_grow _ _ Hr Hts2) as Hp.
  eapply rtc_l; [apply x_serve; [exact Hst|]|by apply IH]. right. apply prefix_length in Hp. cbn in Hp. lia.
Qed.
End runs.

(** ** What is in the channel *)

(** Orders in range, and cancellations; nothing that stops the engine. *)
Definition sent_ok (cmd : TradingEngineCmd) : Prop :=
  match cmd with
  | Trade (CmdPlaceOrder po) => place_order_wf po
  | Trade (CmdCancelOrder _) => True
  | _ => False
  end.

Lemma sent_ok_wf cmd : sent_ok cmd -> cmd_wf cmd.
Proof. by destruct cmd as [| | |[]|]. Qed.

Lemma sent_ok_verdict l envs : Forall sent_ok l -> verdict (zip l envs) = None.
Proof. intros Hl. revert envs. induction Hl as [|[] l ? _ IH]; intros [|env envs]; try done; apply IH. Qed.

Definition stays_ok (l l' : list TradingEngineCmd) : Prop := Forall sent_ok l -> Forall sent_ok l'.
#[local] Instance stays_ok_refl : Reflexive stays_ok.
Proof. by intros l Hl. Qed.

Section channel.
Context `{UuidText, Argon2, Hex, IpText, CookieText, SqlxText, Rfc3339, MapOrder, DistinctOrder, Chrono,
  JinjaLaws, BitcoinRpcClientLaws, Schema}.

Definition channel_ok (w : World) : Prop := Forall sent_ok (w_sent w).

Lemma stays_ok_channel {RD RT} w w' : touches RD RT stays_ok w w' -> channel_ok w -> channel_ok w'.
Proof. intros (_ & _ & Hs). apply Hs. Qed.

Lemma stays_ok_snoc l cmd : sent_ok cmd -> stays_ok l (l ++ [cmd]).
Proof. intros Hc Hl. by apply Forall_app_2, Forall_singleton. Qed.

Lemma request_channel rq rej d r :
  (rej = None -> in_range r) -> keeps channel_ok (fun _ => True) (serve rq rej d r).
Proof.
  intros Hr. apply (keeps_any_request (RS := stays_ok)); [| |apply stays_ok_channel].
  - intros l c. by apply stays_ok_snoc.
  - intros l po Hpo. apply stays_ok_snoc. destruct r; try done. destruct Hpo as (-> & Hp & Hq).
    destruct (Hr eq_refl) as [Hnp Hnq]. cbn. unfold place_order_wf. by rewrite Hp, Hq.
Qed.

Lemma cleanup_channel c : keeps channel_ok (fun _ => True) (run_cleanup c).
Proof.
  eapply guar_keeps; [apply (guar_cleanup (RT := rtc tables_change) (RS := stays_ok))|apply stays_ok_channel].
Qed.
End channel.

(** ** The engine behind the server *)

Section engine.
Context `{BuildProfile} {Log : Type} `{EventCodec Log}.

Lemma handle_sent n e cmd env :
  engine_inv n (assets e) -> 0 <= n < u32_max -> running e = true -> sent_ok cmd ->
  exists e' reply, handle_cmd e cmd env = Return (Continue e' (Some reply)) /\
    running e' = true /\ engine_inv (n + 1) (assets e').
Proof.
  intros Hinv Hn Hrun Hcmd. pose proof (sent_ok_wf cmd Hcmd) as Hwf.
  destruct (handle_cmd_inv n e cmd env Hinv Hn Hwf) as (s & Hs & Hnext).
  pose proof (handle_cmd_running e cmd env s Hrun Hs) as Hr. destruct cmd as [| | |t|]; try done.
  destruct s as [e' reply|]; [|done]. pose proof (Hnext e' reply eq_refl) as Hinv'.
  assert (is_Some reply) as [r ->]; [|by exists e', r].
  revert Hs. unfold handle_cmd. rewrite Hrun. cbn [negb].
  destruct t; destruct (try_event_log _ _ _ _) as [[e2 r]|]; cbn; intros [= <- <-]; by eexists.
Qed.
End engine.

Section safety.
Context `{UuidText, Argon2, Hex, IpText, CookieText, SqlxText, Rfc3339, MapOrder, DistinctOrder, Chrono,
  JinjaLaws, BitcoinRpcClientLaws, Schema} `{BuildProfile} {Log : Type} `{EventCodec Log}.

Definition at_work (n : Z) (s : Exchange (Log := Log)) : Prop :=
  running (x_engine s) = true /\ engine_inv (n + handled s) (assets (x_engine s)) /\
  channel_ok (x_world s) /\ Forall (thread_keeps channel_ok) (x_threads s).

Lemma at_work_step cap n s s' :
  exchange_step cap s s' -> 0 <= n -> n + handled s' <= u32_max -> at_work n s -> at_work n s'.
Proof.
  destruct 1 as [w ts w' ts' e h Hs _|w ts e h cmd rest env e' reply Hsent Hh|w ts e h st open now faults];
    intros Hn Hcount (Hrun & Hinv & Hc & Hts); cbn in Hrun, Hinv, Hc, Hts.
  - destruct (thread_step_safe (I := channel_ok) request_channel cleanup_channel _ _ Hs
      (conj Hc Hts)) as [Hc' Hts'].
    by split_and!.
  - unfold channel_ok in Hc. rewrite Hsent in Hc. apply Forall_cons in Hc as [Hcmd Hrest].
    unfold handled in *. cbn in *. rewrite length_app in *. cbn in Hcount |- *.
    destruct (handle_sent _ e cmd env Hinv ltac:(lia) Hrun Hcmd) as (e2 & r & Heq & Hrun' & Hinv').
    rewrite Hh in Heq. injection Heq as -> ->. split; [done|]. split; [|done].
    unfold handled. cbn. rewrite length_app. cbn. by replace (n + Z.of_nat (length h + 1)) with (n + Z.of_nat (length h) + 1) by lia.
  - by split_and!.
Qed.

Lemma at_work_reach cap n w e s :
  running e = true -> engine_inv n (assets e) -> channel_ok w -> 0 <= n ->
  rtc (exchange_step cap) (start w e) s -> n + handled s <= u32_max -> at_work n s.
Proof.
  intros Hrun Hinv Hc Hn. revert s. refine (rtc_ind_r _ _ _ _); [|intros s s' _ Hst IH]; intros Hcount.
  - split; [done|]. split; [|done]. unfold handled. cbn. by rewrite Z.add_0_r.
  - pose proof (handled_mono _ _ _ Hst). apply (at_work_step cap n s); [done..|]. apply IH. lia.
Qed.
(** C14: behind the server the engine cannot fail. From a running engine with
    good books - one that has been started from its log - whatever requests
    arrive and however they and the tasks they leave interleave with the engine,
    are dropped or lose their connections: the engine keeps running and
    both its books stay well formed, in price-time order and uncrossed; the
    command at the head of the channel is handled without a panic and answered;
    and if the process is told to stop it does: the engine works off what is in
    the channel and ends, because nothing a request does suspends it. This holds
    for as many commands as a [u32] counts. *)
Theorem served_engine_is_safe cap n w e s
    (Hrun : running e = true) (Hinv : engine_inv n (assets e)) (Hn : 0 <= n) (Hsent : channel_ok w)
    (Hreach : rtc (exchange_step cap) (start w e) s)
    (Hcount : n + handled s + Z.of_nat (length (w_sent (x_world s)) + 1) <= u32_max) :
  running (x_engine s) = true /\ engine_inv (n + handled s) (assets (x_engine s)) /\
  (forall cmd rest env, w_sent (x_world s) = cmd :: rest ->
     exists e' reply, handle_cmd (x_engine s) cmd env = Return (Continue e' (Some reply))) /\
  (forall envs env, graceful_shutdown (TaskRunning (x_engine s) (zip (w_sent (x_world s)) envs)) env = true).
Proof.
  destruct (at_work_reach cap n w e s Hrun Hinv Hsent Hn Hreach ltac:(lia)) as (Hrun' & Hinv' & Hc & _).
  assert (0 <= handled s) by (unfold handled; lia).
  split; [done|]. split; [done|]. split.
  - intros cmd rest env Heq. unfold channel_ok in Hc. rewrite Heq in Hc, Hcount.
    apply Forall_cons in Hc as [Hcmd _]. cbn [length] in Hcount.
    destruct (handle_sent _ (x_engine s) cmd env Hinv' ltac:(lia) Hrun' Hcmd) as (e' & r & Hh & _). by exists e', r.
  - intros envs env. rewrite (graceful_shutdown_spec (n + handled s)); [|done|lia| |].
    + apply bool_decide_true. split; [done|]. by rewrite verdict_app, sent_ok_verdict.
    + apply Forall_forall. intros [c v] Hin%elem_of_zip_l. cbn. apply sent_ok_wf.
      unfold channel_ok in Hc. rewrite Forall_forall in Hc. by apply Hc.
    + rewrite length_zip_with. lia.
Qed.
End safety.

(** ** What rests in the books has been reserved *)

(** What an order on one side of a book is reserved in. *)
Definition side_currency (asset : Asset) (side : OrderSide) : string :=
  match side with Buy => "USD" | Sell => currency_of asset end.

Definition in_currency (c : string) (asset : Asset) (side : OrderSide) (amt : Z) : Z :=
  if bool_decide (side_currency asset side = c) then amt else 0.

(** The quantities that rest in the books, that are in the channel, that have
    been traded - by the taker and by the makers - and the rows of the journal
    that reserve, in one currency. *)
Definition booked (c : string) (a : Assets) : Z :=
  foldr Z.add 0 (asset ← [Bitcoin; Ether]; side ← [Buy; Sell];
    [in_currency c asset side (total (spec_side (abs_book (book_of a asset)) side))]).
Definition ordered (c : string) (cmd : TradingEngineCmd) : Z :=
  match cmd with
  | Trade (CmdPlaceOrder po) => in_currency c (po_asset po) (po_side po) (Z.max 0 (po_quantity po))
  | _ => 0
  end.
Definition traded_by (c : string) (po : PlaceOrder) (qty : Z) : Z :=
  in_currency c (po_asset po) (po_side po) qty + in_currency c (po_asset po) (opposite (po_side po)) qty.
Definition told_traded (c : string) (h : TradingEngineCmd * option Trading.Reply) : Z :=
  match h with
  | (Trade (CmdPlaceOrder po), Some (PlaceReply (Ok res))) => traded_by c po (por_quantity_filled res)
  | _ => 0
  end.
Definition reserving (c : string) (e : JournalEntry) : Z :=
  if bool_decide (transaction_type e = "reserve asset" /\ tx_currency e = c) then amount e else 0.

Definition sum_of {A} (f : A -> Z) (l : list A) : Z := foldr (fun a z => f a + z) 0 l.

Lemma sum_of_app {A} (f : A -> Z) l k : sum_of f (l ++ k) = sum_of f l + sum_of f k.
Proof. unfold sum_of. induction l; cbn in *; lia. Qed.

Lemma sum_of_one {A} (f : A -> Z) a : sum_of f [a] = f a.
Proof. cbn. lia. Qed.

Definition reservations (c : string) : Valuation := mkValuation (reserving c) (ordered c).

Lemma in_currency_pos c asset side amt : 0 <= amt -> 0 <= in_currency c asset side amt <= amt.
Proof. unfold in_currency. case_bool_decide; lia. Qed.

(** An order needs what is reserved for it. *)
Lemma ordered_reserved c e po :
  tx_currency e = order_currency po -> amount e = po_quantity po -> 0 < amount e ->
  ordered c (Trade (CmdPlaceOrder po)) <= (if bool_decide (tx_currency e = c) then amount e else 0).
Proof.
  intros Hc Hq Hpos. cbn. unfold in_currency. change (side_currency (po_asset po) (po_side po)) with (order_currency po).
  rewrite Hc. case_bool_decide; lia.
Qed.

Lemma reservations_sound accs c : Sound accs (reservations c).
Proof.
  assert (forall e n, is_reserve accs e -> reserving c (refund_of n e) = 0 /\
    reserving c e = (if bool_decide (tx_currency e = c) then amount e else 0) /\ 0 < amount e) as Hres.
  { intros e n (Ht & _ & Ha). unfold reserving. rewrite (bool_decide_false _) by by intros [].
    split; [done|]. split; [|done]. rewrite Ht. by rewrite (bool_decide_ext _ (tx_currency e = c)) by tauto. }
  split; [split|]; cbn [worth cost reservations].
  - intros e (Ht & _ & Ha). unfold reserving. case_bool_decide; lia.
  - intros e n He. destruct (Hres e n He) as (-> & _), (Hres e 0 He) as (-> & _). lia.
  - intros e He. destruct (Hres e 0 He) as (-> & -> & ?). case_bool_decide; lia.
  - intros [| | |[]|]; cbn; try lia. apply in_currency_pos. lia.
  - done.
  - intros e po He Hc Hq. destruct (Hres e 0 He) as (_ & -> & ?). by apply ordered_reserved.
  - intros e po He Hc Hq. destruct (Hres e 0 He) as (-> & -> & ?). pose proof (ordered_reserved c e po Hc Hq). lia.
Qed.

Section booked.
Context `{BuildProfile}.

Lemma booked_split c a asset side :
  exists rest, booked c a =
    in_currency c asset side (total (spec_side (abs_book (book_of a asset)) side)) +
    in_currency c asset (opposite side) (total (spec_side (abs_book (book_of a asset)) (opposite side))) + rest /\
    forall a', (forall b, b <> asset -> book_of a' b = book_of a b) -> booked c a' =
      in_currency c asset side (total (spec_side (abs_book (book_of a' asset)) side)) +
      in_currency c asset (opposite side) (total (spec_side (abs_book (book_of a' asset)) (opposite side))) + rest.
Proof.
  unfold booked. cbn [mbind list_bind app foldr].
  set (t a b s := in_currency c b s (total (spec_side (abs_book (book_of a b)) s))).
  exists (match asset with Bitcoin => t a Ether Buy + t a Ether Sell | Ether => t a Bitcoin Buy + t a Bitcoin Sell end).
  split; [destruct asset, side; cbn [opposite]; unfold t; lia|]. intros a' Ho.
  destruct asset; [rewrite (Ho Ether) by done|rewrite (Ho Bitcoin) by done];
    destruct side; cbn [opposite]; unfold t; lia.
Qed.

(** A placed order moves its quantity into the books, or trades it. *)
Lemma place_booked c n a po uuid a' r :
  assets_wf n a -> place_order_wf po -> place_post n a po uuid a' r ->
  booked c a' + match r with Ok res => traded_by c po (por_quantity_filled res) | Err _ => 0 end <=
    booked c a + ordered c (Trade (CmdPlaceOrder po)) /\
  match r with Ok res => 0 <= traded_by c po (por_quantity_filled res) | Err _ => True end.
Proof.
  intros Hwf Hpo Hpost. pose proof (place_post_totals n a po uuid a' r Hwf Hpo Hpost) as Ht. cbv zeta in Ht.
  destruct Hpost as (_ & _ & _ & _ & Hok & Hother & _). destruct Hpo as [_ Hq]. unfold nz_u32 in Hq.
  cbn [ordered]. destruct r as [res|e].
  - destruct (booked_split c a (po_asset po) (po_side po)) as (rest & -> & Ha').
    rewrite (Ha' a') by (intros b Hb; unfold book_of; by rewrite Hother).
    destruct Ht as (Hrem & -> & ->). destruct (Hok res eq_refl) as (_ & _ & Hsum & _).
    unfold traded_by, in_currency. repeat case_bool_decide; lia.
  - subst a'. pose proof (in_currency_pos c (po_asset po) (po_side po) (Z.max 0 (po_quantity po)) ltac:(lia)). split; [lia|done].
Qed.

Context {Log : Type} `{EventCodec Log}.

Lemma handle_booked c n e cmd env e' reply :
  engine_inv n (assets e) -> 0 <= n < u32_max -> running e = true -> sent_ok cmd ->
  handle_cmd e cmd env = Return (Continue e' reply) ->
  booked c (assets e') + told_traded c (cmd, reply) <= booked c (assets e) + ordered c cmd.
Proof.
  intros Hinv Hn Hrun Hcmd. unfold handle_cmd. rewrite Hrun. cbn [negb].
  destruct cmd as [| | |[po|co]|]; try done.
  - destruct (do_place_order_post n _ po (env_order_uuid env) (proj1 Hinv) Hn Hcmd) as (a' & r & Hr & Hpost).
    pose proof (place_booked c n _ po _ a' r (proj1 Hinv) Hcmd Hpost) as [Hb Ht].
    pose proof (in_currency_pos c (po_asset po) (po_side po) (Z.max 0 (po_quantity po)) ltac:(lia)) as Hpos.
    unfold try_event_log. destruct (place_to_value po); cbn.
    + rewrite Hr. cbn. destruct (env_insert env); cbn; intros [= <- <-]; cbn; destruct r; cbn in *; lia.
    + intros [= <- <-]. cbn in *. lia.
  - unfold try_event_log. rewrite (do_cancel_order_inv n) by done. destruct (cancel_to_value co); cbn.
    + destruct (env_insert env); cbn; intros [= <- <-]; cbn; lia.
    + intros [= <- <-]. cbn. lia.
Qed.
End booked.

Section backing.
Context `{UuidText, Argon2, Hex, IpText, CookieText, SqlxText, Rfc3339, MapOrder, DistinctOrder, Chrono,
  JinjaLaws, BitcoinRpcClientLaws, Schema} `{BuildProfile} {Log : Type} `{EventCodec Log}.
Context (cap : nat) (c : string) (w0 : World) (e0 : Engine Log) (n : Z)
  (Hwf : db_wf (w_db w0)) (Hrun : running e0 = true) (Hinv : engine_inv n (assets e0)) (Hn : 0 <= n)
  (Hsent : channel_ok w0).

#[local] Abbreviation V := (reservations c).
#[local] Abbreviation economy := (journal_economy true (accounts (w_db w0)) V).
#[local] Instance sound : Sound (accounts (w_db w0)) V.
Proof. apply reservations_sound. Qed.

(** What is owed: what has come into the books since, and what has been traded. *)
Definition owed (s : Exchange (Log := Log)) : Z :=
  slack (Economy := economy) (view w0) - booked c (assets e0) + booked c (assets (x_engine s)) +
  sum_of (told_traded c) (x_handled s).

Definition funded (s : Exchange) : Prop :=
  solvent (H := economy) (owed s) (x_world s, x_threads s) /\
  later (Economy := economy) (view w0) (view (x_world s)).

Lemma funded_step s s' :
  exchange_step cap s s' -> at_work n s -> n + handled s' <= u32_max -> funded s -> funded s'.
Proof using H10 H12 Hn.
  destruct 1 as [w ts w' ts' e h Hs _|w ts e h cmd rest env e' reply Hcmd Hh|w ts e h st open now faults];
    intros (Hr & Hi & Hc & _) Hcount [Hsol Hl]; cbn [x_world x_threads x_engine] in *.
  - destruct (thread_step_solvent (HE := journal_economy_laws true (accounts (w_db w0)) V) ltac:(intros; by apply pays_serve) ltac:(intros ??? Hq Hcl; by apply pays_cleanup, Hcl) _ _ _ Hs Hsol)
      as [Hsol' Hl']. split; [exact Hsol'|]. by etrans.
  - unfold channel_ok in Hc. rewrite Hcmd in Hc. apply Forall_cons in Hc as [Hok _].
    unfold handled in *. cbn in Hi, Hcount. rewrite length_app in Hcount. cbn in Hcount.
    pose proof (handle_booked c _ e cmd env e' reply Hi ltac:(lia) Hr Hok Hh) as Hb. split; [|exact Hl].
    eapply other_solvent; [..|exact Hsol]; [apply Hsol|unfold view; cbn; reflexivity|].
    unfold owed, view. cbn [x_world x_engine x_handled slack journal_economy w_db w_sent set_sent fst snd].
    rewrite Hcmd, sum_of_app. change (cmd :: rest) with ([cmd] ++ rest). rewrite load_app, load_one, sum_of_one.
    change (cost V cmd) with (ordered c cmd). lia.
  - split; [|exact Hl]. eapply other_solvent; [..|exact Hsol]; [apply Hsol|unfold view; cbn; reflexivity|].
    apply Z.le_refl.
Qed.

Lemma funded_reach s : rtc (exchange_step cap) (start w0 e0) s -> n + handled s <= u32_max -> funded s.
Proof using All.
  revert s. refine (rtc_ind_r _ _ _ _); [|intros s s' Hreach Hst IH]; intros Hcount.
  - split; [|unfold view; cbn; reflexivity]. apply solvent_init; [by split|].
    unfold owed. change (sum_of _ _) with 0 at 1. cbn [start x_engine x_world]. lia.
  - pose proof (handled_mono _ _ _ Hst). apply (funded_step s); [done| |done|apply IH; lia].
    apply (at_work_reach cap n w0 e0); [done..|lia].
Qed.
End backing.

Section properties.
Context `{UuidText, Argon2, Hex, IpText, CookieText, SqlxText, Rfc3339, MapOrder, DistinctOrder, Chrono,
  JinjaLaws, BitcoinRpcClientLaws, Schema} `{BuildProfile} {Log : Type} `{EventCodec Log}.

(** C15: what rests has been reserved. From the time the exchange is opened,
    however requests, tasks and engine interleave: in each currency, what has
    been added to the books on the sides that are reserved in it, and what
    clients have been told was traded from those sides, and the orders that are
    still in the channel, come to no more than the rows that reserve it in the
    journal - each reservation is spent on one order at most, and no order is
    placed, executed or rested beyond it. *)
Theorem books_backed_by_reservations cap c n w e s
    (Hwf : db_wf (w_db w)) (Hrun : running e = true) (Hinv : engine_inv n (assets e)) (Hn : 0 <= n)
    (Hsent : channel_ok w) (Hreach : rtc (exchange_step cap) (start w e) s) (Hcount : n + handled s <= u32_max) :
  exists new, journal (w_db (x_world s)) = journal (w_db w) ++ new /\
    booked c (assets (x_engine s)) - booked c (assets e) + sum_of (told_traded c) (x_handled s) +
      (sum_of (ordered c) (w_sent (x_world s)) - sum_of (ordered c) (w_sent w)) <= sum_of (reserving c) new.
Proof.
  destruct (funded_reach cap c w e n Hwf Hrun Hinv Hn Hsent s Hreach Hcount) as [Hs [new Hj]].
  exists new. unfold view in Hj. cbn [fst] in Hj. split; [done|]. apply solvent_slack in Hs. revert Hs.
  unfold owed, view. cbn [slack journal_economy fst snd x_world]. rewrite Hj, value_app.
  unfold value, load, sum_of. cbn [worth cost reservations]. lia.
Qed.
End properties.

(** ** A concrete run: an order is reserved, rests, and is reported *)

Section witnesses.
#[local] Existing Instances decimal_uuid_text decimal_uuid_text_laws plain_argon2 no_ips whole_seconds table_order.
#[local] Existing Instances demo_hex demo_cookie demo_sqlx demo_rfc3339 demo_map_order demo_jinja demo_node.
#[local] Existing Instances before_0007 debug_profile.

Definition demo_trader : World := set_db demo_logged_in (demo_db 100 0).
Definition demo_bid : PlaceOrder := PlaceOrder_new Bitcoin 7%N 100 40 Limit DecreaseCancel GoodTilCanceled Buy.
Definition demo_report : PlaceOrderResult :=
  mkPlaceOrderResult demo_bid 11%N (Some (mkOrderIndex Buy 100 0)) FillNone 0 40.
Definition demo_bidding : prog Reply :=
  serve (demo_request "12") None (mkDraws (Some (Ok demo_report)) None "salt" 9%N [])
    (PostTradeOrder "btc" demo_order).

Definition demo_bid_env : CmdEnv := mkCmdEnv 11%N (Ok tt).
Definition demo_idle : Engine Json := Engine_new [].
Definition demo_rested : Engine Json :=
  match handle_cmd demo_idle (Trade (CmdPlaceOrder demo_bid)) demo_bid_env with
  | Return (Continue e _) => e
  | _ => demo_idle
  end.

(** The request up to the wait for the engine, with its order in the channel. *)
Definition demo_waiting : World * prog Reply := steps 7 demo_bidding demo_trader.
Definition demo_taken : World := set_sent demo_waiting.1 [].

Lemma demo_run : rtc thread_step (demo_trader, []) (demo_waiting.1, [Request demo_waiting.2]).
Proof.
  eapply rtc_l; [|apply request_steps].
  apply (thr_arrive _ [] (demo_request "12") None (mkDraws (Some (Ok demo_report)) None "salt" 9%N [])
    (PostTradeOrder "btc" demo_order)). intros _. split; unfold_nz; cbn; lia.
Qed.

Lemma demo_arrival : rtc (exchange_step 1) (start demo_trader demo_idle)
  (mkExchange demo_waiting.1 [Request demo_waiting.2] demo_idle []).
Proof.
  apply (server_runs (H10 := demo_jinja_laws) (H12 := demo_client_laws [demo_deposit "t2" 70]));
    [apply demo_run|constructor|by apply Nat.leb_le].
Qed.

Lemma demo_reported : rtc (exchange_step 1) (start demo_trader demo_idle)
  (mkExchange demo_taken [] demo_rested
     [(Trade (CmdPlaceOrder demo_bid), Some (PlaceReply (Ok demo_report)))]).
Proof.
  etrans; [apply demo_arrival|]. eapply rtc_l.
  { apply (x_receive _ _ _ _ _ (Trade (CmdPlaceOrder demo_bid)) [] demo_bid_env demo_rested
      (Some (PlaceReply (Ok demo_report)))); vm_compute; reflexivity. }
  assert (Forall thread_sends [Request demo_waiting.2]) as Hsends.
  { pose proof demo_run as Hr. apply (thread_steps_send (H10 := demo_jinja_laws) (H12 := demo_client_laws [demo_deposit "t2" 70])) in Hr; [exact Hr|constructor]. }
  apply (server_runs (H10 := demo_jinja_laws) (H12 := demo_client_laws [demo_deposit "t2" 70]));
    [|exact Hsends|by apply Nat.leb_le].
  pose proof (request_alone demo_waiting.2 demo_taken []) as Hr.
  assert (exec demo_waiting.2 demo_taken = (demo_taken,
    Return (json_response (JObject [("order_uuid", JString "11")]), None))) as He by (vm_compute; reflexivity).
  rewrite He in Hr. exact Hr.
Qed.

Lemma demo_trader_sent : channel_ok demo_trader.
Proof. constructor. Qed.

(** The process is told to stop while the order is in the channel. *)
Lemma served_engine_is_safe_witness :
  w_sent demo_waiting.1 = [Trade (CmdPlaceOrder demo_bid)] /\
  graceful_shutdown (TaskRunning demo_idle [(Trade (CmdPlaceOrder demo_bid), demo_bid_env)]) demo_bid_env = true.
Proof.
  assert (w_sent demo_waiting.1 = [Trade (CmdPlaceOrder demo_bid)]) as Hs by (vm_compute; reflexivity).
  split; [exact Hs|].
  destruct (served_engine_is_safe (H10 := demo_jinja_laws) (H12 := demo_client_laws [demo_deposit "t2" 70]) 1 0
    demo_trader demo_idle _ eq_refl engine_inv_new ltac:(reflexivity) demo_trader_sent demo_arrival
    ltac:(vm_compute; discriminate)) as (_ & _ & _ & Hg).
  cbn [x_world x_engine] in Hg. rewrite Hs in Hg. exact (Hg [demo_bid_env] demo_bid_env).
Defined.

Lemma books_backed_by_reservations_witness :
  booked "USD" (assets demo_rested) = 40 /\
  exists new, journal (w_db demo_taken) = journal (w_db demo_trader) ++ new /\ 40 <= sum_of (reserving "USD") new.
Proof.
  assert (booked "USD" (assets demo_rested) = 40) as Hb by (vm_compute; reflexivity). split; [exact Hb|].
  destruct (books_backed_by_reservations (H10 := demo_jinja_laws) (H12 := demo_client_laws [demo_deposit "t2" 70])
    1 "USD" 0 demo_trader demo_idle _ (demo_db_wf 100 0 ltac:(lia) ltac:(lia)) eq_refl engine_inv_new
    ltac:(reflexivity) demo_trader_sent demo_reported ltac:(vm_compute; discriminate)) as (new & Hj & Hle).
  exists new. split; [exact Hj|]. cbn [x_world x_engine x_handled] in Hle. rewrite Hb in Hle.
  change (booked "USD" (assets demo_idle)) with 0 in Hle.
  change (40 - 0 + 0 + (0 - 0) <= sum_of (reserving "USD") new) in Hle. lia.
Defined.
End witnesses.
