(* ===== verification/Answers.v ===== *)
(** * What the engine replies is what the client is told

    [Exchange.exchange_step] lets a request be given any answer. Here each
    request that has sent a command waits until the engine has handled this very
    command, and is given the reply of the engine: a client is a thread with the
    answer it is promised when it arrives, and with a ticket, the number of its
    command; the engine takes a command only if its reply is the one that has
    been promised. Every run of the program is such a run, with the promises
    read off it; and every such run is one of [exchange_step], without the
    tickets. *)

From S2P Require Import Prelude Asset Orderbook PendingFill TryFill MatchSpec Trading Json Codec Accounting Tables World.
From S2P Require Import Http AppCx UserCx BitcoinClient Deposits Auth Handlers Server Sends Credits Reservations Engine Exchange.

Record Client : Type := mkClient {
  c_promise : Draws;
  c_ticket : option nat;
  c_thread : Thread }.

(** The reply that a client counts on for its command. *)
Definition promised_reply (d : Draws) (cmd : TradingEngineCmd) : option Trading.Reply :=
  match cmd with
  | Trade (CmdPlaceOrder _) => PlaceReply <$> dr_placed d
  | Trade (CmdCancelOrder _) => CancelReply <$> dr_cancelled d
  | _ => None
  end.

(** What happens, as far as it matters for the money: [HangsUp]: a request is
    dropped, after it has sent a command or before; [Handles]: the engine has
    executed a command, and its INSERT has succeeded or not. *)
Inductive event : Type :=
| Arrives
| Runs
| HangsUp (has_sent : bool)
| Handles (logged : bool)
| Outside.

Section market.
Context `{Schema, UuidText, Argon2, Hex, IpText, CookieText, SqlxText, Rfc3339, MapOrder, DistinctOrder, Chrono,
  Jinja, BitcoinRpcClient} `{BuildProfile} {Log : Type} `{EventCodec Log}.

(** [m_promised]: the promises for all the commands that have been sent. *)
Record Market : Type := mkMarket {
  m_world : World;
  m_clients : list Client;
  m_engine : Engine Log;
  m_handled : list (TradingEngineCmd * option Trading.Reply);
  m_promised : list Draws }.

Definition answered (c : Client) (h : list (TradingEngineCmd * option Trading.Reply)) : Prop :=
  match c_ticket c with Some k => (k < length h)%nat | None => True end.

(** What a client that has sent something, or not, becomes. *)
Definition next_clients (c : Client) (n : nat) (sent : list TradingEngineCmd) (ts : list Thread) : list Client :=
  mkClient (c_promise c) (match sent with [] => c_ticket c | _ => Some n end) <$> ts.

Inductive market_step (cap : nat) : event -> Market -> Market -> Prop :=
| m_arrive w cs e h ps rq rejection d r :
    (rejection = None -> in_range r) ->
    market_step cap Arrives (mkMarket w cs e h ps)
      (mkMarket w (cs ++ [mkClient d None (Request (serve rq rejection d r))]) e h ps)
| m_run w l c cs e h ps w' ts sent :
    answered c h -> run_thread (c_thread c) w = (w', ts) -> w_sent w' = w_sent w ++ sent -> fits cap w w' ->
    market_step cap Runs (mkMarket w (l ++ c :: cs) e h ps)
      (mkMarket w' (l ++ next_clients c (length ps) sent ts ++ cs) e h (ps ++ replicate (length sent) (c_promise c)))
| m_drop w l d k m cs e h ps :
    market_step cap (HangsUp (bool_decide (is_Some k))) (mkMarket w (l ++ mkClient d k (Request m) :: cs) e h ps)
      (mkMarket w (l ++ (mkClient d None <$> spawned (dropped m)) ++ cs) e h ps)
| m_receive w cs e h ps cmd rest env e' reply d :
    w_sent w = cmd :: rest -> handle_cmd e cmd env = Return (Continue e' reply) ->
    ps !! length h = Some d -> promised_reply d cmd = reply ->
    market_step cap (Handles (match env_insert env with Ok _ => true | Err _ => false end)) (mkMarket w cs e h ps)
      (mkMarket (set_sent w rest) cs e' (h ++ [(cmd, reply)]) ps)
| m_outside w cs e h ps st open now faults :
    market_step cap Outside (mkMarket w cs e h ps)
      (mkMarket (mkWorld (w_db w) (w_tables w) st open (w_sent w) now faults) cs e h ps).

Definition open_market (w : World) (e : Engine Log) : Market := mkMarket w [] e [] [].

(** Without the tickets. *)
Definition forget (s : Market) : Exchange :=
  mkExchange (m_world s) (c_thread <$> m_clients s) (m_engine s) (m_handled s).

Lemma forget_clients d k (ts : list Thread) : c_thread <$> (mkClient d k <$> ts) = ts.
Proof. rewrite <- list_fmap_compose. apply list_fmap_id. Qed.

Lemma market_exchange cap ev s s' : market_step cap ev s s' -> exchange_step cap (forget s) (forget s').
Proof.
  destruct 1 as [| w l c cs e h ps w' ts sent _ Hr Hs Hfit|w l d k m cs e h ps|w cs e h ps cmd rest env e' reply d Hs Hh _ _|];
    unfold forget; cbn; rewrite ?fmap_app, ?fmap_cons.
  - apply x_serve; [by apply thr_arrive|by left].
  - unfold next_clients. rewrite forget_clients. apply x_serve; [by apply thr_run|done].
  - rewrite forget_clients. apply x_serve; [exact (thr_drop w _ (Request m) _)|by left].
  - by eapply x_receive.
  - apply x_outside.
Qed.

(** No request is dropped after it has sent its command, and every INSERT of
    the engine succeeds. *)
Definition harmless (ev : event) : Prop :=
  match ev with HangsUp true | Handles false => False | _ => True end.
Definition allowed_step (P : event -> Prop) (cap : nat) (s s' : Market) : Prop :=
  exists ev, P ev /\ market_step cap ev s s'.
Definition orderly_step : nat -> Market -> Market -> Prop := allowed_step harmless.

Lemma orderly_exchange cap s s' : rtc (orderly_step cap) s s' -> rtc (exchange_step cap) (forget s) (forget s').
Proof. apply (rtc_congruence forget). intros s1 s2 (ev & _ & Hs). by eapply market_exchange. Qed.
End market.

(** ** Nothing to clean up before a command is sent *)

(** Until [m] sends something, dropping it leaves nothing behind; and if it ends
    without, its value is in [Q]. *)
Fixpoint careful {A} (Q : A -> Prop) (m : prog A) : Prop :=
  match m with
  | Done (Return a) => Q a
  | Done (Panic _) => True
  | Step d f => d = [] /\ forall w, match f w with (w', m') => w_sent w' = w_sent w -> careful Q m' end
  end.

Lemma careful_bind {A B} (P : A -> Prop) (Q : B -> Prop) (m : prog A) (k : A -> prog B) :
  careful P m -> (forall a, P a -> careful Q (k a)) -> careful Q (m ≫= k).
Proof.
  revert m. fix IH 1. intros [[a|why]|d f] Hm Hk; cbn in Hm |- *; [by apply Hk|done|].
  destruct Hm as [Hd Hf]. split; [done|]. intros w. specialize (Hf w). destruct (f w) as [w' m'].
  intros Hs. by apply IH; [apply Hf|].
Qed.

Lemma careful_guar {A} G (m : prog A) : guar G m -> careful (fun _ => True) m.
Proof.
  induction 1 as [[a|why]|f _ _ IH]; cbn; [done..|]. split; [done|]. intros w. specialize (IH w).
  by destruct (f w).
Qed.

Lemma careful_dropped {A} (Q : A -> Prop) m : careful Q m -> dropped m = [].
Proof. destruct m as [a|d f]; [done|]. by intros []. Qed.

(** What is sent, is sent. *)
Lemma careful_send cmd : careful (fun r => r = Err tt) (send cmd).
Proof.
  split; [done|]. intros w. destruct (w_open w); cbn; [|done]. intros Hs%(f_equal length).
  rewrite length_app in Hs. cbn in Hs. lia.
Qed.

Section requests.
Context `{UuidText, Argon2, Hex, IpText, CookieText, SqlxText, Rfc3339, MapOrder, DistinctOrder, Chrono,
  JinjaLaws, BitcoinRpcClientLaws, Schema}.

Lemma careful_place_order asset user order : careful (fun r => ~ is_Ok r) (place_order asset user order).
Proof.
  unfold place_order. eapply careful_bind; [eapply (careful_guar (touches eq eq eq)), guar_read; done|].
  intros st _. destruct (negb _); [by intros []|]. destruct order as [side ot q p tif stp].
  eapply (careful_bind (fun _ => True)).
  - destruct side; eapply (careful_guar (touches (rtc db_change) eq eq)), guar_reserve.
  - intros [r|e] _; [|destruct e; cbn; [by intros []|done]]. eapply careful_bind; [apply careful_send|].
    intros ? ->. eapply careful_bind; [eapply (careful_guar (touches (rtc db_change) eq eq)), guar_revert|].
    by intros ? _ [].
Qed.

Lemma careful_trade_add_order answer enabled user asset body :
  careful (fun _ => True) (trade_add_order answer enabled user asset body).
Proof.
  unfold trade_add_order. destruct (asset_of_param asset) as [a|]; [|done]. destruct (negb _); [done|].
  eapply careful_bind; [apply careful_place_order|]. intros [r|e] Hr; [by destruct Hr|done].
Qed.

Lemma careful_serve rq rej d r : careful (fun _ => True) (serve rq rej d r).
Proof.
  destruct (is_trade_order r) eqn:Ht; [|destruct (writes_journal r) eqn:Hw].
  - destruct r; try discriminate Ht. eapply (careful_bind (fun _ => True)).
    + apply (careful_guar (touches eq eq eq)), guar_try_validate.
    + intros [user|[s m]] _; [|done]. destruct rej; [done|apply careful_trade_add_order].
  - destruct r; try discriminate Ht; try discriminate Hw.
    apply (careful_guar (touches (rtc db_change) (rtc tables_change) eq)), guar_serve.
    cbn. intros user. apply guar_plain, guar_user_balance_page.
  - apply (careful_guar (touches eq (rtc tables_change) prefix)), guar_serve, guar_route; [|done].
    intros l c _. by apply prefix_app_r.
Qed.
End requests.

(** ** Reservations, less those that have been taken back *)

Definition refunding (c : string) (e : JournalEntry) : Z :=
  if bool_decide (transaction_type e = "revert reserve asset" /\ tx_currency e = c) then amount e else 0.

(** Is an order of this client placed? *)
Definition is_placed (d : Draws) : bool := match dr_placed d with Some (Ok _) => true | _ => false end.

(** A row, and a command of a client: an order that is not placed costs nothing. *)
Definition net (c : string) (e : JournalEntry) : Z := reserving c e - refunding c e.
Definition pledge (c : string) (d : Draws) (cmd : TradingEngineCmd) : Z := if is_placed d then ordered c cmd else 0.
Definition net_reserved (c : string) (d : Draws) : Valuation := mkValuation (net c) (pledge c d).

Lemma net_reserve accs c e n :
  is_reserve accs e ->
  net c e = (if bool_decide (tx_currency e = c) then amount e else 0) /\ net c (refund_of n e) = - net c e /\ 0 <= net c e.
Proof.
  intros (Ht & _ & Ha). unfold net, reserving, refunding. cbn.
  rewrite (bool_decide_ext (transaction_type e = "reserve asset" /\ _) (tx_currency e = c)) by (rewrite Ht; tauto).
  rewrite (bool_decide_false (transaction_type e = _ /\ _)) by (rewrite Ht; by intros []).
  rewrite (bool_decide_false ("revert reserve asset" = _ /\ _)) by by intros [].
  rewrite (bool_decide_ext ("revert reserve asset" = _ /\ _) (tx_currency e = c)) by tauto.
  case_bool_decide; lia.
Qed.

Lemma net_fair accs c d : Fair accs (net_reserved c d).
Proof.
  split; cbn [worth cost net_reserved].
  - intros e (Ht & _). unfold net, reserving, refunding. rewrite Ht.
    by rewrite !bool_decide_false by by intros [].
  - intros e n He. destruct (net_reserve accs c e n He) as (_ & -> & ?), (net_reserve accs c e 0 He) as (_ & -> & _). lia.
  - intros e He. destruct (net_reserve accs c e 0 He) as (_ & -> & _). lia.
  - intros cmd. unfold pledge. destruct (is_placed d), cmd as [| | |[]|]; cbn; try done. apply in_currency_pos. lia.
  - intros co. unfold pledge. by destruct (is_placed d).
  - intros e po He Hc Hq. destruct (net_reserve accs c e 0 He) as (-> & _ & _). unfold pledge. destruct He as (_ & _ & Hpos).
    destruct (is_placed d); [by apply ordered_reserved|case_bool_decide; lia].
Qed.

Lemma net_sound accs c d : is_placed d = false -> Sound accs (net_reserved c d).
Proof.
  intros Hd. split; [apply net_fair|]. intros e po He _ _. cbn [worth cost net_reserved]. unfold pledge. rewrite Hd.
  destruct (net_reserve accs c e 0 He) as (_ & -> & _). lia.
Qed.

Lemma value_net c j d : value (net_reserved c d) j = sum_of (net c) j.
Proof. unfold value, sum_of. by induction j. Qed.

Lemma sum_net c j : sum_of (net c) j = sum_of (reserving c) j - sum_of (refunding c) j.
Proof. unfold sum_of, net in *. induction j as [|e j IH]; cbn in *; lia. Qed.

(** The engine takes in what the client has pledged, or nothing. *)
Section engine.
Context `{BuildProfile} {Log : Type} `{EventCodec Log}.

Lemma handle_pledged c n (e : Engine Log) cmd env e' reply d :
  engine_inv n (assets e) -> 0 <= n < u32_max -> running e = true -> sent_ok cmd ->
  handle_cmd e cmd env = Return (Continue e' reply) -> promised_reply d cmd = reply -> env_insert env = Ok tt ->
  booked c (assets e') + told_traded c (cmd, reply) <= booked c (assets e) + pledge c d cmd.
Proof.
  intros Hinv Hn Hrun Hcmd Hh Hd Hins. unfold pledge. destruct (is_placed d) eqn:Hp.
  { by eapply handle_booked. }
  revert Hh. unfold handle_cmd. rewrite Hrun. cbn [negb]. destruct cmd as [| | |[po|co]|]; try done.
  - destruct (do_place_order_post n _ po (env_order_uuid env) (proj1 Hinv) Hn Hcmd) as (a' & r & Hr & Hpost).
    destruct Hpost as (_ & _ & _ & Herr & _). unfold try_event_log. rewrite Hr, Hins.
    destruct (place_to_value po); cbn; intros [= <- <-]; cbn; [|lia].
    cbn in Hd. unfold is_placed in Hp. destruct (dr_placed d) as [[res|err]|]; [done| |done].
    injection Hd as <-. rewrite (Herr err eq_refl). cbn. lia.
  - unfold try_event_log. rewrite (do_cancel_order_inv n) by done. rewrite Hins.
    destruct (cancel_to_value co); cbn; intros [= <- <-]; cbn; lia.
Qed.
End engine.

(** ** Clients and their credit *)

Section clients.
Context `{UuidText, Argon2, Hex, IpText, CookieText, SqlxText, Rfc3339, MapOrder, DistinctOrder, Chrono,
  JinjaLaws, BitcoinRpcClientLaws, Schema}.
Context (c : string) (accs : list Account).

(** A client that is promised an order needs no refund, and must not be dropped;
    any other one keeps the credit for its refund, also if it is dropped. *)
#[local] Abbreviation economy d := (journal_economy (negb (is_placed d)) accs (net_reserved c d)).

#[local] Instance fair d : Fair accs (net_reserved c d).
Proof. apply net_fair. Qed.

Definition ends_well (d : Draws) (r : Reply) (n : Z) (v : View) : Prop :=
  if is_placed d then r.2 = None else claims (H := economy d) (option_list r.2) n v.

Lemma ends_well_cases d r n v :
  ends_well d r n v ->
  is_placed d = true /\ r.2 = None \/ is_placed d = false /\ claims (H := economy d) (option_list r.2) n v.
Proof. unfold ends_well. destruct (is_placed d); [by left|by right]. Qed.

Definition client_pays (n : Z) (v : View) (cl : Client) : Prop :=
  let d := c_promise cl in
  0 <= n /\
  match c_thread cl with
  | Request m => pays (H := economy d) (ends_well d) m n v /\ (c_ticket cl = None -> careful (fun _ => True) m)
  | Task m => is_placed d = false /\ pays (H := economy d) (fun _ _ _ => True) m n v
  end.

Lemma serve_pays rq rej d r v : pays (H := economy d) (ends_well d) (serve rq rej d r) 0 v.
Proof.
  unfold ends_well. destruct (is_placed d) eqn:Hp.
  - unfold is_placed in Hp. destruct (dr_placed d) as [[res|]|] eqn:Hd; [|done..].
    by apply (pays_serve_placed (guards := false) (HV := fair d) eq_refl _ _ _ res).
  - pose proof (net_sound accs c d Hp). apply pays_serve.
Qed.

Lemma client_later n v v' cl : journal v.1 `prefix_of` journal v'.1 -> client_pays n v cl -> client_pays n v' cl.
Proof.
  intros Hl [Hn Ht]. split; [done|]. destruct (c_thread cl) as [m|m]; destruct Ht as [Ha Hb].
  - split; [|done]. eapply (pays_later (H0 := journal_economy_laws _ _ _)); [|reflexivity|exact Hl|exact Ha].
    intros r k k' u u' _ Hk Hu. unfold ends_well. destruct (is_placed _); [done|].
    intros Hc. eapply claims_mono; [exact Hk|]. by eapply claims_later.
  - split; [done|]. by eapply (pays_later (H0 := journal_economy_laws _ _ _)); [|reflexivity|exact Hl|exact Hb].
Qed.

Lemma clients_later v v' ns cs :
  journal v.1 `prefix_of` journal v'.1 -> Forall2 (fun n cl => client_pays n v cl) ns cs ->
  Forall2 (fun n cl => client_pays n v' cl) ns cs.
Proof. intros Hl Hcs. eapply Forall2_impl; [exact Hcs|]. intros n cl. by apply client_later. Qed.

(** The tasks that are left behind have the credit they claim. *)
Lemma spawned_clients d k cs n v :
  is_placed d = false -> claims (H := economy d) cs n v ->
  exists ns, Forall2 (fun n cl => client_pays n v cl) ns (mkClient d k <$> spawned cs) /\ sum_credits ns <= n.
Proof.
  intros Hd (qs & Hqs & Hn). exists qs. split; [|done]. unfold spawned. rewrite !Forall2_fmap_r.
  clear Hn. induction Hqs as [|cl q cs qs [Hq Hc] _ IH]; constructor; [|done]. split; [done|]. split; [done|].
  cbn [c_promise]. apply pays_cleanup; [done|]. apply Hc. by rewrite Hd.
Qed.

(** A step of a client, which sends [sent]. *)
Lemma run_client_pays n cl w w' ts sent k :
  db_wf (w_db w) -> accounts (w_db w) = accs -> client_pays n (view w) cl ->
  run_thread (c_thread cl) w = (w', ts) -> w_sent w' = w_sent w ++ sent ->
  (db_wf (w_db w') /\ accounts (w_db w') = accs) /\ journal (w_db w) `prefix_of` journal (w_db w') /\
  exists ns, Forall2 (fun n cl => client_pays n (view w') cl) ns (next_clients cl k sent ts) /\
    sum_credits ns + sum_of (pledge c (c_promise cl)) sent + sum_of (net c) (journal (w_db w)) <=
      n + sum_of (net c) (journal (w_db w')).
Proof.
  intros Hwf Hacc Hcl Hrun Hsent. set (d := c_promise cl).
  assert (forall (n' : Z), n' + slack (Economy := economy d) (view w) <= n + slack (Economy := economy d) (view w') ->
    n' + sum_of (pledge c d) sent + sum_of (net c) (journal (w_db w)) <= n + sum_of (net c) (journal (w_db w'))) as Hslack.
  { intros n'. unfold view. cbn [slack journal_economy fst snd]. rewrite Hsent, load_app, !value_net.
    change (load (net_reserved c d) sent) with (sum_of (pledge c d) sent). lia. }
  assert (w' = w -> sent = []) as Hnone.
  { intros ->. rewrite <- (app_nil_r (w_sent w)) in Hsent at 1. by apply app_inv_head in Hsent. }
  destruct Hcl as [Hn Ht]. unfold next_clients. fold d in Ht |- *. destruct (c_thread cl) as [m|m].
  - destruct Ht as [Hp Hcare]. destruct m as [[[r sp]|why]|dr f]; cbn [run_thread step] in Hrun.
    + injection Hrun as <- <-. rewrite (Hnone eq_refl). split; [done|]. split; [done|].
      destruct (ends_well_cases _ _ _ _ Hp) as [[_ Hsp]|[Hd Hcl]].
      * cbn in Hsp. subst sp. exists []. split; [constructor|]. change (sum_of _ []) with 0. credits.
      * destruct (spawned_clients d (c_ticket cl) _ n (view w) Hd Hcl) as (ns & Hns & Hs). exists ns. split; [done|].
        change (sum_of (pledge c d) []) with 0. lia.
    + injection Hrun as <- <-. rewrite (Hnone eq_refl). split; [done|]. split; [done|]. exists [].
      split; [constructor|]. change (sum_of (pledge c d) []) with 0. credits.
    + destruct Hp as [_ Hf]. specialize (Hf w ltac:(cbn; reflexivity) (conj Hwf Hacc)).
      assert (c_ticket cl = None -> sent = [] -> careful (fun _ => True) (f w).2) as Hc.
      { intros Hk ->. specialize (Hcare Hk). destruct Hcare as [_ Hcare]. specialize (Hcare w). destruct (f w) as [w1 m1].
        injection Hrun as -> _. apply Hcare. by rewrite Hsent, app_nil_r. }
      destruct (f w) as [w1 m1]. injection Hrun as -> <-. destruct Hf as (Hg' & Hl' & n' & Hn' & Hs & Hp).
      split; [exact Hg'|]. split; [exact Hl'|]. exists [n']. split; [|apply Hslack in Hs; credits].
      constructor; [|constructor]. split; [done|]. split; [exact Hp|]. cbn [c_ticket c_thread]. intros Hk.
      apply Hc; by destruct sent.
  - destruct Ht as [Hd Hp]. destruct m as [a|dr f]; cbn [run_thread step] in Hrun.
    + injection Hrun as <- <-. rewrite (Hnone eq_refl). split; [done|]. split; [done|]. exists [].
      split; [constructor|]. change (sum_of (pledge c d) []) with 0. credits.
    + destruct Hp as [_ Hf]. specialize (Hf w ltac:(cbn; reflexivity) (conj Hwf Hacc)).
      destruct (f w) as [w1 m1]. injection Hrun as -> <-. destruct Hf as (Hg' & Hl' & n' & Hn' & Hs & Hp).
      split; [exact Hg'|]. split; [exact Hl'|]. exists [n']. split; [|apply Hslack in Hs; credits].
      constructor; [|constructor]. by split_and!.
Qed.

End clients.

(** ** The invariant of the market *)

Section backing.
Context `{UuidText, Argon2, Hex, IpText, CookieText, SqlxText, Rfc3339, MapOrder, DistinctOrder, Chrono,
  JinjaLaws, BitcoinRpcClientLaws, Schema} `{BuildProfile} {Log : Type} `{EventCodec Log}.
Context (cap : nat) (c : string) (w0 : World) (e0 : Engine Log) (n : Z)
  (Hwf : db_wf (w_db w0)) (Hrun : running e0 = true) (Hinv : engine_inv n (assets e0)) (Hn : 0 <= n)
  (Hsent : w_sent w0 = []).

(** What the orders in the channel will take. *)
Definition pledged (ps : list Draws) (l : list TradingEngineCmd) : Z := sum_of (fun p => pledge c p.1 p.2) (zip ps l).

Lemma pledged_sent ps l d sent :
  length ps = length l -> pledged (ps ++ replicate (length sent) d) (l ++ sent) = pledged ps l + sum_of (pledge c d) sent.
Proof.
  intros Hl. unfold pledged. rewrite zip_with_app, sum_of_app by done. f_equal. clear Hl.
  unfold sum_of. induction sent as [|cmd sent IH]; cbn; [done|]. by rewrite IH.
Qed.

Definition covered (s : Market (Log := Log)) : Prop :=
  let w := m_world s in
  (db_wf (w_db w) /\ accounts (w_db w) = accounts (w_db w0)) /\ journal (w_db w0) `prefix_of` journal (w_db w) /\
  length (m_promised s) = (length (m_handled s) + length (w_sent w))%nat /\
  exists ns, Forall2 (fun n cl => client_pays c (accounts (w_db w0)) n (view w) cl) ns (m_clients s) /\
    sum_credits ns + pledged (drop (length (m_handled s)) (m_promised s)) (w_sent w) +
      (booked c (assets (m_engine s)) - booked c (assets e0) + sum_of (told_traded c) (m_handled s)) +
      sum_of (net c) (journal (w_db w0)) <= sum_of (net c) (journal (w_db w)).

Lemma covered_step s s' :
  orderly_step cap s s' -> at_work n (forget s) -> n + handled (forget s') <= u32_max -> covered s -> covered s'.
Proof using H10 H12 Hn.
  intros (ev & Hev & Hst) (Hr & Hi & Hc & _) Hcount (Hg & Hj & Hlen & ns & Hns & Hsum).
  destruct Hst as [w cs e h ps rq rej d r _|w l cl cs e h ps w' ts sent _ Hrt Hs _|w l d k m cs e h ps|w cs e h ps cmd rest env e' reply d Hs Hh Hd Hp|];
    unfold covered; cbn [m_world m_clients m_engine m_handled m_promised] in *.
  - split; [done|]. split; [done|]. split; [done|]. exists (ns ++ [0]). split; [|credits].
    apply Forall2_app; [done|]. constructor; [|constructor]. split; [done|]. split; [apply serve_pays|]. intros _. apply careful_serve.
  - apply Forall2_app_inv_r in Hns as (ns1 & ns2 & Hl1 & Hcons & ->).
    apply Forall2_cons_inv_r in Hcons as (nc & ns3 & Hcl & Hl3 & ->).
    destruct (run_client_pays c _ nc cl w w' ts sent (length ps) (proj1 Hg) (proj2 Hg) Hcl Hrt Hs)
      as (Hg' & Hj' & new & Hnew & Hpay).
    split; [done|]. split; [by etrans|]. split; [rewrite length_app, length_replicate, Hs, length_app; lia|].
    exists (ns1 ++ new ++ ns3). split.
    + apply Forall2_app; [apply (clients_later c _ (view w)); [exact Hj'|exact Hl1]|].
      apply Forall2_app; [done|apply (clients_later c _ (view w)); [exact Hj'|exact Hl3]].
    + rewrite Hs, drop_app_le by lia. rewrite pledged_sent by (rewrite length_drop; lia). credits.
  - destruct k as [k|]; [done|]. apply Forall2_app_inv_r in Hns as (ns1 & ns2 & Hl1 & Hcons & ->).
    apply Forall2_cons_inv_r in Hcons as (nc & ns3 & [Hnc [_ Hcare]] & Hl3 & ->).
    rewrite (careful_dropped _ _ (Hcare eq_refl)). cbn [spawned fmap list_fmap app].
    split; [done|]. split; [done|]. split; [done|]. exists (ns1 ++ ns3). split; [by apply Forall2_app|credits].
  - destruct (env_insert env) as [[]|] eqn:Hins; [|done]. unfold channel_ok in Hc. cbn in Hr, Hi, Hc.
    rewrite Hs in *. apply Forall_cons in Hc as [Hcmd _]. unfold handled in *. cbn in Hi, Hcount. rewrite length_app in Hcount. cbn in Hcount.
    pose proof (handle_pledged c _ e cmd env e' reply d Hi ltac:(lia) Hr Hcmd Hh Hp Hins) as Hb.
    split; [done|]. split; [done|]. split; [rewrite length_app; cbn in *; lia|]. exists ns. split.
    + apply (clients_later c _ (view w)); [done|exact Hns].
    + rewrite (drop_S _ _ _ Hd) in Hsum. unfold pledged in *. cbn [zip_with] in Hsum.
      change (sum_of ?f ((d, cmd) :: ?l)) with (pledge c d cmd + sum_of f l) in Hsum.
      rewrite length_app, Nat.add_1_r, sum_of_app, sum_of_one. cbn [w_sent set_sent w_db] in *. lia.
  - split; [done|]. split; [done|]. split; [done|]. exists ns. split; [|done].
    apply (clients_later c _ (view w)); [done|exact Hns].
Qed.

Lemma covered_reach s :
  rtc (orderly_step cap) (open_market w0 e0) s -> n + handled (forget s) <= u32_max -> covered s.
Proof using All.
  revert s. refine (rtc_ind_r _ _ _ _); [|intros s s' Hreach Hst IH]; intros Hcount.
  - split; [done|]. split; [done|]. cbn. rewrite Hsent. split; [done|]. exists []. split; [constructor|].
    change (sum_of _ []) with 0. credits.
  - assert (exchange_step cap (forget s) (forget s')) as Hx by (destruct Hst as (ev & _ & Hst); by eapply market_exchange).
    pose proof (handled_mono _ _ _ Hx). apply (covered_step s); [done| |done|apply IH; lia].
    apply (at_work_reach cap n w0 e0); [done|done|unfold channel_ok; by rewrite Hsent|done| |lia].
    exact (orderly_exchange cap (open_market w0 e0) s Hreach).
Qed.

Lemma pledged_pos ps l : 0 <= pledged ps l.
Proof using Type.
  unfold pledged, sum_of, pledge. induction (zip ps l) as [|[d cmd] k IH]; cbn; [done|].
  enough (0 <= if is_placed d then ordered c cmd else 0) by lia.
  destruct (is_placed d), cmd as [| | |[]|]; cbn; try done. apply in_currency_pos. lia.
Qed.
End backing.

Section properties.
Context `{UuidText, Argon2, Hex, IpText, CookieText, SqlxText, Rfc3339, MapOrder, DistinctOrder, Chrono,
  JinjaLaws, BitcoinRpcClientLaws, Schema} `{BuildProfile} {Log : Type} `{EventCodec Log}.

(** C16: orders stay reserved. As long as no request is dropped after it has
    sent its order and every INSERT of the engine succeeds: however requests,
    tasks and engine interleave, and whichever other queries fail, in each
    currency what has been added to the books on the sides reserved in it, and
    what has been traded from them, is covered by reservations that have not been
    taken back. A reservation is taken back only for an order that the engine has
    refused, because the answer that a request waits for is the engine's. (Both
    provisos are needed: [unlogged_order_unbacked], [dropped_order_unbacked].) *)
Theorem orders_stay_reserved cap c n w e s
    (Hwf : db_wf (w_db w)) (Hrun : running e = true) (Hinv : engine_inv n (assets e)) (Hn : 0 <= n)
    (Hsent : w_sent w = []) (Hreach : rtc (orderly_step cap) (open_market w e) s)
    (Hcount : n + Z.of_nat (length (m_handled s)) <= u32_max) :
  exists new, journal (w_db (m_world s)) = journal (w_db w) ++ new /\
    booked c (assets (m_engine s)) - booked c (assets e) + sum_of (told_traded c) (m_handled s) <=
      sum_of (reserving c) new - sum_of (refunding c) new.
Proof.
  destruct (covered_reach cap c w e n Hwf Hrun Hinv Hn Hsent s Hreach Hcount)
    as (_ & [new Hj] & _ & ns & Hns & Hsum).
  exists new. split; [done|]. rewrite Hj, sum_of_app, (sum_net c new) in Hsum.
  pose proof (pledged_pos c (drop (length (m_handled s)) (m_promised s)) (w_sent (m_world s))).
  assert (0 <= sum_credits ns); [|lia]. clear -Hns. induction Hns as [|k cl ns cs [Hk _] _ IH]; credits.
Qed.

(** ** One client after the other *)

Section runs.
Context (P : event -> Prop) (cap : nat) (Harrives : P Arrives) (Hruns : P Runs).
#[local] Abbreviation allowed := (allowed_step (Log := Log) P cap).

(** Steps that send nothing. *)
Lemma quiet_steps {A} (K : prog A -> Thread) k (m : prog A) w d tk (e : Engine Log) h ps j :
  (forall dr f w, run_thread (K (Step dr f)) w = let '(w', m') := f w in (w', [K m'])) ->
  (forall m, answered (mkClient d tk (K m)) h) -> sends j m -> w_sent (steps k m w).1 = w_sent w ->
  rtc allowed (mkMarket w [mkClient d tk (K m)] e h ps)
    (mkMarket (steps k m w).1 [mkClient d tk (K (steps k m w).2)] e h ps).
Proof using Hruns.
  intros HK Ha. revert m w j. induction k as [|k IH]; intros [a|dr f] w j Hm Hs; [done..|exact (IH (Done a) w j I Hs)|].
  pose proof (HK dr f w) as Hr. cbn [steps step sends] in *. specialize (Hm w). destruct (f w) as [w1 m1].
  destruct Hm as (l & Hl & _ & Hm).
  destruct (sends_steps_inv k m1 _ _ w1 _ Hm (surjective_pairing _)) as [_ [l' Hl']]. rewrite Hl', Hl, <- app_assoc in Hs.
  rewrite <- (app_nil_r (w_sent w)) in Hs at 2. apply app_inv_head, app_nil in Hs as [-> ->].
  rewrite app_nil_r in Hl, Hl'. eapply rtc_l; [|apply (IH m1 w1 _ Hm Hl')].
  exists Runs. split; [done|].
  pose proof (m_run cap w [] (mkClient d tk (K (Step dr f))) [] e h ps w1 [K m1] [] (Ha _) Hr) as Hst.
  rewrite !app_nil_r in Hst. apply Hst; [done|by left].
Qed.

Lemma quiet_exec {A} (K : prog A -> Thread) (m : prog A) w d tk (e : Engine Log) h ps j :
  (forall dr f w, run_thread (K (Step dr f)) w = let '(w', m') := f w in (w', [K m'])) ->
  (forall m, answered (mkClient d tk (K m)) h) -> sends j m -> w_sent (exec m w).1 = w_sent w ->
  rtc allowed (mkMarket w [mkClient d tk (K m)] e h ps)
    (mkMarket (exec m w).1 [mkClient d tk (K (Done (exec m w).2))] e h ps).
Proof using Hruns.
  intros HK Ha Hm Hs. destruct (exec_steps m w) as [k Hk].
  pose proof (quiet_steps K k m w d tk e h ps j HK Ha Hm) as Hr. rewrite Hk in Hr. by apply Hr.
Qed.

(** A client that ends, and a task that runs to its end. *)
Lemma client_ends w cl (e : Engine Log) h ps ts :
  answered cl h -> run_thread (c_thread cl) w = (w, ts) ->
  allowed (mkMarket w [cl] e h ps) (mkMarket w (mkClient (c_promise cl) (c_ticket cl) <$> ts) e h ps).
Proof using Hruns.
  intros Ha Hr. exists Runs. split; [done|].
  pose proof (m_run cap w [] cl [] e h ps w ts [] Ha Hr) as Hst. cbn [app replicate length next_clients] in Hst.
  unfold next_clients in Hst. rewrite !app_nil_r in Hst. apply Hst; [done|by left].
Qed.

Lemma cleanup_ends w d tk cl (e : Engine Log) h ps :
  (forall m, answered (mkClient d tk (Task m)) h) ->
  rtc allowed (mkMarket w [mkClient d tk (Task (run_cleanup cl))] e h ps) (mkMarket (exec (run_cleanup cl) w).1 [] e h ps).
Proof using Hruns H10 H12.
  intros Ha. eapply rtc_r; [apply (quiet_exec Task _ _ _ _ _ _ _ 0); [done|exact Ha|apply sends_cleanup|]|].
  - destruct (sends_exec (run_cleanup cl) 0 w (sends_cleanup cl)) as (l & Hl & Hlen). destruct l; [|cbn in Hlen; lia].
    rewrite app_nil_r in Hl. exact Hl.
  - exact (client_ends _ (mkClient d tk (Task (Done (exec (run_cleanup cl) w).2))) e h ps [] (Ha _) eq_refl).
Qed.

(** A request arrives, and sends its order after [a] steps. *)
Lemma order_sent w (e : Engine Log) h ps rq d r a w1 m1 w2 m2 cmd :
  (1 <= cap)%nat -> in_range r -> w_sent w = [] ->
  steps a (serve rq None d r) w = (w1, m1) -> w_sent w1 = [] ->
  pending m1 -> step m1 w1 = (w2, m2) -> w_sent w2 = [cmd] ->
  sends 1 m2 /\
  rtc allowed (mkMarket w [] e h ps) (mkMarket w2 [mkClient d (Some (length ps)) (Request m2)] e h (ps ++ [d])).
Proof using Harrives Hruns H10 H12.
  intros Hcap Hrange Hw Ha Hw1 Hm1 Hst Hw2. pose proof (sends_serve rq None d r) as Hsends. split.
  { destruct (sends_steps_inv a _ _ _ _ _ Hsends Ha) as [Hm _]. by destruct (sends_step_inv _ _ _ _ _ Hm Hst). }
  eapply rtc_l; [exists Arrives; split; [done|by apply (m_arrive cap w [] e h ps rq None d r)]|].
  pose proof (quiet_steps Request a (serve rq None d r) w d None e h ps 1 ltac:(done) ltac:(done) Hsends) as Hr.
  rewrite Ha in Hr. eapply rtc_r; [apply Hr; exact (eq_trans Hw1 (eq_sym Hw))|]. exists Runs. split; [done|].
  apply (m_run cap w1 [] (mkClient d None (Request m1)) [] e h ps w2 [Request m2] [cmd]); [done| |by rewrite Hw1|].
  - destruct m1 as [|dr f]; [done|]. cbn [c_thread run_thread]. by rewrite Hst.
  - right. by rewrite Hw2.
Qed.

(** The engine takes the order of the client that came last. *)
Lemma order_handled w2 cs (e : Engine Log) h ps d cmd env e' reply :
  P (Handles (match env_insert env with Ok _ => true | Err _ => false end)) -> length ps = length h -> w_sent w2 = [cmd] ->
  handle_cmd e cmd env = Return (Continue e' reply) -> promised_reply d cmd = reply ->
  allowed (mkMarket w2 cs e h (ps ++ [d])) (mkMarket (set_sent w2 []) cs e' (h ++ [(cmd, reply)]) (ps ++ [d])).
Proof using Type.
  intros HP Hps Hw2 Hh Hd. eexists. split; [exact HP|]. eapply m_receive; [exact Hw2|exact Hh| |exact Hd].
  by rewrite <- Hps, lookup_app_r, Nat.sub_diag by lia.
Qed.

(** The whole way of an order: to the engine, to the answer, and the task that
    is left. *)
Lemma whole_order w (e : Engine Log) h ps rq d r a w1 m1 w2 m2 cmd env e' reply w3 resp left :
  P (Handles (match env_insert env with Ok _ => true | Err _ => false end)) ->
  (1 <= cap)%nat -> in_range r -> w_sent w = [] -> length ps = length h ->
  steps a (serve rq None d r) w = (w1, m1) -> w_sent w1 = [] ->
  pending m1 -> step m1 w1 = (w2, m2) -> w_sent w2 = [cmd] ->
  handle_cmd e cmd env = Return (Continue e' reply) -> promised_reply d cmd = reply ->
  exec m2 (set_sent w2 []) = (w3, Return (resp, left)) -> w_sent w3 = [] ->
  rtc allowed (mkMarket w [] e h ps)
    (mkMarket (match left with Some c => (exec (run_cleanup c) w3).1 | None => w3 end) [] e' (h ++ [(cmd, reply)]) (ps ++ [d])).
Proof using Harrives Hruns H10 H12.
  intros HP Hcap Hrange Hw Hps Ha Hw1 Hm1 Hst Hw2 Hh Hd Hb Hw3.
  destruct (order_sent w e h ps rq d r a w1 m1 w2 m2 cmd Hcap Hrange Hw Ha Hw1 Hm1 Hst Hw2) as [Hm Hsent].
  assert (forall t, answered (mkClient d (Some (length ps)) t) (h ++ [(cmd, reply)])) as Hans.
  { intros t. cbn. rewrite length_app. cbn. lia. }
  etrans; [exact Hsent|]. eapply rtc_l; [by eapply order_handled|]. etrans.
  { pose proof (quiet_exec Request m2 (set_sent w2 []) d (Some (length ps)) e' (h ++ [(cmd, reply)]) (ps ++ [d]) 1
      ltac:(done) ltac:(done) Hm) as Hr. rewrite Hb in Hr. by apply Hr. }
  eapply rtc_l; [apply client_ends; [done|reflexivity]|].
  destruct left as [cl|]; [|done]. by apply cleanup_ends.
Qed.
End runs.
End properties.

(** ** A concrete run: one order rests, one is refused and refunded *)

Section witnesses.
#[local] Existing Instances decimal_uuid_text decimal_uuid_text_laws plain_argon2 no_ips whole_seconds table_order.
#[local] Existing Instances demo_hex demo_cookie demo_sqlx demo_rfc3339 demo_map_order demo_jinja demo_node.
#[local] Existing Instances before_0007 debug_profile.

Definition demo_kill : TradeAddOrder := mkTradeAddOrder Buy Limit 40 100 FillOrKill DecreaseCancel.
Definition told (r : result PlaceOrderResult TradingEngineError) : Draws := mkDraws (Some r) None "salt" 9%N [].

(** The request with its seventh step, the send, to come; after it; and at its
    end, when the engine has taken the order. *)
Definition demo_life (r : result PlaceOrderResult TradingEngineError) (body : TradeAddOrder) (w : World) :
    (World * prog Reply) * (World * prog Reply) * (World * outcome Reply) :=
  let s1 := steps 6 (serve (demo_request "12") None (told r) (PostTradeOrder "btc" body)) w in
  let s2 := step s1.2 s1.1 in (s1, s2, exec s2.2 (set_sent s2.1 [])).

Definition demo_kill_cmd : TradingEngineCmd :=
  Trade (CmdPlaceOrder (PlaceOrder_new Bitcoin 7%N 100 40 Limit DecreaseCancel FillOrKill Buy)).
Definition demo_refusal : result PlaceOrderResult TradingEngineError := Err (PlaceOrderFailed FillOrKillFailed).
Definition engine_after (e : Engine Json) (cmd : TradingEngineCmd) : Engine Json :=
  match handle_cmd e cmd demo_bid_env with Return (Continue e' _) => e' | _ => e end.

Definition demo_after_bid : World := (demo_life (Ok demo_report) demo_order demo_trader).2.1.
Definition demo_after_kill : World :=
  let '(w, r) := (demo_life demo_refusal demo_kill demo_after_bid).2 in
  match r with Return (_, Some cl) => (exec (run_cleanup cl) w).1 | _ => w end.

Definition demo_market : Market :=
  mkMarket demo_after_kill [] (engine_after demo_rested demo_kill_cmd)
    [(Trade (CmdPlaceOrder demo_bid), Some (PlaceReply (Ok demo_report))); (demo_kill_cmd, Some (PlaceReply demo_refusal))]
    [told (Ok demo_report); told demo_refusal].

Lemma demo_market_run : rtc (orderly_step 1) (open_market demo_trader demo_idle) demo_market.
Proof.
  etrans.
  - set (l := demo_life (Ok demo_report) demo_order demo_trader).
    apply (whole_order (H10 := demo_jinja_laws) (H12 := demo_client_laws [demo_deposit "t2" 70]) harmless 1 I I demo_trader demo_idle [] []
      (demo_request "12") (told (Ok demo_report)) (PostTradeOrder "btc" demo_order) 6 l.1.1.1 l.1.1.2 l.1.2.1 l.1.2.2
      (Trade (CmdPlaceOrder demo_bid)) demo_bid_env demo_rested (Some (PlaceReply (Ok demo_report)))
      demo_after_bid (order_placed 11%N) None).
    all: try exact I; try (vm_compute; reflexivity). split; unfold_nz; cbn; lia.
  - set (l := demo_life demo_refusal demo_kill demo_after_bid).
    apply (whole_order (H10 := demo_jinja_laws) (H12 := demo_client_laws [demo_deposit "t2" 70]) harmless 1 I I demo_after_bid demo_rested
      [_] [_] (demo_request "12") (told demo_refusal) (PostTradeOrder "btc" demo_kill) 6 l.1.1.1 l.1.1.2 l.1.2.1 l.1.2.2
      demo_kill_cmd demo_bid_env (engine_after demo_rested demo_kill_cmd) (Some (PlaceReply demo_refusal))
      l.2.1 (internal_server_error "failed to place order") (Some (SpawnRevert (mkReserveOk 4 60 (Some 20))))).
    all: try exact I; try (vm_compute; reflexivity). split; unfold_nz; cbn; lia.
Qed.

Lemma orders_stay_reserved_witness :
  booked "USD" (assets (m_engine demo_market)) = 40 /\
  exists new, journal (w_db demo_after_kill) = journal (w_db demo_trader) ++ new /\ length new = 3%nat /\
    40 <= sum_of (reserving "USD") new - sum_of (refunding "USD") new.
Proof.
  assert (booked "USD" (assets (m_engine demo_market)) = 40) as Hb by (vm_compute; reflexivity). split; [exact Hb|].
  destruct (orders_stay_reserved (H10 := demo_jinja_laws) (H12 := demo_client_laws [demo_deposit "t2" 70])
    1 "USD" 0 demo_trader demo_idle demo_market (demo_db_wf 100 0 ltac:(lia) ltac:(lia)) eq_refl engine_inv_new
    ltac:(reflexivity) eq_refl demo_market_run ltac:(vm_compute; discriminate)) as (new & Hj & Hle).
  exists new. split; [exact Hj|]. split.
  - apply (f_equal length) in Hj. rewrite length_app in Hj.
    change (length (journal (w_db (m_world demo_market)))) with 4%nat in Hj.
    change (length (journal (w_db demo_trader))) with 1%nat in Hj. lia.
  - rewrite Hb in Hle. change (40 - 0 + 0 <= sum_of (reserving "USD") new - sum_of (refunding "USD") new) in Hle. lia.
Defined.

(** Both provisos are needed. If the INSERT fails, the order rests in the book
    and its reservation is taken back; if the client hangs up while it waits, so
    it does, whatever the engine answers. *)
Definition demo_unlogged : result PlaceOrderResult TradingEngineError := Err (Database OtherError).

Definition demo_lost (w : World) : Market :=
  mkMarket w [] demo_rested [(Trade (CmdPlaceOrder demo_bid), Some (PlaceReply (Ok demo_report)))] [told (Ok demo_report)].

Definition unbacked (s : Market (Log := Json)) : Prop :=
  exists new, journal (w_db (m_world s)) = journal (w_db demo_trader) ++ new /\
    booked "USD" (assets (m_engine s)) = 40 /\ sum_of (reserving "USD") new - sum_of (refunding "USD") new = 0.

Lemma unlogged_order_unbacked :
  exists s, rtc (allowed_step (fun ev => ev <> HangsUp true) 1) (open_market demo_trader demo_idle) s /\ unbacked s.
Proof.
  set (l := demo_life demo_unlogged demo_order demo_trader).
  set (env := mkCmdEnv 11%N (Err OtherError)).
  pose (e' := match handle_cmd demo_idle (Trade (CmdPlaceOrder demo_bid)) env with
              | Return (Continue e _) => e | _ => demo_idle end).
  eexists. split.
  - apply (whole_order (H10 := demo_jinja_laws) (H12 := demo_client_laws [demo_deposit "t2" 70])
      (fun ev => ev <> HangsUp true) 1 ltac:(done) ltac:(done) demo_trader demo_idle [] []
      (demo_request "12") (told demo_unlogged) (PostTradeOrder "btc" demo_order) 6 l.1.1.1 l.1.1.2 l.1.2.1 l.1.2.2
      (Trade (CmdPlaceOrder demo_bid)) env e' (Some (PlaceReply demo_unlogged))
      l.2.1 (internal_server_error "failed to place order") (Some (SpawnRevert (mkReserveOk 3 100 (Some 60))))).
    all: first [exact I|vm_compute; reflexivity|split; unfold_nz; cbn; lia|discriminate].
  - eexists. split; [vm_compute; reflexivity|]. split; vm_compute; reflexivity.
Qed.

Lemma dropped_order_unbacked :
  exists s, rtc (allowed_step (fun ev => ev <> Handles false) 1) (open_market demo_trader demo_idle) s /\ unbacked s.
Proof.
  set (l := demo_life (Ok demo_report) demo_order demo_trader). set (cl := SpawnRevert (mkReserveOk 3 100 (Some 60))).
  set (P := fun ev => ev <> Handles false).
  exists (demo_lost (set_sent (exec (run_cleanup cl) l.1.2.1).1 [])). split.
  - destruct (order_sent (H10 := demo_jinja_laws) (H12 := demo_client_laws [demo_deposit "t2" 70]) P 1 ltac:(done) ltac:(done)
      demo_trader demo_idle [] [] (demo_request "12") (told (Ok demo_report)) (PostTradeOrder "btc" demo_order) 6
      l.1.1.1 l.1.1.2 l.1.2.1 l.1.2.2 (Trade (CmdPlaceOrder demo_bid))) as [_ Hsent].
    1-8: first [exact I|vm_compute; reflexivity|split; unfold_nz; cbn; lia].
    etrans; [exact Hsent|]. eapply rtc_l.
    { exists (HangsUp true). split; [done|].
      exact (m_drop 1 l.1.2.1 [] (told (Ok demo_report)) (Some 0%nat) l.1.2.2 [] demo_idle [] [told (Ok demo_report)]). }
    assert (dropped l.1.2.2 = [cl]) as -> by (vm_compute; reflexivity). cbn [spawned fmap list_fmap app].
    eapply rtc_r; [apply (cleanup_ends (H10 := demo_jinja_laws) (H12 := demo_client_laws [demo_deposit "t2" 70])); done|].
    apply (order_handled P 1 _ [] demo_idle [] [] (told (Ok demo_report)) (Trade (CmdPlaceOrder demo_bid)) demo_bid_env demo_rested).
    all: first [done|vm_compute; reflexivity].
  - eexists. split; [vm_compute; reflexivity|]. split; vm_compute; reflexivity.
Qed.
End witnesses.
