(* ===== verification/Progress.v ===== *)
(** * The exchange comes to rest

    A request sends one command at most ([Sends]), and the engine works off what
    is in the channel. So when no new requests come, what is under way comes to
    its end - also through a channel that holds one command only, where senders
    wait for the engine. *)

From S2P Require Import Prelude Asset Orderbook PendingFill TryFill MatchSpec Trading Json Codec Accounting Tables World.
From S2P Require Import Http AppCx UserCx BitcoinClient Deposits Auth Handlers Server Sends Engine Exchange.

Section progress.
Context `{UuidText, Argon2, Hex, IpText, CookieText, SqlxText, Rfc3339, MapOrder, DistinctOrder, Chrono,
  JinjaLaws, BitcoinRpcClientLaws, Schema} `{BuildProfile} {Log : Type} `{EventCodec Log}.
Context {cap : nat}.

Lemma exchange_step_sends (s s' : Exchange (Log := Log)) :
  exchange_step cap s s' -> Forall thread_sends (x_threads s) -> Forall thread_sends (x_threads s').
Proof. by destruct 1 as [w ts w' ts' e h Hs| |]; [apply (thread_step_sends _ _ Hs)|..]. Qed.

(** [s'] comes after [s], at work, with an empty channel and [k] commands more
    handled at most. *)
Definition calms (n k : Z) (s s' : Exchange (Log := Log)) : Prop :=
  rtc (exchange_step cap) s s' /\ at_work n s' /\ w_sent (x_world s') = [] /\ handled s' <= handled s + k.

Lemma calms_refl n k s : 0 <= k -> at_work n s -> w_sent (x_world s) = [] -> calms n k s s.
Proof. intros Hk Hs Hw. split; [done|]. split; [done|]. split; [done|lia]. Qed.

Lemma calms_trans n k k' s1 s2 s3 : calms n k s1 s2 -> calms n k' s2 s3 -> calms n (k + k') s1 s3.
Proof. intros (? & _ & _ & ?) (? & ? & ? & ?). split; [by etrans|]. split; [done|]. split; [done|lia]. Qed.

(** The engine takes one command after the other. *)
Lemma engine_drains (env : CmdEnv) n l (s : Exchange (Log := Log)) :
  at_work n s -> 0 <= n -> w_sent (x_world s) = l -> n + handled s + Z.of_nat (length l) <= u32_max ->
  exists s', calms n (Z.of_nat (length l)) s s' /\ x_threads s' = x_threads s.
Proof.
  revert s. induction l as [|cmd l IH]; intros s Hs Hn Hl Hcount.
  { exists s. split; [|done]. by apply calms_refl. }
  pose proof Hs as (Hrun & Hinv & Hc & _). unfold channel_ok in Hc. rewrite Hl in Hc.
  apply Forall_cons in Hc as [Hcmd _]. cbn [length] in Hcount.
  assert (0 <= handled s) by (unfold handled; lia).
  destruct (handle_sent _ (x_engine s) cmd env Hinv ltac:(lia) Hrun Hcmd) as (e' & r & Hh & _).
  destruct s as [w ts e h]. cbn [x_engine x_world x_threads] in *.
  set (s1 := mkExchange (set_sent w l) ts e' (h ++ [(cmd, Some r)])).
  assert (exchange_step cap (mkExchange w ts e h) s1) as Hst by (by apply x_receive with env).
  assert (handled s1 = handled (mkExchange w ts e h) + 1) as Hone.
  { unfold handled. cbn. rewrite length_app. cbn. lia. }
  destruct (IH s1) as (s' & (Hr & Hs' & Hsent & Hh') & Hts); [|done|done|rewrite Hone; lia|].
  { eapply at_work_step; [exact Hst|done|rewrite Hone; lia|exact Hs]. }
  exists s'. split; [|done]. split; [by eapply rtc_l|]. split; [done|]. split; [done|]. cbn [length]. lia.
Qed.

(** A step that sends [l] to the empty channel, and the engine after it. *)
Lemma step_drains n w ts e h w1 ts1 l :
  at_work n (mkExchange w ts e h) -> 0 <= n -> w_sent w = [] -> thread_step (w, ts) (w1, ts1) ->
  w_sent w1 = l -> (length l <= cap)%nat -> n + Z.of_nat (length h + length l) <= u32_max ->
  exists w2 e2 h2, calms n (Z.of_nat (length l)) (mkExchange w ts e h) (mkExchange w2 ts1 e2 h2).
Proof.
  intros Hs Hn Hw Hst Hl Hcap Hcount. set (s1 := mkExchange w1 ts1 e h).
  assert (exchange_step cap (mkExchange w ts e h) s1) as Hx.
  { apply x_serve; [done|]. right. by rewrite Hl. }
  assert (at_work n s1) as Hs1.
  { eapply at_work_step; [exact Hx|done| |exact Hs]. unfold handled. cbn. lia. }
  destruct (engine_drains (mkCmdEnv 0%N (Ok tt)) n l s1 Hs1 Hn Hl) as ([w2 ts2 e2 h2] & (Hr & Hs2 & Hsent & Hh) & Hts).
  { unfold handled. cbn. lia. }
  cbn in Hts. subst ts2. exists w2, e2, h2. split; [by eapply rtc_l|]. done.
Qed.

(** The head of the threads, a request or a task, runs to its end. *)
Lemma prog_ends {A} (K : prog A -> Thread) n ts :
  (forall d f w, run_thread (K (Step d f)) w = let '(w', m') := f w in (w', [K m'])) -> 0 <= n ->
  forall m k w e h, sends k m -> (k <= cap)%nat -> at_work n (mkExchange w (K m :: ts) e h) -> w_sent w = [] ->
    n + Z.of_nat (length h + k) <= u32_max ->
    exists a w' e' h', calms n (Z.of_nat k) (mkExchange w (K m :: ts) e h) (mkExchange w' (K (Done a) :: ts) e' h').
Proof.
  intros HK Hn. fix IH 1. intros [a|d f] k w e h Hm Hk Hs Hw Hcount.
  { exists a, w, e, h. apply calms_refl; [lia|done..]. }
  pose proof (thr_run w [] (K (Step d f)) ts (f w).1 [K (f w).2]) as Hst. rewrite HK in Hst.
  specialize (Hst ltac:(by destruct (f w))). cbn in Hm. specialize (Hm w).
  destruct (f w) as [w1 m1]. destruct Hm as (l & Hl & Hlen & Hm). rewrite Hw in Hl. cbn [app fst snd] in *.
  destruct (step_drains n _ _ _ _ _ _ l Hs Hn Hw Hst Hl ltac:(lia) ltac:(lia)) as (w2 & e2 & h2 & Hc).
  pose proof Hc as (_ & Hs2 & Hw2 & Hh). unfold handled in Hh. cbn in Hw2, Hh.
  destruct (IH m1 (k - length l)%nat w2 e2 h2 Hm ltac:(lia) Hs2 Hw2 ltac:(lia)) as (a & w3 & e3 & h3 & Hc3).
  exists a, w3, e3, h3. replace (Z.of_nat k) with (Z.of_nat (length l) + Z.of_nat (k - length l)) by lia.
  by eapply calms_trans.
Qed.

(** A thread that is done leaves nothing, or the task it has spawned. *)
Lemma done_ends n t ts w e h ts' :
  run_thread t w = (w, ts') -> 0 <= n -> at_work n (mkExchange w (t :: ts) e h) -> w_sent w = [] ->
  n + Z.of_nat (length h) <= u32_max ->
  exists w2 e2 h2, calms n 0 (mkExchange w (t :: ts) e h) (mkExchange w2 (ts' ++ ts) e2 h2).
Proof.
  intros Hr Hn Hs Hw Hcount. apply (step_drains n w (t :: ts) e h w (ts' ++ ts) []); try done; [|cbn; lia|cbn; lia].
  exact (thr_run w [] t ts w ts' Hr).
Qed.

Lemma task_ends n ts m w e h :
  sends 0 m -> 0 <= n -> at_work n (mkExchange w (Task m :: ts) e h) -> w_sent w = [] ->
  n + Z.of_nat (length h) <= u32_max ->
  exists w' e' h', calms n 0 (mkExchange w (Task m :: ts) e h) (mkExchange w' ts e' h').
Proof.
  intros Hm Hn Hs Hw Hcount.
  destruct (prog_ends Task n ts ltac:(done) Hn m 0 w e h Hm ltac:(lia) Hs Hw ltac:(lia)) as (a & w1 & e1 & h1 & Hc).
  pose proof Hc as (_ & Hs1 & Hw1 & Hh). unfold handled in Hh. cbn in Hw1, Hh.
  destruct (done_ends n (Task (Done a)) ts w1 e1 h1 [] eq_refl Hn Hs1 Hw1 ltac:(lia)) as (w2 & e2 & h2 & Hc2).
  exists w2, e2, h2. exact (calms_trans _ _ _ _ _ _ Hc Hc2).
Qed.

Lemma request_ends n ts m w e h :
  (1 <= cap)%nat -> sends 1 m -> 0 <= n -> at_work n (mkExchange w (Request m :: ts) e h) -> w_sent w = [] ->
  n + Z.of_nat (length h) + 1 <= u32_max ->
  exists w' e' h', calms n 1 (mkExchange w (Request m :: ts) e h) (mkExchange w' ts e' h').
Proof.
  intros Hcap Hm Hn Hs Hw Hcount.
  destruct (prog_ends Request n ts ltac:(done) Hn m 1 w e h Hm Hcap Hs Hw ltac:(lia)) as (a & w1 & e1 & h1 & Hc).
  pose proof Hc as (_ & Hs1 & Hw1 & Hh). unfold handled in Hh. cbn in Hw1, Hh. change (Z.of_nat 1) with 1 in Hh.
  set (left := match a with Return (_, c) => spawned (option_list c) | Panic _ => [] end).
  destruct (done_ends n (Request (Done a)) ts w1 e1 h1 left) as (w2 & e2 & h2 & Hc2);
    [by destruct a as [[]|]|done|done|done|lia|].
  assert (exists w3 e3 h3, calms n 0 (mkExchange w2 (left ++ ts) e2 h2) (mkExchange w3 ts e3 h3)) as (w3 & e3 & h3 & Hc3).
  { pose proof Hc2 as (_ & Hs2 & Hw2 & Hh2). unfold handled in Hh2. cbn in Hw2, Hh2.
    destruct a as [[r [c|]]|why]; cbn in left.
    - apply task_ends; [apply sends_cleanup|done..|lia].
    - exists w2, e2, h2. by apply calms_refl.
    - exists w2, e2, h2. by apply calms_refl. }
  exists w3, e3, h3. exact (calms_trans _ _ _ _ _ _ Hc (calms_trans _ _ _ _ _ _ Hc2 Hc3)).
Qed.

Lemma threads_end n ts w e h :
  (1 <= cap)%nat -> Forall thread_sends ts -> 0 <= n -> at_work n (mkExchange w ts e h) -> w_sent w = [] ->
  n + Z.of_nat (length h + length ts) <= u32_max ->
  exists w' e' h', calms n (Z.of_nat (length ts)) (mkExchange w ts e h) (mkExchange w' [] e' h').
Proof.
  intros Hcap. revert w e h. induction ts as [|t ts IH]; intros w e h Hts Hn Hs Hw Hcount.
  { exists w, e, h. by apply calms_refl. }
  apply Forall_cons in Hts as [Ht Hts]. cbn [length] in Hcount.
  assert (exists w1 e1 h1, calms n 1 (mkExchange w (t :: ts) e h) (mkExchange w1 ts e1 h1)) as (w1 & e1 & h1 & Hc).
  { destruct t as [m|m]; [apply request_ends; [done..|lia]|].
    destruct (task_ends n ts m w e h Ht Hn Hs Hw ltac:(lia)) as (w1 & e1 & h1 & (? & ? & ? & ?)).
    exists w1, e1, h1. split; [done|]. split; [done|]. split; [done|lia]. }
  pose proof Hc as (_ & Hs1 & Hw1 & Hh). unfold handled in Hh. cbn in Hw1, Hh.
  destruct (IH w1 e1 h1 Hts Hn Hs1 Hw1 ltac:(lia)) as (w2 & e2 & h2 & Hc2). exists w2, e2, h2.
  replace (Z.of_nat (length (t :: ts))) with (1 + Z.of_nat (length ts)) by (cbn; lia). by eapply calms_trans.
Qed.

(** C17: the exchange comes to rest. From every state it can reach - however
    many requests are under way and wherever they are, also if they wait for
    room in the channel - there is a way on to a state in which every request
    and every task has come to its end, the channel is empty and the engine
    waits, running, with good books: no request sends more than one command, and
    none that a running engine does not work off. *)
Theorem exchange_quiesces n w e s
    (Hcap : (1 <= cap)%nat) (Hrun : running e = true) (Hinv : engine_inv n (assets e)) (Hn : 0 <= n) (Hsent : channel_ok w)
    (Hreach : rtc (exchange_step cap) (start w e) s)
    (Hcount : n + handled s + Z.of_nat (length (w_sent (x_world s)) + length (x_threads s)) <= u32_max) :
  exists s', rtc (exchange_step cap) s s' /\ x_threads s' = [] /\ w_sent (x_world s') = [] /\
    running (x_engine s') = true /\ engine_inv (n + handled s') (assets (x_engine s')) /\
    handled s' <= handled s + Z.of_nat (length (w_sent (x_world s)) + length (x_threads s)).
Proof.
  assert (Forall thread_sends (x_threads s)) as Hts.
  { revert Hreach. clear -H10 H12. revert s. refine (rtc_ind_r _ _ _ _); [constructor|].
    intros s s' _ Hst Hts. by eapply exchange_step_sends. }
  pose proof (at_work_reach cap n w e s Hrun Hinv Hsent Hn Hreach ltac:(lia)) as Hs.
  destruct (engine_drains (mkCmdEnv 0%N (Ok tt)) n _ s Hs Hn eq_refl ltac:(lia)) as ([w1 ts1 e1 h1] & Hc1 & Heq).
  cbn in Heq. rewrite <- Heq in *. pose proof Hc1 as (_ & Hs1 & Hw1 & Hh1). unfold handled in *. cbn in Hw1, Hh1.
  destruct (threads_end n ts1 w1 e1 h1 Hcap Hts Hn Hs1 Hw1 ltac:(lia)) as (w2 & e2 & h2 & Hc2).
  destruct (calms_trans _ _ _ _ _ _ Hc1 Hc2) as (Hr & (Hrun' & Hinv' & _) & Hw & Hh). exists (mkExchange w2 [] e2 h2).
  split; [exact Hr|]. split; [done|]. split; [exact Hw|]. split; [exact Hrun'|]. split; [exact Hinv'|].
  unfold handled in Hh. cbn in Hh |- *. lia.
Qed.
End progress.

(** ** A concrete state: an order in the channel, its request waiting *)

Section witnesses.
#[local] Existing Instances decimal_uuid_text decimal_uuid_text_laws plain_argon2 no_ips whole_seconds table_order.
#[local] Existing Instances demo_hex demo_cookie demo_sqlx demo_rfc3339 demo_map_order demo_jinja demo_node.
#[local] Existing Instances before_0007 debug_profile.

Lemma exchange_quiesces_witness :
  length (w_sent demo_waiting.1) = 1%nat /\
  exists s', rtc (exchange_step 1) (mkExchange demo_waiting.1 [Request demo_waiting.2] demo_idle []) s' /\
    x_threads s' = [] /\ w_sent (x_world s') = [] /\ handled s' <= 2.
Proof.
  split; [vm_compute; reflexivity|].
  destruct (exchange_quiesces (H10 := demo_jinja_laws) (H12 := demo_client_laws [demo_deposit "t2" 70]) (cap := 1) 0
    demo_trader demo_idle _ ltac:(lia) eq_refl engine_inv_new ltac:(reflexivity) demo_trader_sent demo_arrival
    ltac:(vm_compute; discriminate)) as (s' & Hr & Hts & Hsent & _ & _ & Hh).
  exists s'. split; [exact Hr|]. split; [exact Hts|]. split; [exact Hsent|].
  assert (length (w_sent demo_waiting.1) = 1%nat) as Hl by (vm_compute; reflexivity).
  cbn [x_world x_threads length] in Hh. rewrite Hl in Hh. exact Hh.
Defined.
End witnesses.
