(* ===== verification/Cli.v ===== *)
(** * The command line of the bitcoin node
    (src/exchange/src/bin/bitcoind-cli.rs).

    A command is one call of the node's client ([RpcMethods]), whose result is
    printed as JSON; every failure is a panic. The parsing of the command line,
    the texts of addresses, hashes and out points, the result types of the
    client and the layout of the printed JSON belong to crates and are
    parameters. *)

From S2P Require Import Prelude Json Rpc RpcMethods.

Inductive Command : Type :=
| GetNetworkinfo
| LoadWallet (wallet : string)
| ListWallets
| ListTransactions (label : string) (count : Z)
| GetWalletInfo
| DumpPrivkey (address : string)
| EncryptWallet (passphrase : string)
| GetDifficulty
| GetConnectioncount
| GetBlock (blockhash : string)
| GetBlockheader (blockhash : string)
| GetMiningInfo
| GetBlockchainInfo
| GetBlockCount
| GetBestBlockHash
| GetBlockHash (height : Z)
| GetBlockFilter (blockhash : string)
| GetBalances
| SetLabel (address label : string)
| LockUnspent (unlock : bool) (outputs : list string)
| TestMempoolAccept (rawtxs : list string)
| Stop
| GetAddressInfo (address : string)
| Generate (nblocks : Z) (maxtries : option Z)
| InvalidateBlock (blockhash : string)
| ReconsiderBlock (blockhash : string)
| GetRawmempool
| GetMempoolEntry (txid : string)
| GetPeerinfo
| Ping
| SendRawTransaction (hexstring : string)
| WaitForNewBlock
| GetDescriptorInfo (desc : string)
| CombinePsbt (txs : list string)
| GetTxOutsetInfo
| GetNetTotals
| Uptime
| ScanTxOutset.

(** [str::parse] of a type of the crates. *)
Class FromStr (T : Type) : Type := parse : string -> option T.

(** A digit of a hexadecimal text: lower case. *)
Definition hex_digit (n : nat) : Ascii.ascii := Ascii.ascii_of_nat (if (n <? 10)%nat then 48 + n else 87 + n).

(** [ToHex for [u8]], of the bytes of a string: for each its two digits. *)
Class ToHex : Type := to_hex : string -> string.
Class ToHexLaws `{ToHex} : Prop := {
  to_hex_nil : to_hex EmptyString = EmptyString;
  to_hex_cons c s : to_hex (String c s) =
    String (hex_digit (Ascii.nat_of_ascii c / 16)) (String (hex_digit (Ascii.nat_of_ascii c mod 16)) (to_hex s)) }.

(** [&[u8]] and [String] as raw transactions. *)
Record Bytes : Type := as_bytes { bytes_of : string }.
#[export] Instance bytes_raw_tx `{ToHex} : RawTx Bytes := fun b => to_hex (bytes_of b).
#[export] Instance string_raw_tx : RawTx string := fun s => s.

(** ** Calling the client *)

Section calls.
Context `{RpcErrors}.

#[export] Instance unit_serialize : Serialize unit := fun _ => Ok JNull.

(** [.await.unwrap()] *)
Fixpoint unwrap {A} (m : rpc A) : rpc A :=
  match m with
  | Done (Ok a) => Done (Ok a)
  | Done (Err _) => Panicked "called `Result::unwrap()` on an `Err` value"
  | Panicked why => Panicked why
  | Request cmd args k => Request cmd args (fun r => unwrap (k r))
  end.

(** [.parse().unwrap()], [serde_json::from_str(..).unwrap()] *)
Definition parsed {A} (o : option A) : rpc A :=
  match o with Some a => mret a | None => Panicked "called `Result::unwrap()` on an `Err` value" end.

Context (to_string_pretty : Json -> string).

(** [serde_json::to_string_pretty(&t).unwrap()] *)
Definition pretty_text `{!Serialize T} (t : T) : rpc string :=
  match to_json t with
  | Ok v => mret (to_string_pretty v)
  | Err _ => Panicked "called `Result::unwrap()` on an `Err` value"
  end.

Definition show `{!Serialize T} (call : rpc T) : rpc string :=
  t ← unwrap call;
  pretty_text t.
End calls.

(** The result types of the client, by their names. *)
Class ResultTypes `{RpcErrors} : Type := {
  type_of : string -> Type;
  #[global] type_deserialize name :: Deserialize (type_of name);
  #[global] type_serialize name :: Serialize (type_of name) }.

(** ** The commands *)

Section cli.
Context `{RpcErrors, !ResultTypes, ToHex} (to_string_pretty : Json -> string).
Context {F64 Address BlockHash Txid PrivateKey : Type}
  `{!ToString Address, !ToString BlockHash, !ToString Txid}
  `{!FromStr Address, !FromStr BlockHash, !FromStr Txid, !FromStr (Txid * Z)}
  `{!Serialize F64, !Serialize BlockHash, !Serialize Txid, !Serialize PrivateKey}
  `{!Deserialize F64, !Deserialize BlockHash, !Deserialize Txid, !Deserialize PrivateKey}.
Context {Bip9SoftforkStatus Bip9SoftforkStatistics : Type}
  `{!Deserialize Bip9SoftforkStatus, !Deserialize Bip9SoftforkStatistics}
  (is_active : Bip9SoftforkStatus -> bool)
  (softforks_insert : string -> Softfork Bip9SoftforkStatus Bip9SoftforkStatistics ->
     type_of "GetBlockchainInfoResult" -> type_of "GetBlockchainInfoResult").

(** [print m] is what the command prints of the result of a call. *)
#[local] Abbreviation print := (show to_string_pretty).
#[local] Abbreviation R name := (type_of name).

Fixpoint parse_outputs (outputs : list string) : rpc (list (Txid * Z)) :=
  match outputs with
  | [] => mret []
  | o :: outputs' =>
      o ← parsed (parse o);
      os ← parse_outputs outputs';
      mret (o :: os)
  end.

(** The [match command] of [main], up to the [println!]. *)
Definition dispatch (command : Command) : rpc string :=
  match command with
  | GetNetworkinfo => print (get_network_info (GetNetworkInfoResult := R "GetNetworkInfoResult"))
  | ListTransactions label count =>
      print (list_transactions (ListTransactionResult := R "ListTransactionResult") (Some label) (Some count) None None)
  | LoadWallet wallet => print (load_wallet (LoadWalletResult := R "LoadWalletResult") wallet)
  | ListWallets => print list_wallets
  | GetWalletInfo => print (get_wallet_info (GetWalletInfoResult := R "GetWalletInfoResult"))
  | DumpPrivkey address =>
      address ← parsed (parse (T := Address) address);
      print (dump_private_key (PrivateKey := PrivateKey) address)
  | EncryptWallet passphrase => print (encrypt_wallet passphrase)
  | GetDifficulty => print (get_difficulty (F64 := F64))
  | GetConnectioncount => print get_connection_count
  | GetBlock blockhash =>
      h ← parsed (parse (T := BlockHash) blockhash);
      print (get_block_info (GetBlockResult := R "GetBlockResult") h)
  | GetBlockheader blockhash => Panicked "not yet implemented"
  | GetMiningInfo => print (get_mining_info (GetMiningInfoResult := R "GetMiningInfoResult"))
  | GetBlockchainInfo => print (get_blockchain_info is_active softforks_insert)
  | GetBlockCount => print get_block_count
  | GetBestBlockHash => print (get_best_block_hash (BlockHash := BlockHash))
  | GetBlockHash height => print (get_block_hash (BlockHash := BlockHash) height)
  | GetBlockFilter blockhash =>
      h ← parsed (parse (T := BlockHash) blockhash);
      print (get_block_filter (GetBlockFilterResult := R "GetBlockFilterResult") h)
  | GetBalances => print (get_balances (GetBalancesResult := R "GetBalancesResult"))
  | SetLabel address label =>
      address ← parsed (parse (T := Address) address);
      print (set_label address label)
  | LockUnspent unlock outputs =>
      outputs ← parse_outputs outputs;
      if (unlock : bool) then print (unlock_unspent outputs) else print (lock_unspent outputs)
  | TestMempoolAccept rawtxs =>
      print (test_mempool_accept (TestMempoolAcceptResult := R "TestMempoolAcceptResult") rawtxs)
  | Stop => print stop
  | GetAddressInfo address =>
      address ← parsed (parse (T := Address) address);
      print (get_address_info (GetAddressInfoResult := R "GetAddressInfoResult") address)
  | Generate nblocks maxtries => print (generate (BlockHash := BlockHash) nblocks maxtries)
  | InvalidateBlock blockhash =>
      h ← parsed (parse (T := BlockHash) blockhash);
      print (invalidate_block h)
  | ReconsiderBlock blockhash =>
      h ← parsed (parse (T := BlockHash) blockhash);
      print (reconsider_block h)
  | GetRawmempool => print (get_raw_mempool (Txid := Txid))
  | GetMempoolEntry txid =>
      txid ← parsed (parse (T := Txid) txid);
      print (get_mempool_entry (GetMempoolEntryResult := R "GetMempoolEntryResult") txid)
  | GetPeerinfo => print (get_peer_info (GetPeerInfoResult := R "GetPeerInfoResult"))
  | Ping =>
      _ ← unwrap ping;
      mret (to_string_pretty JNull)
  | SendRawTransaction hexstring => print (send_raw_transaction (Txid := Txid) (as_bytes hexstring))
  | WaitForNewBlock => print (wait_for_new_block (BlockRef := R "BlockRef") 1000)
  | GetDescriptorInfo desc =>
      print (get_descriptor_info (GetDescriptorInfoResult := R "GetDescriptorInfoResult") desc)
  | CombinePsbt txs => print (combine_psbt txs)
  | GetTxOutsetInfo => print (get_tx_out_set_info (GetTxOutSetInfoResult := R "GetTxOutSetInfoResult"))
  | GetNetTotals => print (get_net_totals (GetNetTotalsResult := R "GetNetTotalsResult"))
  | Uptime => print uptime
  | ScanTxOutset =>
      print (scan_tx_out_set_blocking (ScanTxOutRequest := string) (ScanTxOutResult := R "ScanTxOutResult") [])
  end.

(** ** What each command is for *)

(** Hashes are written as their text. *)
Class HashLaws : Prop := {
  blockhash_json (h : BlockHash) : to_json h = Ok (JString (to_str h));
  txid_json (t : Txid) : to_json t = Ok (JString (to_str t)) }.

(** A text that is read and written back as it was. *)
Definition round_trips (T : Type) `{FromStr T, !ToString T} (st : string) : Prop :=
  exists t : T, parse st = Some t /\ to_str t = st.

(** The arguments of a command are what they should be. *)
Definition well_formed (command : Command) : Prop :=
  match command with
  | DumpPrivkey a | SetLabel a _ | GetAddressInfo a => round_trips Address a
  | GetBlock h | GetBlockFilter h | InvalidateBlock h | ReconsiderBlock h => round_trips BlockHash h
  | GetMempoolEntry txid => round_trips Txid txid
  | LockUnspent _ outputs => Forall (fun o => is_Some (parse (T := Txid * Z) o)) outputs
  | _ => True
  end.

(** An argument that is not a text of its type. *)
Definition unreadable (command : Command) : Prop :=
  match command with
  | DumpPrivkey a | SetLabel a _ | GetAddressInfo a => parse (T := Address) a = None
  | GetBlock h | GetBlockFilter h | InvalidateBlock h | ReconsiderBlock h => parse (T := BlockHash) h = None
  | GetMempoolEntry txid => parse (T := Txid) txid = None
  | LockUnspent _ outputs => Exists (fun o => parse (T := Txid * Z) o = None) outputs
  | _ => False
  end.

(** An output as the node expects it. *)
Definition outpoint_json (st : string) : Json :=
  match parse (T := Txid * Z) st with
  | Some (txid, vout) => JObject [("txid", JString (to_str txid)); ("vout", JNumber vout)]
  | None => JNull
  end.

(** The call of the node that a command is named after. *)
Definition node_call (command : Command) : string * list Json :=
  match command with
  | GetNetworkinfo => ("getnetworkinfo", [])
  | LoadWallet wallet => ("loadwallet", [JString wallet])
  | ListWallets => ("listwallets", [])
  | ListTransactions label count => ("listtransactions", [JString label; JNumber count])
  | GetWalletInfo => ("getwalletinfo", [])
  | DumpPrivkey address => ("dumpprivkey", [JString address])
  | EncryptWallet passphrase => ("encryptwallet", [JString passphrase])
  | GetDifficulty => ("getdifficulty", [])
  | GetConnectioncount => ("getconnectioncount", [])
  | GetBlock blockhash => ("getblock", [JString blockhash; JNumber 1])
  | GetBlockheader blockhash => ("getblockheader", [JString blockhash])
  | GetMiningInfo => ("getmininginfo", [])
  | GetBlockchainInfo => ("getblockchaininfo", [])
  | GetBlockCount => ("getblockcount", [])
  | GetBestBlockHash => ("getbestblockhash", [])
  | GetBlockHash height => ("getblockhash", [JNumber height])
  | GetBlockFilter blockhash => ("getblockfilter", [JString blockhash])
  | GetBalances => ("getbalances", [])
  | SetLabel address label => ("setlabel", [JString address; JString label])
  | LockUnspent unlock outputs => ("lockunspent", [JBool unlock; JArray (outpoint_json <$> outputs)])
  | TestMempoolAccept rawtxs => ("testmempoolaccept", [JArray (JString <$> rawtxs)])
  | Stop => ("stop", [])
  | GetAddressInfo address => ("getaddressinfo", [JString address])
  | Generate nblocks maxtries => ("generate", [JNumber nblocks; from_option JNumber JNull maxtries])
  | InvalidateBlock blockhash => ("invalidateblock", [JString blockhash])
  | ReconsiderBlock blockhash => ("reconsiderblock", [JString blockhash])
  | GetRawmempool => ("getrawmempool", [])
  | GetMempoolEntry txid => ("getmempoolentry", [JString txid])
  | GetPeerinfo => ("getpeerinfo", [])
  | Ping => ("ping", [])
  | SendRawTransaction hexstring => ("sendrawtransaction", [JString hexstring])
  | WaitForNewBlock => ("waitfornewblock", [JNumber 1000])
  | GetDescriptorInfo desc => ("getdescriptorinfo", [JString desc])
  | CombinePsbt txs => ("combinepsbt", [JArray (JString <$> txs)])
  | GetTxOutsetInfo => ("gettxoutsetinfo", [])
  | GetNetTotals => ("getnettotals", [])
  | Uptime => ("uptime", [])
  | ScanTxOutset => ("scantxoutset", [JString "start"; JArray []])
  end.

(** How the node reads a hexadecimal text: two digits, of either case, for a
    byte. *)
Definition hex_value (c : Ascii.ascii) : option nat :=
  let n := Ascii.nat_of_ascii c in
  if ((48 <=? n) && (n <=? 57))%nat then Some (n - 48)%nat
  else if ((97 <=? n) && (n <=? 102))%nat then Some (n - 87)%nat
  else if ((65 <=? n) && (n <=? 70))%nat then Some (n - 55)%nat
  else None.
Fixpoint hex_decode (st : string) : option string :=
  match st with
  | EmptyString => Some EmptyString
  | String a (String b st') =>
      x ← hex_value a; y ← hex_value b; r ← hex_decode st';
      Some (String (Ascii.ascii_of_nat (16 * x + y)) r)
  | _ => None
  end.

Lemma hex_digits c :
  hex_value (hex_digit (Ascii.nat_of_ascii c / 16)) = Some (Ascii.nat_of_ascii c / 16)%nat /\
  hex_value (hex_digit (Ascii.nat_of_ascii c mod 16)) = Some (Ascii.nat_of_ascii c mod 16)%nat.
Proof. destruct c as [[] [] [] [] [] [] [] []]; split; reflexivity. Qed.

Lemma hex_decode_to_hex `{!ToHexLaws} st : hex_decode (to_hex st) = Some st.
Proof.
  induction st as [|c st IH]; [by rewrite to_hex_nil|]. rewrite to_hex_cons. cbn [hex_decode].
  destruct (hex_digits c) as [-> ->]. cbn [mbind option_bind]. rewrite IH. cbn [mbind option_bind].
  by rewrite <- Nat.div_mod_eq, Ascii.ascii_nat_embedding.
Qed.

Lemma hex_decode_length st bytes :
  hex_decode st = Some bytes -> String.length st = (2 * String.length bytes)%nat.
Proof.
  revert st bytes. fix IH 1. intros [|a [|b st]] bytes Hd; cbn [hex_decode] in Hd.
  - by injection Hd as <-.
  - discriminate.
  - destruct (hex_value a) as [x|]; [|discriminate]. destruct (hex_value b) as [y|]; [|discriminate].
    cbn in Hd. destruct (hex_decode st) as [r|] eqn:Hr; [|discriminate]. injection Hd as <-.
    cbn. rewrite (IH st r Hr). lia.
Qed.

(** ** Calls, seen from the outside *)

(** A program that has asked all it asks. *)
Definition local {A} (m : rpc A) : Prop :=
  match m with Request _ _ _ => False | _ => True end.

Lemma local_bind {A B} (m : rpc A) (f : A -> rpc B) : local m -> (forall a, local (f a)) -> local (m ≫= f).
Proof. destruct m as [[a|e]|why|]; cbn; auto. Qed.

Lemma local_unwrap {A} (m : rpc A) : local m -> local (unwrap m).
Proof. by destruct m as [[a|e]|why|]. Qed.

Lemma local_lift_json {A} (r : result A JsonError) : local (lift_json r).
Proof. by destruct r. Qed.

Lemma local_ok_or {A} (o : option A) e : local (ok_or o e).
Proof. by destruct o. Qed.

Lemma local_pretty_text `{!Serialize T} (t : T) : local (pretty_text to_string_pretty t).
Proof. unfold pretty_text. by destruct (to_json t). Qed.

(** A program that asks [call] and no more, and panics on an error. *)
Definition asks_once (m : rpc string) (call : string * list Json) : Prop :=
  exists k, m = Request call.1 call.2 k /\
    (forall e, exists why, k (Err e) = Panicked why) /\
    (forall v, local (k (Ok v))).

Lemma asks_once_request `{!Serialize T, !Deserialize T} cmd args :
  asks_once (print (send_request (T := T) cmd args)) (cmd, args).
Proof.
  eexists. split; [reflexivity|]. split; [intros e; by eexists|].
  intros v. cbn. destruct (from_json v); cbn; [apply local_pretty_text|done].
Qed.

Lemma list_json_strings (l : list string) : to_json l = Ok (JArray (JString <$> l)).
Proof.
  unfold to_json, list_serialize.
  assert (result_map_list to_json l = Ok (JString <$> l)) as ->; [|done].
  induction l as [|st l IH]; [done|]. cbn. change (JString <$> l) with (map JString l) in IH. by rewrite IH.
Qed.

Lemma parse_outputs_ok `{!HashLaws} outputs :
  Forall (fun o => is_Some (parse (T := Txid * Z) o)) outputs ->
  exists os, parse_outputs outputs = Done (Ok os) /\ json_out_points os = Done (Ok (outpoint_json <$> outputs)).
Proof.
  induction 1 as [|o outputs [[txid vout] Ho] _ (os & Hos & Hjs)]; [by exists []|].
  exists ((txid, vout) :: os). cbn. unfold outpoint_json at 1. rewrite Ho. cbn. rewrite Hos. cbn.
  split; [done|]. unfold json_out_point. cbn. rewrite txid_json. cbn.
  change (outpoint_json <$> outputs) with (map outpoint_json outputs) in Hjs. by rewrite Hjs.
Qed.

Lemma local_add_old_softforks sfs ret : local (add_old_softforks softforks_insert sfs ret).
Proof.
  revert ret. induction sfs as [|sf sfs IH]; intros ret; cbn; [done|].
  repeat (apply local_bind; [apply local_ok_or|intros]). apply IH.
Qed.

Lemma local_add_bip9_softforks sfs ret : local (add_bip9_softforks is_active softforks_insert sfs ret).
Proof.
  revert ret. induction sfs as [|[id sf] sfs IH]; intros ret; cbn; [done|].
  apply local_bind; [|intros; apply IH]. unfold old_bip9_softfork.
  repeat (apply local_bind; [apply local_lift_json|intros]). done.
Qed.

(** [get_blockchain_info] asks for the version of the node, too. *)
Lemma blockchain_info_asks :
  exists k k', print (get_blockchain_info is_active softforks_insert) = Request "getblockchaininfo" [] k /\
    (forall e, exists why, k (Err e) = Panicked why) /\
    (forall v, k (Ok v) = Request "getnetworkinfo" [] (k' v)) /\
    forall v r, local (k' v r).
Proof.
  do 2 eexists. split; [reflexivity|]. split; [intros e; by eexists|]. split; [intros v; reflexivity|].
  intros v [w|e]; [|done]. cbn. apply local_bind; [|intros; apply local_pretty_text]. apply local_unwrap.
  apply local_bind; [by destruct (field_from "version" w)|].
  intros ver. destruct (ver <? 190000); [|apply local_lift_json].
  apply local_bind; [apply local_ok_or|intros map].
  destruct (map_remove "bip9_softforks" map) as [bip9 map1]. apply local_bind; [apply local_ok_or|intros].
  destruct (map_remove "softforks" map1) as [old map2].
  repeat (apply local_bind; [first [apply local_ok_or|apply local_lift_json|apply local_add_old_softforks]|intros]).
  apply local_add_bip9_softforks.
Qed.

Lemma hex_decode_self st : hex_decode st = Some st -> st = EmptyString.
Proof. intros Hd%hex_decode_length. destruct st; [done|cbn in Hd; lia]. Qed.

Lemma parse_outputs_panics outputs :
  Exists (fun o => parse (T := Txid * Z) o = None) outputs -> exists why, parse_outputs outputs = Panicked why.
Proof.
  induction 1 as [o outputs Ho|o outputs _ [why Hw]]; cbn [parse_outputs]; [rewrite Ho; by eexists|].
  destruct (parse o) as [out|]; cbn; [rewrite Hw|]; by eexists.
Qed.

Lemma unreadable_panics command : unreadable command -> exists why, dispatch command = Panicked why.
Proof.
  destruct command; cbn [unreadable dispatch]; try done; try (intros ->; by eexists).
  intros [why ->]%parse_outputs_panics. by eexists.
Qed.

(** ** Properties *)

(** C36: a command does what its name says. With well-formed arguments it asks
    the node exactly the call of that name with the arguments as they were
    typed, once, and an error of the node is a panic; with an address, hash or
    output that cannot be read it panics before it asks anything. Three commands
    are different. [GetBlockchainInfo] makes two calls: it asks for the node's
    version as well. [GetBlockheader] is not written and panics. And
    [SendRawTransaction] takes the typed digits for the bytes of the transaction
    and encodes them again: what the node reads are the digits, and never, unless
    nothing was typed, the transaction they stand for. *)
Theorem command_asks_node `{!ToHexLaws, !HashLaws} command :
  (well_formed command ->
   match command with
   | GetBlockheader _ => dispatch command = Panicked "not yet implemented"
   | GetBlockchainInfo => exists k k',
       dispatch command = Request "getblockchaininfo" [] k /\
       (forall e, exists why, k (Err e) = Panicked why) /\
       (forall v, k (Ok v) = Request "getnetworkinfo" [] (k' v)) /\
       forall v r, local (k' v r)
   | SendRawTransaction typed => exists sent,
       asks_once (dispatch command) ("sendrawtransaction", [JString sent]) /\
       hex_decode sent = Some typed /\
       forall tx, hex_decode typed = Some tx -> hex_decode sent = Some tx -> typed = EmptyString
   | _ => asks_once (dispatch command) (node_call command)
   end) /\
  (unreadable command -> exists why, dispatch command = Panicked why).
Proof.
  split; [intros Hwf|by apply unreadable_panics].
  destruct command; try (destruct Hwf as (t & Hp & <-)); cbn [dispatch node_call]; try exact (asks_once_request _ _).
  all: try (rewrite Hp; cbn [parsed]; change (mret t ≫= ?f) with (f t); cbv beta).
  all: unfold get_block_info, get_block_filter, invalidate_block, reconsider_block, get_mempool_entry, into_json.
  all: rewrite ?blockhash_json, ?txid_json; try exact (asks_once_request _ _).
  - done.
  - apply blockchain_info_asks.
  - destruct (parse_outputs_ok outputs Hwf) as (os & -> & Hjs).
    change (Done (Ok os) ≫= ?f) with (f os). cbv beta. unfold unlock_unspent, lock_unspent. rewrite Hjs.
    destruct unlock; exact (asks_once_request _ _).
  - destruct maxtries; exact (asks_once_request _ _).
  - eexists. split; [reflexivity|]. split; [intros e; by eexists|].
    intros v. cbn. by destruct v.
  - exists (to_hex hexstring). split; [exact (asks_once_request _ _)|]. rewrite hex_decode_to_hex.
    split; [done|]. intros tx Htx [= <-]. by apply hex_decode_self.
  - unfold combine_psbt, into_json. rewrite list_json_strings. exact (asks_once_request _ _).
Qed.
End cli.

(** ** Concrete types *)

Section witnesses.
#[local] Existing Instances demo_errors string_raw_tx.

Fixpoint hex_of (st : string) : string :=
  match st with
  | EmptyString => EmptyString
  | String c st' => String (hex_digit (Ascii.nat_of_ascii c / 16)) (String (hex_digit (Ascii.nat_of_ascii c mod 16)) (hex_of st'))
  end.
#[local] Instance demo_hex : ToHex := hex_of.

Lemma demo_hex_laws : ToHexLaws.
Proof. by split. Qed.

#[local] Instance demo_types : ResultTypes :=
  {| type_of _ := Json; type_deserialize _ := Json_deserialize; type_serialize _ := fun j => Ok j |}.
#[local] Instance demo_text : ToString string := fun st => st.
#[local] Instance demo_parse : FromStr string := Some.
#[local] Instance demo_outpoint : FromStr (string * Z) := fun st => Some (st, 0).

Definition demo_dispatch : Command -> rpc string :=
  dispatch (fun _ => "") (F64 := Z) (Address := string) (BlockHash := string) (Txid := string) (PrivateKey := string)
    (Bip9SoftforkStatus := bool) (Bip9SoftforkStatistics := bool) (fun b => b) (fun _ _ ret => ret).

Lemma demo_hash_laws : HashLaws (BlockHash := string) (Txid := string).
Proof. by split. Qed.

(** A transaction of four bytes is typed in eight digits, and the node reads
    eight bytes; an address that is asked about is sent as it is. *)
Lemma command_asks_node_witness :
  (exists sent, (run (demo_dispatch (SendRawTransaction "0200ffab")) [Err tt]).1 =
     [("sendrawtransaction", [JString sent])] /\ hex_decode sent = Some "0200ffab") /\
  run (demo_dispatch (SetLabel "bc1" "cold")) [] = ([("setlabel", [JString "bc1"; JString "cold"])], None).
Proof.
  pose proof demo_hex_laws. pose proof demo_hash_laws. split.
  - destruct (command_asks_node (fun _ => "") (F64 := Z) (Address := string) (PrivateKey := string)
      (fun b : bool => b) (fun _ (_ : Softfork bool bool) ret => ret) (SendRawTransaction "0200ffab"))
      as [Hwf _]. destruct (Hwf I) as (sent & (k & Hk & Herr & _) & Hread & _).
    exists sent. split; [|exact Hread]. unfold demo_dispatch. rewrite Hk.
    destruct (Herr tt) as [why Hw]. cbn in Hw |- *. by rewrite Hw.
  - destruct (command_asks_node (fun _ => "") (F64 := Z) (Address := string) (PrivateKey := string)
      (fun b : bool => b) (fun _ (_ : Softfork bool bool) ret => ret) (SetLabel "bc1" "cold"))
      as [Hwf _]. destruct Hwf as (k & Hk & _); [by exists "bc1"|].
    unfold demo_dispatch. rewrite Hk. reflexivity.
Defined.
End witnesses.
