(* ===== verification/DepositPath.v ===== *)
(** * From the node to the journal

    The parts a deposit passes through, put together: the import of the
    application context ([Deposits]) calls its client ([BitcoinClient]), which
    calls the proxy ([Proxy]), which asks the node ([RpcMethods]). Nothing here
    translates code; the interface the import was proved against is implemented
    by the proxy's program. What the node answers may depend on the moment it is
    asked. *)

From S2P Require Import Prelude Json Rpc RpcMethods Accounting Tables World UserCx Codec.
From S2P Require BitcoinClient Proxy.
From S2P Require Import Deposits.

Import BitcoinClient (BitcoinRpcClient, BitcoinRpcClientLaws, F64, f64_as_i64, Status, mkStatus, Unknown,
  client_get_new_address, client_list_transactions, inner_client, Grpc, pt_txid, pt_amount).
Import Proxy (ToFloat, ToFloatLaws, to_float_in_satoshi, to_float_exact, AddressType, ListTransactionResult,
  lr_amount, lr_txid, proto_transaction).

Section path.
Context `{RpcErrors, ToFloat} {Address BlockHash Txid : Type}
  `{!ToString Address, !ToString BlockHash, !ToString Txid,
    !Serialize AddressType, !Deserialize Address, !Deserialize (ListTransactionResult BlockHash Txid Address)}.

#[local] Abbreviation Listed := (ListTransactionResult BlockHash Txid Address).

(** ** The client, connected *)

(** A program of requests against a node that answers. *)
Fixpoint ask {A} (answer : string -> list Json -> result Json JsonRpcError) (m : rpc A) :
    outcome (result A Error) :=
  match m with
  | Rpc.Done r => Return r
  | Panicked why => Panic why
  | Request cmd args k => ask answer (k (answer cmd args))
  end.

(** What the caller is told when the proxy's handler panics, and the node. *)
Context (lost : Status) (node : World -> string -> list Json -> result Json JsonRpcError).

Definition remote {R} (m : rpc (result R Status)) : prog (result R Status) :=
  atomically (fun w => (w, match ask (node w) m with Return (Ok r) => r | _ => Err lost end)).

#[export] Instance proxied : BitcoinRpcClient :=
  inner_client (Grpc (fun r => remote (Proxy.get_new_address (Address := Address) r))
                     (fun r => remote (Proxy.list_transactions (BlockHash := BlockHash) (Txid := Txid)
                                         (Address := Address) r))).

#[export] Instance proxied_laws : BitcoinRpcClientLaws.
Proof. split; intros r; by apply guar_atomically. Qed.

(** ** In satoshis *)

(** The transactions an answer of the node lists. *)
Definition listing (r : result Json JsonRpcError) : option (list Listed) :=
  match r with
  | Ok v => match from_json v with Ok l => Some l | Err _ => None end
  | Err _ => None
  end.

Definition entered (es : list JournalEntry) (t : Listed) : Prop :=
  Exists (fun e => txid e = Some (to_str (lr_txid t))) es.

#[export] Instance entered_dec es t : Decision (entered es t).
Proof. unfold entered. apply _. Defined.

(** Those not entered before for the two accounts. *)
Definition new_listed (db : Db) (u b : Z) (l : list Listed) : list Listed :=
  filter (fun t => ~ entered (deposit_entries db u b) t) l.

(** All of them are payments with an id, none twice, none in the journal. *)
Definition acceptable (j : list JournalEntry) (l : list Listed) : Prop :=
  Forall (fun t => 0 < lr_amount t /\ to_str (lr_txid t) <> "" /\ ~ entered j t) l /\
  NoDup ((fun t => to_str (lr_txid t)) <$> l).

#[export] Instance acceptable_dec j l : Decision (acceptable j l).
Proof. unfold acceptable. apply _. Defined.

Definition satoshis (l : list Listed) : Z := foldr Z.add 0 (lr_amount <$> l).

(** No more than all bitcoin there can be. *)
Definition in_supply (t : Listed) : Prop := Z.abs (lr_amount t) <= 21000000 * 100000000.

(** ** The messages say the same *)

Lemma proto_amount `{!ToFloatLaws} t : in_supply t -> f64_as_i64 (pt_amount (proto_transaction t)) = lr_amount t.
Proof.
  unfold in_supply. intros Ht. cbn. rewrite to_float_exact by lia. apply BitcoinClient.whole_f64_as_i64. lia.
Qed.

Lemma new_transactions_proto db u b l :
  new_transactions db u b (proto_transaction <$> l) = proto_transaction <$> new_listed db u b l.
Proof.
  unfold new_transactions, new_listed. induction l as [|t l IH]; [done|].
  rewrite fmap_cons, !filter_cons, IH. cbn [pt_txid proto_transaction].
  pose proof (tx_journal_map_lookup (deposit_entries db u b) (to_str (lr_txid t))) as Hk.
  fold (entered (deposit_entries db u b) t) in Hk.
  case_decide; case_decide; [done|tauto|tauto|done].
Qed.

Lemma importable_proto `{!ToFloatLaws} j l :
  Forall in_supply l -> importable j (proto_transaction <$> l) <-> acceptable j l.
Proof.
  intros Hl. unfold importable, acceptable, entered. rewrite Forall_fmap, <- list_fmap_compose.
  apply and_iff_compat_r. rewrite !Forall_forall in *. split; intros Hi t Ht; specialize (Hi t Ht);
    cbn [compose] in *; rewrite proto_amount in * by auto; exact Hi.
Qed.

Lemma deposited_proto `{!ToFloatLaws} l : Forall in_supply l -> deposited (proto_transaction <$> l) = satoshis l.
Proof.
  induction 1 as [|t l Ht _ IH]; [done|]. unfold deposited, satoshis in *. cbn [fmap list_fmap foldr].
  rewrite proto_amount by done. cbn [fmap list_fmap] in IH. by rewrite IH.
Qed.

(** ** The call *)

Lemma ask_caught_bind {A B} answer (m : rpc A) (k : result A Error -> rpc B) :
  ask answer (Proxy.caught m ≫= k) =
    match ask answer m with Return r => ask answer (k r) | Panic why => Panic why end.
Proof. induction m as [[a|e]|why|cmd args k' IH]; [done..|]. cbn. apply IH. Qed.

(** The import's call, in one step: the request for the user's label reaches
    the node, and the listing comes back as messages, or not at all. *)
Lemma exec_list_transactions w label :
  exec (client_list_transactions (BitcoinClient.mkListTransactionsRequest (Some label) None None None)) w =
    (w, Return match listing (node w "listtransactions" [JString label]) with
               | Some l => Ok (BitcoinClient.mkListTransactionsResponse (proto_transaction <$> l))
               | None => Err lost
               end).
Proof.
  cbn [client_list_transactions proxied inner_client BitcoinClient.list_transactions]. unfold remote.
  rewrite exec_atomically. cbn [fst snd]. unfold Proxy.list_transactions. rewrite ask_caught_bind. cbn.
  unfold listing. destruct (node w "listtransactions" [JString label]) as [v|e]; cbn; [|done].
  by destruct (from_json v).
Qed.

(** A listing that does not come back: nothing has been done. *)
Lemma exec_import_lost `{UuidText} w user a b :
  w_faults w = [] -> head (user_btc_accounts (w_db w) user) = Some a -> head (btc_accounts (w_db w)) = Some b ->
  listing (node w "listtransactions" [JString (uuid_to_string user)]) = None ->
  exists why, exec (update_user_accounts (H := all_migrations) user) w = (w, Panic why).
Proof.
  intros Hf Hu Hb Hl. destruct (head_Some _ _ Hu) as [la Hla], (head_Some _ _ Hb) as [lb Hlb].
  unfold update_user_accounts, check_bitcoind, begin_tx, fallible.
  rewrite !exec_bind, exec_atomically, pop_fault_none by done. cbn [fst snd].
  rewrite exec_bind, exec_tx_select by done. rewrite Hlb. cbn [fetch_one aborts].
  rewrite exec_bind, exec_tx_select by done. rewrite Hla. cbn [fetch_one aborts].
  rewrite exec_bind, exec_tx_select by done. cbn [aborts]. cbv zeta.
  rewrite exec_bind. unfold deposit_request. rewrite exec_list_transactions, Hl. by eexists.
Qed.

(** ** Properties *)

(** C28: a deposit reaches the wallet. With the proxy between the exchange and
    its node, an import adds to the user's account exactly the satoshis of the
    transactions that the node lists under the user's label and that have not
    been entered before, and takes them from the account of the chain - if all
    of them are payments with an id, none of them twice, and otherwise nothing.
    If the node reports an error or cannot be understood, the import panics
    before it has changed anything. *)
Theorem deposits_reach_wallet `{UuidText, !ToFloatLaws} w user a b
    (Hwf : db_wf (w_db w)) (Hf : w_faults w = [])
    (Hu : head (user_btc_accounts (w_db w) user) = Some a) (Hb : head (btc_accounts (w_db w)) = Some b) :
  match listing (node w "listtransactions" [JString (uuid_to_string user)]) with
  | None => exists why, exec (update_user_accounts (H := all_migrations) user) w = (w, Panic why)
  | Some l =>
      let fresh := new_listed (w_db w) (acc_id a) (acc_id b) l in
      let received := if decide (acceptable (journal (w_db w)) fresh) then satoshis fresh else 0 in
      Forall in_supply l ->
      exists w1, exec (update_user_accounts (H := all_migrations) user) w = (w1, Return tt) /\
        accounts (w_db w1) = accounts (w_db w) /\ w_tables w1 = w_tables w /\
        forall id, balance_of id (journal (w_db w1)) = balance_of id (journal (w_db w)) +
          (if id =? acc_id a then received else if id =? acc_id b then - received else 0)
  end.
Proof.
  destruct (listing _) as [l|] eqn:Hl; [|by eapply exec_import_lost].
  intros fresh received Hsup.
  assert (deposit_setup w user a b (proto_transaction <$> l)) as Hs.
  { split; try done. unfold deposit_request. by rewrite exec_list_transactions, Hl. }
  destruct (dsu_accounts Hs) as (_ & _ & Hne). destruct (exec_import Hs) as (n & _ & He).
  assert (Forall in_supply fresh) as Hfresh by by apply Forall_filter_sub.
  rewrite new_transactions_proto in He. fold fresh in He.
  eexists. split; [exact He|]. cbn [w_db set_db accounts journal]. split_and!; [done|done|]. intros id.
  pose proof (importable_proto (journal (w_db w)) fresh Hfresh) as Hi. subst received.
  case_bool_decide; case_decide; [|tauto|tauto|].
  - by rewrite deposit_rows_balance, deposited_proto.
  - rewrite app_nil_r. destruct (id =? acc_id a), (id =? acc_id b); lia.
Qed.
End path.

(** ** A concrete node *)

Section witnesses.
#[local] Existing Instances demo_errors decimal_uuid_text Proxy.exact_floats Proxy.same_text.

(** A listed transaction, from its txid and amount. *)
#[local] Instance demo_listed_deserialize : Deserialize (ListTransactionResult string string string) := fun j =>
  match field "txid" j, field "amount" j with
  | Some (JString txid), Some (JNumber sat) =>
      Ok (Proxy.mkListTransactionResult 6 None None None None txid 0 0 Proxy.No None Proxy.Receive sat None 0
            None None None)
  | _, _ => Err invalid_type
  end.
#[local] Instance demo_type_serialize : Serialize AddressType := fun _ => Ok JNull.

Definition demo_payment (txid : string) (sat : Z) : Json :=
  JObject [("txid", JString txid); ("amount", JNumber sat)].

Definition demo_node (payments : list Json) (w : World) (cmd : string) (args : list Json) : result Json unit :=
  if String.eqb cmd "listtransactions" && bool_decide (length args = 1%nat) then Ok (JArray payments) else Err tt.

Definition demo_proxied (payments : list Json) : BitcoinRpcClient :=
  proxied (Address := string) (BlockHash := string) (Txid := string) (mkStatus Unknown "") (demo_node payments).

(** The journal has "t1". A new payment is credited; with an outgoing one beside
    it, it is not; and of an answer that cannot be read nothing comes. *)
Lemma deposits_reach_wallet_witness :
  (exists w1, exec (update_user_accounts (H := all_migrations)
       (H1 := demo_proxied [demo_payment "t1" 500; demo_payment "t2" 70]) 7%N) demo_chain = (w1, Return tt) /\
     balance_of 3 (journal (w_db w1)) = 570) /\
  (exists w1, exec (update_user_accounts (H := all_migrations)
       (H1 := demo_proxied [demo_payment "t2" 70; demo_payment "t3" (-20)]) 7%N) demo_chain = (w1, Return tt) /\
     balance_of 3 (journal (w_db w1)) = 500) /\
  exists why, exec (update_user_accounts (H := all_migrations) (H1 := demo_proxied [JNull]) 7%N) demo_chain =
    (demo_chain, Panic why).
Proof.
  pose proof Proxy.exact_floats_laws as Hx. pose proof (dsu_wf _ _ _ _ _ (demo_chain_setup [])) as Hwf.
  pose proof (fun payments => deposits_reach_wallet (Address := string) (BlockHash := string)
    (Txid := string) (mkStatus Unknown "") (demo_node payments) demo_chain 7%N demo_wallet demo_btc
    Hwf eq_refl eq_refl eq_refl) as Hp.
  split_and!.
  - destruct (Hp [demo_payment "t1" 500; demo_payment "t2" 70]) as (w1 & He & _ & _ & Hb);
      [by repeat constructor|].
    exists w1. split; [exact He|]. rewrite Hb. vm_compute. reflexivity.
  - destruct (Hp [demo_payment "t2" 70; demo_payment "t3" (-20)]) as (w1 & He & _ & _ & Hb);
      [by repeat constructor|].
    exists w1. split; [exact He|]. rewrite Hb. vm_compute. reflexivity.
  - exact (Hp [JNull]).
Defined.
End witnesses.
