(* ===== verification/OrderPath.v ===== *)
(** * The way of an order: from the request to the book and back

    The parts put together, for one client at a time: the session check
    ([Auth]), the handler and the reservation ([AppCx], [Accounting]), the
    engine ([Engine], [Trading]), its log, and the answer. What the engine
    replies is what the request is given. *)

From S2P Require Import Prelude Asset Orderbook PendingFill TryFill MatchSpec Trading Json Codec Accounting Tables World.
From S2P Require Import Http AppCx UserCx BitcoinClient Deposits Auth Handlers Server Engine Reservations Exchange Answers.

(** The order a body asks for. *)
Definition order_of (asset : Asset) (user : Uuid) (body : TradeAddOrder) : PlaceOrder :=
  PlaceOrder_new asset user (ta_price body) (ta_quantity body) (ta_order_type body) (ta_stp body)
    (ta_time_in_force body) (ta_side body).

Section path.
Context `{UuidText} {user : Uuid} {a x : Account}.

(** A world that is ready for an order of a user with the funds for it. *)
Record order_ready (w : World) (cur : string) (q : Z) : Prop := {
  or_faults : w_faults w = [];
  or_state : w_te_state w = Running;
  or_open : w_open w = true;
  or_setup : reserve_setup (w_db w) (uuid_to_string user) cur a x q;
  or_funds : q <= balance_of (acc_id a) (journal (w_db w)) }.

Definition reserved_world (w : World) (cur : string) (q : Z) (cmd : TradingEngineCmd) : World :=
  set_sent (set_db w (@reserved_db (w_db w) cur a x q)) (w_sent w ++ [cmd]).

Lemma exec_place_order w asset body :
  order_ready w (side_currency asset (ta_side body)) (ta_quantity body) ->
  exists r, row_id r = next_tx_id (w_db w) /\
    exec (place_order (H := before_0007) asset user body) w =
      (reserved_world w (side_currency asset (ta_side body)) (ta_quantity body)
         (Trade (CmdPlaceOrder (order_of asset user body))), Return (Ok r)).
Proof.
  intros [Hf Hst Ho Hs Hb]. pose proof (rs_quantity _ _ _ _ _ _ Hs) as Hq.
  pose proof (setup_range w _ Hs) as [Hlo Hb']. destruct body as [side ot q p tif stp]. cbn in Hq, Hb, Hlo, Hs.
  pose proof (exec_reserve w q Hf Hs) as Hr. cbv zeta in Hr.
  rewrite new_balance_ok in Hr by lia. rewrite as_u64_small in Hr by lia. specialize (Hr Hb).
  exists (mkReserveOk (next_tx_id (w_db w)) (balance_of (acc_id a) (journal (w_db w)))
    (NonZeroU64_new (as_u64 (balance_of (acc_id a) (journal (w_db w)) - q)))). split; [done|].
  unfold place_order. rewrite exec_bind, exec_state, Hst. cbn [bool_decide negb].
  rewrite bool_decide_true by done. cbn [negb]. rewrite exec_bind.
  assert (exec match side with
    | Buy => reserve_by_asset (H := before_0007) user q "USD"
    | Sell => reserve_by_asset (H := before_0007) user q (currency_of asset)
    end w = exec (reserve_by_asset (H := before_0007) user q (side_currency asset side)) w) as -> by by destruct side.
  rewrite Hr. cbn [mbind outcome_bind]. cbv zeta. rewrite exec_bind. unfold send. rewrite exec_atomically.
  cbn [w_open set_db]. rewrite Ho. done.
Qed.

(** What the books, the log and the client see of it. *)
Context `{Argon2, Hex, IpText, CookieText, SqlxText, Rfc3339, MapOrder, DistinctOrder, ChronoLaws, Jinja,
  BitcoinRpcClient} `{BuildProfile} {Log : Type} `{EventCodec Log}.

(** C33: an order goes its way, on the schema before migration 0007 (with it,
    no order is placed). A user with a session and the funds sends an order;
    nothing else happens meanwhile and no query fails; the engine, running with good books, takes it from the channel, and
    its INSERT succeeds. Then the book is the one the contract of a limit order
    book prescribes, the log has the order at its end, and the client learns
    what the book did: if the order was placed, the answer has its uuid and the
    account is lower by the quantity; if it was refused, the answer is 500, and
    the task that the handler leaves behind gives the account its balance back. *)
Theorem order_reaches_book n (e : Engine Log) w rq d name asset body env j
    (Hasset : asset_of_param name = Some asset)
    (Hready : order_ready w (side_currency asset (ta_side body)) (ta_quantity body))
    (Hrange : Forall session_in_range (session_tokens (w_tables w))) (Hsession : session_user w rq = Some user)
    (Hbody : in_range (PostTradeOrder name body))
    (Hinv : engine_inv n (assets e)) (Hn : 0 <= n < u32_max) (Hrun : running e = true)
    (Hj : place_to_value (order_of asset user body) = Some j) (Hins : env_insert env = Ok tt) :
  let cmd := Trade (CmdPlaceOrder (order_of asset user body)) in
  let sp := spec_place (ta_side body) (ta_order_type body) (policy_of (ta_time_in_force body))
              (ta_price body) (ta_quantity body) (abs_book (book_of (assets e) asset)) in
  let balance db := balance_of (acc_id a) (journal db) in
  exists e' r, handle_cmd e cmd env = Return (Continue e' (Some (PlaceReply r))) /\
    abs_book (book_of (assets e') asset) = sp.1 /\ event_source e' = event_source e ++ [j] /\
    verdict_of r = Some sp.2 /\
    (dr_placed d = Some r ->
     exists w1 resp task,
       exec (serve (H := before_0007) rq None d (PostTradeOrder name body)) w = (w1, Return (resp, task)) /\
       w_sent w1 = w_sent w ++ [cmd] /\ balance (w_db w1) = balance (w_db w) - ta_quantity body /\
       match r with
       | Ok _ => resp = order_placed (env_order_uuid env) /\ task = None
       | Err _ => status resp = INTERNAL_SERVER_ERROR /\
           exists t, task = Some t /\
             balance (w_db (exec (run_cleanup (H := before_0007) t) w1).1) = balance (w_db w)
       end).
Proof.
  intros cmd sp balance.
  destruct (do_place_order_post n (assets e) (order_of asset user body) (env_order_uuid env) (proj1 Hinv) Hn Hbody)
    as (as' & r & Hr & Hpost).
  exists (mkEngine (running e) as' (event_source e ++ [j])), r. split.
  { unfold handle_cmd, try_event_log, cmd. rewrite Hrun. cbn [negb]. rewrite Hj, Hr. cbn. by rewrite Hins. }
  destruct Hpost as (_ & Habs & Hv & _ & Hok & _). split; [exact Habs|]. split; [done|]. split; [exact Hv|].
  intros Hd. destruct (exec_place_order w asset body Hready) as (ro & Hid & Hplaced).
  pose proof (protected_by_session w rq Hrange) as Hp. rewrite Hsession in Hp.
  destruct (handler_settles_reservation (H0 := before_0007) (dr_placed d) internal_asset_list user name asset body w _ ro Hasset
    ltac:(by destruct asset) Hplaced) as (resp & task & He & Hres).
  exists (reserved_world w (side_currency asset (ta_side body)) (ta_quantity body) cmd), resp, task. split.
  { unfold serve. cbn [route]. rewrite (proj1 (Hp (or_faults _ _ _ Hready) _)). exact He. }
  split; [done|]. split; [exact (reserved_balance (or_setup _ _ _ Hready))|].
  rewrite Hd in Hres. destruct r as [res|err].
  - destruct Hres as [-> ->]. destruct (Hok res eq_refl) as (_ & Hu & _). by rewrite Hu.
  - destruct Hres as (Hstatus & t & -> & Ht). split; [done|]. exists t. split; [done|].
    rewrite Ht by exact (or_faults _ _ _ Hready). cbn [fst w_db set_db]. rewrite Hid.
    change (w_db (reserved_world _ _ _ _)) with
      (@reserved_db (w_db w) (side_currency asset (ta_side body)) a x (ta_quantity body)).
    destruct (revert_reserved (or_setup _ _ _ Hready)) as (db' & -> & Hbal). exact Hbal.
Qed.
End path.

(** ** A concrete order: placed, and as fill-or-kill refused *)

Section witnesses.
#[local] Existing Instances decimal_uuid_text decimal_uuid_text_laws plain_argon2 no_ips whole_seconds table_order.
#[local] Existing Instances demo_hex demo_cookie demo_sqlx demo_rfc3339 demo_map_order demo_jinja demo_node.
#[local] Existing Instances debug_profile.

Lemma demo_trader_ready :
  order_ready (user := 7%N) (a := demo_user) (x := demo_cash) demo_trader "USD" 40.
Proof. split; [done..|apply demo_setup; lia|by apply Z.leb_le]. Qed.


Lemma order_reaches_book_witness :
  (exists w1, exec (serve (H := before_0007) (demo_request "12") None (told (Ok demo_report)) (PostTradeOrder "btc" demo_order))
     demo_trader = (w1, Return (order_placed 11%N, None)) /\ balance_of 3 (journal (w_db w1)) = 60) /\
  (exists w1 resp t, exec (serve (H := before_0007) (demo_request "12") None (told (Err (PlaceOrderFailed FillOrKillFailed)))
     (PostTradeOrder "btc" demo_kill)) demo_trader = (w1, Return (resp, Some t)) /\
     balance_of 3 (journal (w_db (exec (run_cleanup (H := before_0007) t) w1).1)) = 100).
Proof.
  assert (in_range (PostTradeOrder "btc" demo_order)) as Hrange by (split; unfold_nz; cbn; lia).
  split.
  - destruct (order_reaches_book (H9 := whole_seconds_laws) (user := 7%N) (a := demo_user) (x := demo_cash) 0 demo_idle demo_trader
      (demo_request "12") (told (Ok demo_report)) "btc" Bitcoin demo_order demo_bid_env _ eq_refl demo_trader_ready
      demo_sessions_in_range eq_refl Hrange engine_inv_new ltac:(by unfold u32_max) eq_refl eq_refl eq_refl)
      as (e' & r & Hh & _ & _ & _ & Hend).
    assert (r = Ok demo_report) as -> by (vm_compute in Hh; injection Hh as _ <-; reflexivity).
    destruct (Hend eq_refl) as (w1 & resp & task & He & _ & Hb & -> & ->). exists w1. split; [exact He|exact Hb].
  - destruct (order_reaches_book (H9 := whole_seconds_laws) (user := 7%N) (a := demo_user) (x := demo_cash) 0 demo_idle demo_trader
      (demo_request "12") (told (Err (PlaceOrderFailed FillOrKillFailed))) "btc" Bitcoin demo_kill demo_bid_env _ eq_refl
      demo_trader_ready demo_sessions_in_range eq_refl Hrange engine_inv_new ltac:(by unfold u32_max) eq_refl eq_refl eq_refl)
      as (e' & r & Hh & _ & _ & _ & Hend).
    assert (r = Err (PlaceOrderFailed FillOrKillFailed)) as -> by (vm_compute in Hh; injection Hh as _ <-; reflexivity).
    destruct (Hend eq_refl) as (w1 & resp & task & He & _ & _ & _ & t & -> & Ht). exists w1, resp, t.
    split; [exact He|exact Ht].
Defined.
End witnesses.
